(* ===== verification/_CoqProject ===== *)
-Q . S2P
Prelude.v
Pack.v
RulesScan.v
RulesScanFacts.v
Types.v
World.v
DynLib.v
DynLibFacts.v
Sim.v
Intervention.v
InterventionFacts.v
Config.v
ConfigFacts.v
Waf.v
WafFacts.v
ChildFacts.v
Headers.v
HeadersFacts.v
Brigade.v
Phase1.v
Phase1Facts.v
BodyIn.v
BodyInFacts.v
FilterOut.v
FilterOutFacts.v
Hooks.v
Protocol.v
Lifecycle.v
Discipline.v
LazyBuild.v
DisciplineRequest.v
DisciplineResponse.v
LifecycleFacts.v
Threads.v
ThreadsFacts.v
