(* ===== verification/Prelude.v ===== *)
(** * Verification of the Coraza connector for Apache httpd

    The development models the C module under src/src: the module core
    (mod_coraza.c, mod_coraza.h), the fixups hook for phases 1 and 2
    (mod_coraza_phase1.c), the input filter that replays the request body
    (mod_coraza_body_in.c), the output filter for phases 3 and 4
    (mod_coraza_filter_out.c), the audit-log hook (mod_coraza_log.c) and the
    loader of libcoraza (mod_coraza_dl.c, dynlib.h).  Everything is executable:
    the concrete environment of [Sim] runs every handler.

    ** How the program works

    While httpd reads its configuration the directive handlers collect rules in
    arrays, one per directory section and one per server, and merging sections
    concatenates them.  In each child process libcoraza is loaded and a WAF is
    built for the rules of every server and directory record; sections merged at
    request time get a WAF lazily, through a cache.  For every request the fixups
    hook opens a transaction, hands the connection, the request line, the headers
    and the body to libcoraza, polls it for an intervention after each, and keeps
    a copy of the body, which the input filter replays to the handler.  The output
    filter hands over the response headers, holds the response until its body was
    inspected, and releases or refuses it.  An intervention is enforced as a
    status, a redirect or a dropped connection; the transaction is logged once
    and freed with the request.

    ** Representation

    A handler is a computation [M (world X) A] ([Prelude]): explicit state passing
    where [None] is undefined behaviour of the C program, so that a theorem that
    a handler returns [Some] says that no NULL is dereferenced and no NULL function
    pointer called.  A block that may [return] yields an [option], composed with
    [then_].  [wp] is the total-correctness weakest precondition, and [wp_step],
    [act_step] (in [World]) execute a handler symbolically.

    The state [world] ([World]) has the configuration store, the WAF cache and its
    mutex, the function-pointer table, the requests, the per-request contexts and
    the connection; pointers are keys into these stores, NULL is [None].  [trace]
    is a ghost log of the calls out of the module.  The code that is not in the
    repository is given by type classes, with an abstract state [X]: [Dynlib] (the
    dynamic loader), [Libcoraza] (every exported function; any result is possible),
    [Httpd] (APR and httpd), [Libc], [Pool] ([apr_palloc]), [ConfigFiles] and
    [AprStrings].  [BrigadeLaws] ([Brigade]) states the documented behaviour of the
    brigade functions that the theorems on bodies rely on.  [Sim] implements the
    classes; the witnesses are runs in it.

    Two models put the handlers together.  [Lifecycle] runs them the way httpd
    does, through what [Hooks] registers: a step relation over the requests of one
    connection, whose steps are a new request, its fixups, calls of the two filters,
    an internal redirect, a subrequest, a change of a record by another module, a
    merge of sections, the log hook and the end of the pool, in any order httpd can
    produce.  [Protocol] is the specification: an automaton of a libcoraza
    transaction.  The theorems say that no step is undefined, that every run keeps
    the protocol, and what follows from it (accounting, finality of a refusal,
    audit).  [Threads] cuts the lazy WAF build of [coraza_create_ctx] at its shared
    accesses and interleaves any number of worker threads.

    ** The files

    - [Prelude]: machine integers, bytes, the monad, [wp], fresh keys, tactics.
    - [Pack]: [coraza_pack_headers] (mod_coraza.c), with [size_t] arithmetic and the
      write cursor; bounds, exact failure condition and round trip.
    - [RulesScan], [RulesScanFacts]: the scan for unsupported directives
      (coraza_rules_scan*, coraza_check_rules_text/_file), whose accesses to its
      32-byte array are undefined outside it: no access is, the scan is the
      line-by-line assembly of records (for NUL-free text; the documented one when no
      line has a blank after its backslash), and chunking does not matter.
    - [Types], [World]: data model, state, interfaces.
    - [DynLib], [DynLibFacts]: mod_coraza_dl.c: the load succeeds exactly under its
      conditions; afterwards every wrapper reaches its own function.
    - [Sim]: the concrete environment.
    - [Intervention], [InterventionFacts]: coraza_process_intervention, the redirect
      target, coraza_drop_connection, coraza_log_transaction, the pool cleanup.
    - [Config], [ConfigFacts]: directive handlers and table, record creation and
      merge, coraza_check_config.  The merge refines an abstract override of
      policies.
    - [Waf], [WafFacts], [ChildFacts]: rules hash, cache, coraza_build_waf,
      coraza_create_ctx, coraza_child_init, coraza_child_exit: which WAF a request
      runs and which rules a WAF was built from (read off the log), that a child
      starts with a WAF for every server, and that each handle is freed once.
    - [Headers], [HeadersFacts]: the header loops that phases 1 and 3 share.
    - [Brigade]: contents of brigades and the laws of the functions on them.
    - [Phase1], [Phase1Facts]: the fixups hook fails closed; what it saves of the
      body is what was read and inspected.
    - [BodyIn], [BodyInFacts]: the input filter refines reading from a stream of
      items ([stream_read]); conservation, and complete delivery.
    - [FilterOut], [FilterOutFacts]: one call of the output filter on every path
      ([response_step]; a refusal has a [verdict], the log up to it and an [ending]);
      over whole responses, nothing is sent before the verdict
      and what is sent is what was given ([gated]).
    - [Hooks]: coraza_register_hooks, the module record, and httpd's side of them
      (running hooks, finding a filter by name, merging server records).
    - [Protocol]: the automaton of a transaction, and what its states say of a log.
    - [Lifecycle]: the step relation of httpd on the handlers, the states it starts
      from ([sane]) and the lives it reaches ([reachable]).
    - [Discipline], [LazyBuild], [DisciplineRequest], [DisciplineResponse]: the
      invariant of a client request ([household], [running]) through each handler.
    - [LifecycleFacts]: the invariant over whole lives, and its consequences.
    - [Threads], [ThreadsFacts]: the interleavings of the lazy build: mutual
      exclusion, where the WAF of every request comes from, no deadlock, and
      agreement with the sequential function.

    ** Bounds and fuel

    The walk back through [r->prev] takes the number of requests as fuel; a chain
    of requests has no repetition, so it is never used up
    ([Phase1Facts.prev_path_length], [LifecycleFacts.prev_walk_terminates]).  A
    thread needs at most 7 turns ([ThreadsFacts.lazy_build_terminates]).  All other recursions are structural.
    [size_t] sums wrap at 2^64 in [Pack] and in the delay counter, the scanner's
    line numbers at 2^32, the rules hash at its width.

    ** Modelling notes

    - [apr_pcalloc], [apr_palloc] and [apr_brigade_create] do not return NULL (httpd
      aborts on exhaustion); log messages carry no arguments.
    - A request body is the sequence of chunks that [ap_get_client_block] delivers,
      then its end or an error.  A bucket that a read would split is represented by
      the pieces.
    - [ap_die] may change the request and the environment, but not the slots of the
      module in it ([DieLaws]); the handlers of this module that its error page
      re-enters are not run inside it, but as later steps of the same life (they
      find [intervention_triggered] set and pass the page through).
    - [Lifecycle] follows one client request at a time; what requests served at the
      same time share is the configuration, the WAF cache and the mutex, and only
      [coraza_create_ctx] writes these (a merge at request time makes a record of its
      own and reads a handle): [Threads] models that, in sections that exist, each
      read or write of a section's handle being atomic.  A step of [Threads] under the
      mutex is one strategy of the function: what other threads can see of it is
      one store to the section they read.
    - A WAF handle travels along merges: a record takes the one of the record it was
      merged from, and a WAF built for a merged record is stored in that record too.
      The theorems on handles therefore say which record a handle comes from
      ([WafFacts.resolution], [ThreadsFacts.family]) and assume nothing of the handles
      already stored; [WafFacts.merge_child_crosses_policies] is a run in which a
      request gets the WAF of other rules that way.
    - The server on which [coraza_config_enabled_where] found Coraza on is only part
      of a message.

    ** Not modelled

    The Windows variants of dynlib.h, the tests, the packaging and the container
    files; httpd's own configuration walk, of which [Config] has the merges; the
    failure branches of [apr_pcalloc], which never returns NULL. *)

From Stdlib Require Export ZArith Lia Ascii.
From Stdlib Require String.
From stdpp Require Export base tactics option list strings gmap numbers functions.

(** ** Machine integers

    [size_t], [unsigned], [unsigned long] and [int] values are [Z]; the
    operations that can wrap go through these. *)
Definition INT_MAX : Z := 2147483647.
Definition wrap32 (z : Z) : Z := z mod 2 ^ 32.
Definition wrap64 (z : Z) : Z := z mod 2 ^ 64.

Lemma wrap32_range z : (0 ≤ wrap32 z < 2 ^ 32)%Z.
Proof. unfold wrap32. apply Z.mod_pos_bound. lia. Qed.

Lemma wrap64_range z : (0 ≤ wrap64 z < 2 ^ 64)%Z.
Proof. unfold wrap64. apply Z.mod_pos_bound. lia. Qed.

Lemma wrap64_small z : (0 ≤ z < 2 ^ 64)%Z → wrap64 z = z.
Proof. intros. unfold wrap64. by apply Z.mod_small. Qed.

Lemma wrap32_small z : (0 ≤ z < 2 ^ 32)%Z → wrap32 z = z.
Proof. intros. unfold wrap32. by apply Z.mod_small. Qed.

(** ** Bytes and C strings

    A C string is a [string] (the bytes before its NUL); a byte buffer is a
    [list ascii]. *)
Abbreviation bytes := (list ascii).
Definition bytes_of (s : string) : bytes := String.list_ascii_of_string s.
Definition strlen (s : string) : Z := Z.of_nat (String.length s).

(** [(unsigned char)c] and [(char)z]. *)
Definition uchar (c : ascii) : Z := Z.of_N (N_of_ascii c).
Definition chr (z : Z) : ascii := ascii_of_N (Z.to_N (z mod 256)).

Lemma uchar_range c : (0 ≤ uchar c < 256)%Z.
Proof. unfold uchar. pose proof (N_ascii_bounded c). lia. Qed.

Lemma uchar_chr z : uchar (chr z) = (z mod 256)%Z.
Proof.
  unfold uchar, chr. pose proof (Z.mod_pos_bound z 256 eq_refl).
  rewrite N_ascii_embedding by lia. lia.
Qed.

Lemma chr_uchar c : chr (uchar c) = c.
Proof.
  unfold uchar, chr. pose proof (N_ascii_bounded c).
  rewrite Z.mod_small by lia. rewrite N2Z.id. apply ascii_N_embedding.
Qed.

Lemma length_bytes_of s : length (bytes_of s) = String.length s.
Proof. unfold bytes_of. induction s as [|c s IH]; simpl; [done|]. by rewrite IH. Qed.

Lemma bytes_of_inj s1 s2 : bytes_of s1 = bytes_of s2 → s1 = s2.
Proof.
  intros H. rewrite <- (String.string_of_list_ascii_of_string s1).
  rewrite <- (String.string_of_list_ascii_of_string s2). by unfold bytes_of in H; rewrite H.
Qed.

(** [tolower] in the C locale. *)
Definition tolower (c : ascii) : ascii :=
  if decide (65 ≤ uchar c ≤ 90)%Z then chr (uchar c + 32) else c.

(** ** The effect monad

    [M S A]: a computation over the state [S] that returns an [A]; [None] is
    undefined behaviour of the C program (a NULL dereference, a call through a
    NULL function pointer).  Binding and returning are stdpp's [≫=] and
    [mret], so handlers are written with [x ← m; k] and [m ;; k]. *)
Definition M (S A : Type) : Type := S → option (A * S).

#[export] Instance M_ret S : MRet (M S) := λ A a s, Some (a, s).
#[export] Instance M_bind S : MBind (M S) :=
  λ A B f m s, match m s with Some (a, s') => f a s' | None => None end.

Definition undefined {S A} : M S A := λ _, None.
Definition gets {S A} (f : S → A) : M S A := λ s, Some (f s, s).
Definition modify {S} (f : S → S) : M S unit := λ s, Some (tt, f s).

(** Dereference: the pointed-to object, or undefined behaviour. *)
Definition deref {S A} (f : S → option A) : M S A :=
  λ s, match f s with Some a => Some (a, s) | None => None end.

(** A pure computation that may be undefined. *)
Definition defined {S A} (o : option A) : M S A := deref (λ _, o).

Definition when {S} (b : bool) (m : M S unit) : M S unit := if b then m else mret tt.

(** A block of a C function that may [return] early: [Some rc] leaves the
    function with [rc], [None] falls through to the code that follows. *)
Definition then_ {S R} (m : M S (option R)) (k : M S R) : M S R :=
  r ← m; match r with Some rc => mret rc | None => k end.

(** Total-correctness weakest precondition. *)
Definition wp {S A} (m : M S A) (Q : A → S → Prop) (s : S) : Prop :=
  match m s with Some (a, s') => Q a s' | None => False end.

Lemma wp_ret {S A} (a : A) (Q : A → S → Prop) s : Q a s → wp (mret a) Q s.
Proof. done. Qed.

Lemma wp_bind {S A B} (m : M S A) (f : A → M S B) Q s :
  wp m (λ a s', wp (f a) Q s') s → wp (m ≫= f) Q s.
Proof. unfold wp, mbind, M_bind. by destruct (m s) as [[a s']|]. Qed.

Lemma wp_mono {S A} (m : M S A) (P Q : A → S → Prop) s :
  wp m P s → (∀ a s', P a s' → Q a s') → wp m Q s.
Proof. unfold wp. destruct (m s) as [[a s']|]; eauto. Qed.

Lemma wp_and {S A} (m : M S A) (P Q : A → S → Prop) s :
  wp m P s → wp m Q s → wp m (λ a s', P a s' ∧ Q a s') s.
Proof. unfold wp. by destruct (m s) as [[a s']|]. Qed.

Lemma wp_gets {S A} (f : S → A) (Q : A → S → Prop) s : Q (f s) s → wp (gets f) Q s.
Proof. done. Qed.

Lemma wp_modify {S} (f : S → S) (Q : unit → S → Prop) s : Q tt (f s) → wp (modify f) Q s.
Proof. done. Qed.

Lemma wp_deref {S A} (f : S → option A) (Q : A → S → Prop) s a :
  f s = Some a → Q a s → wp (deref f) Q s.
Proof. unfold wp, deref. by intros ->. Qed.

Lemma wp_defined {S A} (o : option A) (Q : A → S → Prop) s a :
  o = Some a → Q a s → wp (defined o) Q s.
Proof. apply (wp_deref (λ _, o)). Qed.

Lemma wp_when {S} (b : bool) (m : M S unit) Q s :
  (b = true → wp m Q s) → (b = false → Q tt s) → wp (when b m) Q s.
Proof. unfold when. destruct b; auto using wp_ret. Qed.

Lemma wp_then {S R} (m : M S (option R)) (k : M S R) Q s :
  wp m (λ r s', match r with Some rc => Q rc s' | None => wp k Q s' end) s →
  wp (then_ m k) Q s.
Proof.
  intros H. apply wp_bind. eapply wp_mono; [exact H|]. by intros [rc|] s' H'.
Qed.

Lemma wp_det {S A} (m : M S A) (Q : A → S → Prop) s :
  wp m Q s ↔ ∃ a s', m s = Some (a, s') ∧ Q a s'.
Proof.
  unfold wp. destruct (m s) as [[a s']|]; split.
  - eauto.
  - intros (a0 & s0 & [= <- <-] & ?). done.
  - done.
  - by intros (? & ? & ? & ?).
Qed.

Lemma wp_returns {S A} (m : M S A) (v : A) (Q : S → Prop) s :
  wp m (λ a s', a = v ∧ Q s') s → ∃ s', m s = Some (v, s') ∧ Q s'.
Proof. intros (a & s' & E & -> & H)%wp_det. eauto. Qed.

Lemma wp_run {S A} (m : M S A) (Q : A → S → Prop) s a s' :
  wp m Q s → m s = Some (a, s') → Q a s'.
Proof. unfold wp. intros H E. by rewrite E in H. Qed.

(** One step of symbolic execution of a monadic goal. *)
Ltac wp_step :=
  lazymatch goal with
  | |- wp (mret _) _ _ => apply wp_ret
  | |- wp (_ ≫= _) _ _ => apply wp_bind
  | |- wp (then_ _ _) _ _ => apply wp_then
  | |- wp (gets _) _ _ => apply wp_gets
  | |- wp (modify _) _ _ => apply wp_modify
  | |- wp (when _ _) _ _ => apply wp_when; intros ?
  | |- wp (deref _) _ _ => eapply wp_deref; [eassumption|]
  | |- wp (if ?b then _ else _) _ _ => destruct b eqn:?
  | |- wp (match ?x with _ => _ end) _ _ => destruct x eqn:?
  end.
Ltac wp_steps := repeat (wp_step; simpl).

(** Case analysis on the first [bool_decide] of the goal (the hypotheses are
    left alone). *)
Tactic Notation "case_goal" "as" ident(H) :=
  match goal with
  | |- context [bool_decide ?P] => destruct (bool_decide_reflect P) as [H|H]
  end.

Create HintDb coraza.

(** ** Allocation

    An address above every key of a store is fresh. *)
Definition next_key {A} (m : gmap nat A) : nat := map_fold (λ k _ n, Nat.max (S k) n) 0%nat m.

Lemma next_key_above {A} (m : gmap nat A) k x : m !! k = Some x → (k < next_key m)%nat.
Proof.
  unfold next_key. revert k x.
  apply (map_fold_weak_ind (λ n m, ∀ k x, m !! k = Some x → (k < n)%nat)).
  - intros k x H. by rewrite lookup_empty in H.
  - intros i y m' n Hi IH k x H. destruct (decide (i = k)) as [->|Hne]; [lia|].
    rewrite lookup_insert_ne in H by done. apply IH in H. lia.
Qed.

Lemma next_key_fresh {A} (m : gmap nat A) : m !! next_key m = None.
Proof.
  destruct (m !! next_key m) eqn:E; [|done]. apply next_key_above in E. lia.
Qed.

#[export] Hint Resolve next_key_fresh : coraza.
