(* ===== verification/Pack.v ===== *)
(** * Bulk header packing

    [coraza_pack_headers] of src/mod_coraza.c: the size pass with its [size_t]
    guards and the write pass through the cursor [q] into the allocated
    buffer.  The wire format is specified independently by [encode_all] and
    the reader [unpack]. *)
From S2P Require Import Prelude.
Local Open Scope Z_scope.

(** [coraza_header_pair_t]: two pointers with their lengths.  [hp_name] and
    [hp_value] are the bytes readable at the pointers. *)
Record coraza_header_pair_t := HeaderPair {
  hp_name : bytes; name_len : Z;
  hp_value : bytes; value_len : Z }.

Section pack.
  (** [apr_palloc]: the (uninitialised) block it returns. *)
Context (apr_palloc : Z → bytes).

  (** The first loop: the total, or the pack failure ([return NULL]). *)
Fixpoint pack_total (pairs : list coraza_header_pair_t) (total : Z) : option Z :=
    match pairs with
    | [] => Some total
    | p :: rest =>
        let nlen := name_len p in
        let vlen := value_len p in
        if bool_decide (nlen > 0xffff ∨ vlen > INT_MAX) then None
        else if bool_decide (total > wrap64 (INT_MAX - 6)
                ∨ nlen > wrap64 (wrap64 (INT_MAX - 6) - total)
                ∨ vlen > wrap64 (wrap64 (wrap64 (INT_MAX - 6) - total) - nlen))
        then None
        else pack_total rest (wrap64 (total + wrap64 (wrap64 (6 + nlen) + vlen)))
    end.

  (** The write cursor: the buffer and the offset of [q] in it. *)
Abbreviation cursor := (bytes * nat)%type.

  (** [*q++ = c]; undefined outside the buffer. *)
Definition put (c : ascii) : M cursor unit := λ '(buf, q),
    if decide (q < length buf)%nat then Some (tt, (<[q := c]> buf, S q)) else None.

  (** [memcpy(q, src, n); q += n]; undefined when the source is shorter or the
      destination overflows. *)
Definition copy (src : bytes) (n : nat) : M cursor unit := λ '(buf, q),
    if decide (n ≤ length src ∧ q + n ≤ length buf)%nat
    then Some (tt, (take q buf ++ take n src ++ drop (q + n) buf, (q + n)%nat))
    else None.

Definition write_pair (p : coraza_header_pair_t) : M cursor unit :=
    let nlen := name_len p in
    let vlen := value_len p in
    put (chr (Z.land (Z.shiftr nlen 8) 0xff)) ;;
    put (chr (Z.land nlen 0xff)) ;;
    when (bool_decide (nlen ≠ 0)) (copy (hp_name p) (Z.to_nat nlen)) ;;
    put (chr (Z.land (Z.shiftr vlen 24) 0xff)) ;;
    put (chr (Z.land (Z.shiftr vlen 16) 0xff)) ;;
    put (chr (Z.land (Z.shiftr vlen 8) 0xff)) ;;
    put (chr (Z.land vlen 0xff)) ;;
    when (bool_decide (vlen ≠ 0)) (copy (hp_value p) (Z.to_nat vlen)).

  (** The second loop. *)
Fixpoint write_pairs (pairs : list coraza_header_pair_t) : M cursor unit :=
    match pairs with
    | [] => mret tt
    | p :: rest => write_pair p ;; write_pairs rest
    end.

  (** [coraza_pack_headers]: outer [None] is undefined behaviour, [Some None]
      the NULL result, [Some (Some (buf, packed_len))] the packed block.  The
      array [pairs] has [count] entries. *)
Definition coraza_pack_headers (pairs : list coraza_header_pair_t)
    : option (option (bytes * Z)) :=
    match pack_total pairs 0 with
    | None => Some None
    | Some total =>
        if decide (total = 0) then Some None
        else
          '(_, (buf, _)) ← write_pairs pairs (apr_palloc total, 0%nat);
          Some (Some (buf, total))
    end.
End pack.

(** ** The wire format *)

(** A pair as every caller builds it: the lengths are those of the bytes, as
    [size_t] values. *)
Definition pair_wf (p : coraza_header_pair_t) : Prop :=
  name_len p = Z.of_nat (length (hp_name p))
  ∧ value_len p = Z.of_nat (length (hp_value p))
  ∧ name_len p < 2 ^ 63 ∧ value_len p < 2 ^ 63.

Definition be16 (n : Z) : bytes := [chr (n / 2 ^ 8); chr n].
Definition be32 (n : Z) : bytes := [chr (n / 2 ^ 24); chr (n / 2 ^ 16); chr (n / 2 ^ 8); chr n].

Definition encode (p : coraza_header_pair_t) : bytes :=
  be16 (name_len p) ++ hp_name p ++ be32 (value_len p) ++ hp_value p.
Definition encode_all (pairs : list coraza_header_pair_t) : bytes := pairs ≫= encode.

Definition pair_size (p : coraza_header_pair_t) : Z := 6 + name_len p + value_len p.
Fixpoint total_size (pairs : list coraza_header_pair_t) : Z :=
  match pairs with [] => 0 | p :: rest => pair_size p + total_size rest end.

(** What the format can carry. *)
Definition packable (pairs : list coraza_header_pair_t) : Prop :=
  pairs ≠ [] ∧ Forall (λ p, name_len p ≤ 0xffff) pairs ∧ total_size pairs ≤ INT_MAX.

#[export] Instance packable_dec pairs : Decision (packable pairs).
Proof. unfold packable. apply _. Defined.

(** The reader of the documented format: [count] entries of u16 length, name,
    u32 length, value, with nothing left over. *)
Definition un16 (b : bytes) : option (Z * bytes) :=
  match b with
  | a :: c :: r => Some (uchar a * 256 + uchar c, r)
  | _ => None
  end.
Definition un32 (b : bytes) : option (Z * bytes) :=
  match b with
  | a :: c :: d :: e :: r =>
      Some (uchar a * 2 ^ 24 + uchar c * 2 ^ 16 + uchar d * 2 ^ 8 + uchar e, r)
  | _ => None
  end.
Definition chunk (n : Z) (b : bytes) : option (bytes * bytes) :=
  if decide (n ≤ Z.of_nat (length b)) then Some (take (Z.to_nat n) b, drop (Z.to_nat n) b)
  else None.
Fixpoint unpack (count : nat) (b : bytes) : option (list (bytes * bytes)) :=
  match count with
  | O => match b with [] => Some [] | _ => None end
  | S k =>
      '(nl, b) ← un16 b; '(name, b) ← chunk nl b;
      '(vl, b) ← un32 b; '(value, b) ← chunk vl b;
      rest ← unpack k b; Some ((name, value) :: rest)
  end.

(** ** The size pass *)

Lemma total_size_nonneg pairs : Forall pair_wf pairs → 0 ≤ total_size pairs.
Proof.
  induction 1 as [|p pairs (?&?&?&?) _ IH]; simpl; [done|]. unfold pair_size. lia.
Qed.

Lemma length_encode p : pair_wf p → Z.of_nat (length (encode p)) = pair_size p.
Proof.
  intros (?&?&_&_). unfold encode, be16, be32, pair_size.
  rewrite !length_app. simpl. lia.
Qed.

Lemma length_encode_all pairs :
  Forall pair_wf pairs → Z.of_nat (length (encode_all pairs)) = total_size pairs.
Proof.
  unfold encode_all. induction 1 as [|p pairs Hp _ IH]; [done|].
  rewrite bind_cons, length_app, Nat2Z.inj_add, IH, length_encode; done.
Qed.

(** The guards with every [size_t] wrap-around removed: the total is exact
    and a pair is refused exactly when it does not fit. *)
Lemma pack_total_spec pairs : ∀ total,
  Forall pair_wf pairs → 0 ≤ total ≤ INT_MAX →
  pack_total pairs total =
    if decide (Forall (λ p, name_len p ≤ 0xffff) pairs ∧ total + total_size pairs ≤ INT_MAX)
    then Some (total + total_size pairs) else None.
Proof.
  induction pairs as [|p pairs IH]; intros total Hwf Ht.
  { simpl. rewrite decide_True; [f_equal; lia|]. split; [constructor|simpl; lia]. }
  apply list.Forall_cons in Hwf as [(Hn&Hv&Hn'&Hv') Hwf].
  pose proof (total_size_nonneg _ Hwf) as Hnn.
  assert (total_size (p :: pairs) = pair_size p + total_size pairs) as Hts by done.
  unfold pair_size in Hts. unfold INT_MAX in *. cbn [pack_total].
  case_bool_decide as H1.
  { unfold INT_MAX in *. rewrite decide_False; [done|].
    intros [[Hf _]%list.Forall_cons Hle]. lia. }
  unfold INT_MAX in *. rewrite (wrap64_small (2147483647 - 6)) by lia.
  case_bool_decide as H2.
  { rewrite decide_False; [done|]. intros [[Hf _]%list.Forall_cons Hle].
    rewrite (wrap64_small (_ - total)) in H2 by lia.
    rewrite (wrap64_small (_ - name_len p)) in H2 by lia. lia. }
  assert (total <= 2147483641) by lia.
  rewrite (wrap64_small (_ - total)) in H2 by lia.
  assert (name_len p <= 2147483641 - total) by lia.
  rewrite (wrap64_small (_ - name_len p)) in H2 by lia.
  rewrite (wrap64_small (6 + _)), (wrap64_small (6 + _ + _)), (wrap64_small (total + _)) by lia.
  rewrite IH by (done || unfold INT_MAX; lia).
  unfold INT_MAX.
  case_decide as H3; case_decide as H4; rewrite list.Forall_cons in H4; rewrite ?Hts in *.
  - f_equal. lia.
  - destruct H4. repeat split; [lia|tauto|lia].
  - destruct H3. split; [tauto|lia].
  - done.
Qed.

(** ** The write pass *)

(** Writing [bs] at the cursor: what [put] and [copy] do when there is room. *)
Definition written (bs : bytes) (c : bytes * nat) : bytes * nat :=
  (take c.2 c.1 ++ bs ++ drop (c.2 + length bs) c.1, (c.2 + length bs)%nat).
Definition writes (m : M (bytes * nat) unit) (bs : bytes) : Prop :=
  ∀ c, (c.2 + length bs ≤ length c.1)%nat → m c = Some (tt, written bs c).

Lemma written_app bs1 bs2 c :
  (c.2 + length bs1 + length bs2 ≤ length c.1)%nat →
  written bs2 (written bs1 c) = written (bs1 ++ bs2) c.
Proof.
  destruct c as [buf q]. unfold written; simpl. intros Hl.
  rewrite length_app. f_equal; [|lia].
  rewrite !app_assoc. rewrite take_app_length' by (rewrite length_app, length_take; lia).
  f_equal. rewrite drop_app_ge by (rewrite length_app, length_take; lia).
  rewrite drop_drop. f_equal. rewrite length_app, length_take. lia.
Qed.

Lemma writes_seq m1 m2 bs1 bs2 :
  writes m1 bs1 → writes m2 bs2 → writes (m1 ;; m2) (bs1 ++ bs2).
Proof.
  intros H1 H2 [buf q] Hl. rewrite length_app in Hl. simpl in Hl.
  unfold mbind, M_bind. rewrite H1 by (simpl; lia). rewrite H2.
  - rewrite written_app; [done|simpl; lia].
  - unfold written; simpl. rewrite !length_app, length_take, length_drop. lia.
Qed.

Lemma writes_nil : writes (mret tt) [].
Proof.
  intros [buf q] _. unfold written; simpl. unfold mret, M_ret.
  by rewrite Nat.add_0_r, take_drop.
Qed.

Lemma writes_put c : writes (put c) [c].
Proof.
  intros [buf q] Hl. simpl in *. unfold put. rewrite decide_True by lia.
  unfold written; simpl. do 2 f_equal.
  rewrite insert_take_drop by lia. by rewrite Nat.add_1_r.
Qed.

Lemma writes_copy src (n : nat) : n = length src → writes (copy src n) src.
Proof.
  intros -> [buf q] Hl. simpl in *. unfold copy. rewrite decide_True by lia.
  unfold written; simpl. by rewrite (take_ge src) by lia.
Qed.

Lemma writes_copy_len src len :
  len = Z.of_nat (length src) →
  writes (when (bool_decide (len ≠ 0)) (copy src (Z.to_nat len))) src.
Proof.
  intros ->. case_bool_decide as H; simpl.
  - apply writes_copy. lia.
  - assert (src = []) as -> by (apply nil_length_inv; lia). apply writes_nil.
Qed.

(** The byte stored for a shift: [(x >> k) & 0xff]. *)
Lemma chr_shift n k : 0 ≤ k → chr (Z.land (Z.shiftr n k) 0xff) = chr (n / 2 ^ k).
Proof.
  intros Hk. rewrite Z.shiftr_div_pow2 by done.
  change 255 with (Z.ones 8). rewrite Z.land_ones by lia.
  unfold chr. by rewrite Z.mod_mod by lia.
Qed.

Lemma chr_low n : chr (Z.land n 0xff) = chr n.
Proof.
  change 255 with (Z.ones 8). rewrite Z.land_ones by lia.
  unfold chr. by rewrite Z.mod_mod by lia.
Qed.

Lemma writes_pair p : pair_wf p → writes (write_pair p) (encode p).
Proof.
  intros (Hn&Hv&_&_). unfold write_pair, encode, be16, be32. rewrite !chr_shift, !chr_low by lia.
  change (writes ?m ((?a :: [?b]) ++ ?r)) with (writes m ([a] ++ [b] ++ r)).
  apply writes_seq; [apply writes_put|]. apply writes_seq; [apply writes_put|].
  apply writes_seq; [by apply writes_copy_len|].
  change (writes ?m ((?a :: ?b :: ?c :: [?d]) ++ ?r))
    with (writes m ([a] ++ [b] ++ [c] ++ [d] ++ r)).
  do 4 (apply writes_seq; [apply writes_put|]).
  by apply writes_copy_len.
Qed.

Lemma writes_pairs pairs : Forall pair_wf pairs → writes (write_pairs pairs) (encode_all pairs).
Proof.
  induction 1 as [|p pairs Hp _ IH]; [apply writes_nil|].
  unfold encode_all. rewrite bind_cons. cbn [write_pairs].
  by apply writes_seq; [apply writes_pair|].
Qed.

(** ** What [coraza_pack_headers] returns *)

Section pack_results.
Context (apr_palloc : Z → bytes).
Context (apr_palloc_size : ∀ n, 0 ≤ n → Z.of_nat (length (apr_palloc n)) = n).

Lemma pack_headers_run pairs :
    Forall pair_wf pairs →
    coraza_pack_headers apr_palloc pairs =
      Some (if decide (packable pairs) then Some (encode_all pairs, total_size pairs) else None).
  Proof using apr_palloc_size.
    intros Hwf. unfold coraza_pack_headers, packable.
    pose proof (total_size_nonneg _ Hwf) as Hnn.
    rewrite pack_total_spec by (unfold INT_MAX; done || lia).
    case_decide as H1; [|rewrite decide_False by (intros (?&?&?); apply H1; split; [done|lia]); done].
    destruct pairs as [|p pairs].
    { rewrite decide_True by done. rewrite decide_False; [done|]. by intros []. }
    assert (0 < total_size (p :: pairs)).
    { apply Forall_cons_1 in Hwf as [(?&?&?&?) Hwf]. pose proof (total_size_nonneg _ Hwf).
      simpl. unfold pair_size. lia. }
    rewrite decide_False by lia. rewrite decide_True by (split_and!; [done|tauto|lia]).
    pose proof (length_encode_all _ Hwf) as Hlen.
    rewrite Z.add_0_l. pose proof (apr_palloc_size _ Hnn) as Hal.
    rewrite (writes_pairs _ Hwf) by (cbn [fst snd]; lia). unfold written. cbn [fst snd mbind option_bind].
    rewrite drop_ge by lia. by rewrite app_nil_r.
  Qed.
End pack_results.

(** ** The format round-trips *)

Lemma un16_be16 n b : 0 ≤ n ≤ 0xffff → un16 (be16 n ++ b) = Some (n, b).
Proof.
  intros H. unfold un16, be16. simpl. rewrite !uchar_chr. do 2 f_equal.
  change (2 ^ 8) with 256.
  rewrite (Z.mod_small (n / 256)); [rewrite Z.mul_comm; symmetry; apply Z.div_mod; lia|].
  split; [apply Z.div_pos; lia|]. apply Z.div_lt_upper_bound; lia.
Qed.

Lemma un32_be32 n b : 0 ≤ n < 2 ^ 32 → un32 (be32 n ++ b) = Some (n, b).
Proof.
  intros H. unfold un32, be32. simpl. rewrite !uchar_chr. do 2 f_equal.
  change (n `div` 2 ^ 24) with (n `div` (2 ^ 16 * 256)).
  change (n `div` 2 ^ 16) with (n `div` (2 ^ 8 * 256)).
  change (2 ^ 8) with 256. change (2 ^ 16) with (256 * 256).
  rewrite <- !Z.div_div by lia.
  pose proof (Z.div_mod n 256 ltac:(lia)).
  pose proof (Z.div_mod (n / 256) 256 ltac:(lia)).
  pose proof (Z.div_mod (n / 256 / 256) 256 ltac:(lia)).
  rewrite (Z.mod_small (n / 256 / 256 / 256)); [lia|].
  split; [apply Z.div_pos; [|lia]; apply Z.div_pos; [|lia]; apply Z.div_pos; lia|].
  do 3 (apply Z.div_lt_upper_bound; [lia|]). lia.
Qed.

Lemma chunk_app n s b : n = Z.of_nat (length s) → chunk n (s ++ b) = Some (s, b).
Proof.
  intros ->. unfold chunk. rewrite length_app, decide_True by lia.
  by rewrite Nat2Z.id, take_app_length, drop_app_length.
Qed.

Definition pair_bytes (p : coraza_header_pair_t) : bytes * bytes := (hp_name p, hp_value p).

Lemma unpack_encode_all pairs :
  Forall pair_wf pairs → Forall (λ p, name_len p ≤ 0xffff ∧ value_len p < 2 ^ 32) pairs →
  unpack (length pairs) (encode_all pairs) = Some (pair_bytes <$> pairs).
Proof.
  induction 1 as [|p pairs (Hn&Hv&_&_) _ IH]; [done|]. intros [[Hf Hf'] Hfs]%Forall_cons_1.
  unfold encode_all in *. rewrite bind_cons. unfold encode at 1. rewrite <- !app_assoc. cbn [unpack length].
  rewrite un16_be16 by lia. cbn [mbind option_bind]. rewrite chunk_app by done.
  cbn [mbind option_bind]. rewrite un32_be32 by lia. cbn [mbind option_bind].
  rewrite chunk_app by done. cbn [mbind option_bind].
  by rewrite IH.
Qed.

(** ** Properties *)

(** C26: for headers built the way both callers build them, packing never
    leaves the allocated block (no [*q++] or [memcpy] outside it), returns NULL
    exactly when the set is empty, a name exceeds 65535 bytes or the packed
    size exceeds [INT_MAX], and otherwise returns the documented encoding with
    [packed_len] its exact length -- whatever bytes [apr_palloc] returned. *)
Theorem pack_headers_spec (apr_palloc : Z → bytes) pairs :
  (∀ n, 0 ≤ n → Z.of_nat (length (apr_palloc n)) = n) →
  Forall pair_wf pairs →
  coraza_pack_headers apr_palloc pairs =
    Some (if decide (pairs ≠ [] ∧ Forall (λ p, name_len p ≤ 0xffff) pairs
                     ∧ total_size pairs ≤ INT_MAX)
          then Some (encode_all pairs, total_size pairs) else None)
  ∧ Z.of_nat (length (encode_all pairs)) = total_size pairs.
Proof.
  intros Hal Hwf. split; [by apply pack_headers_run|by apply length_encode_all].
Qed.

(** C24: a packed block decodes, under the wire format libcoraza documents, to
    exactly the names and values submitted, in order and with nothing left
    over; no header is lost or altered by the bulk path. *)
Theorem pack_headers_roundtrip (apr_palloc : Z → bytes) pairs buf packed_len :
  (∀ n, 0 ≤ n → Z.of_nat (length (apr_palloc n)) = n) →
  Forall pair_wf pairs →
  coraza_pack_headers apr_palloc pairs = Some (Some (buf, packed_len)) →
  unpack (length pairs) buf = Some (pair_bytes <$> pairs)
  ∧ packed_len = Z.of_nat (length buf) ∧ 0 < packed_len ≤ INT_MAX.
Proof.
  intros Hal Hwf. rewrite pack_headers_run by done.
  case_decide as Hp; [|done]. intros [= <- <-].
  destruct Hp as (Hne & Hnames & Htot). rewrite length_encode_all by done.
  split; [|split; [done|]].
  - apply unpack_encode_all; [done|]. clear Hne. induction Hnames as [|p pairs' Hp' _ IH]; [done|].
    apply Forall_cons_1 in Hwf as [(?&?&?&?) Hwf].
    pose proof (total_size_nonneg _ Hwf). simpl in Htot. unfold pair_size, INT_MAX in *.
    constructor; [lia|]. apply IH; [done|lia].
  - destruct pairs as [|p pairs]; [done|]. apply Forall_cons_1 in Hwf as [(?&?&?&?) Hwf].
    pose proof (total_size_nonneg _ Hwf). simpl in *. unfold pair_size in *. lia.
Qed.

(** Concrete headers for the witnesses. *)
Definition mk_pair (n v : string) : coraza_header_pair_t :=
  HeaderPair (bytes_of n) (strlen n) (bytes_of v) (strlen v).
Definition zeroed (n : Z) : bytes := replicate (Z.to_nat n) zero.

Lemma zeroed_size n : 0 ≤ n → Z.of_nat (length (zeroed n)) = n.
Proof. intros. unfold zeroed. rewrite length_replicate. lia. Qed.

Lemma mk_pair_wf n v : strlen n < 2 ^ 63 → strlen v < 2 ^ 63 → pair_wf (mk_pair n v).
Proof. intros. unfold pair_wf, mk_pair, strlen; simpl. rewrite !length_bytes_of. done. Qed.

Definition sample_headers : list coraza_header_pair_t :=
  [mk_pair "Host" "example.org"; mk_pair "X-Empty" ""].

Lemma sample_headers_wf : Forall pair_wf sample_headers.
Proof. repeat (constructor; [apply mk_pair_wf; reflexivity|]). constructor. Qed.

Lemma pack_headers_spec_witness :
  coraza_pack_headers zeroed sample_headers =
    Some (Some (encode_all sample_headers, 34)) ∧ 34 = total_size sample_headers.
Proof.
  destruct (pack_headers_spec zeroed sample_headers zeroed_size sample_headers_wf) as [H _].
  split; [|reflexivity]. rewrite H. vm_compute. reflexivity.
Defined.

Lemma pack_headers_roundtrip_witness :
  unpack 2 (encode_all sample_headers) = Some (pair_bytes <$> sample_headers).
Proof.
  refine (proj1 (pack_headers_roundtrip zeroed sample_headers _ 34 zeroed_size sample_headers_wf _)).
  vm_compute. reflexivity.
Defined.
