(* ===== verification/RulesScan.v ===== *)
(** * The configuration-time scan for unsupported directives

    [coraza_rules_scan_t] and its functions in src/mod_coraza.c, and the two
    checks built on it ([coraza_check_rules_text], [coraza_check_rules_file]).
    [Spec] is an independent, line-based reading of the record assembly the
    comments of the C file document, with the joining of continuation lines as a
    parameter: as documented, or as the scan does it when a blank follows the
    backslash.  An access outside the scanner's word array is undefined ([None]). *)
From S2P Require Import Prelude.
Local Open Scope Z_scope.

Definition NUL : ascii := zero.
Definition NL : ascii := "010".
Definition HASH : ascii := "#".
Definition TICK : ascii := "`".
Definition BACKSLASH : ascii := "\".

(** ' ', \t, \r, \v and \f. *)
Definition is_blank (c : ascii) : bool :=
  bool_decide (c = " "%char ∨ c = "009"%char ∨ c = "013"%char ∨ c = "011"%char ∨ c = "012"%char).

(** [coraza_unsupported_directives]. *)
Definition coraza_unsupported_directives : list string := ["SecRemoteRules"].

(** [strncasecmp(a, b, n) == 0] on two NUL-padded buffers. *)
Fixpoint strncaseeq (n : nat) (a b : bytes) : bool :=
  match n with
  | O => true
  | S k =>
      let x := hd NUL a in
      let y := hd NUL b in
      bool_decide (tolower x = tolower y)
      && (bool_decide (x = NUL) || strncaseeq k (tl a) (tl b))
  end.

(** [coraza_rules_scan_t]; [word] is the 32-byte array. *)
Record coraza_rules_scan_t := Scan {
  line : Z; rec_line : Z;
  in_record : bool; in_backticks : bool; word_done : bool;
  first : ascii; last : ascii;
  wlen : nat; word : bytes }.

Definition word_size : nat := 32.

Definition coraza_rules_scan_init : coraza_rules_scan_t :=
  Scan 1 0 false false false NUL NUL 0 (replicate word_size NUL).

Definition coraza_rules_scan_word (s : coraza_rules_scan_t) : option string :=
  list_find (λ d, wlen s = length (bytes_of d) ∧ strncaseeq (wlen s) (word s) (bytes_of d) = true)
    coraza_unsupported_directives ≫= λ p, Some p.2.

(** [s->word[i] = c] and [s->word[i]]: outside the array they are undefined. *)
Definition store (i : nat) (c : ascii) (w : bytes) : option bytes :=
  if decide (i < length w)%nat then Some (<[i := c]> w) else None.
Definition load (i : nat) (w : bytes) : option ascii := w !! i.

Definition coraza_rules_scan_eol (s : coraza_rules_scan_t)
  : option (option string * coraza_rules_scan_t) :=
  let 'Scan ln rl ir bt wd f l wl w := s in
  if decide (f = NUL ∨ f = HASH) then Some (None, Scan ln rl ir bt wd NUL NUL wl w)
  else
    let bt :=
      if negb bt && bool_decide (l = TICK) then true
      else if bt && bool_decide (f = TICK) then false else bt in
    if bt then Some (None, Scan ln rl ir bt wd NUL NUL wl w)
    else if decide (l = BACKSLASH) then
      wl ← (if negb wd && bool_decide (0 < wl)%nat then
              c ← load (wl - 1) w;
              Some (if decide (c = BACKSLASH) then (wl - 1)%nat else wl)
            else Some wl);
      Some (None, Scan ln rl ir bt wd NUL NUL wl w)
    else
      let bad := coraza_rules_scan_word (Scan ln rl ir bt wd NUL NUL wl w) in
      Some (bad, Scan ln rl false bt false NUL NUL 0 w).

(** One byte other than '\n'. *)
Definition scan_byte (c : ascii) (s : coraza_rules_scan_t) : option coraza_rules_scan_t :=
  let 'Scan ln rl ir bt wd f l wl w := s in
  if is_blank c then
    Some (if decide (f ≠ NUL ∧ f ≠ HASH ∧ (0 < wl)%nat)
          then Scan ln rl ir bt true f l wl w else s)
  else
    let '(f, ir, rl) :=
      if decide (f = NUL) then
        if decide (c ≠ HASH ∧ ir = false) then (c, true, ln) else (c, ir, rl)
      else (f, ir, rl) in
    if decide (f = HASH ∨ wd = true) then Some (Scan ln rl ir bt wd f c wl w)
    else if decide (wl < word_size)%nat then
      w ← store wl c w; Some (Scan ln rl ir bt wd f c (S wl) w)
    else Some (Scan ln rl ir bt true f c 0 w).

(** [coraza_rules_scan]: the refused directive, if any, and the state left;
    [None] is an access outside the word array. *)
Fixpoint coraza_rules_scan (p : bytes) (s : coraza_rules_scan_t)
  : option (option string * coraza_rules_scan_t) :=
  match p with
  | [] => Some (None, s)
  | c :: p =>
      if decide (c = NL) then
        r ← coraza_rules_scan_eol s;
        match r with
        | (Some bad, s) => Some (Some bad, s)
        | (None, Scan ln rl ir bt wd f l wl w) =>
            coraza_rules_scan p (Scan (wrap32 (ln + 1)) rl ir bt wd f l wl w)
        end
      else s ← scan_byte c s; coraza_rules_scan p s
  end.

Definition coraza_rules_scan_done (s : coraza_rules_scan_t)
  : option (option string * coraza_rules_scan_t) :=
  '(bad, s) ← coraza_rules_scan_eol s;
  Some match bad with
       | None => if in_backticks s then (coraza_rules_scan_word s, s) else (None, s)
       | Some _ => (bad, s)
       end.

(** ** The two configuration checks *)

(** An error string is represented by its format arguments. *)
Inductive cfg_error :=
| ErrUnsupported (directive : string)
| ErrUnsupportedText (directive command : string) (line : Z)
| ErrUnsupportedFile (directive path : string) (line : Z)
| ErrInvalidPath (path : string)
| ErrMessage (msg : string).

(** Init, scan, and -- when nothing was found -- done. *)
Definition scan_all (text : bytes) : option (option string * coraza_rules_scan_t) :=
  '(bad, s) ← coraza_rules_scan text coraza_rules_scan_init;
  match bad with Some _ => Some (bad, s) | None => coraza_rules_scan_done s end.

(** [strncmp(text, bad, strlen(bad)) == 0]. *)
Definition starts_with (bad text : string) : bool := String.prefix bad text.

(** The error if any; undefined when the scan is. *)
Definition coraza_check_rules_text (cmd_name : string) (text : string)
  : option (option cfg_error) :=
  '(bad, scan) ← scan_all (bytes_of text);
  Some match bad with
       | None => None
       | Some bad =>
           if bool_decide (rec_line scan = 1) && starts_with bad text
           then Some (ErrUnsupported bad)
           else Some (ErrUnsupportedText bad cmd_name (rec_line scan))
       end.

(** The read loop: the chunks [apr_file_read] delivers, then EOF ([true]) or
    another error status ([false]). *)
Fixpoint file_loop (chunks : list bytes) (eof : bool) (scan : coraza_rules_scan_t)
  : option (option string * coraza_rules_scan_t) :=
  match chunks with
  | [] => if eof then coraza_rules_scan_done scan else Some (None, scan)
  | buf :: chunks =>
      '(bad, scan) ← coraza_rules_scan buf scan;
      match bad with
      | Some bad => Some (Some bad, scan)
      | None => file_loop chunks eof scan
      end
  end.

(** What httpd and APR provide at configuration time: path resolution
    ([ap_server_root_relative], NULL when invalid) and the outcome of opening
    and reading a file ([None] when it cannot be opened). *)
Class ConfigFiles := {
  ap_server_root_relative : string → option string;
  apr_file : string → option (list bytes * bool) }.

Section check_file.
Context `{ConfigFiles}.

  (** The error if any, and the path left in [*path]. *)
Definition coraza_check_rules_file (path : string) : option (option cfg_error * string) :=
    match ap_server_root_relative path with
    | None => Some (Some (ErrInvalidPath path), path)
    | Some full =>
        match apr_file full with
        | None => Some (None, full)
        | Some (chunks, eof) =>
            '(bad, scan) ← file_loop chunks eof coraza_rules_scan_init;
            Some match bad with
                 | None => (None, full)
                 | Some bad => (Some (ErrUnsupportedFile bad full (rec_line scan)), full)
                 end
        end
    end.
End check_file.

(** ** The documented record assembly, line by line *)
Module Spec.
Fixpoint drop_blanks (l : bytes) : bytes :=
    match l with
    | [] => []
    | c :: r => if is_blank c then drop_blanks r else l
    end.
Definition trim_end (l : bytes) : bytes := reverse (drop_blanks (reverse l)).
Definition trim (l : bytes) : bytes := trim_end (drop_blanks l).

  (** The first blank-delimited word. *)
Fixpoint first_word (l : bytes) : bytes :=
    match l with
    | [] => []
    | c :: r => if is_blank c then [] else c :: first_word r
    end.

Definition refused_word (w : bytes) : option string :=
    list_find (λ d, tolower <$> w = tolower <$> bytes_of d) coraza_unsupported_directives
      ≫= λ p, Some p.2.
Definition refused (record : bytes) : option string := refused_word (first_word record).

  (** The physical lines, the last one being what follows the last '\n'. *)
Fixpoint lines (t : bytes) : list bytes :=
    match t with
    | [] => [[]]
    | c :: r =>
        if decide (c = NL) then [] :: lines r
        else match lines r with
             | l :: ls => (c :: l) :: ls
             | [] => [[c]]
             end
    end.

  (** The record being assembled (with the line it started on) and whether an
      action list is open. *)
Record state := State { open : option (Z * bytes); ticks : bool }.

Inductive outcome := Found (directive : string) (line : Z) | Go (s : state).

Definition ignored (l : bytes) : bool :=
    match l with [] => true | c :: _ => bool_decide (c = HASH) end.

  (** What a line that ends in a backslash, [raw], trimmed [l], contributes to
      the record: as documented, the line without the backslash; as written in
      the scanner, this only when no blank follows the backslash, otherwise the
      word ends there. *)
Definition documented (raw l : bytes) : bytes := removelast l.
Definition as_written (raw l : bytes) : bytes :=
    if bool_decide (trim_end raw = raw) then removelast l else l ++ [" "%char].

Section reading.
Variable join : bytes → bytes → bytes.

Definition step (n : Z) (raw : bytes) (s : state) : outcome :=
    let l := trim raw in
    if ignored l then Go s
    else
      let '(start, acc) := default (n, []) (open s) in
      let f := hd NUL l in
      let e := List.last l NUL in
      let bt := if ticks s then bool_decide (f ≠ TICK) else bool_decide (e = TICK) in
      if bt then Go (State (Some (start, acc ++ l)) true)
      else if decide (e = BACKSLASH)
      then Go (State (Some (start, acc ++ join raw l)) false)
      else match refused (acc ++ l) with
           | Some d => Found d start
           | None => Go (State None false)
           end.

Fixpoint scan_lines (n : Z) (ls : list bytes) (s : state) : option (string * Z) :=
    match ls with
    | [] =>
        match open s, ticks s with
        | Some (start, acc), true => (λ d, (d, start)) <$> refused acc
        | _, _ => None
        end
    | l :: ls =>
        match step n l s with
        | Found d start => Some (d, start)
        | Go s => scan_lines (wrap32 (n + 1)) ls s
        end
    end.

Definition scan_by (t : bytes) : option (string * Z) :=
    scan_lines 1 (lines t) (State None false).
End reading.

Definition scan : bytes → option (string * Z) := scan_by documented.
Definition scan_as_written : bytes → option (string * Z) := scan_by as_written.

  (** A line whose last non-blank byte is a backslash ends with it. *)
Definition tidy_line (raw : bytes) : Prop :=
    List.last (trim raw) NUL = BACKSLASH → trim_end raw = raw.
End Spec.
