(* ===== verification/RulesScanFacts.v ===== *)
(** * The rules scan: proofs

    The streaming scanner of [RulesScan] against its line-based
    specification, its chunk invariance and what the two configuration checks
    report. *)
From S2P Require Import Prelude RulesScan.
Local Open Scope Z_scope.

(** ** Characters and words *)

Lemma tolower_NUL c : tolower c = NUL → c = NUL.
Proof.
  unfold tolower. case_decide as H; [|done]. intros E%(f_equal uchar).
  rewrite uchar_chr, Z.mod_small in E by lia. change (uchar NUL) with 0 in E. lia.
Qed.

Lemma strncaseeq_spec (b : bytes) : ∀ a,
  Forall (λ c, c ≠ NUL) b → (length b ≤ length a)%nat →
  strncaseeq (length b) a b = true ↔ tolower <$> take (length b) a = tolower <$> b.
Proof.
  induction b as [|y b IH]; intros [|x a] Hn Hl; simpl in *; try done || lia.
  apply Forall_cons_1 in Hn as [Hy Hn].
  rewrite andb_true_iff, orb_true_iff, !bool_decide_eq_true, IH by (done || lia).
  split.
  - intros [E [->|E']]; [|by apply (f_equal2 cons)].
    destruct Hy. by apply tolower_NUL.
  - intros [= E E']. auto.
Qed.

(** The verdict on the [n] bytes collected in the word array. *)
Definition verdict (n : nat) (w : bytes) : option string :=
  coraza_rules_scan_word (Scan 0 0 false false false NUL NUL n w).

Lemma scan_word_verdict s : coraza_rules_scan_word s = verdict (wlen s) (word s).
Proof. by destruct s. Qed.

Lemma verdict_refused n w :
  (n ≤ length w)%nat → verdict n w = Spec.refused_word (take n w).
Proof.
  intros Hn. unfold verdict, coraza_rules_scan_word, Spec.refused_word,
    coraza_unsupported_directives. cbn [wlen word list_find].
  set (d := bytes_of "SecRemoteRules").
  destruct (decide (n = length d)) as [->|Hne].
  - assert (Forall (λ c, c ≠ NUL) d) as Hd by (unfold d; simpl; repeat constructor; done).
    pose proof (strncaseeq_spec d w Hd Hn) as Hs.
    case_decide as H1; case_decide as H2; try done.
    + destruct H2. apply Hs, H1.
    + destruct H1. split; [done|]. by apply Hs.
  - rewrite decide_False by (by intros []). rewrite decide_False; [done|].
    intros E%(f_equal length). rewrite !length_fmap, length_take_le in E by done. done.
Qed.

Lemma refused_word_length w : length w ≠ 14%nat → Spec.refused_word w = None.
Proof.
  intros Hl. unfold Spec.refused_word, coraza_unsupported_directives. simpl.
  rewrite decide_False; [done|]. intros E%(f_equal length). by rewrite length_fmap in E.
Qed.

Lemma refused_word_tick w : TICK ∈ w → Spec.refused_word w = None.
Proof.
  intros Ht. unfold Spec.refused_word, coraza_unsupported_directives. simpl.
  rewrite decide_False; [done|]. intros E.
  assert (tolower TICK ∈ tolower <$> w) as Hin by (apply list_elem_of_fmap; eauto).
  rewrite E in Hin. vm_compute in Hin.
  repeat (apply elem_of_cons in Hin as [Hin|Hin]; [done|]). by apply not_elem_of_nil in Hin.
Qed.

Abbreviation nonblank := (λ c : ascii, is_blank c = false).

Lemma first_word_app a b :
  Forall nonblank a → Spec.first_word (a ++ b) = a ++ Spec.first_word b.
Proof. induction 1 as [|c a Hc _ IH]; simpl; [done|]. by rewrite Hc, IH. Qed.

Lemma first_word_all a : Forall nonblank a → Spec.first_word a = a.
Proof. intros H. rewrite <- (app_nil_r a), first_word_app by done. done. Qed.

Lemma first_word_blank a c b :
  Forall nonblank a → is_blank c = true → Spec.first_word (a ++ c :: b) = a.
Proof. intros Ha Hc. rewrite first_word_app by done. simpl. by rewrite Hc, app_nil_r. Qed.

(** A byte string cut at its first blank. *)
Lemma cut_blank (p : bytes) :
  (Forall nonblank p) ∨ (∃ q c r, p = q ++ c :: r ∧ Forall nonblank q ∧ is_blank c = true).
Proof.
  induction p as [|c p [IH|(q & b & r & -> & Hq & Hb)]]; [by left| |].
  - destruct (is_blank c) eqn:Hc; [right; by exists [], c, p|left; by constructor].
  - right. destruct (is_blank c) eqn:Hc; [by exists [], c, (q ++ b :: r)|].
    exists (c :: q), b, r. split_and!; [done| |done]. by constructor.
Qed.

(** ** Trimming *)

Lemma drop_blanks_split l :
  ∃ lead, l = lead ++ Spec.drop_blanks l ∧ Forall (λ c, is_blank c = true) lead
          ∧ is_blank (hd "x"%char (Spec.drop_blanks l)) = false.
Proof.
  induction l as [|c l (lead & E & Hl & Hh)]; [by exists []|]. simpl.
  destruct (is_blank c) eqn:Hc.
  - exists (c :: lead). simpl. split_and!; [by f_equal|by constructor|done].
  - exists []. done.
Qed.

Lemma trim_end_split l :
  ∃ trail, l = Spec.trim_end l ++ trail ∧ Forall (λ c, is_blank c = true) trail
           ∧ is_blank (List.last (Spec.trim_end l) "x"%char) = false.
Proof.
  unfold Spec.trim_end. destruct (drop_blanks_split (reverse l)) as (lead & E & Hl & Hh).
  exists (reverse lead). split_and!.
  - rewrite <- reverse_app, <- E. by rewrite reverse_involutive.
  - by apply Forall_reverse.
  - destruct (Spec.drop_blanks (reverse l)) as [|c r]; [done|].
    rewrite reverse_cons, List.last_last. done.
Qed.

(** A raw line is its trimmed text between blanks. *)
Lemma trim_split raw :
  ∃ lead trail, raw = lead ++ Spec.trim raw ++ trail
    ∧ Forall (λ c, is_blank c = true) lead ∧ Forall (λ c, is_blank c = true) trail
    ∧ is_blank (hd "x"%char (Spec.trim raw)) = false
    ∧ is_blank (List.last (Spec.trim raw) "x"%char) = false.
Proof.
  unfold Spec.trim.
  destruct (drop_blanks_split raw) as (lead & E & Hl & Hh).
  destruct (trim_end_split (Spec.drop_blanks raw)) as (trail & E' & Ht & Hlast).
  exists lead, trail. split_and!; try done.
  - by rewrite <- E'.
  - rewrite E' in Hh. destruct (Spec.trim_end _) as [|c r]; done.
Qed.

(** ** The scan without its bounds

    On a bounded state every access is inside the word array, so the scan is
    this total function; the proofs that follow are about it. *)
Definition scan_bounded (s : coraza_rules_scan_t) : Prop :=
  length (word s) = word_size ∧ (wlen s ≤ word_size)%nat ∧ 0 ≤ line s < 2 ^ 32.

Definition line_end (s : coraza_rules_scan_t) : option string * coraza_rules_scan_t :=
  let 'Scan ln rl ir bt wd f l wl w := s in
  if decide (f = NUL ∨ f = HASH) then (None, Scan ln rl ir bt wd NUL NUL wl w)
  else
    let bt :=
      if negb bt && bool_decide (l = TICK) then true
      else if bt && bool_decide (f = TICK) then false else bt in
    if bt then (None, Scan ln rl ir bt wd NUL NUL wl w)
    else if decide (l = BACKSLASH) then
      let wl :=
        if negb wd && bool_decide (0 < wl)%nat && bool_decide (nth (wl - 1) w NUL = BACKSLASH)
        then (wl - 1)%nat else wl in
      (None, Scan ln rl ir bt wd NUL NUL wl w)
    else
      (coraza_rules_scan_word (Scan ln rl ir bt wd NUL NUL wl w), Scan ln rl false bt false NUL NUL 0 w).

Definition byte_step (c : ascii) (s : coraza_rules_scan_t) : coraza_rules_scan_t :=
  let 'Scan ln rl ir bt wd f l wl w := s in
  if is_blank c then
    if decide (f ≠ NUL ∧ f ≠ HASH ∧ (0 < wl)%nat) then Scan ln rl ir bt true f l wl w else s
  else
    let '(f, ir, rl) :=
      if decide (f = NUL) then
        if decide (c ≠ HASH ∧ ir = false) then (c, true, ln) else (c, ir, rl)
      else (f, ir, rl) in
    if decide (f = HASH ∨ wd = true) then Scan ln rl ir bt wd f c wl w
    else if decide (wl < word_size)%nat then Scan ln rl ir bt wd f c (S wl) (<[wl := c]> w)
    else Scan ln rl ir bt true f c 0 w.

Fixpoint feed (p : bytes) (s : coraza_rules_scan_t) : option string * coraza_rules_scan_t :=
  match p with
  | [] => (None, s)
  | c :: p =>
      if decide (c = NL) then
        match line_end s with
        | (Some bad, s) => (Some bad, s)
        | (None, Scan ln rl ir bt wd f l wl w) =>
            feed p (Scan (wrap32 (ln + 1)) rl ir bt wd f l wl w)
        end
      else feed p (byte_step c s)
  end.

Definition text_end (s : coraza_rules_scan_t) : option string * coraza_rules_scan_t :=
  let '(bad, s) := line_end s in
  match bad with
  | None => if in_backticks s then (coraza_rules_scan_word s, s) else (None, s)
  | Some _ => (bad, s)
  end.

Lemma scan_byte_step c s :
  scan_bounded s → scan_byte c s = Some (byte_step c s) ∧ scan_bounded (byte_step c s).
Proof.
  destruct s as [ln rl ir bt wd f l wl w]. intros (Hw & Hl & Hn). unfold scan_byte, byte_step, store.
  unfold scan_bounded in *; simpl in *. destruct (is_blank c); [by case_decide|].
  destruct (if decide (f = NUL) then _ else _) as [[f' ir'] rl'].
  case_decide; [done|]. case_decide; simpl; [|by split_and!; auto with lia].
  rewrite decide_True by lia. simpl. rewrite length_insert. split_and!; done || lia.
Qed.

Lemma scan_eol_end s :
  scan_bounded s → coraza_rules_scan_eol s = Some (line_end s)
    ∧ scan_bounded (line_end s).2 ∧ line (line_end s).2 = line s.
Proof.
  destruct s as [ln rl ir bt wd f l wl w]. intros (Hw & Hl & Hn).
  unfold coraza_rules_scan_eol, line_end, load.
  unfold scan_bounded in *; simpl in *. case_decide; [done|].
  destruct (if negb bt && _ then _ else _); [done|].
  case_decide; [|simpl; split_and!; done || lia].
  destruct (negb wd && bool_decide (0 < wl)%nat) eqn:E; simpl; [|done].
  apply andb_true_iff in E as [_ Hpos%bool_decide_eq_true].
  destruct (lookup_lt_is_Some_2 w (wl - 1)%nat) as [c Hc]; [lia|]. rewrite Hc. simpl.
  rewrite (nth_lookup_Some _ _ _ _ Hc). case_decide; case_bool_decide; simpl; split_and!; done || lia.
Qed.

Lemma scan_is_feed p : ∀ s,
  scan_bounded s → coraza_rules_scan p s = Some (feed p s) ∧ scan_bounded (feed p s).2.
Proof.
  induction p as [|c p IH]; intros s Hs; [done|]. simpl. case_decide.
  - destruct (scan_eol_end s Hs) as (-> & Hb & _). simpl.
    destruct (line_end s) as [[bad|] [ln rl ir bt wd f l wl w]]; [done|]. apply IH.
    destruct Hb as (?&?&?). unfold scan_bounded; simpl in *. pose proof (wrap32_range (ln + 1)). done.
  - destruct (scan_byte_step c s Hs) as [-> Hb]. simpl. by apply IH.
Qed.

Lemma scan_done_end s : scan_bounded s → coraza_rules_scan_done s = Some (text_end s).
Proof.
  intros Hs. unfold coraza_rules_scan_done, text_end. destruct (scan_eol_end s Hs) as (-> & _ & _).
  simpl. by destruct (line_end s) as [[bad|] s'].
Qed.

Lemma init_bounded : scan_bounded coraza_rules_scan_init.
Proof. unfold scan_bounded, word_size. simpl. split_and!; done || lia. Qed.

(** ** One physical line

    [scan_line] feeds the bytes of a line; [collect] is its effect on the
    word array alone. *)
Definition scan_line (p : bytes) (s : coraza_rules_scan_t) : coraza_rules_scan_t :=
  foldl (λ s c, byte_step c s) s p.

Lemma scan_line_app a b s : scan_line (a ++ b) s = scan_line b (scan_line a s).
Proof. apply foldl_app. Qed.

Lemma scan_feed p rest s :
  NL ∉ p → feed (p ++ rest) s = feed rest (scan_line p s).
Proof.
  revert s. induction p as [|c p IH]; intros s Hp; [done|].
  apply not_elem_of_cons in Hp as [Hc Hp]. simpl.
  rewrite decide_False by done. by apply IH.
Qed.

Definition wstate : Type := nat * bytes * bool.

Definition cstep (c : ascii) (x : wstate) : wstate :=
  let '(wl, w, wd) := x in
  if is_blank c then (wl, w, wd || bool_decide (0 < wl)%nat)
  else if wd then x
  else if decide (wl < word_size)%nat then (S wl, <[wl := c]> w, false) else (0%nat, w, true).
Definition collect (p : bytes) (x : wstate) : wstate := foldl (λ x c, cstep c x) x p.
Definition last_seen (l : ascii) (p : bytes) : ascii :=
  foldl (λ l c, if is_blank c then l else c) l p.

Lemma scan_line_blank p s :
  Forall (λ c, is_blank c = true) p → first s = NUL → scan_line p s = s.
Proof.
  intros Hp. revert s. induction Hp as [|c p Hc _ IH]; intros s Hs; [done|].
  cbn. replace (byte_step c s) with s; [by apply IH|].
  destruct s as [ln rl ir bt wd f l wl w]. simpl in Hs. subst f. unfold byte_step.
  by rewrite Hc.
Qed.

Lemma scan_line_comment p ln rl ir bt wd l wl w :
  scan_line p (Scan ln rl ir bt wd HASH l wl w) = Scan ln rl ir bt wd HASH (last_seen l p) wl w.
Proof.
  revert l. induction p as [|c p IH]; intros l; [done|]. cbn.
  destruct (is_blank c); simpl; apply IH.
Qed.

Lemma scan_line_record p ln rl ir bt f l wl w wd :
  f ≠ NUL → f ≠ HASH →
  scan_line p (Scan ln rl ir bt wd f l wl w) =
    let '(wl', w', wd') := collect p (wl, w, wd) in
    Scan ln rl ir bt wd' f (last_seen l p) wl' w'.
Proof.
  intros Hf1 Hf2. revert l wl w wd. induction p as [|c p IH]; intros l wl w wd; [done|].
  cbn [scan_line collect last_seen foldl]. fold (collect p) (last_seen). cbn [cstep byte_step].
  change (foldl (λ s c, byte_step c s) ?x p) with (scan_line p x).
  change (foldl (λ x c, cstep c x) ?x p) with (collect p x).
  change (foldl (λ l c, if is_blank c then l else c) ?x p) with (last_seen x p).
  destruct (is_blank c); simpl.
  - case_decide as H.
    + rewrite bool_decide_eq_true_2 by tauto. rewrite orb_true_r. apply IH.
    + rewrite bool_decide_eq_false_2 by tauto. rewrite orb_false_r. apply IH.
  - rewrite (decide_False (P := f = NUL)) by done.
    destruct wd.
    + rewrite decide_True by auto. apply IH.
    + rewrite decide_False by (intros [|]; done).
      case_decide; apply IH.
Qed.

Lemma last_seen_blank l p : Forall (λ c, is_blank c = true) p → last_seen l p = l.
Proof. intros H. revert l. induction H as [|c p Hc _ IH]; intros l; [done|]. cbn. by rewrite Hc, IH. Qed.

Lemma last_seen_body l p trail :
  p ≠ [] → is_blank (List.last p NUL) = false → Forall (λ c, is_blank c = true) trail →
  last_seen l (p ++ trail) = List.last p NUL.
Proof.
  intros Hp Hl Ht. destruct (exists_last Hp) as (q & c & ->).
  rewrite List.last_last in *. unfold last_seen. rewrite !foldl_app. simpl. rewrite Hl.
  by apply last_seen_blank.
Qed.

Lemma last_default (l : bytes) d d' : l ≠ [] → List.last l d = List.last l d'.
Proof. intros H. destruct (exists_last H) as (q & c & ->). by rewrite !List.last_last. Qed.

(** The text a line contributes, with what trails it. *)
Lemma trim_trail raw :
  ∃ lead trail, raw = lead ++ Spec.trim raw ++ trail
    ∧ Forall (λ c, is_blank c = true) lead ∧ Forall (λ c, is_blank c = true) trail
    ∧ (Spec.trim raw ≠ [] → is_blank (hd NUL (Spec.trim raw)) = false
                            ∧ is_blank (List.last (Spec.trim raw) NUL) = false)
    ∧ (Spec.trim raw ≠ [] → Spec.trim_end raw = raw ↔ trail = []).
Proof.
  destruct (trim_split raw) as (lead & trail & E & Hlead & Htrail & Hh & Hl).
  exists lead, trail. split_and!; try done.
  { intros Hne. rewrite (last_default _ NUL "x"%char) by done.
    split; [|done]. by destruct (Spec.trim raw). }
  intros Hne. split.
  2: { intros ->. rewrite app_nil_r in E. destruct (exists_last Hne) as (q & c & Eq).
       rewrite Eq, List.last_last in Hl. rewrite Eq, app_assoc in E. unfold Spec.trim_end.
       rewrite E, reverse_app. simpl. rewrite Hl. by rewrite reverse_cons, reverse_involutive. }
  - intros Ht. destruct (decide (trail = [])) as [|Htn]; [done|exfalso].
    destruct (exists_last Htn) as (q & c & ->).
    destruct (trim_end_split raw) as (? & _ & _ & Hlast). rewrite Ht, E in Hlast.
    rewrite !app_assoc, List.last_last in Hlast.
    apply Forall_app in Htrail as [_ Hc%Forall_cons_1]. destruct Hc as [Hc _]. congruence.
Qed.

(** The whole line, from the state the previous line left. *)
Lemma scan_line_trim raw lead body trail ln rl ir bt wd wl w :
  raw = lead ++ body ++ trail → NUL ∉ raw →
  Forall (λ c, is_blank c = true) lead → Forall (λ c, is_blank c = true) trail →
  (body ≠ [] → is_blank (hd NUL body) = false ∧ is_blank (List.last body NUL) = false) →
  scan_line raw (Scan ln rl ir bt wd NUL NUL wl w) =
    match body with
    | [] => Scan ln rl ir bt wd NUL NUL wl w
    | c :: _ =>
        if decide (c = HASH) then Scan ln rl ir bt wd HASH (List.last body NUL) wl w
        else
          let '(wl', w', wd') := collect (body ++ trail) (wl, w, wd) in
          Scan ln (if ir then rl else ln) true bt wd' c (List.last body NUL) wl' w'
    end.
Proof.
  intros -> HN Hlead Htrail Hbody. rewrite scan_line_app, (scan_line_blank lead) by done.
  destruct body as [|c b]; [by apply scan_line_blank|].
  destruct (Hbody ltac:(done)) as [Hc Hl]. simpl in Hc.
  assert (c ≠ NUL) as HcN.
  { intros ->. apply HN. apply elem_of_app; right. apply elem_of_app; left. by left. }
  rewrite <- (last_seen_body NUL (c :: b) trail) by done.
  rewrite <- app_comm_cons.
  change (scan_line (c :: ?p) ?s) with (scan_line p (byte_step c s)).
  change (collect (c :: ?p) ?x) with (collect p (cstep c x)).
  change (last_seen NUL (c :: ?p)) with (last_seen (if is_blank c then NUL else c) p).
  unfold byte_step. rewrite Hc, decide_True by done.
  destruct (decide (c = HASH)) as [HH|HH].
  { rewrite (decide_False (P := c ≠ HASH ∧ ir = false)) by (intros []; done).
    rewrite (decide_True (P := c = HASH ∨ wd = true)) by auto. rewrite HH. apply scan_line_comment. }
  assert ((if decide (c ≠ HASH ∧ ir = false) then (c, true, ln) else (c, ir, rl))
          = (c, true, if ir then rl else ln)) as ->.
  { destruct ir; [rewrite decide_False by (by intros [])|rewrite decide_True by done]; done. }
  unfold cstep. rewrite Hc. destruct wd.
  { rewrite decide_True by auto. by apply scan_line_record. }
  rewrite decide_False by (by intros [|]).
  case_decide; by rewrite scan_line_record.
Qed.

(** ** The word collected from a record *)

Definition winv (acc : bytes) (wl : nat) (w : bytes) : Prop :=
  length w = word_size ∧ wl = length acc ∧ (wl ≤ word_size)%nat ∧ take wl w = acc
  ∧ Forall nonblank acc.

Lemma verdict_winv acc wl w :
  winv acc wl w → verdict wl w = Spec.refused acc ∧ verdict wl w = Spec.refused_word acc.
Proof.
  intros (Hw & Hl & Hle & Ht & Hn). unfold Spec.refused.
  rewrite first_word_all by done. rewrite verdict_refused by lia. by rewrite Ht.
Qed.

Lemma verdict_zero w : verdict 0 w = None.
Proof. rewrite verdict_refused by lia. by apply refused_word_length. Qed.

Lemma refused_long acc ext :
  Forall nonblank acc → (15 ≤ length acc)%nat → Spec.refused (acc ++ ext) = None.
Proof.
  intros Hn Hl. unfold Spec.refused. rewrite first_word_app by done.
  apply refused_word_length. rewrite length_app. lia.
Qed.

Lemma collect_done p wl w : collect p (wl, w, true) = (wl, w, true).
Proof.
  induction p as [|c p IH]; [done|].
  change (collect (c :: p) ?x) with (collect p (cstep c x)). simpl.
  by destruct (is_blank c).
Qed.

Lemma collect_app a b x : collect (a ++ b) x = collect b (collect a x).
Proof. apply foldl_app. Qed.

Lemma collect_blank c p wl w :
  is_blank c = true → (0 < wl)%nat → collect (c :: p) (wl, w, false) = (wl, w, true).
Proof.
  intros Hc Hl. change (collect (c :: p) ?x) with (collect p (cstep c x)). simpl.
  rewrite Hc, bool_decide_eq_true_2 by done. apply collect_done.
Qed.

Lemma collect_word q : ∀ acc wl w,
  Forall nonblank q → winv acc wl w →
  ∃ w', length w' = word_size ∧
    if decide (length (acc ++ q) ≤ word_size)%nat
    then collect q (wl, w, false) = (length (acc ++ q), w', false)
         ∧ winv (acc ++ q) (length (acc ++ q)) w'
    else collect q (wl, w, false) = (0%nat, w', true).
Proof.
  induction q as [|c q IH]; intros acc wl w Hq Hinv.
  { exists w. rewrite app_nil_r. pose proof Hinv as (Hw & -> & Hle & _ & _).
    by rewrite decide_True by done. }
  apply Forall_cons_1 in Hq as [Hc Hq]. destruct Hinv as (Hw & -> & Hle & Ht & Hn).
  change (collect (c :: q) ?x) with (collect q (cstep c x)). simpl. rewrite Hc.
  destruct (decide (length acc < word_size)%nat) as [Hlt|Hge].
  - replace (acc ++ c :: q) with ((acc ++ [c]) ++ q) by by rewrite <- app_assoc.
    apply IH; [done|]. unfold winv. rewrite length_insert, length_app, Nat.add_1_r.
    split_and!; try done; try lia.
    + rewrite insert_take_drop by lia. rewrite Ht.
      rewrite take_app_ge by lia. replace (S (length acc) - length acc)%nat with 1%nat by lia. done.
    + apply Forall_app; split; [done|by constructor].
  - exists w. split; [done|]. rewrite decide_False by (rewrite length_app; simpl; lia).
    apply collect_done.
Qed.

Lemma removelast_app_cons (q : bytes) c r :
  r ≠ [] → removelast (q ++ c :: r) = q ++ c :: removelast r.
Proof.
  intros Hr. rewrite removelast_app by done. f_equal. by destruct r.
Qed.

Lemma removelast_length (l : bytes) : length (removelast l) = (length l - 1)%nat.
Proof.
  destruct (decide (l = [])) as [->|H]; [done|].
  destruct (exists_last H) as (q & c & ->). rewrite removelast_last, length_app. simpl. lia.
Qed.

Lemma Forall_removelast (P : ascii → Prop) l : Forall P l → Forall P (removelast l).
Proof.
  intros Hf. destruct (decide (l = [])) as [->|H]; [done|].
  destruct (exists_last H) as (q & c & ->). rewrite removelast_last.
  by apply Forall_app in Hf as [].
Qed.

(** The three ways a line leaves the word array. *)
Inductive collected (acc body trail : bytes) : wstate → Prop :=
| collected_open wl w :
    trail = [] → winv (acc ++ body) wl w → collected acc body trail (wl, w, false)
| collected_decided wl w :
    (∀ ext, Spec.refused (acc ++ removelast body ++ ext) = verdict wl w) →
    collected acc body trail (wl, w, true)
| collected_trailing wl w :
    trail ≠ [] → winv (acc ++ body) wl w → collected acc body trail (wl, w, true).

(** What the word array says about the record assembled so far. *)
Definition wrel (acc : bytes) (x : wstate) : Prop :=
  let '(wl, w, wd) := x in
  length w = word_size ∧
  if wd : bool then ∀ ext, Spec.refused (acc ++ ext) = verdict wl w else winv acc wl w.

Lemma collect_cases acc body trail x :
  body ≠ [] → is_blank (hd NUL body) = false → is_blank (List.last body NUL) = false →
  Forall (λ c, is_blank c = true) trail → wrel acc x →
  collected acc body trail (collect (body ++ trail) x)
  ∧ length (collect (body ++ trail) x).1.2 = word_size.
Proof.
  intros Hne Hh Hl Ht. destruct x as [[wl w] [|]]; intros [Hw Hx].
  { rewrite collect_done. split; [|done]. apply collected_decided. intros ext. apply Hx. }
  destruct (cut_blank body) as [Hall|(q & c & r & -> & Hq & Hc)].
  - destruct (collect_word body acc wl w Hall Hx) as (w' & Hw' & Hcase).
    rewrite collect_app. case_decide as Hlen.
    + destruct Hcase as [-> Hinv]. destruct trail as [|b trail].
      { split; [|done]. by apply collected_open. }
      apply Forall_cons_1 in Ht as [Hb _]. rewrite collect_blank; [|done|].
      * split; [|done]. by apply collected_trailing.
      * destruct body; [done|]. rewrite length_app. simpl. lia.
    + rewrite Hcase, collect_done. split; [|done]. apply collected_decided. intros ext.
      rewrite verdict_zero, app_assoc. apply refused_long.
      * destruct Hx as (_&_&_&_&Hn). apply Forall_app; split; [done|by apply Forall_removelast].
      * rewrite length_app, removelast_length in *. unfold word_size in *. lia.
  - assert (r ≠ []) as Hr.
    { intros ->. rewrite List.last_last in Hl. congruence. }
    assert (q ≠ []) as Hqne by (intros ->; simpl in Hh; congruence).
    rewrite <- app_assoc, <- app_comm_cons, collect_app.
    destruct (collect_word q acc wl w Hq Hx) as (w' & Hw' & Hcase).
    destruct Hx as (_&_&_&_&Hn). case_decide as Hlen.
    + destruct Hcase as [-> Hinv]. rewrite collect_blank; [|done|].
      * split; [|done]. apply collected_decided. intros ext.
        rewrite removelast_app_cons, <- app_assoc, <- app_comm_cons, app_assoc by done.
        unfold Spec.refused. rewrite first_word_blank; [|by apply Forall_app|done].
        by rewrite (proj2 (verdict_winv _ _ _ Hinv)).
      * destruct q; [done|]. rewrite length_app. simpl. lia.
    + rewrite Hcase, collect_done. split; [|done]. apply collected_decided. intros ext.
      rewrite verdict_zero, removelast_app_cons, <- app_assoc, app_assoc by done.
      apply refused_long; [by apply Forall_app|]. unfold word_size in *. lia.
Qed.

Lemma wrel_body acc body trail x :
  collected acc body trail x → length x.1.2 = word_size → TICK ∈ acc ++ body →
  wrel (acc ++ body) x.
Proof.
  intros Hc Hw Ht. destruct Hc as [wl w _ Hi|wl w Hd|wl w _ Hi]; simpl in *.
  - done.
  - split; [done|]. intros ext. rewrite <- app_assoc.
    destruct (decide (body = [])) as [->|Hb]; [apply (Hd ext)|].
    destruct (exists_last Hb) as (q & c & ->). rewrite <- app_assoc.
    specialize (Hd ([c] ++ ext)). by rewrite removelast_last in Hd.
  - split; [done|]. intros ext. pose proof (verdict_winv _ _ _ Hi) as [_ ->].
    rewrite (refused_word_tick (acc ++ body)) by done.
    unfold Spec.refused. destruct Hi as (_&_&_&_&Hn). rewrite first_word_app by done.
    apply refused_word_tick. apply elem_of_app; by left.
Qed.

Lemma verdict_body acc body trail wl w wd :
  collected acc body trail (wl, w, wd) → verdict wl w = Spec.refused (acc ++ body).
Proof.
  intros Hc. inversion Hc as [? ? _ Hi|? ? Hd|? ? _ Hi]; subst.
  - exact (proj1 (verdict_winv _ _ _ Hi)).
  - destruct (decide (body = [])) as [->|Hb]; [symmetry; apply (Hd [])|].
    destruct (exists_last Hb) as (q & c & ->). specialize (Hd [c]).
    rewrite removelast_last in Hd. done.
  - exact (proj1 (verdict_winv _ _ _ Hi)).
Qed.

(** The backslash dropped from the word by the end-of-line step. *)
Definition strip (x : wstate) : wstate :=
  let '(wl, w, wd) := x in
  (if negb wd && bool_decide (0 < wl)%nat && bool_decide (nth (wl - 1) w NUL = BACKSLASH)
   then (wl - 1)%nat else wl, w, wd).

(** A blank after the backslash ends the word. *)
Lemma wrel_cut acc body trail x :
  body ≠ [] → trail ≠ [] → collected acc body trail x → length x.1.2 = word_size →
  wrel (acc ++ body ++ [" "%char]) (strip x).
Proof.
  intros Hb Ht Hc Hw. destruct Hc as [wl w E _|wl w Hd|wl w _ Hi]; simpl in *; [done| |].
  - split; [done|]. intros ext. destruct (exists_last Hb) as (q & c & ->).
    specialize (Hd ([c] ++ [" "%char] ++ ext)). rewrite removelast_last in Hd.
    rewrite <- Hd. by rewrite <- !app_assoc.
  - split; [done|]. intros ext. pose proof (verdict_winv _ _ _ Hi) as [_ ->].
    destruct Hi as (_&_&_&_&Hn). unfold Spec.refused. rewrite <- !app_assoc, app_assoc. simpl.
    by rewrite first_word_blank.
Qed.

Lemma wrel_strip acc body x :
  body ≠ [] → List.last body NUL = BACKSLASH →
  collected acc body [] x → length x.1.2 = word_size →
  wrel (acc ++ removelast body) (strip x).
Proof.
  intros Hb Hl Hc Hw. destruct (exists_last Hb) as (q & c & ->).
  rewrite List.last_last in Hl. rewrite removelast_last. subst c.
  destruct Hc as [wl w _ Hi|wl w Hd|wl w Hn Hi]; simpl in *; [|split; [done|]|done].
  - destruct Hi as (_ & Hlen & Hle & Ht & Hn). rewrite app_assoc in *.
    set (a := acc ++ q) in *. rewrite length_app in Hlen. simpl in Hlen.
    rewrite bool_decide_eq_true_2 by lia.
    assert (Hnth : w !! (wl - 1)%nat = Some BACKSLASH).
    { rewrite <- (lookup_take_lt _ wl) by lia. rewrite Ht, lookup_app_r by lia.
      by replace (wl - 1 - length a)%nat with 0%nat by lia. }
    assert (nth (wl - 1) w NUL = BACKSLASH) as -> by (by apply nth_lookup_Some).
    simpl. split; [done|]. apply Forall_app in Hn as [Hn _]. unfold winv.
    split_and!; try done; try lia.
    replace (wl - 1)%nat with (length a) by lia.
    rewrite <- (take_app_length a [BACKSLASH]) at 2. rewrite <- Ht, take_take. f_equal. lia.
  - intros ext. rewrite <- app_assoc. specialize (Hd ext). by rewrite removelast_last in Hd.
Qed.

(** ** Line by line *)

Definition rel (s : coraza_rules_scan_t) (p : Spec.state) : Prop :=
  first s = NUL ∧ last s = NUL ∧ in_backticks s = Spec.ticks p
  ∧ in_record s = bool_decide (is_Some (Spec.open p))
  ∧ (in_record s = false → wlen s = 0%nat ∧ word_done s = false ∧ Spec.ticks p = false)
  ∧ let '(start, acc) := default (line s, []) (Spec.open p) in
    (in_record s = true → rec_line s = start)
    ∧ wrel acc (wlen s, word s, word_done s)
    ∧ (Spec.ticks p = true → TICK ∈ acc).

Lemma wrel_nil w : length w = word_size → wrel [] (0%nat, w, false).
Proof. intros Hw. split; [done|]. unfold winv. simpl. split_and!; done || lia. Qed.

Lemma rel_init : rel coraza_rules_scan_init (Spec.State None false).
Proof.
  unfold rel; simpl. split_and!; try done.
  by apply wrel_nil.
Qed.

Lemma last_In (l : bytes) d : l ≠ [] → List.last l d ∈ l.
Proof.
  intros H. destruct (exists_last H) as (q & c & ->). rewrite List.last_last.
  apply elem_of_app; right. by apply list_elem_of_singleton.
Qed.

Lemma hd_In (l : bytes) d : l ≠ [] → hd d l ∈ l.
Proof. destruct l; [done|]. intros _. by left. Qed.

Lemma step_sim raw s p :
  rel s p → NUL ∉ raw →
  let '(bad, s') := line_end (scan_line raw s) in
  match Spec.step Spec.as_written (line s) raw p with
  | Spec.Found d start => bad = Some d ∧ rec_line s' = start
  | Spec.Go p' => bad = None ∧ rel s' p' ∧ line s' = line s
  end.
Proof.
  destruct s as [ln rl ir bt wd f l wl w]. intros Hrel HN.
  pose proof Hrel as (Hf & Hl & Hbt & Hir & Hclosed & Hacc). cbn [first last in_backticks in_record wlen word word_done line rec_line] in *. subst f l bt.
  destruct (trim_trail raw) as (lead & trail & Eraw & Hlead & Htrail & Hbody & Hnotrail).
  rewrite (scan_line_trim raw lead (Spec.trim raw) trail) by done.
  unfold Spec.step, Spec.as_written.
  destruct (Spec.trim raw) as [|c b] eqn:Etrim.
  { simpl. split_and!; done. }
  unfold Spec.ignored. destruct (decide (c = HASH)) as [Hc|Hc].
  { rewrite bool_decide_eq_true_2 by done. unfold line_end.
    rewrite decide_True by auto. split_and!; try done. }
  rewrite bool_decide_eq_false_2 by done.
  destruct (default (ln, []) (Spec.open p)) as [start acc] eqn:Eopen.
  destruct Hacc as (Hstart & Hw & Htick).
  assert (c ≠ NUL) as HcN.
  { intros ->. apply HN. rewrite Eraw. apply elem_of_app; right. apply elem_of_app; left. by left. }
  destruct (Hbody ltac:(done)) as [Hh Hl].
  destruct (collect_cases acc (c :: b) trail (wl, w, wd)) as [Hcol Hlen]; try done.
  destruct (collect ((c :: b) ++ trail) (wl, w, wd)) as [[wl' w'] wd'] eqn:Ecol.
  set (body := c :: b) in *. simpl in Hlen.
  assert (Hrl : (if ir then rl else ln) = start).
  { destruct ir; [by apply Hstart|]. symmetry in Hir. apply bool_decide_eq_false in Hir.
    destruct (Spec.open p); [destruct Hir; eauto|]. by injection Eopen. }
  unfold line_end. rewrite decide_False by (by intros [|]).
  change (hd NUL body) with c. set (e := List.last body NUL) in *.
  assert ((if negb (Spec.ticks p) && bool_decide (e = TICK) then true
           else if Spec.ticks p && bool_decide (c = TICK) then false else Spec.ticks p)
          = (if Spec.ticks p then bool_decide (c ≠ TICK) else bool_decide (e = TICK))) as ->.
  { destruct (Spec.ticks p); simpl; [rewrite bool_decide_not; by destruct (bool_decide (c = TICK))
    |by destruct (bool_decide (e = TICK))]. }
  set (bt' := if Spec.ticks p then _ else _).
  destruct bt' eqn:Ebt.
  - assert (TICK ∈ acc ++ body) as Hin.
    { apply elem_of_app. subst bt'. destruct (Spec.ticks p); [left; auto|right].
      apply bool_decide_eq_true in Ebt. rewrite <- Ebt. by apply last_In. }
    split_and!; try done. unfold rel; simpl. split_and!; try done.
    exact (proj2 (wrel_body acc body trail (wl', w', wd') Hcol Hlen Hin)).
  - case_decide as He.
    + split_and!; try done. unfold rel; simpl. split_and!; try done.
      destruct (bool_decide (Spec.trim_end raw = raw)) eqn:Htr;
        [apply bool_decide_eq_true in Htr|apply bool_decide_eq_false in Htr].
      * apply Hnotrail in Htr as ->; [|done].
        exact (proj2 (wrel_strip acc body (wl', w', wd') ltac:(done) He Hcol Hlen)).
      * assert (trail ≠ []) as Hne by (intros E; apply Htr; by apply Hnotrail).
        exact (proj2 (wrel_cut acc body trail (wl', w', wd') ltac:(done) Hne Hcol Hlen)).
    + rewrite scan_word_verdict. cbn [wlen word].
      rewrite (verdict_body acc body trail wl' w' wd' Hcol).
      destruct (Spec.refused (acc ++ body)) as [d|]; simpl; [done|].
      split_and!; try done. unfold rel; simpl. split_and!; try done.
      exact (proj2 (wrel_nil w' Hlen)).
Qed.

(** ** The whole text *)

Lemma lines_cut t :
  ((NL ∉ t) ∧ Spec.lines t = [t])
  ∨ (∃ l r, t = l ++ NL :: r ∧ (NL ∉ l) ∧ Spec.lines t = l :: Spec.lines r).
Proof.
  induction t as [|c t IH]; [left; split; [apply not_elem_of_nil|done]|].
  simpl. case_decide as Hc.
  - right. exists [], t. subst c. split_and!; [done|apply not_elem_of_nil|done].
  - destruct IH as [[Ht ->]|(l & r & -> & Hl & ->)].
    + left. split; [|done]. by apply not_elem_of_cons.
    + right. exists (c :: l), r. split_and!; [done| |done]. by apply not_elem_of_cons.
Qed.

(** The result of a scan followed, when nothing was found, by [done]. *)
Definition finish (r : option string * coraza_rules_scan_t)
  : option string * coraza_rules_scan_t :=
  match r with (Some bad, s) => (Some bad, s) | (None, s) => text_end s end.
Definition report (r : option string * coraza_rules_scan_t) : option (string * Z) :=
  let '(bad, s) := r in (λ d, (d, rec_line s)) <$> bad.

Lemma scan_all_finish t : scan_all t = Some (finish (feed t coraza_rules_scan_init)).
Proof.
  unfold scan_all, finish. destruct (scan_is_feed t _ init_bounded) as [-> Hb]. simpl.
  destruct (feed t _) as [[bad|] s]; [done|]. by apply scan_done_end.
Qed.

Lemma done_sim s p :
  rel s p →
  (if in_backticks s then (λ d, (d, rec_line s)) <$> coraza_rules_scan_word s else None)
  = Spec.scan_lines Spec.as_written 0 [] p.
Proof.
  intros (_ & _ & -> & Hir & Hclosed & Hacc). simpl.
  destruct (Spec.ticks p) eqn:Et; [|by destruct (Spec.open p) as [[? ?]|]].
  destruct (Spec.open p) as [[start acc]|] eqn:Eo.
  - rewrite bool_decide_eq_true_2 in Hir by eauto. simpl in *. destruct Hacc as (Hs & [_ Hw] & _).
    rewrite (Hs Hir), scan_word_verdict. f_equal.
    destruct (word_done s).
    + specialize (Hw []). by rewrite app_nil_r in Hw.
    + exact (proj1 (verdict_winv _ _ _ Hw)).
  - rewrite bool_decide_eq_false_2 in Hir by by intros []. destruct (Hclosed Hir) as (_ & _ & ?). done.
Qed.

Lemma rel_next_line s p n : rel s p →
  let 'Scan ln rl ir bt wd f l wl w := s in rel (Scan n rl ir bt wd f l wl w) p.
Proof.
  destruct s as [ln rl ir bt wd f l wl w]. unfold rel; simpl.
  intros (?&?&?&Hir&?&Hacc). split_and!; try done.
  destruct (Spec.open p) as [[start acc]|]; simpl in *; [done|].
  split; [|by apply Hacc]. intros ->. discriminate Hir.
Qed.

Lemma scan_sim t : ∀ s p,
  rel s p → NUL ∉ t →
  report (finish (feed t s)) = Spec.scan_lines Spec.as_written (line s) (Spec.lines t) p.
Proof.
  induction t as [t IH] using (well_founded_ind (Wf_nat.well_founded_ltof _ (@length ascii))).
  unfold Wf_nat.ltof in IH.
  intros s p Hrel HN.
  destruct (lines_cut t) as [[Hnl E]|(l & r & -> & Hnl & E)]; rewrite E in *.
  - rewrite <- (app_nil_r t), scan_feed, app_nil_r by done. cbn [feed finish].
    pose proof (step_sim t s p Hrel HN) as Hstep. unfold text_end.
    destruct (line_end _) as [bad s']. cbn [Spec.scan_lines].
    destruct (Spec.step _ _ t p) as [d start|p']; [by destruct Hstep as [-> <-]|].
    destruct Hstep as (-> & Hrel' & _). etransitivity; [|apply (done_sim _ _ Hrel')].
    by destruct (in_backticks s').
  - rewrite scan_feed by done. cbn [feed Spec.scan_lines].
    rewrite decide_True by done.
    assert ((NUL ∉ l) ∧ (NUL ∉ r)) as [HNl HNr].
    { rewrite elem_of_app, elem_of_cons in HN. tauto. }
    pose proof (step_sim l s p Hrel HNl) as Hstep.
    destruct (line_end _) as [bad s'].
    destruct (Spec.step _ _ l p) as [d start|p']; [by destruct Hstep as [-> <-]|].
    destruct Hstep as (-> & Hrel' & Hline).
    pose proof (rel_next_line s' p' (wrap32 (line s + 1)) Hrel') as Hrel''.
    destruct s' as [ln rl ir bt wd f q wl w]. simpl in Hline. subst ln.
    rewrite IH with (p := p'); try done. rewrite length_app; simpl; lia.
Qed.

(** On tidy lines the two readings of a continuation are the same. *)
Lemma step_tidy n raw p :
  Spec.tidy_line raw → Spec.step Spec.as_written n raw p = Spec.step Spec.documented n raw p.
Proof.
  unfold Spec.tidy_line, Spec.step, Spec.as_written, Spec.documented. intros Ht.
  destruct (Spec.ignored (Spec.trim raw)); [done|]. destruct (default _ _) as [start acc].
  destruct (if Spec.ticks p then _ else _); [done|]. case_decide as He; [|done].
  by rewrite bool_decide_eq_true_2 by auto.
Qed.

Lemma scan_lines_tidy ls : Forall Spec.tidy_line ls → ∀ n p,
  Spec.scan_lines Spec.as_written n ls p = Spec.scan_lines Spec.documented n ls p.
Proof.
  induction 1 as [|l ls Hl _ IH]; intros n p; [done|]. simpl. rewrite step_tidy by done.
  destruct (Spec.step _ n l p); [done|]. apply IH.
Qed.

(** ** Chunks *)

Lemma scan_app a b s :
  coraza_rules_scan (a ++ b) s
  = ('(bad, s') ← coraza_rules_scan a s;
     match bad with Some bad => Some (Some bad, s') | None => coraza_rules_scan b s' end).
Proof.
  revert s. induction a as [|c a IH]; intros s; [done|]. simpl. case_decide.
  - destruct (coraza_rules_scan_eol s) as [[[bad|] []]|]; [done|apply IH|done].
  - destruct (scan_byte c s); [apply IH|done].
Qed.

Lemma file_loop_concat chunks s :
  file_loop chunks true s
  = ('(bad, s') ← coraza_rules_scan (mjoin chunks) s;
     match bad with Some bad => Some (Some bad, s') | None => coraza_rules_scan_done s' end).
Proof.
  revert s. induction chunks as [|b chunks IH]; intros s; [done|]. simpl.
  rewrite scan_app. destruct (coraza_rules_scan b s) as [[[bad|] s']|]; [done|apply IH|done].
Qed.

(** The two checks never touch memory outside the array. *)
Lemma check_rules_text_defined name text : is_Some (coraza_check_rules_text name text).
Proof.
  unfold coraza_check_rules_text. rewrite scan_all_finish. simpl. by destruct (finish _).
Qed.
Lemma file_loop_defined chunks eof : ∀ s, scan_bounded s → is_Some (file_loop chunks eof s).
Proof.
  induction chunks as [|b chunks IH]; intros s Hs; simpl.
  - destruct eof; [rewrite scan_done_end by done|]; by eexists.
  - destruct (scan_is_feed b s Hs) as [-> Hb]. simpl. destruct (feed b s) as [[bad|] s']; [by eexists|].
    by apply IH.
Qed.
Lemma check_rules_file_defined `{ConfigFiles} path : is_Some (coraza_check_rules_file path).
Proof.
  unfold coraza_check_rules_file. destruct (ap_server_root_relative path) as [full|]; [|by eexists].
  destruct (apr_file full) as [[chunks eof]|]; [|by eexists].
  destruct (file_loop_defined chunks eof _ init_bounded) as [[bad s] ->]. simpl. by eexists.
Qed.

(** ** Properties *)

(** C25: the streaming scan with its bounded state decides exactly what a
    line-by-line assembly of records decides, with the same directive and the
    same starting line, for every text without a NUL byte: trim the line, skip
    blank and comment lines, join backslash continuations and backtick action
    lists, compare the first word case-insensitively.  The assembly it equals
    for all of them joins a continuation [as_written]: a blank after the
    backslash ends the word there; when no line has such a blank, this is the
    documented assembly, which just drops the backslash. *)
Theorem scan_equals_record_assembly t :
  NUL ∉ t →
  report <$> scan_all t = Some (Spec.scan_as_written t)
  ∧ (Forall Spec.tidy_line (Spec.lines t) → report <$> scan_all t = Some (Spec.scan t)).
Proof.
  intros HN. assert (report <$> scan_all t = Some (Spec.scan_as_written t)) as H.
  { rewrite scan_all_finish. simpl. f_equal. by apply scan_sim; [apply rel_init|]. }
  split; [done|]. intros Ht. rewrite H. f_equal. by apply scan_lines_tidy.
Qed.

(** C31: reading a rules file in chunks gives the same verdict as scanning the
    whole file at once, wherever the reads split it; so a readable file is
    refused iff its whole content is, with the line where the refused record
    starts, and the path handed on is the resolved one. *)
Theorem rules_file_check_chunk_independent `{ConfigFiles} path full chunks :
  ap_server_root_relative path = Some full →
  apr_file full = Some (chunks, true) →
  ∃ verdict, report <$> scan_all (mjoin chunks) = Some verdict
    ∧ coraza_check_rules_file path =
      Some (match verdict with
            | None => None
            | Some (bad, ln) => Some (ErrUnsupportedFile bad full ln)
            end, full).
Proof.
  intros Hp Hf. unfold coraza_check_rules_file. rewrite Hp, Hf, file_loop_concat, scan_all_finish.
  destruct (scan_is_feed (mjoin chunks) _ init_bounded) as [-> Hb]. simpl. eexists. split; [done|].
  destruct (feed (mjoin chunks) coraza_rules_scan_init) as [[bad|] s]; simpl in *; [done|].
  rewrite scan_done_end by done. simpl. by destruct (text_end s) as [[bad|] s'].
Qed.

(** C32: every access to the 32-byte word array is inside it, whatever bytes are
    fed: from a state whose cursor is within the array the scan is defined (a
    store or a load outside is not), so is the end of the input after it, and the
    state it leaves is again within its bounds, the line counter being a 32-bit
    value. *)
Theorem scan_state_bounded p s :
  length (word s) = word_size → (wlen s ≤ word_size)%nat → 0 ≤ line s < 2 ^ 32 →
  ∃ bad s', coraza_rules_scan p s = Some (bad, s') ∧ scan_bounded s'
    ∧ is_Some (coraza_rules_scan_done s').
Proof.
  intros H1 H2 H3. destruct (scan_is_feed p s) as [E Hb]; [done|].
  destruct (feed p s) as [bad s'] eqn:Ef. exists bad, s'. split_and!; [done|done|].
  rewrite scan_done_end by done. by eexists.
Qed.

(** A blank after a trailing backslash hides a refused directive from the scan:
    the documented assembly trims the line, joins "SecRemote" to "Rules" and
    refuses the record, while the scan accepts the text. *)
Example scan_misses_blank_after_backslash :
  let text := bytes_of "SecRemote\ " ++ NL :: bytes_of "Rules key https://example.org/rules" in
  report <$> scan_all text = Some None ∧ Spec.scan text = Some ("SecRemoteRules"%string, 1).
Proof. split; vm_compute; reflexivity. Qed.

Definition sample_rules : bytes :=
  bytes_of "# comment" ++ NL :: bytes_of "SecRule ARGS x \" ++ NL :: bytes_of "  id:1" ++ NL ::
  bytes_of " secremote\" ++ NL :: bytes_of "RULES key https://example.org".

#[export] Instance sample_files : ConfigFiles := {|
  ap_server_root_relative p := Some (String.append "/etc/httpd/" p);
  apr_file _ := Some ([take 20 sample_rules; drop 20 sample_rules], true) |}.

Lemma scan_equals_record_assembly_witness :
  report <$> scan_all sample_rules = Some (Some ("SecRemoteRules"%string, 4)).
Proof.
  destruct (scan_equals_record_assembly sample_rules) as [_ H].
  - refine (bool_decide_unpack _ _). vm_compute. exact I.
  - rewrite H; [vm_compute; reflexivity|].
    repeat constructor; intros E; vm_compute in E |- *; reflexivity || discriminate E.
Defined.

Lemma rules_file_check_chunk_independent_witness :
  coraza_check_rules_file "rules.conf" =
    Some (Some (ErrUnsupportedFile "SecRemoteRules" "/etc/httpd/rules.conf" 4), "/etc/httpd/rules.conf"%string).
Proof.
  destruct (rules_file_check_chunk_independent "rules.conf" "/etc/httpd/rules.conf"
             [take 20 sample_rules; drop 20 sample_rules]) as (v & Hv & ->);
    [reflexivity|reflexivity|].
  vm_compute in Hv. injection Hv as <-. reflexivity.
Defined.

Lemma scan_state_bounded_witness :
  ∃ bad s', coraza_rules_scan sample_rules coraza_rules_scan_init = Some (bad, s') ∧ scan_bounded s'.
Proof.
  destruct (scan_state_bounded sample_rules coraza_rules_scan_init) as (bad & s' & E & Hb & _).
  - reflexivity.
  - simpl. lia.
  - simpl. lia.
  - exists bad, s'. split; [exact E|exact Hb].
Defined.
