(* ===== verification/Types.v ===== *)
(** * Data model

    src/mod_coraza.h: the configuration records, the per-request context, the
    constants and the result tests; and the httpd values they are built from
    (status codes, buckets and brigades).

    Representation: a pointer to an APR-allocated object is a [nat] key into
    the stores of [World]; NULL is [None] of an [option nat].  An
    [apr_array_header_t] is the list of its elements, a brigade is the list of
    its buckets.  Handles of libcoraza ([coraza_waf_t], ...) are [Z], 0 being
    the invalid one.  Flags that only ever hold 0 and 1 are [bool]. *)
From S2P Require Import Prelude.
Local Open Scope Z_scope.

(** ** httpd and APR constants *)
Definition OK : Z := 0.
Definition DECLINED : Z := -1.
Definition DONE : Z := -2.
Definition HTTP_OK : Z := 200.
Definition HTTP_CREATED : Z := 201.
Definition HTTP_NO_CONTENT : Z := 204.
Definition HTTP_BAD_REQUEST : Z := 400.
Definition HTTP_FORBIDDEN : Z := 403.
Definition HTTP_INTERNAL_SERVER_ERROR : Z := 500.
Definition HTTP_VERSION (major minor : Z) : Z := 1000 * major + minor.

Inductive apr_status :=
| APR_SUCCESS | APR_INCOMPLETE | APR_EGENERAL | APR_ECONNABORTED
| AP_FILTER_ERROR | APR_OTHER (rv : Z).

#[export] Instance apr_status_eq_dec : EqDecision apr_status.
Proof. solve_decision. Defined.

(** ** Buckets

    A data bucket holds the bytes [apr_bucket_read] delivers for it and where
    they live: on the heap, in a file, or in memory that its producer reuses
    once the filter call returns ([Transient]).  A bucket that a read would
    split (file, pipe) is represented by the successive pieces.  [Unreadable]
    is a bucket whose read fails. *)
Inductive storage := Heap | File | Transient.

Inductive bucket :=
| Data (k : storage) (d : bytes)
| Unreadable (rv : apr_status)
| Eos
| Meta (kind : Z).

Abbreviation brigade := (list bucket).

#[export] Instance storage_eq_dec : EqDecision storage.
Proof. solve_decision. Defined.
#[export] Instance bucket_eq_dec : EqDecision bucket.
Proof. solve_decision. Defined.

(** ** Build-time constants *)
Definition CORAZA_DEFAULT_BODY_MEM_LIMIT : Z := 128 * 1024.
Definition CORAZA_BODY_READ_CHUNK : Z := 64 * 1024.
Definition CORAZA_MAX_DELAYED_BODY : Z := 1024 * 1024.

(** ** Deferred rules *)
Inductive coraza_rule_type_e := CORAZA_RULE_INLINE | CORAZA_RULE_FILE.

#[export] Instance coraza_rule_type_e_eq_dec : EqDecision coraza_rule_type_e.
Proof. solve_decision. Defined.

Record coraza_rule_entry_t := Rule { rule_type : coraza_rule_type_e; rule_value : string }.

#[export] Instance coraza_rule_entry_t_eq_dec : EqDecision coraza_rule_entry_t.
Proof. solve_decision. Defined.

(** [coraza_dir_conf_t].  [enable] is -1 (unset), 0 or 1; [body_mem_limit] is
    -1 when unset; [rules] points to the rule array. *)
Record coraza_dir_conf_t := DirConf {
  enable : Z;
  has_rules : bool;
  rules : nat;
  transaction_id : option string;
  body_mem_limit : Z;
  waf : Z;
  merge_child : option nat }.
Definition set_enable (f : (Z) → (Z)) (r : coraza_dir_conf_t) : coraza_dir_conf_t :=
  DirConf (f (enable r)) (has_rules r) (rules r) (transaction_id r) (body_mem_limit r) (waf r) (merge_child r).
Definition set_has_rules (f : (bool) → (bool)) (r : coraza_dir_conf_t) : coraza_dir_conf_t :=
  DirConf (enable r) (f (has_rules r)) (rules r) (transaction_id r) (body_mem_limit r) (waf r) (merge_child r).
Definition set_rules (f : (nat) → (nat)) (r : coraza_dir_conf_t) : coraza_dir_conf_t :=
  DirConf (enable r) (has_rules r) (f (rules r)) (transaction_id r) (body_mem_limit r) (waf r) (merge_child r).
Definition set_transaction_id (f : (option string) → (option string)) (r : coraza_dir_conf_t) : coraza_dir_conf_t :=
  DirConf (enable r) (has_rules r) (rules r) (f (transaction_id r)) (body_mem_limit r) (waf r) (merge_child r).
Definition set_body_mem_limit (f : (Z) → (Z)) (r : coraza_dir_conf_t) : coraza_dir_conf_t :=
  DirConf (enable r) (has_rules r) (rules r) (transaction_id r) (f (body_mem_limit r)) (waf r) (merge_child r).
Definition set_waf (f : (Z) → (Z)) (r : coraza_dir_conf_t) : coraza_dir_conf_t :=
  DirConf (enable r) (has_rules r) (rules r) (transaction_id r) (body_mem_limit r) (f (waf r)) (merge_child r).
Definition set_merge_child (f : (option nat) → (option nat)) (r : coraza_dir_conf_t) : coraza_dir_conf_t :=
  DirConf (enable r) (has_rules r) (rules r) (transaction_id r) (body_mem_limit r) (waf r) (f (merge_child r)).

(** [coraza_server_conf_t], [dir_confs] being created and never used. *)
Record coraza_server_conf_t := ServerConf {
  s_rules : nat;
  s_dir_confs : list nat;
  s_waf : Z;
  rules_inline : Z;
  rules_file : Z }.
Definition set_s_rules (f : (nat) → (nat)) (r : coraza_server_conf_t) : coraza_server_conf_t :=
  ServerConf (f (s_rules r)) (s_dir_confs r) (s_waf r) (rules_inline r) (rules_file r).
Definition set_s_dir_confs (f : (list nat) → (list nat)) (r : coraza_server_conf_t) : coraza_server_conf_t :=
  ServerConf (s_rules r) (f (s_dir_confs r)) (s_waf r) (rules_inline r) (rules_file r).
Definition set_s_waf (f : (Z) → (Z)) (r : coraza_server_conf_t) : coraza_server_conf_t :=
  ServerConf (s_rules r) (s_dir_confs r) (f (s_waf r)) (rules_inline r) (rules_file r).
Definition set_rules_inline (f : (Z) → (Z)) (r : coraza_server_conf_t) : coraza_server_conf_t :=
  ServerConf (s_rules r) (s_dir_confs r) (s_waf r) (f (rules_inline r)) (rules_file r).
Definition set_rules_file (f : (Z) → (Z)) (r : coraza_server_conf_t) : coraza_server_conf_t :=
  ServerConf (s_rules r) (s_dir_confs r) (s_waf r) (rules_inline r) (f (rules_file r)).

(** [coraza_request_ctx_t]. *)
Record coraza_request_ctx_t := RequestCtx {
  transaction : Z;
  pending_brigade : option brigade;
  pending_len : Z;
  headers_delayed : bool;
  phase2_done : bool;
  saved_body : option brigade;
  phase3_done : bool;
  phase4_done : bool;
  logged : bool;
  intervention_triggered : bool;
  response_body_processable : bool;
  drop_connection : bool }.
Definition set_transaction (f : (Z) → (Z)) (r : coraza_request_ctx_t) : coraza_request_ctx_t :=
  RequestCtx (f (transaction r)) (pending_brigade r) (pending_len r) (headers_delayed r) (phase2_done r) (saved_body r) (phase3_done r) (phase4_done r) (logged r) (intervention_triggered r) (response_body_processable r) (drop_connection r).
Definition set_pending_brigade (f : (option brigade) → (option brigade)) (r : coraza_request_ctx_t) : coraza_request_ctx_t :=
  RequestCtx (transaction r) (f (pending_brigade r)) (pending_len r) (headers_delayed r) (phase2_done r) (saved_body r) (phase3_done r) (phase4_done r) (logged r) (intervention_triggered r) (response_body_processable r) (drop_connection r).
Definition set_pending_len (f : (Z) → (Z)) (r : coraza_request_ctx_t) : coraza_request_ctx_t :=
  RequestCtx (transaction r) (pending_brigade r) (f (pending_len r)) (headers_delayed r) (phase2_done r) (saved_body r) (phase3_done r) (phase4_done r) (logged r) (intervention_triggered r) (response_body_processable r) (drop_connection r).
Definition set_headers_delayed (f : (bool) → (bool)) (r : coraza_request_ctx_t) : coraza_request_ctx_t :=
  RequestCtx (transaction r) (pending_brigade r) (pending_len r) (f (headers_delayed r)) (phase2_done r) (saved_body r) (phase3_done r) (phase4_done r) (logged r) (intervention_triggered r) (response_body_processable r) (drop_connection r).
Definition set_phase2_done (f : (bool) → (bool)) (r : coraza_request_ctx_t) : coraza_request_ctx_t :=
  RequestCtx (transaction r) (pending_brigade r) (pending_len r) (headers_delayed r) (f (phase2_done r)) (saved_body r) (phase3_done r) (phase4_done r) (logged r) (intervention_triggered r) (response_body_processable r) (drop_connection r).
Definition set_saved_body (f : (option brigade) → (option brigade)) (r : coraza_request_ctx_t) : coraza_request_ctx_t :=
  RequestCtx (transaction r) (pending_brigade r) (pending_len r) (headers_delayed r) (phase2_done r) (f (saved_body r)) (phase3_done r) (phase4_done r) (logged r) (intervention_triggered r) (response_body_processable r) (drop_connection r).
Definition set_phase3_done (f : (bool) → (bool)) (r : coraza_request_ctx_t) : coraza_request_ctx_t :=
  RequestCtx (transaction r) (pending_brigade r) (pending_len r) (headers_delayed r) (phase2_done r) (saved_body r) (f (phase3_done r)) (phase4_done r) (logged r) (intervention_triggered r) (response_body_processable r) (drop_connection r).
Definition set_phase4_done (f : (bool) → (bool)) (r : coraza_request_ctx_t) : coraza_request_ctx_t :=
  RequestCtx (transaction r) (pending_brigade r) (pending_len r) (headers_delayed r) (phase2_done r) (saved_body r) (phase3_done r) (f (phase4_done r)) (logged r) (intervention_triggered r) (response_body_processable r) (drop_connection r).
Definition set_logged (f : (bool) → (bool)) (r : coraza_request_ctx_t) : coraza_request_ctx_t :=
  RequestCtx (transaction r) (pending_brigade r) (pending_len r) (headers_delayed r) (phase2_done r) (saved_body r) (phase3_done r) (phase4_done r) (f (logged r)) (intervention_triggered r) (response_body_processable r) (drop_connection r).
Definition set_intervention_triggered (f : (bool) → (bool)) (r : coraza_request_ctx_t) : coraza_request_ctx_t :=
  RequestCtx (transaction r) (pending_brigade r) (pending_len r) (headers_delayed r) (phase2_done r) (saved_body r) (phase3_done r) (phase4_done r) (logged r) (f (intervention_triggered r)) (response_body_processable r) (drop_connection r).
Definition set_response_body_processable (f : (bool) → (bool)) (r : coraza_request_ctx_t) : coraza_request_ctx_t :=
  RequestCtx (transaction r) (pending_brigade r) (pending_len r) (headers_delayed r) (phase2_done r) (saved_body r) (phase3_done r) (phase4_done r) (logged r) (intervention_triggered r) (f (response_body_processable r)) (drop_connection r).
Definition set_drop_connection (f : (bool) → (bool)) (r : coraza_request_ctx_t) : coraza_request_ctx_t :=
  RequestCtx (transaction r) (pending_brigade r) (pending_len r) (headers_delayed r) (phase2_done r) (saved_body r) (phase3_done r) (phase4_done r) (logged r) (intervention_triggered r) (response_body_processable r) (f (drop_connection r)).

(** [apr_pcalloc] of a context. *)
Definition zero_ctx : coraza_request_ctx_t :=
  RequestCtx 0 None 0 false false None false false false false false false.

(** ** Result tests *)
Definition CORAZA_CALL_FAILED (rc : Z) : bool := bool_decide (rc ≠ 0).
Definition coraza_process_failed (rc : Z) : bool := bool_decide (rc < 0).
