(* ===== verification/World.v ===== *)
(** * The world

    What the handlers act on and call: the symbols of libcoraza and the calls
    made through them, the httpd records they read and write, the process-wide
    state of the module, and the interfaces of the code that is not in this
    repository ([Dynlib], [Libcoraza], [Httpd]), whose own state is an abstract
    type [X] threaded through every call.  [trace] is a ghost log of the calls
    out of the module, in order. *)
From S2P Require Import Prelude Types.
Local Open Scope Z_scope.

(** ** libcoraza *)

(** [coraza_intervention_t], as far as the module reads it. *)
Record coraza_intervention_t := Intervention {
  action : option string; it_status : Z; it_data : option string; rule_id : Z }.

(** The exported functions the module resolves. *)
Inductive dl_fn :=
| new_waf_config | rules_add | rules_add_file | free_waf_config | new_waf | free_waf
| free_string | rules_count | rules_merge | new_transaction | new_transaction_with_id
| free_transaction | intervention | free_intervention | process_connection | process_uri
| add_request_header | add_request_headers | process_request_headers | append_request_body
| process_request_body | add_response_header | add_response_headers | append_response_body
| process_response_body | process_response_headers | process_logging | update_status_code
| add_get_args | is_response_body_processable | is_request_body_accessible
| is_response_body_accessible.

#[export] Instance dl_fn_eq_dec : EqDecision dl_fn.
Proof. solve_decision. Defined.

(** A call to one of the functions that return an [int] or a handle. *)
Inductive call :=
| NewWafConfig
| RulesAdd (c : Z) (directives : string)
| RulesAddFile (c : Z) (file : string)
| FreeWafConfig (c : Z)
| FreeWaf (w : Z)
| FreeString (s : string)
| RulesCount (w : Z)
| NewTransaction (w : Z)
| NewTransactionWithId (w : Z) (id : string)
| FreeTransaction (t : Z)
| FreeIntervention (it : coraza_intervention_t)
| ProcessConnection (t : Z) (addr : string) (client_port : Z) (server : string) (server_port : Z)
| ProcessUri (t : Z) (uri method proto : string)
| AddRequestHeader (t : Z) (name : bytes) (name_len : Z) (value : bytes) (value_len : Z)
| AddRequestHeaders (t : Z) (packed : bytes) (packed_len count : Z)
| ProcessRequestHeaders (t : Z)
| AppendRequestBody (t : Z) (data : bytes) (length : Z)
| ProcessRequestBody (t : Z)
| AddResponseHeader (t : Z) (name : bytes) (name_len : Z) (value : bytes) (value_len : Z)
| AddResponseHeaders (t : Z) (packed : bytes) (packed_len count : Z)
| AppendResponseBody (t : Z) (data : bytes) (length : Z)
| ProcessResponseBody (t : Z)
| ProcessResponseHeaders (t : Z) (status : Z) (proto : string)
| ProcessLogging (t : Z)
| UpdateStatusCode (t : Z) (code : Z)
| AddGetArgs (t : Z) (name value : string)
| IsResponseBodyProcessable (t : Z)
| IsRequestBodyAccessible (t : Z)
| IsResponseBodyAccessible (t : Z).

(** The function a call goes to. *)
Definition fn_of (c : call) : dl_fn :=
  match c with
  | NewWafConfig => new_waf_config
  | RulesAdd _ _ => rules_add
  | RulesAddFile _ _ => rules_add_file
  | FreeWafConfig _ => free_waf_config
  | FreeWaf _ => free_waf
  | FreeString _ => free_string
  | RulesCount _ => rules_count
  | NewTransaction _ => new_transaction
  | NewTransactionWithId _ _ => new_transaction_with_id
  | FreeTransaction _ => free_transaction
  | FreeIntervention _ => free_intervention
  | ProcessConnection _ _ _ _ _ => process_connection
  | ProcessUri _ _ _ _ => process_uri
  | AddRequestHeader _ _ _ _ _ => add_request_header
  | AddRequestHeaders _ _ _ _ => add_request_headers
  | ProcessRequestHeaders _ => process_request_headers
  | AppendRequestBody _ _ _ => append_request_body
  | ProcessRequestBody _ => process_request_body
  | AddResponseHeader _ _ _ _ _ => add_response_header
  | AddResponseHeaders _ _ _ _ => add_response_headers
  | AppendResponseBody _ _ _ => append_response_body
  | ProcessResponseBody _ => process_response_body
  | ProcessResponseHeaders _ _ _ => process_response_headers
  | ProcessLogging _ => process_logging
  | UpdateStatusCode _ _ => update_status_code
  | AddGetArgs _ _ _ => add_get_args
  | IsResponseBodyProcessable _ => is_response_body_processable
  | IsRequestBodyAccessible _ => is_request_body_accessible
  | IsResponseBodyAccessible _ => is_response_body_accessible
  end.

(** ** httpd *)

(** An [apr_table_t]: its entries in order, [key] and [val] possibly NULL. *)
Abbreviation table := (list (option string * option string)).

Inductive input_mode :=
  AP_MODE_READBYTES | AP_MODE_GETLINE | AP_MODE_EATCRLF | AP_MODE_SPECULATIVE
| AP_MODE_EXHAUSTIVE | AP_MODE_INIT.

#[export] Instance input_mode_eq_dec : EqDecision input_mode.
Proof. solve_decision. Defined.

Inductive read_type := APR_BLOCK_READ | APR_NONBLOCK_READ.

Inductive log_level := APLOG_EMERG | APLOG_ERR | APLOG_WARNING | APLOG_NOTICE | APLOG_DEBUG.

(** [request_rec]: the fields the module reads or writes.  [r_ctx] is the
    module's slot of [r->request_config], [r_dir_conf] that of
    [r->per_dir_config]; [r_main] says whether [r->main] is non-NULL. *)
Record request_rec := Request {
  r_main : bool;
  r_prev : option nat;
  r_dir_conf : option nat;
  r_ctx : option nat;
  r_server : nat;
  r_useragent_port : option Z;
  r_useragent_ip : option string;
  r_proto_num : Z;
  r_protocol : option string;
  r_unparsed_uri : string;
  r_method : string;
  r_headers_in : table;
  r_headers_out : table;
  r_err_headers_out : table;
  r_content_type : option string;
  r_status : Z;
  r_header_only : bool;
  r_read_length : Z }.
Definition set_r_dir_conf (f : (option nat) → (option nat)) (r : request_rec) : request_rec :=
  Request (r_main r) (r_prev r) (f (r_dir_conf r)) (r_ctx r) (r_server r) (r_useragent_port r) (r_useragent_ip r) (r_proto_num r) (r_protocol r) (r_unparsed_uri r) (r_method r) (r_headers_in r) (r_headers_out r) (r_err_headers_out r) (r_content_type r) (r_status r) (r_header_only r) (r_read_length r).
Definition set_r_ctx (f : (option nat) → (option nat)) (r : request_rec) : request_rec :=
  Request (r_main r) (r_prev r) (r_dir_conf r) (f (r_ctx r)) (r_server r) (r_useragent_port r) (r_useragent_ip r) (r_proto_num r) (r_protocol r) (r_unparsed_uri r) (r_method r) (r_headers_in r) (r_headers_out r) (r_err_headers_out r) (r_content_type r) (r_status r) (r_header_only r) (r_read_length r).
Definition set_r_headers_out (f : (table) → (table)) (r : request_rec) : request_rec :=
  Request (r_main r) (r_prev r) (r_dir_conf r) (r_ctx r) (r_server r) (r_useragent_port r) (r_useragent_ip r) (r_proto_num r) (r_protocol r) (r_unparsed_uri r) (r_method r) (r_headers_in r) (f (r_headers_out r)) (r_err_headers_out r) (r_content_type r) (r_status r) (r_header_only r) (r_read_length r).
Definition set_r_status (f : (Z) → (Z)) (r : request_rec) : request_rec :=
  Request (r_main r) (r_prev r) (r_dir_conf r) (r_ctx r) (r_server r) (r_useragent_port r) (r_useragent_ip r) (r_proto_num r) (r_protocol r) (r_unparsed_uri r) (r_method r) (r_headers_in r) (r_headers_out r) (r_err_headers_out r) (r_content_type r) (f (r_status r)) (r_header_only r) (r_read_length r).
Definition set_r_read_length (f : (Z) → (Z)) (r : request_rec) : request_rec :=
  Request (r_main r) (r_prev r) (r_dir_conf r) (r_ctx r) (r_server r) (r_useragent_port r) (r_useragent_ip r) (r_proto_num r) (r_protocol r) (r_unparsed_uri r) (r_method r) (r_headers_in r) (r_headers_out r) (r_err_headers_out r) (r_content_type r) (r_status r) (r_header_only r) (f (r_read_length r)).

(** [conn_rec] of the client connection; [c_keepalive_close] is
    [keepalive == AP_CONN_CLOSE]. *)
Record conn_rec := Conn {
  c_local_port : option Z;
  c_local_ip : option string;
  c_keepalive_close : bool;
  c_aborted : bool }.
Definition set_c_keepalive_close (f : (bool) → (bool)) (r : conn_rec) : conn_rec :=
  Conn (c_local_port r) (c_local_ip r) (f (c_keepalive_close r)) (c_aborted r).
Definition set_c_aborted (f : (bool) → (bool)) (r : conn_rec) : conn_rec :=
  Conn (c_local_port r) (c_local_ip r) (c_keepalive_close r) (f (c_aborted r)).

(** [server_rec]: the module's slots of [module_config] and [lookup_defaults],
    and the <Directory> and <Location> vectors of the core module. *)
Record server_rec := Server {
  sv_conf : option nat;
  sv_lookup_defaults : option nat;
  sv_core : option (list (option nat) * list (option nat)) }.

(** [ap_filter_t]: the context it was added with, possibly NULL, and its
    request. *)
Record ap_filter_t := Filter { f_ctx : option nat; f_r : nat }.

(** ** Calls out of the module *)
Inductive event :=
| EvCall (c : call) (ret : Z)
| EvNewWaf (config waf : Z) (error : option string)
| EvRulesMerge (w1 w2 ret : Z) (error : option string)
| EvIntervention (t : Z) (it : option coraza_intervention_t)
| EvLog (level : log_level) (msg : string)
| EvLock
| EvUnlock
| EvCleanupRegister (c : nat)
| EvChildExitRegister
| EvAddOutputFilter (c r : nat)
| EvRemoveOutputFilter (f : ap_filter_t)
| EvAddInputFilter (c r : nat)
| EvRemoveInputFilter (f : ap_filter_t)
| EvGetBrigade (mode : input_mode) (readbytes : Z)
| EvPass (bb : brigade)
| EvDie (status prior : Z).

(** ** Process-wide state *)

(** The configuration store: rule arrays, per-directory and per-server
    records by address, the server list ([s->next]) and the two tracking
    arrays of src/mod_coraza.c. *)
Record config := Config {
  arrays : gmap nat (list coraza_rule_entry_t);
  dir_confs : gmap nat coraza_dir_conf_t;
  server_confs : gmap nat coraza_server_conf_t;
  servers : list server_rec;
  g_tracked_dir_confs : option (list nat);
  g_config_dir_confs : option (list nat) }.
Definition set_arrays (f : (gmap nat (list coraza_rule_entry_t)) → (gmap nat (list coraza_rule_entry_t))) (r : config) : config :=
  Config (f (arrays r)) (dir_confs r) (server_confs r) (servers r) (g_tracked_dir_confs r) (g_config_dir_confs r).
Definition set_dir_confs (f : (gmap nat coraza_dir_conf_t) → (gmap nat coraza_dir_conf_t)) (r : config) : config :=
  Config (arrays r) (f (dir_confs r)) (server_confs r) (servers r) (g_tracked_dir_confs r) (g_config_dir_confs r).
Definition set_server_confs (f : (gmap nat coraza_server_conf_t) → (gmap nat coraza_server_conf_t)) (r : config) : config :=
  Config (arrays r) (dir_confs r) (f (server_confs r)) (servers r) (g_tracked_dir_confs r) (g_config_dir_confs r).
Definition set_servers (f : (list server_rec) → (list server_rec)) (r : config) : config :=
  Config (arrays r) (dir_confs r) (server_confs r) (f (servers r)) (g_tracked_dir_confs r) (g_config_dir_confs r).
Definition set_g_tracked_dir_confs (f : (option (list nat)) → (option (list nat))) (r : config) : config :=
  Config (arrays r) (dir_confs r) (server_confs r) (servers r) (f (g_tracked_dir_confs r)) (g_config_dir_confs r).
Definition set_g_config_dir_confs (f : (option (list nat)) → (option (list nat))) (r : config) : config :=
  Config (arrays r) (dir_confs r) (server_confs r) (servers r) (g_tracked_dir_confs r) (f (g_config_dir_confs r)).

(** [waf_cache_entry_t]. *)
Record waf_cache_entry_t := CacheEntry {
  e_hash : Z;
  e_rules_nelts : Z;
  e_rules : list coraza_rule_entry_t;
  e_waf : Z }.

(** The WAF cache and its mutex: [None] is the NULL mutex, [Some locked]
    an initialised one.  The cache is the used prefix of the 64-entry array. *)
Record waf_state := WafState {
  g_waf_cache : list waf_cache_entry_t;
  g_waf_cache_pool : bool;
  g_waf_cache_full_logged : bool;
  g_waf_build_mutex : option bool }.
Definition set_g_waf_cache (f : (list waf_cache_entry_t) → (list waf_cache_entry_t)) (r : waf_state) : waf_state :=
  WafState (f (g_waf_cache r)) (g_waf_cache_pool r) (g_waf_cache_full_logged r) (g_waf_build_mutex r).
Definition set_g_waf_cache_pool (f : (bool) → (bool)) (r : waf_state) : waf_state :=
  WafState (g_waf_cache r) (f (g_waf_cache_pool r)) (g_waf_cache_full_logged r) (g_waf_build_mutex r).
Definition set_g_waf_cache_full_logged (f : (bool) → (bool)) (r : waf_state) : waf_state :=
  WafState (g_waf_cache r) (g_waf_cache_pool r) (f (g_waf_cache_full_logged r)) (g_waf_build_mutex r).
Definition set_g_waf_build_mutex (f : (option bool) → (option bool)) (r : waf_state) : waf_state :=
  WafState (g_waf_cache r) (g_waf_cache_pool r) (g_waf_cache_full_logged r) (f (g_waf_build_mutex r)).

(** src/mod_coraza_dl.c: whether [dl_handle] is non-NULL, and the function
    pointers: the function whose address each [dl_*] variable holds. *)
Record dl_state := DlState {
  dl_handle : bool;
  dl_ptrs : dl_fn → option dl_fn }.
Definition set_dl_handle (f : (bool) → (bool)) (r : dl_state) : dl_state :=
  DlState (f (dl_handle r)) (dl_ptrs r).
Definition set_dl_ptrs (f : (dl_fn → option dl_fn) → (dl_fn → option dl_fn)) (r : dl_state) : dl_state :=
  DlState (dl_handle r) (f (dl_ptrs r)).

Record world (X : Type) := World {
  env : X;
  trace : list event;
  dl : dl_state;
  cfg : config;
  wafs : waf_state;
  reqs : gmap nat request_rec;
  ctxs : gmap nat coraza_request_ctx_t;
  conn : conn_rec }.
Arguments World {X}.
Arguments env {X}.
Arguments trace {X}.
Arguments dl {X}.
Arguments cfg {X}.
Arguments wafs {X}.
Arguments reqs {X}.
Arguments ctxs {X}.
Arguments conn {X}.
Definition set_env {X} (f : (X) → (X)) (r : world X) : world X :=
  World (f (env r)) (trace r) (dl r) (cfg r) (wafs r) (reqs r) (ctxs r) (conn r).
Definition set_trace {X} (f : (list event) → (list event)) (r : world X) : world X :=
  World (env r) (f (trace r)) (dl r) (cfg r) (wafs r) (reqs r) (ctxs r) (conn r).
Definition set_dl {X} (f : (dl_state) → (dl_state)) (r : world X) : world X :=
  World (env r) (trace r) (f (dl r)) (cfg r) (wafs r) (reqs r) (ctxs r) (conn r).
Definition set_cfg {X} (f : (config) → (config)) (r : world X) : world X :=
  World (env r) (trace r) (dl r) (f (cfg r)) (wafs r) (reqs r) (ctxs r) (conn r).
Definition set_wafs {X} (f : (waf_state) → (waf_state)) (r : world X) : world X :=
  World (env r) (trace r) (dl r) (cfg r) (f (wafs r)) (reqs r) (ctxs r) (conn r).
Definition set_reqs {X} (f : (gmap nat request_rec) → (gmap nat request_rec)) (r : world X) : world X :=
  World (env r) (trace r) (dl r) (cfg r) (wafs r) (f (reqs r)) (ctxs r) (conn r).
Definition set_ctxs {X} (f : (gmap nat coraza_request_ctx_t) → (gmap nat coraza_request_ctx_t)) (r : world X) : world X :=
  World (env r) (trace r) (dl r) (cfg r) (wafs r) (reqs r) (f (ctxs r)) (conn r).
Definition set_conn {X} (f : (conn_rec) → (conn_rec)) (r : world X) : world X :=
  World (env r) (trace r) (dl r) (cfg r) (wafs r) (reqs r) (ctxs r) (f (conn r)).

(** ** Interfaces *)

(** The dynamic loader: opening libcoraza (non-NULL?), closing it, and whether it exports
    a symbol. *)
Class Dynlib (X : Type) := {
  lib_open : X → bool * X;
  lib_close : X → Z * X;
  lib_exports : dl_fn → X → bool;
  lib_exports_version_num : X → bool }.

(** libcoraza: what each call returns and does to its state. *)
Class Libcoraza (X : Type) := {
  lib_call : call → X → Z * X;
  lib_new_waf : Z → X → (Z * option string) * X;
  lib_rules_merge : Z → Z → X → (Z * option string) * X;
  lib_intervention : Z → X → option coraza_intervention_t * X;
  lib_version_num : X → Z * X }.

(** httpd and APR.  [request_body] is what the successive
    [ap_get_client_block] calls for the request deliver: the chunks, and
    whether the end is regular (0) or an error (-1).  Operations that move
    buckets return the brigades they leave, [ap_die] the request it leaves. *)
Class Httpd (X : Type) := {
  ap_setup_client_block : nat → X → Z * X;
  ap_should_client_block : nat → X → bool * X;
  request_body : nat → X → list bytes * bool;
  apr_brigade_write : brigade → bytes → X → (apr_status * brigade) * X;
  apr_temp_dir_get : X → apr_status * X;
  apr_file_mktemp : X → apr_status * X;
  apr_file_write_full : bytes → bytes → X → (apr_status * bytes) * X;
  apr_brigade_partition : brigade → Z → X → (apr_status * (brigade * brigade)) * X;
  apr_brigade_split_line : brigade → brigade → read_type → Z → X → (apr_status * (brigade * brigade)) * X;
  apr_bucket_copy : bucket → X → (apr_status * bucket) * X;
  ap_get_brigade : brigade → input_mode → read_type → Z → X → (apr_status * brigade) * X;
  ap_pass_brigade : brigade → X → (apr_status * brigade) * X;
  ap_save_brigade : brigade → brigade → X → (apr_status * (brigade * brigade)) * X;
  ap_die : Z → nat → request_rec → X → request_rec * X;
  apr_table_set : table → string → string → table }.

(** ** Primitive actions *)
Section actions.
Context {X : Type}.
Abbreviation W := (world X).

Definition emit (e : event) : M W unit := modify (set_trace (λ t, t ++ [e])).
Definition ap_log (level : log_level) (msg : string) : M W unit := emit (EvLog level msg).

(** A call into the environment. *)
Definition outside {A} (f : X → A * X) : M W A := λ w,
  let '(a, x) := f (env w) in Some (a, set_env (λ _, x) w).

(** Reading and writing through a pointer. *)
Definition get_ctx (c : nat) : M W coraza_request_ctx_t := deref (λ w, ctxs w !! c).
Definition get_req (r : nat) : M W request_rec := deref (λ w, reqs w !! r).
Definition get_dir (d : nat) : M W coraza_dir_conf_t := deref (λ w, dir_confs (cfg w) !! d).
Definition get_server_conf (s : nat) : M W coraza_server_conf_t :=
  deref (λ w, server_confs (cfg w) !! s).
Definition get_array (a : nat) : M W (list coraza_rule_entry_t) :=
  deref (λ w, arrays (cfg w) !! a).

Definition upd_ctx (c : nat) (f : coraza_request_ctx_t → coraza_request_ctx_t) : M W unit :=
  x ← get_ctx c; modify (set_ctxs (λ m, <[c := f x]> m)).
Definition upd_req (r : nat) (f : request_rec → request_rec) : M W unit :=
  x ← get_req r; modify (set_reqs (λ m, <[r := f x]> m)).
Definition upd_dir (d : nat) (f : coraza_dir_conf_t → coraza_dir_conf_t) : M W unit :=
  x ← get_dir d; modify (set_cfg (set_dir_confs (λ m, <[d := f x]> m))).
Definition upd_server_conf (s : nat) (f : coraza_server_conf_t → coraza_server_conf_t)
  : M W unit :=
  x ← get_server_conf s; modify (set_cfg (set_server_confs (λ m, <[s := f x]> m))).
Definition upd_array (a : nat)
    (f : list coraza_rule_entry_t → list coraza_rule_entry_t) : M W unit :=
  x ← get_array a; modify (set_cfg (set_arrays (λ m, <[a := f x]> m))).
End actions.

(** ** Reasoning about the actions *)
Section action_rules.
Context {X : Type}.
Implicit Types w : world X.

Lemma wp_emit e (Q : unit → world X → Prop) w :
  Q tt (set_trace (λ t, t ++ [e]) w) → wp (emit e) Q w.
Proof. done. Qed.

Lemma wp_log l m (Q : unit → world X → Prop) w :
  Q tt (set_trace (λ t, t ++ [EvLog l m]) w) → wp (ap_log l m) Q w.
Proof. done. Qed.

Lemma wp_outside {A} (f : X → A * X) (Q : A → world X → Prop) w :
  (∀ a x, f (env w) = (a, x) → Q a (set_env (λ _, x) w)) → wp (outside f) Q w.
Proof. unfold wp, outside. destruct (f (env w)) as [a x]. eauto. Qed.

Lemma set_trace_nil w : set_trace (λ t, t ++ []) w = w.
Proof. destruct w. unfold set_trace. simpl. by rewrite app_nil_r. Qed.

Lemma set_ctxs_id c x w : ctxs w !! c = Some x → set_ctxs (λ m, <[c := x]> m) w = w.
Proof. destruct w. unfold set_ctxs. simpl. intros E. by rewrite insert_id. Qed.

Lemma set_reqs_id r x w : reqs w !! r = Some x → set_reqs (λ m, <[r := x]> m) w = w.
Proof. destruct w. unfold set_reqs. simpl. intros E. by rewrite insert_id. Qed.

Lemma wp_get_ctx c x Q w : ctxs w !! c = Some x → Q x w → wp (get_ctx c) Q w.
Proof. exact (wp_deref (λ w, ctxs w !! c) Q w x). Qed.
Lemma wp_get_req r x Q w : reqs w !! r = Some x → Q x w → wp (get_req r) Q w.
Proof. exact (wp_deref (λ w, reqs w !! r) Q w x). Qed.
Lemma wp_get_dir d x Q w : dir_confs (cfg w) !! d = Some x → Q x w → wp (get_dir d) Q w.
Proof. exact (wp_deref (λ w, dir_confs (cfg w) !! d) Q w x). Qed.
Lemma wp_get_server_conf d x Q w :
  server_confs (cfg w) !! d = Some x → Q x w → wp (get_server_conf d) Q w.
Proof. exact (wp_deref (λ w, server_confs (cfg w) !! d) Q w x). Qed.
Lemma wp_get_array d x Q w : arrays (cfg w) !! d = Some x → Q x w → wp (get_array d) Q w.
Proof. exact (wp_deref (λ w, arrays (cfg w) !! d) Q w x). Qed.

Lemma wp_upd_ctx c f x Q w :
  ctxs w !! c = Some x → Q tt (set_ctxs (λ m, <[c := f x]> m) w) → wp (upd_ctx c f) Q w.
Proof. intros E H. apply wp_bind. by eapply wp_get_ctx. Qed.
Lemma wp_upd_req c f x Q w :
  reqs w !! c = Some x → Q tt (set_reqs (λ m, <[c := f x]> m) w) → wp (upd_req c f) Q w.
Proof. intros E H. apply wp_bind. by eapply wp_get_req. Qed.
Lemma wp_upd_dir c f x Q w :
  dir_confs (cfg w) !! c = Some x →
  Q tt (set_cfg (set_dir_confs (λ m, <[c := f x]> m)) w) → wp (upd_dir c f) Q w.
Proof. intros E H. apply wp_bind. by eapply wp_get_dir. Qed.
Lemma wp_upd_server_conf c f x Q w :
  server_confs (cfg w) !! c = Some x →
  Q tt (set_cfg (set_server_confs (λ m, <[c := f x]> m)) w) → wp (upd_server_conf c f) Q w.
Proof. intros E H. apply wp_bind. by eapply wp_get_server_conf. Qed.
Lemma wp_upd_array c f x Q w :
  arrays (cfg w) !! c = Some x →
  Q tt (set_cfg (set_arrays (λ m, <[c := f x]> m)) w) → wp (upd_array c f) Q w.
Proof. intros E H. apply wp_bind. by eapply wp_get_array. Qed.
End action_rules.

(** A lookup in a store after updates. *)
Ltac solve_lookup :=
  cbn; repeat first [ rewrite lookup_insert_eq | rewrite lookup_insert_ne by congruence ];
  first [ eassumption | reflexivity ].

(** One step through a handler: a primitive action, or a control step. *)
Ltac act_step :=
  lazymatch goal with
  | |- wp (emit _) _ _ => apply wp_emit
  | |- wp (ap_log _ _) _ _ => apply wp_log
  | |- wp (outside _) _ _ => apply wp_outside; intros
  | |- wp (get_ctx _) _ _ => eapply wp_get_ctx; [solve_lookup|]
  | |- wp (get_req _) _ _ => eapply wp_get_req; [solve_lookup|]
  | |- wp (get_dir _) _ _ => eapply wp_get_dir; [solve_lookup|]
  | |- wp (get_server_conf _) _ _ => eapply wp_get_server_conf; [solve_lookup|]
  | |- wp (get_array _) _ _ => eapply wp_get_array; [solve_lookup|]
  | |- wp (upd_ctx _ _) _ _ => eapply wp_upd_ctx; [solve_lookup|]
  | |- wp (upd_req _ _) _ _ => eapply wp_upd_req; [solve_lookup|]
  | |- wp (upd_dir _ _) _ _ => eapply wp_upd_dir; [solve_lookup|]
  | |- wp (upd_server_conf _ _) _ _ => eapply wp_upd_server_conf; [solve_lookup|]
  | |- wp (upd_array _ _) _ _ => eapply wp_upd_array; [solve_lookup|]
  | |- _ => wp_step
  end.
