(* ===== verification/DynLib.v ===== *)
(** * Loading libcoraza

    src/mod_coraza_dl.c and src/dynlib.h: [coraza_dl_open] resolves every
    function pointer, and each [coraza_*] wrapper forwards through its pointer.
    Calling through a pointer that is NULL, or that holds the address of a
    function of another signature, is undefined behaviour. *)
From S2P Require Import Prelude Types World.
Local Open Scope Z_scope.

Section dynlib.
Context {X : Type} `{!Dynlib X, !Libcoraza X}.
Abbreviation W := (world X).

(** ** dynlib.h *)
Definition dynlib_open : M W bool := outside lib_open.
Definition dynlib_sym (f : dl_fn) : M W (option dl_fn) :=
  gets (λ w, if lib_exports f (env w) then Some f else None).
Definition dynlib_close : M W Z := outside lib_close.

(** ** Resolving the symbols *)

Definition set_handle (b : bool) : M W unit := modify (set_dl (set_dl_handle (λ _, b))).

(** [DL_SYM(ptr, name)]: [Some rc] is its [return rc]. *)
Definition DL_SYM (ptr name : dl_fn) : M W (option Z) :=
  a ← dynlib_sym name;
  modify (set_dl (set_dl_ptrs (λ t, <[ptr := a]> t))) ;;
  match a with
  | None =>
      ap_log APLOG_EMERG "coraza: dynlib_sym(...) failed" ;;
      dynlib_close ;;
      set_handle false ;;
      mret (Some HTTP_INTERNAL_SERVER_ERROR)
  | Some _ => mret None
  end.

(** The pointers resolved before the version gate, in order, each with the
    symbol it is resolved to. *)
Definition dl_symbols : list (dl_fn * dl_fn) :=
  [ (new_waf_config, new_waf_config);
    (rules_add, rules_add);
    (rules_add_file, rules_add_file);
    (free_waf_config, free_waf_config);
    (new_waf, new_waf);
    (free_waf, free_waf);
    (free_string, free_string);
    (rules_count, rules_count);
    (rules_merge, rules_merge);
    (new_transaction, new_transaction);
    (new_transaction_with_id, new_transaction_with_id);
    (free_transaction, free_transaction);
    (intervention, intervention);
    (free_intervention, free_intervention);
    (process_connection, process_connection);
    (process_uri, process_uri);
    (add_request_header, add_request_header);
    (add_request_headers, add_request_headers);
    (process_request_headers, process_request_headers);
    (append_request_body, append_request_body);
    (process_request_body, process_request_body);
    (add_response_header, add_response_header);
    (add_response_headers, add_response_headers);
    (append_response_body, append_response_body);
    (process_response_body, process_response_body);
    (process_response_headers, process_response_headers);
    (process_logging, process_logging);
    (update_status_code, update_status_code);
    (add_get_args, add_get_args);
    (is_response_body_processable, is_response_body_processable);
    (is_request_body_accessible, is_request_body_accessible) ].

Fixpoint dl_sym_all (l : list (dl_fn * dl_fn)) : M W (option Z) :=
  match l with
  | [] => mret None
  | (ptr, name) :: l =>
      r ← DL_SYM ptr name;
      match r with Some rc => mret (Some rc) | None => dl_sym_all l end
  end.

(** [version_num != NULL ? version_num() : 0]. *)
Definition loaded_version : M W Z :=
  b ← gets (λ w, lib_exports_version_num (env w));
  if b : bool then outside lib_version_num else mret 0.

Definition coraza_dl_open : M W Z :=
  h ← gets (λ w, dl_handle (dl w));
  if h : bool then mret OK
  else
    ok ← dynlib_open;
    set_handle ok ;;
    if negb ok then
      ap_log APLOG_EMERG "coraza: dynlib_open(...) failed" ;;
      mret HTTP_INTERNAL_SERVER_ERROR
    else
      then_ (dl_sym_all dl_symbols) (
        version ← loaded_version;
        if bool_decide (version < 10800) then
          ap_log APLOG_EMERG "coraza: libcoraza >= 1.8.0 required" ;;
          mret HTTP_INTERNAL_SERVER_ERROR
        else
          then_ (DL_SYM is_response_body_accessible is_response_body_accessible) (
            ap_log APLOG_NOTICE "coraza: libcoraza loaded via dynlib_open" ;;
            mret OK)).

(** The library stays loaded: only a debug message. *)
Definition coraza_dl_close : M W unit :=
  h ← gets (λ w, dl_handle (dl w));
  when h (ap_log APLOG_DEBUG "coraza: left loaded for process lifetime").

(** ** The wrappers *)

(** Call through the pointer variable [ptr]. *)
Definition through {A} (ptr target : dl_fn) (f : X → A * X) (ev : A → event) : M W A :=
  p ← gets (λ w, dl_ptrs (dl w) ptr);
  match p with
  | None => undefined
  | Some g =>
      if decide (g = target) then a ← outside f; emit (ev a) ;; mret a else undefined
  end.
Definition dl_call (ptr : dl_fn) (c : call) : M W Z :=
  through ptr (fn_of c) (lib_call c) (EvCall c).

Definition coraza_new_waf_config : M W Z := dl_call new_waf_config NewWafConfig.
Definition coraza_rules_add c directives : M W Z := dl_call rules_add (RulesAdd c directives).
Definition coraza_rules_add_file c file : M W Z := dl_call rules_add_file (RulesAddFile c file).
Definition coraza_free_waf_config config : M W Z := dl_call free_waf_config (FreeWafConfig config).
Definition coraza_new_waf config : M W (Z * option string) :=
  through new_waf new_waf (lib_new_waf config) (λ a, EvNewWaf config a.1 a.2).
Definition coraza_free_waf w : M W Z := dl_call free_waf (FreeWaf w).
Definition coraza_free_string s : M W unit := dl_call free_string (FreeString s) ;; mret tt.
Definition coraza_rules_count w : M W Z := dl_call rules_count (RulesCount w).
Definition coraza_rules_merge w1 w2 : M W (Z * option string) :=
  through rules_merge rules_merge (lib_rules_merge w1 w2) (λ a, EvRulesMerge w1 w2 a.1 a.2).
Definition coraza_new_transaction w : M W Z := dl_call new_transaction (NewTransaction w).
Definition coraza_new_transaction_with_id w id : M W Z :=
  dl_call new_transaction_with_id (NewTransactionWithId w id).
Definition coraza_free_transaction t : M W Z := dl_call free_transaction (FreeTransaction t).
Definition coraza_intervention t : M W (option coraza_intervention_t) :=
  through intervention intervention (lib_intervention t) (EvIntervention t).
Definition coraza_free_intervention it : M W Z :=
  dl_call free_intervention (FreeIntervention it).
Definition coraza_process_connection t addr client_port server server_port : M W Z :=
  dl_call process_connection (ProcessConnection t addr client_port server server_port).
Definition coraza_process_uri t uri method proto : M W Z :=
  dl_call process_uri (ProcessUri t uri method proto).
Definition coraza_add_request_headers t packed packed_len count : M W Z :=
  dl_call add_request_headers (AddRequestHeaders t packed packed_len count).
Definition coraza_add_request_header t name name_len value value_len : M W Z :=
  dl_call add_request_header (AddRequestHeader t name name_len value value_len).
Definition coraza_process_request_headers t : M W Z :=
  dl_call process_request_headers (ProcessRequestHeaders t).
Definition coraza_append_request_body t data length : M W Z :=
  dl_call append_request_body (AppendRequestBody t data length).
Definition coraza_process_request_body t : M W Z :=
  dl_call process_request_body (ProcessRequestBody t).
Definition coraza_add_response_headers t packed packed_len count : M W Z :=
  dl_call add_response_headers (AddResponseHeaders t packed packed_len count).
Definition coraza_add_response_header t name name_len value value_len : M W Z :=
  dl_call add_response_header (AddResponseHeader t name name_len value value_len).
Definition coraza_append_response_body t data length : M W Z :=
  dl_call append_response_body (AppendResponseBody t data length).
Definition coraza_process_response_body t : M W Z :=
  dl_call process_response_body (ProcessResponseBody t).
Definition coraza_process_response_headers t status proto : M W Z :=
  dl_call process_response_headers (ProcessResponseHeaders t status proto).
Definition coraza_process_logging t : M W Z := dl_call process_logging (ProcessLogging t).
Definition coraza_update_status_code t code : M W Z :=
  dl_call update_status_code (UpdateStatusCode t code).
Definition coraza_add_get_args t name value : M W Z :=
  dl_call add_get_args (AddGetArgs t name value).
Definition coraza_is_response_body_processable t : M W Z :=
  dl_call is_response_body_processable (IsResponseBodyProcessable t).
Definition coraza_is_response_body_accessible t : M W Z :=
  dl_call is_response_body_accessible (IsResponseBodyAccessible t).
Definition coraza_is_request_body_accessible t : M W Z :=
  dl_call is_request_body_accessible (IsRequestBodyAccessible t).
End dynlib.
