(* ===== verification/DynLibFacts.v ===== *)
(** * Loading libcoraza: proofs

    What [coraza_dl_open] guarantees the rest of the module: after it returned
    OK every wrapper is total and reaches its own function. *)
From S2P Require Import Prelude Types World DynLib.
Local Open Scope Z_scope.

(** Every pointer variable holds the function it is named after. *)
Definition dl_ready {X} (w : world X) : Prop := ∀ f, dl_ptrs (dl w) f = Some f.

Section dynlib_facts.
Context {X : Type} `{!Dynlib X, !Libcoraza X}.
Implicit Types w : world X.

(** ** Wrappers through a ready table *)

(** The state after the environment answered and the call was logged. *)
Definition after (x : X) (e : event) (w : world X) : world X :=
  set_trace (λ t, t ++ [e]) (set_env (λ _, x) w).

(** [w] after some calls out of the module. *)
Definition ext (x : X) (tr : list event) (w : world X) : world X :=
  set_trace (λ t, t ++ tr) (set_env (λ _, x) w).

Lemma ext_ext x1 t1 x2 t2 w : ext x2 t2 (ext x1 t1 w) = ext x2 (t1 ++ t2) w.
Proof. destruct w. unfold ext, set_trace, set_env. simpl. by rewrite app_assoc. Qed.
Lemma ext_log e w : set_trace (λ t, t ++ [e]) w = ext (env w) [e] w.
Proof. by destruct w. Qed.
Lemma ext_env x w : set_env (λ _, x) w = ext x [] w.
Proof. destruct w. unfold ext, set_trace, set_env. simpl. by rewrite app_nil_r. Qed.
Lemma ext_after x e w : after x e w = ext x [e] w.
Proof. done. Qed.
Lemma ext_ready x tr w : dl_ready w → dl_ready (ext x tr w).
Proof. done. Qed.
Lemma ext_nil w : ext (env w) [] w = w.
Proof. destruct w. apply set_trace_nil. Qed.

Lemma through_ready {A} p target (f : X → A * X) (ev : A → event) w :
  dl_ready w → p = target →
  through p target f ev w = Some ((f (env w)).1, after (f (env w)).2 (ev (f (env w)).1) w).
Proof.
  intros Hr <-. unfold through, gets, mbind, M_bind, outside. rewrite Hr, decide_True by done.
  by destruct (f (env w)) as [a x].
Qed.

Lemma wp_through {A} p target (f : X → A * X) (ev : A → event) (Q : A → world X → Prop) w :
  dl_ready w → p = target →
  (∀ a x, f (env w) = (a, x) → Q a (after x (ev a) w)) →
  wp (through p target f ev) Q w.
Proof.
  intros Hr Hp HQ. unfold wp. rewrite through_ready by done.
  destruct (f (env w)) as [a x] eqn:E. by apply HQ.
Qed.

Lemma wp_dl_call p c (Q : Z → world X → Prop) w :
  dl_ready w → p = fn_of c →
  (∀ a x, lib_call c (env w) = (a, x) → Q a (after x (EvCall c a) w)) →
  wp (dl_call p c) Q w.
Proof. apply wp_through. Qed.

(** ** The symbol loop *)

Lemma dl_sym_wp p g (Q : option Z → world X → Prop) w :
  (lib_exports g (env w) = true →
   Q None (set_dl (set_dl_ptrs (λ t, <[p := Some g]> t)) w)) →
  (lib_exports g (env w) = false →
   ∀ w', dl_handle (dl w') = false → Q (Some HTTP_INTERNAL_SERVER_ERROR) w') →
  wp (DL_SYM p g) Q w.
Proof.
  intros H1 H2. unfold DL_SYM, dynlib_sym, dynlib_close, set_handle.
  do 2 act_step. act_step. act_step. destruct (lib_exports g (env w)) eqn:E.
  - apply wp_ret. by apply H1.
  - repeat act_step. by apply H2.
Qed.

Lemma dl_sym_all_wp l w :
  Forall (λ p, p.1 = p.2) l →
  wp (dl_sym_all l) (λ r w',
    match r with
    | Some rc => rc = HTTP_INTERNAL_SERVER_ERROR ∧ dl_handle (dl w') = false
                 ∧ ∃ f x, lib_exports f x = false
    | None => dl_handle (dl w') = dl_handle (dl w) ∧ env w' = env w
              ∧ (∀ f, (f, f) ∈ l → lib_exports f (env w) = true ∧ dl_ptrs (dl w') f = Some f)
              ∧ (∀ f, (f, f) ∉ l → dl_ptrs (dl w') f = dl_ptrs (dl w) f)
    end) w.
Proof.
  intros Hl. revert w. induction Hl as [|[p g] l Hpg _ IH]; intros w.
  { apply wp_ret. split_and!; try done. by intros f ?%not_elem_of_nil. }
  simpl in Hpg. subst g. cbn [dl_sym_all]. act_step. apply dl_sym_wp.
  - intros Hex. eapply wp_mono; [apply IH|]. intros [rc|] w'; [done|].
    intros (Hh & He & Hin & Hout). split_and!; [done|done| |].
    + intros f Hf. destruct (decide ((f, f) ∈ l)) as [Hfl|Hfl]; [by apply Hin|].
      apply elem_of_cons in Hf as [[= <-]|?]; [|done].
      rewrite Hout by done. simpl. by rewrite fn_lookup_insert.
    + intros f Hf. apply not_elem_of_cons in Hf as [Hne Hf]. rewrite Hout by done. simpl.
      rewrite fn_lookup_insert_ne; [done|]. congruence.
  - intros Hf w' Hw. apply wp_ret. eauto.
Qed.

Lemma dl_symbols_diagonal : Forall (λ p, p.1 = p.2) dl_symbols.
Proof. repeat constructor. Qed.

Lemma dl_symbols_all f : (f, f) ∈ dl_symbols ∨ f = is_response_body_accessible.
Proof.
  destruct f; first [by right | left; apply list_elem_of_In; simpl; tauto].
Qed.

Lemma dl_symbols_not_accessible :
  (is_response_body_accessible, is_response_body_accessible) ∉ dl_symbols.
Proof. intros H%list_elem_of_In. simpl in H. by repeat destruct H as [H|H]. Qed.

(** The outcome of the first load, when what the library exports and the
    version it reports do not change. *)
Lemma dl_open_wp ex exv ver w :
  (∀ f x, lib_exports f x = ex f) → (∀ x, lib_exports_version_num x = exv) →
  (∀ x, (lib_version_num x).1 = ver) → dl_handle (dl w) = false →
  let loads := (lib_open (env w)).1 = true ∧ (∀ f, ex f = true)
               ∧ 10800 ≤ (if exv then ver else 0) in
  wp coraza_dl_open (λ rc w',
    (loads ∧ rc = OK ∧ dl_handle (dl w') = true ∧ dl_ready w')
    ∨ (¬ loads ∧ rc = HTTP_INTERNAL_SERVER_ERROR)) w.
Proof.
  intros Hex Hexv Hver Hh loads. unfold coraza_dl_open, dynlib_open, set_handle.
  do 2 act_step. rewrite Hh. cbv iota. do 2 act_step. rename H into Eop. do 2 act_step.
  unfold loads. rewrite Eop. destruct a; cbn [negb fst].
  2: { repeat act_step. right. split; [by intros [[=] _]|done]. }
  act_step. eapply wp_mono; [apply dl_sym_all_wp, dl_symbols_diagonal|].
  intros [rc|] w1; cbv beta iota.
  { intros (-> & _ & f & x' & Hf). right. split; [|done].
    intros (_ & Hall & _). rewrite Hex, Hall in Hf. done. }
  intros (Hh1 & He1 & Hin & _). simpl in Hh1, He1.
  act_step. unfold loaded_version.
  eapply (wp_mono _ (λ v w2, v = (if exv then ver else 0) ∧ dl w2 = dl w1)).
  { do 2 act_step. rewrite Hexv. destruct exv; [|by apply wp_ret].
    act_step. simpl. rewrite <- (Hver (env w1)), H. done. }
  intros v w2 [-> Hdl]. case_bool_decide as Hv.
  { repeat act_step. right. split; [|done]. intros (_ & _ & ?). lia. }
  act_step. apply dl_sym_wp.
  - intros Hacc. repeat act_step. left. rewrite Hex in Hacc.
    assert (Hall : ∀ f, ex f = true).
    { intros f. destruct (dl_symbols_all f) as [Hf| ->]; [|done].
      destruct (Hin f Hf) as [E _]. by rewrite Hex in E. }
    split_and!; try done; [lia|simpl; congruence|].
    intros f. simpl. rewrite Hdl. destruct (dl_symbols_all f) as [Hf| ->].
    + destruct (decide (f = is_response_body_accessible)) as [->|Hne].
      { by destruct dl_symbols_not_accessible. }
      rewrite fn_lookup_insert_ne by done. by apply Hin.
    + by rewrite fn_lookup_insert.
  - intros Hacc w3 _. right. split; [|done]. intros (_ & Hall & _).
    rewrite Hex, Hall in Hacc. done.
Qed.
End dynlib_facts.

(** A call that reaches its function: it returns what libcoraza returns and
    leaves only libcoraza's state and the log of the call changed. *)
Definition forwards {X} `{!Libcoraza X} (m : M (world X) Z) (c : call) : Prop :=
  ∀ w, dl_ready w →
    m w = Some ((lib_call c (env w)).1,
                after (lib_call c (env w)).2 (EvCall c (lib_call c (env w)).1) w).

Lemma forwards_dl_call {X} `{!Libcoraza X} p c : p = fn_of c → forwards (X := X) (dl_call p c) c.
Proof. intros Hp w Hr. by apply through_ready. Qed.

#[export] Hint Resolve forwards_dl_call : coraza.

(** ** A concrete loader and library, for the witnesses *)
Module Stub.
(** The state counts the calls; the library exports everything, reports the
    version [v] and answers every call with 0. *)
#[export] Instance loader (v : Z) : Dynlib nat := {|
  lib_open x := (true, S x);
  lib_close x := (0, S x);
  lib_exports f x := bool_decide (10800 ≤ v ∨ f ≠ is_response_body_accessible);
  lib_exports_version_num x := true |}.
#[export] Instance library (v : Z) : Libcoraza nat := {|
  lib_call c x := (0, S x);
  lib_new_waf c x := ((1, None), S x);
  lib_rules_merge a b x := ((0, None), S x);
  lib_intervention t x := (None, S x);
  lib_version_num x := (v, S x) |}.

Definition start : world nat :=
  World 0%nat [] (DlState false (λ _, None)) (Config ∅ ∅ ∅ [] None None)
        (WafState [] false false None) ∅ ∅ (Conn None None false false).
End Stub.

(** C35: loading is all or nothing for the callers: from an unloaded state
    [coraza_dl_open] returns OK exactly when libcoraza can be opened, exports
    every function the module uses and reports version 1.8.0 or later; then
    the handle is kept and every pointer holds its own function.  In every
    other case it returns HTTP 500. *)
Theorem dl_open_ok_iff {X} `{!Dynlib X, !Libcoraza X} ex exv ver (w : world X) :
  (∀ f x, lib_exports f x = ex f) → (∀ x, lib_exports_version_num x = exv) →
  (∀ x, (lib_version_num x).1 = ver) → dl_handle (dl w) = false →
  ∃ rc w', coraza_dl_open w = Some (rc, w')
    ∧ (rc = OK ↔ (lib_open (env w)).1 = true ∧ (∀ f, ex f = true)
                 ∧ 10800 ≤ (if exv : bool then ver else 0))
    ∧ (rc = OK → dl_handle (dl w') = true ∧ dl_ready w')
    ∧ (rc ≠ OK → rc = HTTP_INTERNAL_SERVER_ERROR).
Proof.
  intros Hex Hexv Hver Hh. apply wp_det. eapply wp_mono; [by apply dl_open_wp|].
  intros rc w' [(Hl & -> & Hd & Hr)|(Hl & ->)]; cbv beta; split_and!; try done.
Qed.

Lemma dl_open_ok_iff_witness :
  ∃ w', @coraza_dl_open nat (Stub.loader 10800) (Stub.library 10800) Stub.start = Some (OK, w')
        ∧ dl_ready w'.
Proof.
  destruct (@dl_open_ok_iff nat (Stub.loader 10800) (Stub.library 10800) (λ _, true) true 10800
    Stub.start (λ _ _, eq_refl) (λ _, eq_refl) (λ _, eq_refl) eq_refl)
    as (rc & w' & E & [_ Hok] & Hready & _).
  assert (rc = OK) as Hrc.
  { apply Hok. split; [reflexivity|]. split; [reflexivity|]. discriminate. }
  exists w'. rewrite <- Hrc at 1. split; [exact E|]. exact (proj2 (Hready Hrc)).
Defined.

(** Once every pointer is resolved, each wrapper is total, passes its
    arguments unchanged to the function of its own name and returns that
    function's result. *)
Theorem wrappers_forward {X} `{!Libcoraza X} :
  (∀ c d, forwards (X := X) (coraza_rules_add c d) (RulesAdd c d))
  ∧ (∀ c f, forwards (X := X) (coraza_rules_add_file c f) (RulesAddFile c f))
  ∧ forwards (X := X) coraza_new_waf_config NewWafConfig
  ∧ (∀ c, forwards (X := X) (coraza_free_waf_config c) (FreeWafConfig c))
  ∧ (∀ h, forwards (X := X) (coraza_free_waf h) (FreeWaf h))
  ∧ (∀ h, forwards (X := X) (coraza_new_transaction h) (NewTransaction h))
  ∧ (∀ h i, forwards (X := X) (coraza_new_transaction_with_id h i) (NewTransactionWithId h i))
  ∧ (∀ t, forwards (X := X) (coraza_free_transaction t) (FreeTransaction t))
  ∧ (∀ t a p s q, forwards (X := X) (coraza_process_connection t a p s q) (ProcessConnection t a p s q))
  ∧ (∀ t u m p, forwards (X := X) (coraza_process_uri t u m p) (ProcessUri t u m p))
  ∧ (∀ t n nl v vl, forwards (X := X) (coraza_add_request_header t n nl v vl) (AddRequestHeader t n nl v vl))
  ∧ (∀ t b l n, forwards (X := X) (coraza_add_request_headers t b l n) (AddRequestHeaders t b l n))
  ∧ (∀ t, forwards (X := X) (coraza_process_request_headers t) (ProcessRequestHeaders t))
  ∧ (∀ t b l, forwards (X := X) (coraza_append_request_body t b l) (AppendRequestBody t b l))
  ∧ (∀ t, forwards (X := X) (coraza_process_request_body t) (ProcessRequestBody t))
  ∧ (∀ t n nl v vl, forwards (X := X) (coraza_add_response_header t n nl v vl) (AddResponseHeader t n nl v vl))
  ∧ (∀ t b l n, forwards (X := X) (coraza_add_response_headers t b l n) (AddResponseHeaders t b l n))
  ∧ (∀ t b l, forwards (X := X) (coraza_append_response_body t b l) (AppendResponseBody t b l))
  ∧ (∀ t, forwards (X := X) (coraza_process_response_body t) (ProcessResponseBody t))
  ∧ (∀ t s p, forwards (X := X) (coraza_process_response_headers t s p) (ProcessResponseHeaders t s p))
  ∧ (∀ t, forwards (X := X) (coraza_process_logging t) (ProcessLogging t))
  ∧ (∀ t s, forwards (X := X) (coraza_update_status_code t s) (UpdateStatusCode t s))
  ∧ (∀ h, forwards (X := X) (coraza_rules_count h) (RulesCount h))
  ∧ (∀ it, forwards (X := X) (coraza_free_intervention it) (FreeIntervention it))
  ∧ (∀ t n v, forwards (X := X) (coraza_add_get_args t n v) (AddGetArgs t n v))
  ∧ (∀ t, forwards (X := X) (coraza_is_response_body_processable t) (IsResponseBodyProcessable t))
  ∧ (∀ t, forwards (X := X) (coraza_is_response_body_accessible t) (IsResponseBodyAccessible t))
  ∧ (∀ t, forwards (X := X) (coraza_is_request_body_accessible t) (IsRequestBodyAccessible t)).
Proof. split_and!; intros; by apply forwards_dl_call. Qed.

(** The version gate does not undo the load.  With a library that exports
    everything 1.7 has and reports a version below 1.8.0, the first
    [coraza_dl_open] fails but leaves [dl_handle] set, so a second one returns
    OK, after which asking whether the response body is accessible calls
    through a NULL pointer. *)
Theorem dl_open_version_gate_leaves_handle :
  ∃ w1, @coraza_dl_open nat (Stub.loader 10700) (Stub.library 10700) Stub.start
          = Some (HTTP_INTERNAL_SERVER_ERROR, w1)
        ∧ @coraza_dl_open nat (Stub.loader 10700) (Stub.library 10700) w1 = Some (OK, w1)
        ∧ @coraza_is_response_body_accessible nat (Stub.library 10700) 1 w1 = None.
Proof.
  assert ((λ p : Z * world nat, (p.1, dl_handle (dl p.2),
             dl_ptrs (dl p.2) is_response_body_accessible))
            <$> @coraza_dl_open nat (Stub.loader 10700) (Stub.library 10700) Stub.start
          = Some (HTTP_INTERNAL_SERVER_ERROR, true, None)) as Hrun by (vm_compute; reflexivity).
  destruct (@coraza_dl_open nat _ _ Stub.start) as [[rc w1]|]; [|done]. injection Hrun as -> Hh Hp.
  exists w1. split; [done|]. split.
  - unfold coraza_dl_open, gets, mbind, M_bind. by rewrite Hh.
  - unfold coraza_is_response_body_accessible, dl_call, through, gets, mbind, M_bind.
    by rewrite Hp.
Qed.
