(* ===== verification/Sim.v ===== *)
(** * A concrete environment

    An executable instance of the three interfaces, used by the witnesses: a
    libcoraza whose interventions and failures follow a script, and an httpd
    whose brigade operations are the obvious list functions. *)
From S2P Require Import Prelude Types World.
Local Open Scope Z_scope.

(** The script: the interventions the successive polls report, the functions
    that fail, the request body, whether bodies are inspected, and how many
    WAFs were created (handles 101, 102, ...). *)
Record script := Script {
  sc_polls : list (option coraza_intervention_t);
  sc_failing : list dl_fn;
  sc_body : list bytes;
  sc_inspect : Z;
  sc_wafs : Z }.

Definition sim_call (c : call) (x : script) : Z * script :=
  (if bool_decide (fn_of c ∈ sc_failing x) then
     match c with NewTransaction _ | NewTransactionWithId _ _ | NewWafConfig => 0 | _ => -1 end
   else
     match c with
     | NewWafConfig => 5
     | NewTransaction _ | NewTransactionWithId _ _ => 7
     | IsRequestBodyAccessible _ | IsResponseBodyAccessible _
     | IsResponseBodyProcessable _ => sc_inspect x
     | _ => 0
     end, x).

#[export] Instance sim_lib : Libcoraza script := {|
  lib_call := sim_call;
  lib_new_waf c x :=
    if bool_decide (new_waf ∈ sc_failing x) then ((0, Some "cannot compile"%string), x)
    else ((101 + sc_wafs x, None),
          Script (sc_polls x) (sc_failing x) (sc_body x) (sc_inspect x) (sc_wafs x + 1));
  lib_rules_merge a b x := ((0, None), x);
  lib_intervention t x :=
    (match sc_polls x with it :: _ => it | [] => None end,
     Script (tl (sc_polls x)) (sc_failing x) (sc_body x) (sc_inspect x) (sc_wafs x));
  lib_version_num x := (10800, x) |}.

#[export] Instance sim_loader : Dynlib script := {|
  lib_open x := (true, x);
  lib_close x := (0, x);
  lib_exports f x := true;
  lib_exports_version_num x := true |}.

(** [apr_brigade_partition]: the buckets before and after byte [n]. *)
Fixpoint split_brigade (bb : brigade) (n : Z) : apr_status * (brigade * brigade) :=
  if bool_decide (n <= 0) then (APR_SUCCESS, ([], bb))
  else
    match bb with
    | [] => (APR_INCOMPLETE, ([], []))
    | Data k d :: r =>
        if bool_decide (Z.of_nat (length d) <= n) then
          let '(rv, (a, b)) := split_brigade r (n - Z.of_nat (length d)) in
          (rv, (Data k d :: a, b))
        else (APR_SUCCESS, ([Data k (take (Z.to_nat n) d)], Data k (drop (Z.to_nat n) d) :: r))
    | Unreadable _ :: _ => (APR_EGENERAL, ([], bb))
    | b :: r => let '(rv, (a, b')) := split_brigade r n in (rv, (b :: a, b'))
    end.

(** Set a bucket aside. *)
Definition set_aside (b : bucket) : bucket :=
  match b with Data Transient d => Data Heap d | _ => b end.

#[export] Instance sim_httpd : Httpd script := {|
  ap_setup_client_block r x := (0, x);
  ap_should_client_block r x := (bool_decide (sc_body x ≠ []), x);
  request_body r x := (sc_body x, true);
  apr_brigade_write bb d x := ((APR_SUCCESS, bb ++ [Data Heap d]), x);
  apr_temp_dir_get x := (APR_SUCCESS, x);
  apr_file_mktemp x := (APR_SUCCESS, x);
  apr_file_write_full f d x := ((APR_SUCCESS, f ++ d), x);
  apr_brigade_partition bb n x := (split_brigade bb n, x);
  apr_brigade_split_line bb saved block maxbytes x := ((APR_SUCCESS, (bb ++ saved, [])), x);
  apr_bucket_copy b x := ((APR_SUCCESS, b), x);
  ap_get_brigade bb m b n x := ((APR_SUCCESS, bb ++ [Eos]), x);
  ap_pass_brigade bb x := ((APR_SUCCESS, []), x);
  ap_save_brigade pending bb x := ((APR_SUCCESS, (pending ++ (set_aside <$> bb), [])), x);
  ap_die s r q x := (set_r_status (λ _, s) q, x);
  apr_table_set h k v := filter (λ e, e.1 ≠ Some k) h ++ [(Some k, Some v)] |}.

(** A child process with libcoraza loaded, one server and one directory whose
    WAF (handle 100) is built, and a request 0 in that directory. *)
Definition sim_request (prev ctx : option nat) : request_rec :=
  Request false prev (Some 0%nat) ctx 0 (Some 40000) (Some "192.0.2.1"%string) 1001
    (Some "HTTP/1.1"%string) "/index.html" "POST"
    [(Some "Host"%string, Some "example.org"%string)] [] [] (Some "text/html"%string) 200 false 0.

Definition sim_dir : coraza_dir_conf_t := DirConf 1 true 0 None (-1) 100 None.

Definition sim_config : config :=
  Config {[ 0%nat := [Rule CORAZA_RULE_INLINE "SecRuleEngine On"] ]} {[ 0%nat := sim_dir ]}
    {[ 0%nat := ServerConf 0 [] 100 1 0 ]} [Server (Some 0%nat) (Some 0%nat) None] None None.

Definition sim_world (sc : script) (reqs : gmap nat request_rec)
    (ctxs : gmap nat coraza_request_ctx_t) : world script :=
  World sc [] (DlState true (λ f, Some f)) sim_config (WafState [] true false (Some false))
    reqs ctxs (Conn (Some 80) (Some "192.0.2.80"%string) false false).

(** A transaction in progress. *)
Definition sim_ctx : coraza_request_ctx_t := set_transaction (λ _, 7) zero_ctx.
