(* ===== verification/Intervention.v ===== *)
(** * Interventions and audit logging

    [coraza_process_intervention], [coraza_drop_connection] and
    [coraza_cleanup_transaction] of src/mod_coraza.c, and
    [coraza_log_transaction] of src/mod_coraza_log.c. *)
From S2P Require Import Prelude Types World DynLib.
Local Open Scope Z_scope.

Section intervention.
Context {X : Type} `{!Libcoraza X, !Httpd X}.
Abbreviation W := (world X).

(** ** Phase 5 *)
Definition coraza_log_transaction (r : nat) : M W Z :=
  q ← get_req r;
  match r_dir_conf q with
  | None => mret OK
  | Some d =>
      dcf ← get_dir d;
      if bool_decide (enable dcf ≠ 1) then mret OK
      else
        match r_ctx q with
        | None => mret OK
        | Some c =>
            ctx ← get_ctx c;
            if logged ctx then mret OK
            else
              upd_ctx c (set_logged (λ _, true)) ;;
              coraza_process_logging (transaction ctx) ;;
              mret OK
        end
  end.

(** ** Dropping the connection *)
Definition coraza_drop_connection (r : nat) : M W unit :=
  upd_req r (set_r_status (λ _, HTTP_FORBIDDEN)) ;;
  modify (set_conn (set_c_keepalive_close (λ _, true))) ;;
  modify (set_conn (set_c_aborted (λ _, true))).

(** ** The decision *)

(** [drop]: the action is "drop", or the rule's status is 444. *)
Definition is_drop (it : coraza_intervention_t) : bool :=
  match action it with Some a => String.eqb a "drop" | None => false end
  || bool_decide (it_status it = 444).

(** The status to enforce. *)
Definition enforced_status (it : coraza_intervention_t) : Z :=
  if is_drop it then HTTP_FORBIDDEN
  else if bool_decide (it_status it < 300) && bool_decide (it_status it ≠ HTTP_CREATED)
          && bool_decide (it_status it ≠ HTTP_NO_CONTENT)
  then HTTP_FORBIDDEN else it_status it.

(** The [while (safe < len && ...)] loop: the length of the prefix of a redirect
    target with no C0 control and no DEL. *)
Fixpoint safe_length (loc : string) : nat :=
  match loc with
  | EmptyString => O
  | String c loc =>
      if bool_decide (0x20 ≤ uchar c ∧ uchar c ≠ 0x7f) then S (safe_length loc) else O
  end.

(** The Location sent: truncated, with a warning, when some byte is unsafe. *)
Definition safe_location (loc : string) : string := String.substring 0 (safe_length loc) loc.

Definition set_location (r : nat) (data : string) : M W unit :=
  when (negb (bool_decide (safe_length data = String.length data)))
    (ap_log APLOG_WARNING "coraza: control character in redirect target") ;;
  let loc := if bool_decide (safe_length data = String.length data)
             then data else safe_location data in
  upd_req r (set_r_headers_out (λ h, apr_table_set h "Location" loc)).

Definition coraza_process_intervention (t : Z) (r : nat) (early_log : bool) : M W Z :=
  q ← get_req r;
  match r_ctx q with
  | None => mret HTTP_INTERNAL_SERVER_ERROR
  | Some c =>
      it ← coraza_intervention t;
      match it with
      | None => mret OK
      | Some it =>
          let drop := is_drop it in
          let status := enforced_status it in
          when drop (upd_ctx c (set_drop_connection (λ _, true))) ;;
          ctx ← get_ctx c;
          coraza_update_status_code (transaction ctx) status ;;
          ap_log APLOG_ERR (if drop then "Coraza: Access denied with connection close"
                            else "Coraza: Access denied with code") ;;
          when early_log (
            coraza_log_transaction r ;;
            upd_ctx c (set_logged (λ _, true))) ;;
          match it_data it with
          | Some data => when (negb drop) (set_location r data)
          | None => mret tt
          end ;;
          coraza_free_intervention it ;;
          mret status
      end
  end.

(** ** Request-pool cleanup *)
Definition coraza_cleanup_transaction (c : nat) : M W apr_status :=
  ctx ← get_ctx c;
  when (bool_decide (transaction ctx ≠ 0)) (
    coraza_free_transaction (transaction ctx) ;;
    upd_ctx c (set_transaction (λ _, 0))) ;;
  mret APR_SUCCESS.
End intervention.
