(* ===== verification/InterventionFacts.v ===== *)
(** * Interventions and audit logging: proofs

    What a poll does to the context, the request and the log, whatever
    libcoraza reports, and how often a transaction is logged and freed. *)
From S2P Require Import Prelude Types World DynLib DynLibFacts Sim Intervention.
Local Open Scope Z_scope.

(** ** The decision *)

Lemma enforced_status_cases it :
  (is_drop it = true ∧ enforced_status it = HTTP_FORBIDDEN)
  ∨ (is_drop it = false ∧ it_status it < 300 ∧ it_status it ≠ HTTP_CREATED
     ∧ it_status it ≠ HTTP_NO_CONTENT ∧ enforced_status it = HTTP_FORBIDDEN)
  ∨ (is_drop it = false ∧ (300 ≤ it_status it ∨ it_status it = HTTP_CREATED
                           ∨ it_status it = HTTP_NO_CONTENT)
     ∧ enforced_status it = it_status it).
Proof.
  unfold enforced_status. destruct (is_drop it); [by left|right].
  repeat (case_bool_decide; simpl); [left|right..]; (split_and!; try done); lia.
Qed.

Lemma enforced_status_blocks it :
  300 ≤ enforced_status it ∨ enforced_status it = HTTP_CREATED
  ∨ enforced_status it = HTTP_NO_CONTENT.
Proof.
  destruct (enforced_status_cases it) as [(_ & ->)|[(_&_&_&_& ->)|(_ & H & ->)]];
    [left; unfold HTTP_FORBIDDEN; lia..|done].
Qed.

Lemma enforced_status_pos it : 0 < enforced_status it.
Proof.
  destruct (enforced_status_blocks it) as [?|[->| ->]]; [lia|done|done].
Qed.

#[export] Hint Resolve enforced_status_pos : coraza.

(** ** The redirect target *)

Definition safe_char (c : ascii) : Prop := 0x20 ≤ uchar c ∧ uchar c ≠ 0x7f.

Lemma safe_length_le s : (safe_length s ≤ String.length s)%nat.
Proof. induction s as [|c s IH]; simpl; [done|]. case_bool_decide; lia. Qed.

Lemma safe_location_bytes s :
  bytes_of (safe_location s) = take (safe_length s) (bytes_of s)
  ∧ Forall safe_char (bytes_of (safe_location s))
  ∧ (∀ c, bytes_of s !! safe_length s = Some c → ¬ safe_char c).
Proof.
  unfold safe_location, bytes_of. induction s as [|c s (IH1 & IH2 & IH3)]; simpl; [done|].
  case_bool_decide as H; simpl.
  - split_and!; [by f_equal|by constructor|done].
  - split_and!; [by destruct s|by destruct s|by intros ? [= <-]].
Qed.

Lemma safe_length_full s : safe_length s = String.length s → safe_location s = s.
Proof.
  intros H. unfold safe_location. rewrite H. clear H. induction s as [|c s IH]; [done|].
  simpl. by rewrite IH.
Qed.

(** ** Frames *)

(** Nothing but the requests, the contexts, the connection, the environment
    and the log changed. *)
Definition frame {X} (w w' : world X) : Prop :=
  dl w' = dl w ∧ cfg w' = cfg w ∧ wafs w' = wafs w.

#[export] Instance frame_preorder X : PreOrder (@frame X).
Proof.
  split; [done|]. intros w1 w2 w3 (?&?&?) (?&?&?). unfold frame. split_and!; congruence.
Qed.

Lemma frame_ready {X} (w w' : world X) : frame w w' → dl_ready w → dl_ready w'.
Proof. intros (E & _) H f. rewrite E. apply H. Qed.

#[export] Hint Resolve frame_ready : coraza.
#[export] Hint Extern 1 (frame ?w ?w) => reflexivity : coraza.

(** The calls to libcoraza in a log. *)
Definition calls (t : list event) : list call :=
  omap (λ e, match e with EvCall c _ => Some c | _ => None end) t.

Lemma calls_app t1 t2 : calls (t1 ++ t2) = calls t1 ++ calls t2.
Proof. apply omap_app. Qed.

(** ** What the two operations do *)
Section effects.
Context {X : Type} `{!Libcoraza X, !Httpd X}.
Implicit Types w : world X.

(** Pointers the handlers follow are valid. *)
Definition dir_valid w (q : request_rec) : Prop :=
  ∀ d, r_dir_conf q = Some d → is_Some (dir_confs (cfg w) !! d).

(** Is phase 5 still to be run for request [q]?  The context it is due for. *)
Definition log_due w (q : request_rec) : option (nat * coraza_request_ctx_t) :=
  d ← r_dir_conf q;
  dcf ← dir_confs (cfg w) !! d;
  if decide (enable dcf = 1) then
    c ← r_ctx q; x ← ctxs w !! c; if logged x then None else Some (c, x)
  else None.

Lemma log_transaction_wp r q (Q : Z → world X → Prop) w :
  dl_ready w → reqs w !! r = Some q → dir_valid w q →
  (∀ c, r_ctx q = Some c → is_Some (ctxs w !! c)) →
  match log_due w q with
  | None => Q OK w
  | Some (c, x) => ∀ a e, Q OK
      (after e (EvCall (ProcessLogging (transaction x)) a)
         (set_ctxs (λ m, <[c := set_logged (λ _, true) x]> m) w))
  end →
  wp (coraza_log_transaction r) Q w.
Proof.
  intros Hr Hq Hd Hc HQ. unfold coraza_log_transaction, log_due in *. do 2 act_step.
  unfold dir_valid in Hd. destruct (r_dir_conf q) as [d|]; [|by apply wp_ret]. simpl in HQ.
  destruct (Hd d eq_refl) as [dcf Hdcf]. rewrite Hdcf in HQ. simpl in HQ. do 2 act_step.
  case_bool_decide as He.
  { rewrite decide_False in HQ by done. by apply wp_ret. }
  rewrite decide_True in HQ by lia.
  destruct (r_ctx q) as [c|]; [|by apply wp_ret].
  destruct (Hc c eq_refl) as [x Hx]. simpl in HQ. rewrite Hx in HQ. simpl in HQ.
  do 2 act_step. destruct (logged x); [by apply wp_ret|].
  do 2 act_step. act_step. apply wp_dl_call; [done|done|]. intros a e _. apply wp_ret. apply HQ.
Qed.

Definition intervention_event (e : event) : Prop :=
  match e with
  | EvCall (UpdateStatusCode _ _ | ProcessLogging _ | FreeIntervention _) _
  | EvIntervention _ _ | EvLog _ _ => True
  | _ => False
  end.

(** The context and the request after an intervention was enforced. *)
Definition intervened_ctx (it : coraza_intervention_t) (early : bool) (x : coraza_request_ctx_t) :=
  set_logged (λ b, b || early) (set_drop_connection (λ b, b || is_drop it) x).
Definition intervened_req (it : coraza_intervention_t) (q : request_rec) : request_rec :=
  match it_data it with
  | Some loc =>
      if is_drop it then q
      else set_r_headers_out (λ h, apr_table_set h "Location" (safe_location loc)) q
  | None => q
  end.

(** [w'] is [w] after enforcing [it] on request [r] with context [c]. *)
Record intervened it early (t : Z) r q c x w w' : Prop := {
  iv_frame : frame w w';
  iv_conn : conn w' = conn w;
  iv_ctxs : ctxs w' = <[c := intervened_ctx it early x]> (ctxs w);
  iv_reqs : reqs w' = <[r := intervened_req it q]> (reqs w);
  iv_trace : ∃ tr, trace w' = trace w ++ EvIntervention t (Some it) :: tr
    ∧ Forall intervention_event tr
    ∧ calls tr = UpdateStatusCode (transaction x) (enforced_status it)
                 :: (if early && bool_decide (is_Some (log_due w q))
                     then [ProcessLogging (transaction x)] else [])
                 ++ [FreeIntervention it] }.

Lemma set_location_wp r loc q (Q : unit → world X → Prop) w :
  reqs w !! r = Some q →
  (∀ tr, Forall intervention_event tr → calls tr = [] →
    Q tt (set_reqs (λ m, <[r := set_r_headers_out
                               (λ h, apr_table_set h "Location" (safe_location loc)) q]> m)
            (set_trace (λ t, t ++ tr) w))) →
  wp (set_location r loc) Q w.
Proof.
  intros Hq HQ. unfold set_location. act_step.
  case_bool_decide as Hs; simpl.
  - apply wp_ret. rewrite (safe_length_full loc Hs) in HQ. act_step.
    specialize (HQ [] ltac:(constructor) eq_refl).
    by rewrite set_trace_nil in HQ.
  - act_step. act_step. apply (HQ [_]); [|done]. by repeat constructor.
Qed.

Lemma log_due_ctx w q c x x' :
  r_ctx q = Some c → ctxs w !! c = Some x → logged x' = logged x →
  log_due (set_ctxs (λ m, <[c := x']> m) w) q = (λ _, (c, x')) <$> log_due w q.
Proof.
  intros Hc Hx Hl. unfold log_due. destruct (r_dir_conf q) as [d|]; [|done]. simpl.
  destruct (dir_confs (cfg w) !! d) as [dcf|]; [|done]. simpl. case_decide; [|done].
  rewrite Hc. simpl. rewrite lookup_insert_eq, Hx. simpl. rewrite Hl. by destruct (logged x).
Qed.

(** The early log of an intervention. *)
Lemma early_log_wp early r q c x (Q : unit → world X → Prop) w :
  dl_ready w → reqs w !! r = Some q → dir_valid w q → r_ctx q = Some c → ctxs w !! c = Some x →
  (∀ w', frame w w' → conn w' = conn w → reqs w' = reqs w →
     ctxs w' = <[c := set_logged (λ b, b || early) x]> (ctxs w) →
     (∃ tr, trace w' = trace w ++ tr ∧ Forall intervention_event tr ∧
        calls tr = if early && bool_decide (is_Some (log_due w q))
                   then [ProcessLogging (transaction x)] else []) → Q tt w') →
  wp (when early (coraza_log_transaction r ;; upd_ctx c (set_logged (λ _, true)))) Q w.
Proof.
  intros Hr Hq Hd Hc Hx HQ. destruct early; simpl.
  2: { apply wp_ret. apply HQ; [done..| |].
       - destruct x as [????????[]]; by rewrite insert_id.
       - exists []. by rewrite app_nil_r. }
  assert (set_logged (λ b, b || true) x = set_logged (λ _, true) x) as Hlg.
  { unfold set_logged. by rewrite orb_true_r. }
  rewrite Hlg in HQ. act_step. apply log_transaction_wp with q; try done.
  { intros c' Hc'. simplify_eq. eauto. }
  destruct (log_due w q) as [[c' x']|] eqn:Edue.
  - assert (c' = c ∧ x' = x) as [-> ->].
    { unfold log_due in Edue. destruct (r_dir_conf q); [|done]. simpl in Edue.
      destruct (dir_confs (cfg w) !! _); [|done]. simpl in Edue. case_decide; [|done].
      rewrite Hc in Edue. simpl in Edue. rewrite Hx in Edue. simpl in Edue.
      by destruct (logged x); simplify_eq. }
    intros a e. act_step. apply HQ; try done.
    + simpl. by rewrite insert_insert_eq.
    + eexists [_]. split; [done|]. split; [by repeat constructor|done].
  - act_step. apply HQ; try done. exists []. by rewrite app_nil_r.
Qed.

Lemma process_intervention_wp t r early q c x (Q : Z → world X → Prop) w :
  dl_ready w → reqs w !! r = Some q → dir_valid w q →
  r_ctx q = Some c → ctxs w !! c = Some x →
  (∀ e, lib_intervention t (env w) = (None, e) → Q OK (after e (EvIntervention t None) w)) →
  (∀ it e w', lib_intervention t (env w) = (Some it, e) →
     intervened it early t r q c x w w' → Q (enforced_status it) w') →
  wp (coraza_process_intervention t r early) Q w.
Proof.
  intros Hr Hq Hd Hc Hx Hnone Hsome. unfold coraza_process_intervention.
  do 2 act_step. rewrite Hc. act_step. apply wp_through; [done|done|].
  intros [it|] e Hit; [|apply wp_ret; by apply Hnone].
  set (x1 := set_drop_connection (λ b, b || is_drop it) x).
  set (w0 := after e (EvIntervention t (Some it)) w).
  act_step.
  eapply (wp_mono _ (λ _ w1, w1 = set_ctxs (λ m, <[c := x1]> m) w0)).
  { apply wp_when; intros Hdrop; subst x1; rewrite Hdrop.
    - act_step. by destruct x as [???????????[]].
    - rewrite set_ctxs_id; [done|]. by destruct x as [???????????[]]. }
  intros _ w1 ->. do 2 act_step. act_step. apply wp_dl_call; [done|done|]. intros a1 e1 _.
  do 2 act_step. act_step.
  apply early_log_wp with q x1; [done|done|done|done|solve_lookup|].
  intros w3 Hf3 Hcn3 Hrq3 Hcx3 (tr3 & Htr3 & Hev3 & Hcl3).
  assert (dl_ready w3) as Hr3 by (eapply frame_ready; [exact Hf3|done]).
  act_step.
  eapply (wp_mono _ (λ _ w4, frame w3 w4 ∧ conn w4 = conn w3 ∧ ctxs w4 = ctxs w3
     ∧ reqs w4 = <[r := intervened_req it q]> (reqs w3)
     ∧ ∃ tr, trace w4 = trace w3 ++ tr ∧ Forall intervention_event tr ∧ calls tr = [])).
  { assert (reqs w3 !! r = Some q) as Hq3 by (rewrite Hrq3; done).
    assert (Hkeep : ∃ tr, trace w3 = trace w3 ++ tr ∧ Forall intervention_event tr ∧ calls tr = [])
      by (exists []; by rewrite app_nil_r).
    unfold intervened_req. destruct (it_data it) as [loc|].
    - destruct (is_drop it); simpl; [apply wp_ret; rewrite insert_id by done; by split_and!|].
      apply set_location_wp with q; [done|]. intros tr Htr Hctr. split_and!; try done; eauto.
    - apply wp_ret. rewrite insert_id by done. by split_and!. }
  intros _ w4 (Hf4 & Hcn4 & Hcx4 & Hrq4 & tr4 & Htr4 & Hev4 & Hcl4).
  act_step. apply wp_dl_call; [by eapply frame_ready|done|]. intros a5 e5 _. apply wp_ret.
  apply Hsome with e; [done|]. clear Hsome Hnone.
  assert (calls tr3 = if early && bool_decide (is_Some (log_due w q))
                      then [ProcessLogging (transaction x)] else []) as Hcl.
  { assert (∀ w', cfg w' = cfg w → ctxs w' = <[c := x1]> (ctxs w) →
              bool_decide (is_Some (log_due w' q)) = bool_decide (is_Some (log_due w q))) as Hld.
    { intros w' E1 E2. apply bool_decide_ext.
      replace (log_due w' q) with (log_due (set_ctxs (λ m, <[c := x1]> m) w) q)
        by (unfold log_due; simpl; by rewrite E1, E2).
      rewrite (log_due_ctx w q c x x1) by done. apply fmap_is_Some. }
    rewrite Hcl3, Hld; done. }
  constructor; simpl.
  - change (frame w w4). etransitivity; [|exact Hf4]. exact Hf3.
  - by rewrite Hcn4, Hcn3.
  - rewrite Hcx4, Hcx3. simpl. by rewrite insert_insert_eq.
  - by rewrite Hrq4, Hrq3.
  - rewrite Htr4, Htr3. simpl. rewrite <- !app_assoc. eexists. split; [reflexivity|].
    split.
    + repeat (apply Forall_app; split); by repeat constructor.
    + by rewrite !calls_app, Hcl, Hcl4.
Qed.
End effects.

(** ** Logging once *)

(** The transactions logged, in order. *)
Definition logged_by (tr : list event) : list Z :=
  omap (λ k, match k with ProcessLogging t => Some t | _ => None end) (calls tr).

Lemma logged_by_app t1 t2 : logged_by (t1 ++ t2) = logged_by t1 ++ logged_by t2.
Proof. unfold logged_by. by rewrite calls_app, omap_app. Qed.

Section logging.
Context {X : Type} `{!Libcoraza X, !Httpd X}.
Implicit Types w : world X.

Lemma log_due_logged w q c x :
  r_ctx q = Some c → ctxs w !! c = Some x → logged x = true → log_due w q = None.
Proof.
  intros Hc Hx Hl. unfold log_due. destruct (r_dir_conf q) as [d|]; [|done]. simpl.
  destruct (dir_confs (cfg w) !! d); [|done]. simpl. case_decide; [|done].
  rewrite Hc. simpl. rewrite Hx. simpl. by rewrite Hl.
Qed.

Lemma log_due_Some w q c x c' x' :
  r_ctx q = Some c → ctxs w !! c = Some x → log_due w q = Some (c', x') →
  c' = c ∧ x' = x ∧ logged x = false.
Proof.
  intros Hc Hx. unfold log_due. destruct (r_dir_conf q) as [d|]; [|done]. simpl.
  destruct (dir_confs (cfg w) !! d); [|done]. simpl. case_decide; [|done].
  rewrite Hc. simpl. rewrite Hx. simpl. destruct (logged x) eqn:E; [done|]. by intros [= <- <-].
Qed.

(** The log hook, run twice. *)
Lemma log_twice_wp r q c x (Q : Z → world X → Prop) w :
  dl_ready w → reqs w !! r = Some q → dir_valid w q → r_ctx q = Some c → ctxs w !! c = Some x →
  (∀ w' tr, trace w' = trace w ++ tr →
     logged_by tr = (if bool_decide (is_Some (log_due w q)) then [transaction x] else []) →
     Q OK w') →
  wp (coraza_log_transaction r ;; coraza_log_transaction r) Q w.
Proof.
  intros Hr Hq Hd Hc Hx HQ. act_step. apply log_transaction_wp with q; try done.
  { intros c' Hc'. simplify_eq. eauto. }
  destruct (log_due w q) as [[c' x']|] eqn:Edue.
  - destruct (log_due_Some w q c x c' x' Hc Hx Edue) as (-> & -> & _). intros a e.
    apply log_transaction_wp with q; try done.
    { intros c' Hc'. simplify_eq. eexists. solve_lookup. }
    rewrite (log_due_logged _ q c (set_logged (λ _, true) x)); [|done|solve_lookup|done].
    by eapply HQ.
  - apply log_transaction_wp with q; try done.
    { intros c' Hc'. simplify_eq. eauto. }
    rewrite Edue. apply HQ with []; [by rewrite app_nil_r|done].
Qed.

Lemma intervened_req_slots it q :
  r_ctx (intervened_req it q) = r_ctx q ∧ r_dir_conf (intervened_req it q) = r_dir_conf q.
Proof. unfold intervened_req. by destruct (it_data it), (is_drop it). Qed.
(** The cleanup of a context without, and with, a live transaction. *)
Lemma cleanup_idle_wp c x (Q : apr_status → world X → Prop) w :
  ctxs w !! c = Some x → transaction x = 0 → Q APR_SUCCESS w →
  wp (coraza_cleanup_transaction c) Q w.
Proof.
  intros Hx Ht HQ. unfold coraza_cleanup_transaction. do 3 act_step.
  rewrite bool_decide_eq_false_2 by congruence. by repeat apply wp_ret.
Qed.

Lemma cleanup_live_wp c x (Q : apr_status → world X → Prop) w :
  dl_ready w → ctxs w !! c = Some x → transaction x ≠ 0 →
  (∀ a e, Q APR_SUCCESS (set_ctxs (λ m, <[c := set_transaction (λ _, 0) x]> m)
             (after e (EvCall (FreeTransaction (transaction x)) a) w))) →
  wp (coraza_cleanup_transaction c) Q w.
Proof.
  intros Hr Hx Ht HQ. unfold coraza_cleanup_transaction. do 3 act_step.
  rewrite bool_decide_eq_true_2 by done. simpl. act_step. apply wp_dl_call; [done|done|].
  intros a e _. do 2 act_step. apply HQ.
Qed.
End logging.

(** ** Properties *)

(** C5: every intervention the engine reports is enforced and nothing else
    is: with none queued the function returns OK and leaves context and
    request as they were; with one it returns a status that denies (at least
    300, or the rule's own 201/204 -- 403 for a drop, for 444 and for any
    status that would look like success), tells the engine that same status,
    raises [drop_connection] exactly for drops, marks the transaction logged
    when asked to log early, sets a Location only for a non-drop with data,
    and frees the intervention once, as its last call. *)
Theorem intervention_enforced {X} `{!Libcoraza X, !Httpd X} t r early q c x (w : world X) :
  dl_ready w → reqs w !! r = Some q → dir_valid w q →
  r_ctx q = Some c → ctxs w !! c = Some x →
  ∃ rc w', coraza_process_intervention t r early w = Some (rc, w')
    ∧ match (lib_intervention t (env w)).1 with
      | None => rc = OK ∧ ctxs w' = ctxs w ∧ reqs w' = reqs w ∧ conn w' = conn w
      | Some it =>
          rc = enforced_status it ∧ 0 < rc
          ∧ (300 ≤ rc ∨ rc = HTTP_CREATED ∨ rc = HTTP_NO_CONTENT)
          ∧ intervened it early t r q c x w w'
      end.
Proof.
  intros Hr Hq Hd Hc Hx. apply wp_det.
  eapply process_intervention_wp; try done.
  - intros e E. by rewrite E.
  - intros it e w' E Hiv. rewrite E. split_and!; [done| | |done]; simpl.
    + apply enforced_status_pos.
    + apply enforced_status_blocks.
Qed.

(** A bare [drop] (status 0), with a redirect target that must not be sent. *)
Definition sample_drop : coraza_intervention_t :=
  Intervention (Some "drop"%string) 0 (Some "https://example.org/"%string) 1001.
Definition sample_denied (it : coraza_intervention_t) : world script :=
  sim_world (Script [Some it] [] [] 1 0) {[ 0%nat := sim_request None (Some 0%nat) ]}
    {[ 0%nat := sim_ctx ]}.

Lemma sample_dir_valid it : dir_valid (sample_denied it) (sim_request None (Some 0%nat)).
Proof. intros d [= <-]. eexists. reflexivity. Qed.

Lemma intervention_enforced_witness :
  ∃ w', coraza_process_intervention 7 0 true (sample_denied sample_drop) = Some (403, w')
        ∧ (drop_connection <$> ctxs w' !! 0%nat) = Some true.
Proof.
  destruct (intervention_enforced 7 0 true (sim_request None (Some 0%nat)) 0 sim_ctx
    (sample_denied sample_drop) (λ f, eq_refl) eq_refl (sample_dir_valid _) eq_refl eq_refl)
    as (rc & w' & E & H). simpl in H. destruct H as (-> & _ & _ & Hiv).
  exists w'. split; [exact E|]. rewrite (iv_ctxs _ _ _ _ _ _ _ _ _ Hiv), lookup_insert_eq.
  reflexivity.
Defined.

(** C34: the Location a redirect sends carries no C0 control character and no
    DEL, whatever the rule's data is: it is the longest prefix of the target
    free of them, so the target itself when it has none. *)
Theorem location_has_no_control_characters loc :
  Forall safe_char (bytes_of (safe_location loc))
  ∧ bytes_of (safe_location loc) = take (safe_length loc) (bytes_of loc)
  ∧ (∀ c, bytes_of loc !! safe_length loc = Some c → ¬ safe_char c)
  ∧ (Forall safe_char (bytes_of loc) → safe_location loc = loc).
Proof.
  destruct (safe_location_bytes loc) as (H1 & H2 & H3). split_and!; try done.
  intros Hall. apply safe_length_full. pose proof (safe_length_le loc) as Hle.
  destruct (decide (safe_length loc = String.length loc)) as [|Hne]; [done|exfalso].
  destruct (lookup_lt_is_Some_2 (bytes_of loc) (safe_length loc)) as [c Hc].
  { rewrite length_bytes_of. lia. }
  apply (H3 c Hc). by apply (Forall_lookup_1 _ _ _ _ Hall Hc).
Qed.

(** A transaction is written to the audit log at most once.  Whatever a
    poll with early logging found, the log hook that runs afterwards (even
    twice) leaves a single [coraza_process_logging] in all, made iff the module
    is enabled for the request and the transaction was not logged before. *)
Theorem audit_log_once {X} `{!Libcoraza X, !Httpd X} t r q c x (w : world X) :
  dl_ready w → reqs w !! r = Some q → dir_valid w q →
  r_ctx q = Some c → ctxs w !! c = Some x →
  ∃ rc w' tr,
    (coraza_process_intervention t r true ;; coraza_log_transaction r ;;
     coraza_log_transaction r) w = Some (rc, w')
    ∧ trace w' = trace w ++ tr
    ∧ logged_by tr = if bool_decide (is_Some (log_due w q)) then [transaction x] else [].
Proof.
  intros Hr Hq Hd Hc Hx.
  assert (wp (coraza_process_intervention t r true ;; coraza_log_transaction r ;;
              coraza_log_transaction r)
            (λ _ w', ∃ tr, trace w' = trace w ++ tr ∧
               logged_by tr = if bool_decide (is_Some (log_due w q)) then [transaction x] else []) w)
    as H; [|apply wp_det in H as (rc & w' & E & tr & H); eauto].
  act_step. eapply process_intervention_wp; try done.
  - intros e _. apply log_twice_wp with q c x; try done. simpl. intros w' tr -> Htr.
    rewrite <- app_assoc. eexists. split; [reflexivity|]. done.
  - intros it e w1 _ Hiv. destruct Hiv as [Hf Hcn Hcx Hrq (tr & Htr & _ & Hcl)].
    destruct (intervened_req_slots it q) as [Hs1 Hs2].
    apply log_twice_wp with (intervened_req it q) c (intervened_ctx it true x).
    + by eapply frame_ready.
    + rewrite Hrq. solve_lookup.
    + unfold dir_valid in *. rewrite Hs2. destruct Hf as (_ & -> & _). done.
    + by rewrite Hs1.
    + rewrite Hcx. solve_lookup.
    + intros w' tr' -> Htr'. rewrite Htr, <- app_assoc. eexists. split; [reflexivity|].
      rewrite logged_by_app, Htr'. rewrite (log_due_logged _ _ c (intervened_ctx it true x)).
      * unfold logged_by. change (calls (_ :: tr)) with (calls tr). rewrite Hcl. simpl.
        destruct (bool_decide _); by rewrite ?app_nil_r.
      * by rewrite Hs1.
      * rewrite Hcx. solve_lookup.
      * simpl. by rewrite orb_true_r.
Qed.

Lemma audit_log_once_witness :
  ∃ rc w', (coraza_process_intervention 7 0 true ;; coraza_log_transaction 0 ;;
            coraza_log_transaction 0) (sample_denied sample_drop) = Some (rc, w')
           ∧ logged_by (trace w') = [7].
Proof.
  destruct (audit_log_once 7 0 (sim_request None (Some 0%nat)) 0 sim_ctx
    (sample_denied sample_drop) (λ f, eq_refl) eq_refl (sample_dir_valid _) eq_refl eq_refl)
    as (rc & w' & tr & E & Htr & Hl).
  exists rc, w'. split; [exact E|]. rewrite Htr. exact Hl.
Defined.

(** The request-pool cleanup releases the transaction exactly once: it
    frees a live transaction and clears the handle, so a second run, or one
    on a context without a transaction, frees nothing. *)
Theorem cleanup_frees_once {X} `{!Libcoraza X, !Httpd X} c x (w : world X) :
  dl_ready w → ctxs w !! c = Some x →
  ∃ w' tr, (coraza_cleanup_transaction c ;; coraza_cleanup_transaction c) w = Some (APR_SUCCESS, w')
    ∧ (transaction <$> ctxs w' !! c) = Some 0
    ∧ trace w' = trace w ++ tr
    ∧ calls tr = if bool_decide (transaction x = 0) then [] else [FreeTransaction (transaction x)].
Proof.
  intros Hr Hx.
  assert (wp (coraza_cleanup_transaction c ;; coraza_cleanup_transaction c)
    (λ rv w', rv = APR_SUCCESS ∧ (transaction <$> ctxs w' !! c) = Some 0
       ∧ ∃ tr, trace w' = trace w ++ tr ∧ calls tr =
         if bool_decide (transaction x = 0) then [] else [FreeTransaction (transaction x)]) w)
    as H; [|apply wp_det in H as (rc & w' & E & -> & H1 & tr & H2 & H3); eauto 10].
  act_step. case_bool_decide as Ht.
  - apply cleanup_idle_wp with x; [done|done|]. apply cleanup_idle_wp with x; [done|done|].
    split_and!; [done|by rewrite Hx, <- Ht|]. exists []. by rewrite app_nil_r.
  - apply cleanup_live_wp with x; [done|done|done|]. intros a e.
    apply cleanup_idle_wp with (set_transaction (λ _, 0) x); [solve_lookup|done|].
    split_and!; [done|simpl; by rewrite lookup_insert_eq|]. by eexists [_].
Qed.

Lemma cleanup_frees_once_witness :
  ∃ w', (coraza_cleanup_transaction 0 ;; coraza_cleanup_transaction 0) (sample_denied sample_drop)
        = Some (APR_SUCCESS, w') ∧ calls (trace w') = [FreeTransaction 7].
Proof.
  destruct (cleanup_frees_once 0 sim_ctx (sample_denied sample_drop) (λ f, eq_refl) eq_refl)
    as (w' & tr & E & _ & Htr & Hc).
  exists w'. split; [exact E|]. rewrite Htr. exact Hc.
Defined.
