(* ===== verification/Config.v ===== *)
(** * Configuration

    The directive handlers, the directive table, the creation and merging of
    configuration records and the whole-configuration hooks of
    src/mod_coraza.c.  Records live in the stores of [config]; an allocation
    takes an address no live record has. *)
From S2P Require Import Prelude RulesScan Types World.
Local Open Scope Z_scope.

(** [apr_strtoff]: status, value and the suffix [end] points to. *)
Class AprStrings := { apr_strtoff : string → Z → apr_status * Z * string }.

(** [cmd_parms]: the directive's name, [cmd->server] as a position in the
    server list, and [cmd->path], NULL at server level. *)
Record cmd_parms := CmdParms { cmd_name : string; cmd_server : nat; cmd_path : option string }.

Section config.
Context {X : Type} `{!ConfigFiles, !AprStrings}.
Abbreviation W := (world X).

(** ** Allocation *)
Definition new_array (l : list coraza_rule_entry_t) : M W nat :=
  a ← gets (λ w, next_key (arrays (cfg w)));
  modify (set_cfg (set_arrays (λ m, <[a := l]> m))) ;; mret a.
Definition new_dir_conf (x : coraza_dir_conf_t) : M W nat :=
  d ← gets (λ w, next_key (dir_confs (cfg w)));
  modify (set_cfg (set_dir_confs (λ m, <[d := x]> m))) ;; mret d.
Definition new_server_conf (x : coraza_server_conf_t) : M W nat :=
  s ← gets (λ w, next_key (server_confs (cfg w)));
  modify (set_cfg (set_server_confs (λ m, <[s := x]> m))) ;; mret s.

(** [ap_get_module_config(s->module_config, &coraza_module)], NULL or not. *)
Definition server_slot (sv : nat) : M W (option nat) :=
  s ← deref (λ w, servers (cfg w) !! sv); mret (sv_conf s).
(** The same, followed. *)
Definition the_server_conf (sv : nat) : M W nat :=
  c ← server_slot sv; match c with Some c => mret c | None => undefined end.

(** ** Directive handlers: NULL, or the error that stops the start *)
Definition cmd_coraza_enable (cmd : cmd_parms) (dcfg : nat) (flag : bool)
  : M W (option cfg_error) :=
  upd_dir dcfg (set_enable (λ _, if flag then 1 else 0)) ;; mret None.

Definition cmd_coraza_rules (cmd : cmd_parms) (dcfg : nat) (arg : string)
  : M W (option cfg_error) :=
  err ← defined (coraza_check_rules_text (cmd_name cmd) arg);
  match err with
  | Some err => mret (Some err)
  | None =>
      dcf ← get_dir dcfg;
      upd_array (rules dcf) (λ l, l ++ [Rule CORAZA_RULE_INLINE arg]) ;;
      upd_dir dcfg (set_has_rules (λ _, true)) ;;
      scf ← the_server_conf (cmd_server cmd);
      upd_server_conf scf (set_rules_inline (λ n, wrap32 (n + 1))) ;;
      s ← get_server_conf scf;
      when (bool_decide (cmd_path cmd = None))
        (upd_array (s_rules s) (λ l, l ++ [Rule CORAZA_RULE_INLINE arg])) ;;
      mret None
  end.

Definition cmd_coraza_rules_file (cmd : cmd_parms) (dcfg : nat) (arg : string)
  : M W (option cfg_error) :=
  '(err, arg) ← defined (coraza_check_rules_file arg);
  match err with
  | Some err => mret (Some err)
  | None =>
      dcf ← get_dir dcfg;
      upd_array (rules dcf) (λ l, l ++ [Rule CORAZA_RULE_FILE arg]) ;;
      upd_dir dcfg (set_has_rules (λ _, true)) ;;
      scf ← the_server_conf (cmd_server cmd);
      upd_server_conf scf (set_rules_file (λ n, wrap32 (n + 1))) ;;
      s ← get_server_conf scf;
      when (bool_decide (cmd_path cmd = None))
        (upd_array (s_rules s) (λ l, l ++ [Rule CORAZA_RULE_FILE arg])) ;;
      mret None
  end.

Definition cmd_coraza_transaction_id (cmd : cmd_parms) (dcfg : nat) (arg : string)
  : M W (option cfg_error) :=
  upd_dir dcfg (set_transaction_id (λ _, Some arg)) ;; mret None.

(** [full] is the directive as written: its name, a space, its arguments. *)
Definition cmd_sec_directive (cmd : cmd_parms) (dcfg : nat) (args : string)
  : M W (option cfg_error) :=
  let full := String.append (cmd_name cmd) (String.append " " args) in
  cmd_coraza_rules cmd dcfg full.

Definition cmd_coraza_body_mem_limit (cmd : cmd_parms) (dcfg : nat) (arg : string)
  : M W (option cfg_error) :=
  let '(rv, limit, end_) := apr_strtoff arg 10 in
  if bool_decide (rv ≠ APR_SUCCESS) || bool_decide (end_ ≠ EmptyString) || bool_decide (limit < 0)
  then mret (Some (ErrMessage
         "CorazaRequestBodyInMemoryLimit must be a non-negative number of bytes"))
  else upd_dir dcfg (set_body_mem_limit (λ _, limit)) ;; mret None.

(** ** The directive table *)
Inductive command_rec :=
| AP_INIT_FLAG (name : string) (f : cmd_parms → nat → bool → M W (option cfg_error))
| AP_INIT_TAKE1 (name : string) (f : cmd_parms → nat → string → M W (option cfg_error))
| AP_INIT_RAW_ARGS (name : string) (f : cmd_parms → nat → string → M W (option cfg_error)).

Definition command_name (c : command_rec) : string :=
  match c with
  | AP_INIT_FLAG name _ | AP_INIT_TAKE1 name _ | AP_INIT_RAW_ARGS name _ => name
  end.

Definition SEC_DIRECTIVE (name : string) : command_rec := AP_INIT_RAW_ARGS name cmd_sec_directive.

Definition coraza_directives : list command_rec :=
  [ AP_INIT_FLAG "Coraza" cmd_coraza_enable;
    AP_INIT_TAKE1 "CorazaRules" cmd_coraza_rules;
    AP_INIT_TAKE1 "CorazaRulesFile" cmd_coraza_rules_file;
    AP_INIT_TAKE1 "CorazaTransactionId" cmd_coraza_transaction_id;
    AP_INIT_TAKE1 "CorazaRequestBodyInMemoryLimit" cmd_coraza_body_mem_limit;
    SEC_DIRECTIVE "SecRuleEngine";
    SEC_DIRECTIVE "SecRule";
    SEC_DIRECTIVE "SecAction";
    SEC_DIRECTIVE "SecMarker";
    SEC_DIRECTIVE "SecDefaultAction";
    SEC_DIRECTIVE "SecRequestBodyAccess";
    SEC_DIRECTIVE "SecRequestBodyLimit";
    SEC_DIRECTIVE "SecRequestBodyNoFilesLimit";
    SEC_DIRECTIVE "SecRequestBodyInMemoryLimit";
    SEC_DIRECTIVE "SecRequestBodyLimitAction";
    SEC_DIRECTIVE "SecResponseBodyAccess";
    SEC_DIRECTIVE "SecResponseBodyMimeType";
    SEC_DIRECTIVE "SecResponseBodyLimit";
    SEC_DIRECTIVE "SecResponseBodyLimitAction";
    SEC_DIRECTIVE "SecTmpDir";
    SEC_DIRECTIVE "SecDataDir";
    SEC_DIRECTIVE "SecAuditEngine";
    SEC_DIRECTIVE "SecAuditLog";
    SEC_DIRECTIVE "SecAuditLogParts";
    SEC_DIRECTIVE "SecAuditLogRelevantStatus";
    SEC_DIRECTIVE "SecAuditLogType";
    SEC_DIRECTIVE "SecAuditLogStorageDir";
    SEC_DIRECTIVE "SecArgumentSeparator";
    SEC_DIRECTIVE "SecCookieFormat";
    SEC_DIRECTIVE "SecUnicodeMapFile";
    SEC_DIRECTIVE "SecStatusEngine";
    SEC_DIRECTIVE "SecPcreMatchLimit";
    SEC_DIRECTIVE "SecPcreMatchLimitRecursion";
    SEC_DIRECTIVE "SecDebugLog";
    SEC_DIRECTIVE "SecDebugLogLevel";
    SEC_DIRECTIVE "SecRuleRemoveById";
    SEC_DIRECTIVE "SecRuleRemoveByTag";
    SEC_DIRECTIVE "SecRuleRemoveByMsg";
    SEC_DIRECTIVE "SecRuleUpdateActionById";
    SEC_DIRECTIVE "SecRuleUpdateTargetById";
    SEC_DIRECTIVE "SecRuleUpdateTargetByTag";
    SEC_DIRECTIVE "SecRuleUpdateTargetByMsg";
    SEC_DIRECTIVE "SecComponentSignature";
    SEC_DIRECTIVE "SecWebAppId";
    SEC_DIRECTIVE "SecCollectionTimeout";
    SEC_DIRECTIVE "SecContentInjection";
    SEC_DIRECTIVE "SecConnEngine";
    SEC_DIRECTIVE "SecSensorId";
    SEC_DIRECTIVE "SecHashEngine";
    SEC_DIRECTIVE "SecHashKey";
    SEC_DIRECTIVE "SecHashParam";
    SEC_DIRECTIVE "SecHashMethodRx";
    SEC_DIRECTIVE "SecHashMethodPm";
    SEC_DIRECTIVE "SecStreamInBodyInspection";
    SEC_DIRECTIVE "SecStreamOutBodyInspection";
    SEC_DIRECTIVE "SecUploadDir";
    SEC_DIRECTIVE "SecUploadKeepFiles";
    SEC_DIRECTIVE "SecUploadFileMode";
    SEC_DIRECTIVE "SecUploadFileLimit";
    SEC_DIRECTIVE "SecRemoteRules";
    SEC_DIRECTIVE "SecRemoteRulesFailAction";
    SEC_DIRECTIVE "SecInterceptOnError";
    SEC_DIRECTIVE "SecDisableBackendCompression";
    SEC_DIRECTIVE "SecHttpBlKey";
    SEC_DIRECTIVE "SecGsbLookupDb";
    SEC_DIRECTIVE "SecXmlExternalEntity";
    SEC_DIRECTIVE "SecRuleScript";
    SEC_DIRECTIVE "SecTmpSaveUploadedFiles" ].

(** ** Creation and merging *)
Definition coraza_create_dir_conf : M W nat :=
  a ← new_array [];
  new_dir_conf (DirConf (-1) false a None (-1) 0 None).

Definition coraza_merge_dir_conf (parent child : nat) : M W nat :=
  pconf ← get_dir parent;
  cconf ← get_dir child;
  let en := if bool_decide (enable cconf ≠ -1) then enable cconf else enable pconf in
  let txid := match transaction_id cconf with
              | Some id => Some id | None => transaction_id pconf end in
  let limit := if bool_decide (body_mem_limit cconf ≠ -1)
               then body_mem_limit cconf else body_mem_limit pconf in
  prules ← get_array (rules pconf);
  crules ← get_array (rules cconf);
  merged ←
    (if bool_decide (prules ≠ []) then
       if bool_decide (crules ≠ []) then
         a ← new_array (prules ++ crules);
         mret (DirConf en true a txid limit (waf cconf) (Some child))
       else mret (DirConf en (has_rules pconf) (rules pconf) txid limit (waf pconf) None)
     else if bool_decide (crules ≠ []) then
       mret (DirConf en (has_rules cconf) (rules cconf) txid limit (waf cconf) None)
     else
       a ← new_array [];
       mret (DirConf en false a txid limit 0 None));
  d ← new_dir_conf merged;
  modify (set_cfg (set_g_tracked_dir_confs (fmap (λ l, l ++ [d])))) ;;
  mret d.

Definition coraza_create_server_conf : M W nat :=
  a ← new_array [];
  s ← new_server_conf (ServerConf a [] 0 0 0);
  modify (set_cfg (set_g_tracked_dir_confs (λ _, Some []))) ;;
  mret s.

(** ** Whole-configuration checks *)
Fixpoint coraza_config_has_rules (svs : list server_rec) : M W bool :=
  match svs with
  | [] => mret false
  | sv :: svs =>
      match sv_conf sv with
      | None => coraza_config_has_rules svs
      | Some c =>
          scf ← get_server_conf c;
          if bool_decide (rules_inline scf > 0) || bool_decide (rules_file scf > 0)
          then mret true else coraza_config_has_rules svs
      end
  end.

(** Some section of [secs] (the module's slots of a section vector) says
    "Coraza On". *)
Fixpoint section_enabled (secs : list (option nat)) : M W bool :=
  match secs with
  | [] => mret false
  | None :: secs => section_enabled secs
  | Some d :: secs =>
      dcf ← get_dir d;
      if bool_decide (enable dcf = 1) then mret true else section_enabled secs
  end.

Definition slot_enabled (slot : option nat) : M W bool :=
  match slot with
  | None => mret false
  | Some d => dcf ← get_dir d; mret (bool_decide (enable dcf = 1))
  end.

Fixpoint coraza_config_enabled_where (svs : list server_rec) : M W (option string) :=
  match svs with
  | [] => mret None
  | sv :: svs =>
      b ← slot_enabled (sv_lookup_defaults sv);
      if b : bool then mret (Some "server level"%string)
      else
        match sv_core sv with
        | None => coraza_config_enabled_where svs
        | Some (sec_dir, sec_url) =>
            b ← section_enabled sec_dir;
            if b : bool then mret (Some "in a <Directory> section"%string)
            else
              b ← section_enabled sec_url;
              if b : bool then mret (Some "in a <Location> section"%string)
              else coraza_config_enabled_where svs
        end
  end.

Definition coraza_check_config : M W Z :=
  s ← gets (λ w, servers (cfg w));
  scope ← coraza_config_enabled_where s;
  match scope with
  | None => mret OK
  | Some scope =>
      b ← coraza_config_has_rules s;
      if negb b then
        ap_log APLOG_EMERG "coraza: Coraza On requires at least one rule directive" ;;
        mret HTTP_INTERNAL_SERVER_ERROR
      else mret OK
  end.

Fixpoint log_rule_counts (svs : list server_rec) : M W unit :=
  match svs with
  | [] => mret tt
  | sv :: svs =>
      match sv_conf sv with
      | None => mret tt
      | Some c =>
          scf ← get_server_conf c;
          ap_log APLOG_NOTICE "coraza: rules collected inline/file"
      end ;;
      log_rule_counts svs
  end.

Definition coraza_post_config : M W Z :=
  s ← gets (λ w, servers (cfg w)); log_rule_counts s ;; mret OK.
End config.
