(* ===== verification/ConfigFacts.v ===== *)
(** * Configuration: proofs

    The store operations of [Config] as total-correctness rules, the abstract
    policy that merging refines, and the properties of the directives and of the
    configuration check. *)
From S2P Require Import Prelude RulesScan RulesScanFacts Types World Sim Config.
Local Open Scope Z_scope.

(** ** Allocation *)
Section allocation.
Context {X : Type}.
Implicit Types w : world X.

Lemma wp_new_array l (Q : nat → world X → Prop) w :
  (∀ a, arrays (cfg w) !! a = None →
     Q a (set_cfg (set_arrays (λ m, <[a := l]> m)) w)) → wp (new_array l) Q w.
Proof. intros HQ. unfold new_array. repeat wp_step. apply HQ, next_key_fresh. Qed.

Lemma wp_new_dir_conf x (Q : nat → world X → Prop) w :
  (∀ d, dir_confs (cfg w) !! d = None →
     Q d (set_cfg (set_dir_confs (λ m, <[d := x]> m)) w)) → wp (new_dir_conf x) Q w.
Proof. intros HQ. unfold new_dir_conf. repeat wp_step. apply HQ, next_key_fresh. Qed.

Lemma wp_server_slot i sv (Q : option nat → world X → Prop) w :
  servers (cfg w) !! i = Some sv → Q (sv_conf sv) w → wp (server_slot i) Q w.
Proof.
  intros E HQ. unfold server_slot. wp_step. eapply wp_deref; [exact E|]. by apply wp_ret.
Qed.

Lemma wp_the_server_conf i sv c (Q : nat → world X → Prop) w :
  servers (cfg w) !! i = Some sv → sv_conf sv = Some c → Q c w → wp (the_server_conf i) Q w.
Proof.
  intros E1 E2 HQ. unfold the_server_conf. wp_step. apply wp_server_slot with sv; [done|].
  rewrite E2. by apply wp_ret.
Qed.
End allocation.

(** ** Policies

    What a per-directory record stands for, independently of where its rules
    are stored: the abstract specification of merging. *)
Record policy := Policy {
  p_enable : Z;
  p_rules : list coraza_rule_entry_t;
  p_transaction_id : option string;
  p_body_mem_limit : Z }.

Definition child_or (p c : Z) : Z := if bool_decide (c ≠ -1) then c else p.

Definition override (p c : policy) : policy :=
  Policy (child_or (p_enable p) (p_enable c)) (p_rules p ++ p_rules c)
    (match p_transaction_id c with Some id => Some id | None => p_transaction_id p end)
    (child_or (p_body_mem_limit p) (p_body_mem_limit c)).

Lemma child_or_assoc a b c : child_or (child_or a b) c = child_or a (child_or b c).
Proof. unfold child_or. repeat case_bool_decide; congruence. Qed.

#[export] Instance override_assoc : Assoc (=) override.
Proof.
  intros a b c. unfold override. simpl. f_equal.
  - symmetry. apply child_or_assoc.
  - apply app_assoc.
  - by destruct (p_transaction_id c).
  - symmetry. apply child_or_assoc.
Qed.

(** [d] is a record whose array holds the rules of [p], and whose [has_rules]
    flag tells whether there are any. *)
Definition stands_for {X} (w : world X) (d : nat) (p : policy) : Prop :=
  ∃ dcf, dir_confs (cfg w) !! d = Some dcf
    ∧ arrays (cfg w) !! rules dcf = Some (p_rules p)
    ∧ has_rules dcf = bool_decide (p_rules p ≠ [])
    ∧ enable dcf = p_enable p ∧ transaction_id dcf = p_transaction_id p
    ∧ body_mem_limit dcf = p_body_mem_limit p.

(** Records and arrays are never moved or changed, only added. *)
Definition extends {X} (w w' : world X) : Prop :=
  dir_confs (cfg w) ⊆ dir_confs (cfg w') ∧ arrays (cfg w) ⊆ arrays (cfg w').

#[export] Instance extends_preorder X : PreOrder (@extends X).
Proof.
  split; [done|]. intros w1 w2 w3 [H1 H2] [H3 H4]. split; by etransitivity.
Qed.

Lemma stands_for_extends {X} (w w' : world X) d p :
  extends w w' → stands_for w d p → stands_for w' d p.
Proof.
  intros [Hd Ha] (dcf & H1 & H2 & H). exists dcf. split_and!; try apply H.
  - by eapply lookup_weaken.
  - by eapply lookup_weaken.
Qed.

Lemma stands_for_det {X} (w : world X) d p q : stands_for w d p → stands_for w d q → p = q.
Proof.
  intros (x & H1 & H2 & _ & H3 & H4 & H5) (y & H1' & H2' & _ & H3' & H4' & H5').
  destruct p, q; simplify_eq/=. congruence.
Qed.

Section merging.
Context {X : Type}.
Implicit Types w : world X.

(** One merge: the new record stands for the child overriding the parent. *)
Lemma merge_wp p c pp pc w :
  stands_for w p pp → stands_for w c pc →
  wp (coraza_merge_dir_conf p c) (λ d w',
    extends w w' ∧ stands_for w' d (override pp pc)
    ∧ g_tracked_dir_confs (cfg w') = (λ l, l ++ [d]) <$> g_tracked_dir_confs (cfg w)) w.
Proof.
  intros (x & Hx & Hxl & Hxr & Hxe & Hxt & Hxb) (y & Hy & Hyl & Hyr & Hye & Hyt & Hyb).
  unfold coraza_merge_dir_conf. do 8 act_step. act_step.
  eapply (wp_mono _ (λ m w1, extends w w1
      ∧ g_tracked_dir_confs (cfg w1) = g_tracked_dir_confs (cfg w)
      ∧ arrays (cfg w1) !! rules m = Some (p_rules pp ++ p_rules pc)
      ∧ has_rules m = bool_decide (p_rules pp ++ p_rules pc ≠ [])
      ∧ enable m = child_or (enable x) (enable y)
      ∧ transaction_id m = match transaction_id y with
                           | Some id => Some id | None => transaction_id x end
      ∧ body_mem_limit m = child_or (body_mem_limit x) (body_mem_limit y))).
  - assert (Halloc : ∀ l a, arrays (cfg w) !! a = None →
      extends w (set_cfg (set_arrays (λ m, <[a := l]> m)) w)).
    { intros l a Ha. split; [done|]. simpl. by apply insert_subseteq. }
    destruct (decide (p_rules pp = [])) as [E1|E1], (decide (p_rules pc = [])) as [E2|E2];
      rewrite ?(bool_decide_eq_true_2 _ E1), ?(bool_decide_eq_true_2 _ E2);
      rewrite ?bool_decide_eq_false_2 by (by intros ?); simpl;
      rewrite ?bool_decide_eq_false_2 by (by intros ?); simpl.
    all: try (act_step; apply wp_new_array; intros a Ha).
    all: apply wp_ret; simpl; unfold child_or; rewrite ?E1, ?E2, ?app_nil_r; simpl.
    all: split_and!; try done; try (by apply Halloc); try (by rewrite lookup_insert_eq).
    all: try (by rewrite Hxl, E1); try (by rewrite Hyl, E2); try congruence.
    symmetry. apply bool_decide_eq_true_2. by destruct (p_rules pp).
  - intros m w1 (He & Ht & Hl & Hr & Hen & Hti & Hbm). act_step. apply wp_new_dir_conf.
    intros d Hd. do 2 act_step. act_step. split_and!.
    + etransitivity; [exact He|]. split; simpl; [by apply insert_subseteq|done].
    + exists m. simpl. rewrite lookup_insert_eq, Hl, Hen, Hti, Hbm.
      by rewrite Hxe, Hye, Hxt, Hyt, Hxb, Hyb.
    + simpl. by rewrite Ht.
Qed.
End merging.

(** httpd's section walk: [ap_merge_per_dir_configs] of the server's record
    with the record of each section that applies, in order. *)
Fixpoint merge_sections {X} (base : nat) (secs : list nat) : M (world X) nat :=
  match secs with
  | [] => mret base
  | s :: secs => d ← coraza_merge_dir_conf base s; merge_sections d secs
  end.

Lemma merge_sections_wp {X} secs pols : ∀ base pb (w : world X),
  stands_for w base pb → Forall2 (stands_for w) secs pols →
  wp (merge_sections base secs) (λ d w', extends w w' ∧ stands_for w' d (foldl override pb pols)) w.
Proof.
  revert pols. induction secs as [|s secs IH]; intros pols base pb w Hb Hs.
  - apply Forall2_nil_inv_l in Hs as ->. by apply wp_ret.
  - apply Forall2_cons_inv_l in Hs as (ps & pols' & Hs & Hss & ->). simpl. wp_step.
    eapply wp_mono; [by apply (merge_wp base s pb ps)|]. intros d w1 (He & Hd & _).
    eapply wp_mono.
    + apply (IH pols'); [done|]. eapply Forall2_impl; [|exact Hss].
      intros ? ?. by apply stands_for_extends.
    + intros d' w' [He' Hd']. split; [by etransitivity|done].
Qed.

(** The last set value of a list of settings, -1 being unset. *)
Definition last_set (l : list Z) : Z := foldl child_or (-1) l.

Lemma foldl_override_enable pols : ∀ p,
  p_enable (foldl override p pols) = foldl child_or (p_enable p) (p_enable <$> pols).
Proof. induction pols as [|c pols IH]; intros p; [done|]. simpl. by rewrite IH. Qed.
Lemma foldl_override_limit pols : ∀ p,
  p_body_mem_limit (foldl override p pols)
  = foldl child_or (p_body_mem_limit p) (p_body_mem_limit <$> pols).
Proof. induction pols as [|c pols IH]; intros p; [done|]. simpl. by rewrite IH. Qed.
Lemma foldl_override_rules pols : ∀ p,
  p_rules (foldl override p pols) = p_rules p ++ mjoin (p_rules <$> pols).
Proof.
  induction pols as [|c pols IH]; intros p; simpl; [by rewrite app_nil_r|].
  rewrite IH. simpl. by rewrite <- app_assoc.
Qed.
Lemma child_or_unset c : child_or (-1) c = c.
Proof. unfold child_or. case_bool_decide; lia. Qed.

(** ** The directive handlers *)
Section directives.
Context {X : Type} `{!ConfigFiles, !AprStrings}.
Implicit Types w : world X.

(** The pointers a rules directive follows: the record [d] being filled and
    the record of the server it is read for. *)
Record directive_scope (w : world X) (cmd : cmd_parms) (d : nat) dcf l sv c scf sl : Prop := {
  ds_dir : dir_confs (cfg w) !! d = Some dcf;
  ds_rules : arrays (cfg w) !! rules dcf = Some l;
  ds_server : servers (cfg w) !! cmd_server cmd = Some sv;
  ds_slot : sv_conf sv = Some c;
  ds_conf : server_confs (cfg w) !! c = Some scf;
  ds_server_rules : arrays (cfg w) !! s_rules scf = Some sl }.

(** What recording rule [e] does to the store. *)
Definition record_rule (e : coraza_rule_entry_t) (cmd : cmd_parms) (d : nat) dcf c scf
    (scf' : coraza_server_conf_t) (g : config) : config :=
  Config
    ((if bool_decide (cmd_path cmd = None) then alter (λ l, l ++ [e]) (s_rules scf) else id)
       (alter (λ l, l ++ [e]) (rules dcf) (arrays g)))
    (<[d := set_has_rules (λ _, true) dcf]> (dir_confs g))
    (<[c := scf']> (server_confs g)) (servers g) (g_tracked_dir_confs g) (g_config_dir_confs g).

Lemma alter_insert_lookup (m : gmap nat (list coraza_rule_entry_t)) a f l :
  m !! a = Some l → <[a := f l]> m = alter f a m.
Proof.
  intros E. apply map_eq. intros i. destruct (decide (a = i)) as [<-|Hne].
  - by rewrite lookup_insert_eq, lookup_alter_eq, E.
  - by rewrite lookup_insert_ne, lookup_alter_ne by done.
Qed.

(** The part the two rules handlers share. *)
Lemma record_rule_wp e cmd d dcf l sv c scf sl f (Q : option cfg_error → world X → Prop) w :
  directive_scope w cmd d dcf l sv c scf sl → s_rules (f scf) = s_rules scf →
  Q None (set_cfg (record_rule e cmd d dcf c scf (f scf)) w) →
  wp (dcf ← get_dir d;
      upd_array (rules dcf) (λ l, l ++ [e]) ;;
      upd_dir d (set_has_rules (λ _, true)) ;;
      scf ← the_server_conf (cmd_server cmd);
      upd_server_conf scf f ;;
      s ← get_server_conf scf;
      when (bool_decide (cmd_path cmd = None)) (upd_array (s_rules s) (λ l, l ++ [e])) ;;
      mret None) Q w.
Proof.
  intros [Hd Hl Hs Hc Hscf Hsl] Hf HQ. do 6 act_step. act_step.
  apply wp_the_server_conf with sv c; [done|done|]. do 5 act_step.
  unfold record_rule, set_cfg in HQ. simpl in HQ. case_bool_decide; simpl; [|apply wp_ret; act_step].
  - destruct (arrays (cfg w) !! s_rules scf) eqn:E; [|congruence]. simplify_eq.
    assert (is_Some (<[rules dcf := l ++ [e]]> (arrays (cfg w)) !! s_rules scf)) as [l2 Hl2].
    { rewrite lookup_insert. case_decide; eauto. }
    eapply wp_upd_array; [simpl; rewrite Hf; exact Hl2|]. act_step.
    rewrite <- (alter_insert_lookup (arrays (cfg w)) (rules dcf) _ l Hl) in HQ.
    rewrite <- (alter_insert_lookup _ _ (λ l, l ++ [e]) l2 Hl2) in HQ. by rewrite Hf.
  - by rewrite <- (alter_insert_lookup (arrays (cfg w)) (rules dcf) _ l Hl) in HQ.
Qed.

Lemma cmd_rules_wp cmd d arg dcf l sv c scf sl (Q : option cfg_error → world X → Prop) w :
  directive_scope w cmd d dcf l sv c scf sl →
  (∀ check, coraza_check_rules_text (cmd_name cmd) arg = Some check →
   match check with
   | Some e => Q (Some e) w
   | None => Q None (set_cfg (record_rule (Rule CORAZA_RULE_INLINE arg) cmd d dcf c scf
                      (set_rules_inline (λ n, wrap32 (n + 1)) scf)) w)
   end) → wp (cmd_coraza_rules cmd d arg) Q w.
Proof.
  intros Hs HQ. unfold cmd_coraza_rules.
  destruct (check_rules_text_defined (cmd_name cmd) arg) as [check Hcheck].
  act_step. eapply wp_defined; [exact Hcheck|]. specialize (HQ check Hcheck).
  destruct check; [by apply wp_ret|].
  by eapply record_rule_wp.
Qed.

Lemma cmd_rules_file_wp cmd d arg dcf l sv c scf sl (Q : option cfg_error → world X → Prop) w :
  directive_scope w cmd d dcf l sv c scf sl →
  (∀ check, coraza_check_rules_file arg = Some check →
   match check with
   | (Some e, _) => Q (Some e) w
   | (None, path) => Q None (set_cfg (record_rule (Rule CORAZA_RULE_FILE path) cmd d dcf c scf
                      (set_rules_file (λ n, wrap32 (n + 1)) scf)) w)
   end) → wp (cmd_coraza_rules_file cmd d arg) Q w.
Proof.
  intros Hs HQ. unfold cmd_coraza_rules_file.
  destruct (check_rules_file_defined arg) as [check Hcheck].
  act_step. eapply wp_defined; [exact Hcheck|]. specialize (HQ check Hcheck).
  destruct check as [[e|] path]; [by apply wp_ret|].
  by eapply record_rule_wp.
Qed.
End directives.

(** ** Whole-configuration checks *)
Section checks.
Context {X : Type}.
Implicit Types w : world X.

(** The records a server can say "Coraza On" in. *)
Definition on_scopes (sv : server_rec) : list nat :=
  omap id (sv_lookup_defaults sv
    :: match sv_core sv with Some (dirs, urls) => dirs ++ urls | None => [] end).

Definition enabled_in w (d : nat) : Prop :=
  ∃ dcf, dir_confs (cfg w) !! d = Some dcf ∧ enable dcf = 1.
Definition has_rules_in w (c : nat) : Prop :=
  ∃ scf, server_confs (cfg w) !! c = Some scf ∧ (0 < rules_inline scf ∨ 0 < rules_file scf).

(** Every slot that is not NULL points to a record. *)
Definition slots_valid w : Prop :=
  ∀ sv, sv ∈ servers (cfg w) →
    (∀ d, d ∈ on_scopes sv → is_Some (dir_confs (cfg w) !! d))
    ∧ (∀ c, sv_conf sv = Some c → is_Some (server_confs (cfg w) !! c)).

Lemma has_rules_wp svs w :
  (∀ sv c, sv ∈ svs → sv_conf sv = Some c → is_Some (server_confs (cfg w) !! c)) →
  wp (coraza_config_has_rules svs) (λ b w', w' = w
     ∧ (b = true ↔ ∃ sv c, sv ∈ svs ∧ sv_conf sv = Some c ∧ has_rules_in w c)) w.
Proof.
  induction svs as [|sv svs IH]; intros Hv; simpl.
  { apply wp_ret. split; [done|]. split; [done|]. intros (? & ? & H & _).
    by apply not_elem_of_nil in H. }
  assert (IH' := IH (λ sv' c H, Hv sv' c (list_elem_of_further _ _ _ H))). clear IH.
  destruct (sv_conf sv) as [c|] eqn:Ec.
  - destruct (Hv sv c (list_elem_of_here _ _) Ec) as [scf Hscf]. do 2 act_step.
    act_step.
    + apply wp_ret. split; [done|]. split; [intros _|done]. exists sv, c.
      split_and!; [by left|done|]. exists scf. split; [done|].
      apply orb_true_iff in Heqb as [H%bool_decide_eq_true_1|H%bool_decide_eq_true_1]; lia.
    + apply orb_false_iff in Heqb as [H1%bool_decide_eq_false_1 H2%bool_decide_eq_false_1].
      eapply wp_mono; [exact IH'|]. intros b w' [-> ->]. split; [done|].
      setoid_rewrite elem_of_cons. split; [naive_solver|].
      intros (sv' & c' & [->|Hin] & E & scf' & E' & H).
      2: { exists sv', c'. split_and!; [done..|by exists scf']. }
      simplify_eq. lia.
  - eapply wp_mono; [exact IH'|]. intros b w' [-> ->]. split; [done|].
    setoid_rewrite elem_of_cons. naive_solver.
Qed.

Lemma section_enabled_wp secs w :
  (∀ d, d ∈ omap id secs → is_Some (dir_confs (cfg w) !! d)) →
  wp (section_enabled secs) (λ b w', w' = w
     ∧ (b = true ↔ ∃ d, d ∈ omap id secs ∧ enabled_in w d)) w.
Proof.
  induction secs as [|[d|] secs IH]; intros Hv; simpl.
  - apply wp_ret. split; [done|]. split; [done|]. intros (d & H & _). by apply not_elem_of_nil in H.
  - destruct (Hv d (list_elem_of_here _ _)) as [dcf Hdcf]. do 2 act_step. case_bool_decide as He.
    + apply wp_ret. split; [done|]. split; [|done]. intros _. exists d. split; [by left|].
      by exists dcf.
    + eapply wp_mono.
      * apply IH. intros d' Hd'. apply Hv. by right.
      * intros b w' [-> ->]. split; [done|]. setoid_rewrite elem_of_cons.
        split; [naive_solver|]. intros (d' & [->|Hin] & dcf' & E & H); [|exists d'; split; [done|by exists dcf']].
        simplify_eq.
  - by apply IH.
Qed.

Lemma slot_enabled_wp slot w :
  (∀ d, slot = Some d → is_Some (dir_confs (cfg w) !! d)) →
  wp (slot_enabled slot) (λ b w', w' = w ∧ (b = true ↔ ∃ d, slot = Some d ∧ enabled_in w d)) w.
Proof.
  intros Hv. unfold slot_enabled. destruct slot as [d|]; [|apply wp_ret; naive_solver].
  destruct (Hv d eq_refl) as [dcf E]. do 2 act_step. apply wp_ret. split; [done|].
  rewrite bool_decide_eq_true. split; [intros; exists d; split; [done|by exists dcf]|].
  intros (d' & [= <-] & dcf' & E' & H). congruence.
Qed.

Lemma elem_of_on_scopes sv d :
  d ∈ on_scopes sv ↔ sv_lookup_defaults sv = Some d
    ∨ ∃ dirs urls, sv_core sv = Some (dirs, urls) ∧ (d ∈ omap id dirs ∨ d ∈ omap id urls).
Proof.
  unfold on_scopes. rewrite list_elem_of_omap. setoid_rewrite elem_of_cons. unfold id.
  destruct (sv_core sv) as [[dirs urls]|].
  - setoid_rewrite elem_of_app. setoid_rewrite list_elem_of_omap. unfold id. naive_solver.
  - setoid_rewrite elem_of_nil. naive_solver.
Qed.

Lemma enabled_where_wp svs w :
  (∀ sv d, sv ∈ svs → d ∈ on_scopes sv → is_Some (dir_confs (cfg w) !! d)) →
  wp (coraza_config_enabled_where svs) (λ o w', w' = w
     ∧ (is_Some o ↔ ∃ sv d, sv ∈ svs ∧ d ∈ on_scopes sv ∧ enabled_in w d)) w.
Proof.
  induction svs as [|sv svs IH]; intros Hv; simpl.
  { apply wp_ret. split; [done|]. split; [by intros [? ?]|].
    intros (? & ? & H & _). by apply not_elem_of_nil in H. }
  assert (IH' := IH (λ sv' d H, Hv sv' d (list_elem_of_further _ _ _ H))). clear IH.
  assert (Hsv := λ d, Hv sv d (list_elem_of_here _ _)). clear Hv.
  assert (Hstop : ∀ s d, d ∈ on_scopes sv → enabled_in w d →
    is_Some (Some s : option string) ↔ ∃ sv' d, sv' ∈ sv :: svs ∧ d ∈ on_scopes sv' ∧ enabled_in w d).
  { intros s d Hd He. split; [intros _|by eauto]. exists sv, d. by split_and!; [left|..]. }
  assert (Hskip : (∀ d, d ∈ on_scopes sv → ¬ enabled_in w d) →
     wp (coraza_config_enabled_where svs) (λ o w', w' = w
      ∧ (is_Some o ↔ ∃ sv' d, sv' ∈ sv :: svs ∧ d ∈ on_scopes sv' ∧ enabled_in w d)) w).
  { intros Hno. eapply wp_mono; [exact IH'|]. intros o w' [-> ->]. split; [done|].
    setoid_rewrite elem_of_cons. naive_solver. }
  act_step. eapply wp_mono; [apply slot_enabled_wp|].
  { intros d Hd. apply Hsv, elem_of_on_scopes. by left. }
  intros b w' [-> Hb]. destruct b.
  { destruct Hb as [Hb _]. destruct Hb as (d & Hd & He); [done|]. apply wp_ret.
    split; [done|]. apply Hstop with d; [apply elem_of_on_scopes; by left|done]. }
  destruct (sv_core sv) as [[dirs urls]|] eqn:Ecore.
  2: { apply Hskip. intros d [Hd|(? & ? & ? & _)]%elem_of_on_scopes He; [|congruence].
       destruct Hb as [_ Hb]. discriminate Hb. by exists d. }
  act_step. eapply wp_mono; [apply section_enabled_wp|].
  { intros d Hd. apply Hsv, elem_of_on_scopes. right. by exists dirs, urls; auto. }
  intros b w' [-> Hb1]. destruct b.
  { destruct Hb1 as [Hb1 _]. destruct Hb1 as (d & Hd & He); [done|]. apply wp_ret.
    split; [done|]. apply Hstop with d; [|done].
    apply elem_of_on_scopes. right. by exists dirs, urls; auto. }
  act_step. eapply wp_mono; [apply section_enabled_wp|].
  { intros d Hd. apply Hsv, elem_of_on_scopes. right. by exists dirs, urls; auto. }
  intros b w' [-> Hb2]. destruct b.
  { destruct Hb2 as [Hb2 _]. destruct Hb2 as (d & Hd & He); [done|]. apply wp_ret.
    split; [done|]. apply Hstop with d; [|done].
    apply elem_of_on_scopes. right. by exists dirs, urls; auto. }
  apply Hskip. intros d Hd He. apply elem_of_on_scopes in Hd as [Hd|(ds & us & E & Hd)].
  - destruct Hb as [_ Hb]. discriminate Hb. by exists d.
  - rewrite Ecore in E. injection E as <- <-. destruct Hd as [Hd|Hd].
    + destruct Hb1 as [_ Hb1]. discriminate Hb1. by exists d.
    + destruct Hb2 as [_ Hb2]. discriminate Hb2. by exists d.
Qed.
End checks.

(** ** Properties *)

(** C14: what a request is judged by.  Walking httpd's section chain with
    [coraza_merge_dir_conf] yields a record whose rules are those of the base
    followed by those of each section in order, whose switch and body limit are
    the last ones set (-1 meaning unset), whose transaction id is the last one
    given, and whose [has_rules] flag is right; the records merged are left
    as they were. *)
Theorem merge_sections_policy {X} base secs pb pols (w : world X) :
  stands_for w base pb → Forall2 (stands_for w) secs pols →
  ∃ d w' dcf, merge_sections base secs w = Some (d, w')
    ∧ dir_confs (cfg w') !! d = Some dcf
    ∧ arrays (cfg w') !! rules dcf = Some (p_rules pb ++ mjoin (p_rules <$> pols))
    ∧ has_rules dcf = bool_decide (p_rules pb ++ mjoin (p_rules <$> pols) ≠ [])
    ∧ enable dcf = last_set (p_enable pb :: (p_enable <$> pols))
    ∧ body_mem_limit dcf = last_set (p_body_mem_limit pb :: (p_body_mem_limit <$> pols))
    ∧ transaction_id dcf = p_transaction_id (foldl override pb pols)
    ∧ (∀ d' p', stands_for w d' p' → stands_for w' d' p').
Proof.
  intros Hb Hs. destruct (proj1 (wp_det _ _ _) (merge_sections_wp secs pols base pb w Hb Hs))
    as (d & w' & E & He & dcf & H1 & H2 & H3 & H4 & H5 & H6).
  exists d, w', dcf. unfold last_set. simpl. rewrite !child_or_unset.
  rewrite <- foldl_override_rules, <- foldl_override_enable, <- foldl_override_limit.
  split_and!; try done. intros d' p'. by apply stands_for_extends.
Qed.

(** A server record with a rule and Coraza off, a section that turns it on and
    adds a rule, a section that only sets the limit. *)
Definition rule_a : coraza_rule_entry_t := Rule CORAZA_RULE_INLINE "SecRule A".
Definition rule_b : coraza_rule_entry_t := Rule CORAZA_RULE_FILE "/b.conf".
Definition sample_sections : world script :=
  set_cfg (λ _, Config {[ 0%nat := [rule_a]; 1%nat := [rule_b]; 2%nat := [] ]}
    {[ 0%nat := DirConf 0 true 0 None (-1) 100 None;
       1%nat := DirConf 1 true 1 None (-1) 0 None;
       2%nat := DirConf (-1) false 2 None 4096 0 None ]} ∅ [] None None)
    (sim_world (Script [] [] [] 1 0) ∅ ∅).

Lemma merge_sections_policy_witness :
  ∃ d w' dcf, merge_sections 0 [1%nat; 2%nat] sample_sections = Some (d, w')
    ∧ dir_confs (cfg w') !! d = Some dcf ∧ arrays (cfg w') !! rules dcf = Some [rule_a; rule_b]
    ∧ enable dcf = 1 ∧ body_mem_limit dcf = 4096.
Proof.
  destruct (merge_sections_policy 0 [1%nat; 2%nat] (Policy 0 [rule_a] None (-1))
    [Policy 1 [rule_b] None (-1); Policy (-1) [] None 4096] sample_sections)
    as (d & w' & dcf & E & H1 & H2 & _ & H3 & H4 & _).
  - eexists. split_and!; reflexivity.
  - repeat constructor; eexists; split_and!; reflexivity.
  - exists d, w', dcf. split; [exact E|]. split; [exact H1|]. split; [exact H2|].
    split; [exact H3|exact H4].
Defined.

(** C29: merging is associative on policies: whether httpd merges two sections
    first (at start-up) or walks them one by one (at request time), the record
    it ends with stands for the policies overriding each other in order. *)
Theorem merge_dir_conf_assoc {X} a b c pa pb pc (w : world X) :
  stands_for w a pa → stands_for w b pb → stands_for w c pc →
  ∃ d1 w1 d2 w2,
    (ab ← coraza_merge_dir_conf a b; coraza_merge_dir_conf ab c) w = Some (d1, w1)
    ∧ (bc ← coraza_merge_dir_conf b c; coraza_merge_dir_conf a bc) w = Some (d2, w2)
    ∧ stands_for w1 d1 (override (override pa pb) pc)
    ∧ stands_for w2 d2 (override (override pa pb) pc).
Proof.
  intros Ha Hb Hc.
  assert (wp (ab ← coraza_merge_dir_conf a b; coraza_merge_dir_conf ab c)
            (λ d w', stands_for w' d (override (override pa pb) pc)) w) as H1.
  { act_step. eapply wp_mono; [by apply merge_wp|]. intros d w1 (He & Hd & _).
    eapply wp_mono; [apply merge_wp; [exact Hd|by eapply stands_for_extends]|].
    by intros d' w' (_ & Hd' & _). }
  assert (wp (bc ← coraza_merge_dir_conf b c; coraza_merge_dir_conf a bc)
            (λ d w', stands_for w' d (override pa (override pb pc))) w) as H2.
  { act_step. eapply wp_mono; [by apply merge_wp|]. intros d w1 (He & Hd & _).
    eapply wp_mono; [apply merge_wp; [by eapply stands_for_extends|exact Hd]|].
    by intros d' w' (_ & Hd' & _). }
  apply wp_det in H1 as (d1 & w1 & E1 & H1). apply wp_det in H2 as (d2 & w2 & E2 & H2).
  rewrite (assoc override) in H2. eauto 10.
Qed.

Lemma merge_dir_conf_assoc_witness :
  ∃ d1 w1 d2 w2,
    (ab ← coraza_merge_dir_conf 0 1; coraza_merge_dir_conf ab 2) sample_sections = Some (d1, w1)
    ∧ (bc ← coraza_merge_dir_conf 1 2; coraza_merge_dir_conf 0 bc) sample_sections = Some (d2, w2)
    ∧ stands_for w1 d1 (Policy 1 [rule_a; rule_b] None 4096)
    ∧ stands_for w2 d2 (Policy 1 [rule_a; rule_b] None 4096).
Proof.
  apply (merge_dir_conf_assoc 0 1 2 (Policy 0 [rule_a] None (-1)) (Policy 1 [rule_b] None (-1))
    (Policy (-1) [] None 4096) sample_sections); eexists; split_and!; reflexivity.
Defined.

(** C22: a configuration passes the check exactly when no scope says
    "Coraza On" or some server counted a rule directive; otherwise the check
    fails with 500 and one message.  It changes nothing else. *)
Theorem check_config_iff {X} (w : world X) :
  slots_valid w →
  ∃ rc tr, coraza_check_config w = Some (rc, set_trace (λ t, t ++ tr) w)
    ∧ (rc = OK ↔ (∀ sv d, sv ∈ servers (cfg w) → d ∈ on_scopes sv → ¬ enabled_in w d)
                 ∨ ∃ sv c, sv ∈ servers (cfg w) ∧ sv_conf sv = Some c ∧ has_rules_in w c)
    ∧ (rc ≠ OK → rc = HTTP_INTERNAL_SERVER_ERROR ∧ length tr = 1%nat).
Proof.
  intros Hv.
  assert (wp coraza_check_config (λ rc w', ∃ tr, w' = set_trace (λ t, t ++ tr) w
    ∧ (rc = OK ↔ (∀ sv d, sv ∈ servers (cfg w) → d ∈ on_scopes sv → ¬ enabled_in w d)
                 ∨ ∃ sv c, sv ∈ servers (cfg w) ∧ sv_conf sv = Some c ∧ has_rules_in w c)
    ∧ (rc ≠ OK → rc = HTTP_INTERNAL_SERVER_ERROR ∧ length tr = 1%nat)) w) as H.
  2: { apply wp_det in H as (rc & w' & E & tr & -> & H). by exists rc, tr. }
  unfold coraza_check_config. do 2 act_step. act_step.
  eapply wp_mono; [apply enabled_where_wp; intros sv d Hsv; by apply Hv|].
  intros o w1 [-> Ho]. destruct o as [scope|].
  - destruct Ho as [Ho _]. destruct Ho as (sv & d & Hsv & Hd & He); [done|]. act_step.
    eapply wp_mono; [apply has_rules_wp; intros sv' c Hsv'; by apply Hv|].
    intros b w1 [-> Hb]. destruct b; simpl.
    + apply wp_ret. exists []. rewrite set_trace_nil. split_and!; [done| |done].
      split; [intros _; right; by apply Hb|done].
    + do 2 act_step. apply wp_ret. eexists [_]. split_and!; [done| |done].
      split; [done|]. intros [Hno|Hr]; [by destruct (Hno sv d)|].
      apply Hb in Hr. discriminate Hr.
  - apply wp_ret. exists []. rewrite set_trace_nil. split_and!; [done| |done].
    split; [|done]. intros _. left. intros sv d Hsv Hd He.
    assert (is_Some (None : option string)) as [? ?]; [|done]. apply Ho. eauto.
Qed.

Lemma check_config_iff_witness :
  let w := set_cfg (λ _, Config ∅ {[ 0%nat := sim_dir ]} {[ 0%nat := ServerConf 0 [] 0 0 0 ]}
             [Server (Some 0%nat) None (Some ([], [Some 0%nat]))] None None)
             (sim_world (Script [] [] [] 1 0) ∅ ∅) in
  ∃ w', coraza_check_config w = Some (HTTP_INTERNAL_SERVER_ERROR, w').
Proof.
  destruct (check_config_iff (set_cfg (λ _, Config ∅ {[ 0%nat := sim_dir ]}
     {[ 0%nat := ServerConf 0 [] 0 0 0 ]} [Server (Some 0%nat) None (Some ([], [Some 0%nat]))]
     None None) (sim_world (Script [] [] [] 1 0) ∅ ∅))) as (rc & tr & E & _).
  - intros sv Hsv. apply list_elem_of_singleton in Hsv as ->. split.
    + intros d Hd. apply list_elem_of_singleton in Hd as ->. eexists. reflexivity.
    + intros c [= <-]. eexists. reflexivity.
  - eexists. rewrite E. vm_compute in E. injection E as <- _. reflexivity.
Defined.

(** Rule [e] is recorded: last of the section's rules, also last of the
    fallback rules when read at server level, and counted. *)
Record recorded {X} (e : coraza_rule_entry_t) (cmd : cmd_parms) d dcf l c scf sl
    (w w' : world X) : Prop := {
  rec_flag : has_rules <$> dir_confs (cfg w') !! d = Some true;
  rec_rules : arrays (cfg w') !! rules dcf = Some (l ++ [e]);
  rec_server : arrays (cfg w') !! s_rules scf
               = Some (sl ++ if bool_decide (cmd_path cmd = None) then [e] else []);
  rec_counted : has_rules_in w' c;
  rec_others : ∀ a, a ≠ rules dcf → a ≠ s_rules scf →
    arrays (cfg w') !! a = arrays (cfg w) !! a;
  rec_outside : trace w' = trace w ∧ reqs w' = reqs w ∧ ctxs w' = ctxs w }.

Lemma wrap32_succ_pos n : 0 ≤ n < 2 ^ 32 - 1 → 0 < wrap32 (n + 1).
Proof. intros H. rewrite wrap32_small; lia. Qed.

Lemma record_rule_recorded {X} e cmd d dcf l sv c scf scf' sl (w : world X) :
  directive_scope w cmd d dcf l sv c scf sl → rules dcf ≠ s_rules scf →
  0 < rules_inline scf' ∨ 0 < rules_file scf' →
  recorded e cmd d dcf l c scf sl w (set_cfg (record_rule e cmd d dcf c scf scf') w).
Proof.
  intros [Hd Hl Hs Hc Hscf Hsl] Hne Hcount. constructor; simpl.
  - by rewrite lookup_insert_eq.
  - case_bool_decide; simpl; [rewrite lookup_alter_ne by done|];
      by rewrite lookup_alter_eq, Hl.
  - case_bool_decide; simpl; [rewrite lookup_alter_eq|];
      rewrite lookup_alter_ne, Hsl by done; simpl; by rewrite ?app_nil_r.
  - exists scf'. split; [by apply lookup_insert_eq|done].
  - intros a H1 H2. case_bool_decide; simpl; [rewrite lookup_alter_ne by done|];
      by rewrite lookup_alter_ne.
  - done.
Qed.

Lemma and_ex_l {X A} (P : Prop) (m : M (world X) A) (w : world X) (R : A → world X → Prop) :
  P → wp m R w → ∃ a w', P ∧ m w = Some (a, w') ∧ R a w'.
Proof. intros HP (a & w' & E & H)%wp_det. by exists a, w'. Qed.

(** C21: no rule is lost or smuggled in.  [CorazaRules], [CorazaRulesFile] and
    every native Sec* directive either refuse their argument with the error of
    the corresponding check and leave the configuration as it was, or record
    exactly one entry: the argument, the resolved path, or the directive as
    written.  After that the whole-configuration check sees a rule (as long as
    the 32-bit counters did not wrap). *)
Theorem rules_directives_record {X} `{!ConfigFiles, !AprStrings} cmd d arg dcf l sv c scf sl
    (w : world X) :
  directive_scope w cmd d dcf l sv c scf sl → rules dcf ≠ s_rules scf →
  0 ≤ rules_inline scf < 2 ^ 32 - 1 → 0 ≤ rules_file scf < 2 ^ 32 - 1 →
  (∃ check err w', coraza_check_rules_text (cmd_name cmd) arg = Some check
     ∧ cmd_coraza_rules cmd d arg w = Some (err, w')
     ∧ match check with
       | Some e => err = Some e ∧ w' = w
       | None => err = None ∧ recorded (Rule CORAZA_RULE_INLINE arg) cmd d dcf l c scf sl w w'
       end)
  ∧ (∃ check err w',
     coraza_check_rules_text (cmd_name cmd) (cmd_name cmd +:+ " " +:+ arg) = Some check
     ∧ cmd_sec_directive cmd d arg w = Some (err, w')
     ∧ match check with
       | Some e => err = Some e ∧ w' = w
       | None => err = None ∧ recorded
           (Rule CORAZA_RULE_INLINE (cmd_name cmd +:+ " " +:+ arg)) cmd d dcf l c scf sl w w'
       end)
  ∧ (∃ check err w', coraza_check_rules_file arg = Some check
     ∧ cmd_coraza_rules_file cmd d arg w = Some (err, w')
     ∧ match check with
       | (Some e, _) => err = Some e ∧ w' = w
       | (None, path) => err = None ∧ recorded (Rule CORAZA_RULE_FILE path) cmd d dcf l c scf sl w w'
       end).
Proof.
  intros Hs Hne Hi Hf. split_and!.
  - destruct (check_rules_text_defined (cmd_name cmd) arg) as [check Hc]. exists check.
    apply and_ex_l; [exact Hc|]. eapply cmd_rules_wp; [exact Hs|]. intros ?; rewrite Hc; intros [= <-].
    destruct check; [done|]. split; [done|]. eapply record_rule_recorded; [done|done|]. left. simpl.
    by apply wrap32_succ_pos.
  - destruct (check_rules_text_defined (cmd_name cmd) (cmd_name cmd +:+ " " +:+ arg)) as [check Hc].
    exists check. apply and_ex_l; [exact Hc|]. unfold cmd_sec_directive.
    eapply cmd_rules_wp; [exact Hs|]. intros ?; rewrite Hc; intros [= <-].
    destruct check; [done|]. split; [done|]. eapply record_rule_recorded; [done|done|]. left. simpl.
    by apply wrap32_succ_pos.
  - destruct (check_rules_file_defined arg) as [check Hc]. exists check.
    apply and_ex_l; [exact Hc|]. eapply cmd_rules_file_wp; [exact Hs|]. intros ?; rewrite Hc; intros [= <-].
    destruct check as [[e|] p]; [done|]. split; [done|]. eapply record_rule_recorded; [done|done|].
    right. simpl. by apply wrap32_succ_pos.
Qed.

(** A configuration directory with one rules file, for the witnesses. *)
#[local] Instance sample_files : ConfigFiles := {|
  ap_server_root_relative p := Some ("/etc/" +:+ p);
  apr_file p := Some ([bytes_of "SecRuleEngine On"], true) |}.
(** [apr_strtoff] on a single digit. *)
#[local] Instance sample_strings : AprStrings := {|
  apr_strtoff s base :=
    match s with
    | String c end_ => (APR_SUCCESS, uchar c - 48, end_)
    | EmptyString => (APR_SUCCESS, 0, EmptyString)
    end |}.

Definition fresh_section : world script :=
  set_cfg (λ _, Config {[ 0%nat := []; 1%nat := [] ]} {[ 0%nat := DirConf (-1) false 0 None (-1) 0 None ]}
     {[ 0%nat := ServerConf 1 [] 0 0 0 ]} [Server (Some 0%nat) None None] None None)
    (sim_world (Script [] [] [] 1 0) ∅ ∅).

Lemma rules_directives_record_witness :
  ∃ w', cmd_sec_directive (CmdParms "SecRuleEngine" 0 None) 0 "On" fresh_section = Some (None, w')
    ∧ arrays (cfg w') !! 0%nat = Some [Rule CORAZA_RULE_INLINE "SecRuleEngine On"].
Proof.
  destruct (rules_directives_record (CmdParms "SecRuleEngine" 0 None) 0 "On"
    (DirConf (-1) false 0 None (-1) 0 None) [] (Server (Some 0%nat) None None) 0
    (ServerConf 1 [] 0 0 0) [] fresh_section) as (_ & (check & err & w' & Hc & E & H) & _).
  - constructor; reflexivity.
  - discriminate.
  - split; [reflexivity|reflexivity].
  - split; [reflexivity|reflexivity].
  - vm_compute in Hc. injection Hc as <-. destruct H as [-> H]. exists w'.
    split; [exact E|]. exact (rec_rules _ _ _ _ _ _ _ _ _ _ H).
Defined.

(** The limit an argument stands for, when it is acceptable. *)
Definition parsed_limit `{!AprStrings} (arg : string) (limit : Z) : Prop :=
  apr_strtoff arg 10 = (APR_SUCCESS, limit, EmptyString).

(** C28: [CorazaRequestBodyInMemoryLimit] is set only to a non-negative number
    that takes the whole argument, never to the value that means unset, and
    nothing else changes; anything else is an error that changes nothing. *)
Theorem body_mem_limit_directive {X} `{!AprStrings} cmd d dcf arg (w : world X) :
  dir_confs (cfg w) !! d = Some dcf →
  ∃ err w', cmd_coraza_body_mem_limit cmd d arg w = Some (err, w')
    ∧ match err with
      | None => ∃ limit, parsed_limit arg limit ∧ 0 ≤ limit ∧ limit ≠ -1
          ∧ w' = set_cfg (set_dir_confs (λ m, <[d := set_body_mem_limit (λ _, limit) dcf]> m)) w
      | Some _ => w' = w
          ∧ ∀ limit, parsed_limit arg limit → limit < 0
      end.
Proof.
  intros Hd. apply wp_det. unfold cmd_coraza_body_mem_limit, parsed_limit.
  destruct (apr_strtoff arg 10) as [[rv limit] e]. act_step.
  - apply wp_ret. split; [done|]. intros limit' [= -> -> ->].
    rewrite !orb_true_iff, !bool_decide_eq_true in Heqb. naive_solver.
  - rewrite !orb_false_iff, !bool_decide_eq_false in Heqb. destruct Heqb as [[H1 H2] H3].
    apply dec_stable in H1, H2. subst. do 2 act_step. apply wp_ret. exists limit.
    by split_and!; [|lia|lia|].
Qed.

Lemma body_mem_limit_directive_witness :
  ∃ w', cmd_coraza_body_mem_limit (CmdParms "CorazaRequestBodyInMemoryLimit" 0 None) 0 "5"
          fresh_section = Some (None, w')
        ∧ body_mem_limit <$> dir_confs (cfg w') !! 0%nat = Some 5.
Proof.
  destruct (body_mem_limit_directive (CmdParms "CorazaRequestBodyInMemoryLimit" 0 None) 0
    (DirConf (-1) false 0 None (-1) 0 None) "5" fresh_section eq_refl) as (err & w' & E & H).
  destruct err as [e|].
  - destruct H as [_ H]. discriminate (H 5 eq_refl).
  - destruct H as (limit & Hl & _ & _ & H). injection Hl as <-. exists w'.
    split; [exact E|]. rewrite H. reflexivity.
Defined.

(** the directive table is well formed: httpd, which looks directives up
    ignoring case, finds at most one entry for a name, and every native Sec*
    directive is passed raw to [cmd_sec_directive]. *)
Theorem directive_table_well_formed {X} `{!ConfigFiles, !AprStrings} :
  NoDup ((λ c, tolower <$> bytes_of (command_name c)) <$> @coraza_directives X _ _)
  ∧ Forall (λ c, String.prefix "Sec" (command_name c) = true → c = SEC_DIRECTIVE (command_name c))
      (@coraza_directives X _ _)
  ∧ Forall (λ c, String.prefix "Sec" (command_name c) = false →
              String.prefix "Coraza" (command_name c) = true) (@coraza_directives X _ _).
Proof.
  split.
  - apply (bool_decide_unpack _). vm_compute. exact I.
  - split; repeat constructor; discriminate || reflexivity.
Qed.
