(* ===== verification/Waf.v ===== *)
(** * Building and sharing WAFs

    src/mod_coraza.c: the content-hash cache, [coraza_build_waf], the lazy
    build of [coraza_create_ctx], and the start and end of a child process.
    The loop over [s->next] is recursion on the list of the servers from the
    first.  Log calls are made with their arguments evaluated (a LogLevel that
    drops a notice would also skip the [coraza_rules_count] inside it). *)
From S2P Require Import Prelude Types World DynLib.
Local Open Scope Z_scope.

Definition WAF_CACHE_MAX : Z := 64.

(** ** The content hash *)
Definition rule_type_code (t : coraza_rule_type_e) : Z :=
  match t with CORAZA_RULE_INLINE => 0 | CORAZA_RULE_FILE => 1 end.

Fixpoint hash_bytes (s : string) (h : Z) : Z :=
  match s with
  | EmptyString => h
  | String c s => hash_bytes s (wrap64 (wrap64 (h * 33) + uchar c))
  end.

Definition hash_rule (h : Z) (e : coraza_rule_entry_t) : Z :=
  hash_bytes (rule_value e) (wrap64 (wrap64 (h * 33) + rule_type_code (rule_type e))).

Definition rules_hash (rules : list coraza_rule_entry_t) : Z := foldl hash_rule 5381 rules.

(** The comparison loop; [a] has [n] entries. *)
Fixpoint entries_equal (a b : list coraza_rule_entry_t) : bool :=
  match a, b with
  | x :: a, y :: b =>
      if bool_decide (rule_type x ≠ rule_type y) || negb (String.eqb (rule_value x) (rule_value y))
      then false else entries_equal a b
  | _, _ => true
  end.
Definition rules_equal (a : list coraza_rule_entry_t) (n : Z) (rules : list coraza_rule_entry_t)
  : bool :=
  if bool_decide (n ≠ Z.of_nat (length rules)) then false else entries_equal a rules.

(** What the C library and APR provide: whether [strdup] and the creation of
    the mutex succeed. *)
Class Libc (X : Type) := {
  strdup : string → X → bool * X;
  apr_thread_mutex_create : X → bool * X }.

Section waf.
Context {X : Type} `{!Dynlib X, !Libcoraza X, !Libc X}.
Abbreviation W := (world X).

(** ** The cache *)
Fixpoint find_entry (hash : Z) (rules : list coraza_rule_entry_t) (c : list waf_cache_entry_t) : Z :=
  match c with
  | [] => 0
  | e :: c =>
      if bool_decide (e_hash e = hash) && rules_equal (e_rules e) (e_rules_nelts e) rules
      then e_waf e else find_entry hash rules c
  end.
Definition waf_cache_find (hash : Z) (rules : list coraza_rule_entry_t) : M W Z :=
  gets (λ w, find_entry hash rules (g_waf_cache (wafs w))).

Definition waf_cache_add (hash : Z) (rules : list coraza_rule_entry_t) (waf : Z) : M W unit :=
  st ← gets (λ w, wafs w);
  if bool_decide (WAF_CACHE_MAX ≤ Z.of_nat (length (g_waf_cache st))) then
    when (negb (g_waf_cache_full_logged st)) (
      modify (set_wafs (set_g_waf_cache_full_logged (λ _, true))) ;;
      ap_log APLOG_WARNING "coraza: WAF cache full")
  else if negb (g_waf_cache_pool st) then mret tt
  else modify (set_wafs (set_g_waf_cache
         (λ c, c ++ [CacheEntry hash (Z.of_nat (length rules)) rules waf]))).

(** ** Building *)

(** The replay loop; [Some 0] is its [return 0]. *)
Fixpoint replay_rules (config : Z) (entries : list coraza_rule_entry_t) : M W (option Z) :=
  match entries with
  | [] => mret None
  | e :: entries =>
      ok ← outside (strdup (rule_value e));
      if negb ok then
        ap_log APLOG_ERR "coraza: strdup failed for rule string" ;;
        coraza_free_waf_config config ;;
        mret (Some 0)
      else
        match rule_type e with
        | CORAZA_RULE_INLINE =>
            rc ← coraza_rules_add config (rule_value e);
            if bool_decide (rc < 0) then
              ap_log APLOG_ERR "coraza: failed to add inline rule" ;;
              coraza_free_waf_config config ;;
              mret (Some 0)
            else replay_rules config entries
        | CORAZA_RULE_FILE =>
            rc ← coraza_rules_add_file config (rule_value e);
            if bool_decide (rc < 0) then
              ap_log APLOG_ERR "coraza: failed to add rules file" ;;
              coraza_free_waf_config config ;;
              mret (Some 0)
            else replay_rules config entries
        end
  end.

(** [rules] points to the array; NULL is [None]. *)
Definition coraza_build_waf (rules : option nat) : M W Z :=
  match rules with
  | None => mret 0
  | Some a =>
      entries ← get_array a;
      if bool_decide (entries = []) then mret 0
      else
        config ← coraza_new_waf_config;
        if bool_decide (config = 0) then
          ap_log APLOG_ERR "coraza: failed to create WAF config" ;;
          mret 0
        else
          then_ (replay_rules config entries) (
            r ← coraza_new_waf config;
            let '(waf, error) := r in
            coraza_free_waf_config config ;;
            when (bool_decide (waf = 0)) (ap_log APLOG_ERR "coraza: failed to create WAF") ;;
            match error with Some e => coraza_free_string e | None => mret tt end ;;
            if bool_decide (waf = 0) then mret 0 else mret waf)
  end.

(** ** The request context *)

Definition lock : M W unit :=
  m ← gets (λ w, g_waf_build_mutex (wafs w));
  match m with
  | Some false => modify (set_wafs (set_g_waf_build_mutex (λ _, Some true))) ;; emit EvLock
  | _ => undefined
  end.
Definition unlock : M W unit :=
  m ← gets (λ w, g_waf_build_mutex (wafs w));
  match m with
  | Some true => modify (set_wafs (set_g_waf_build_mutex (λ _, Some false))) ;; emit EvUnlock
  | _ => undefined
  end.

(** [dcf->merge_child->waf = waf], when there is a merge child. *)
Definition set_child_waf (child : option nat) (waf : Z) : M W unit :=
  match child with Some c => upd_dir c (set_waf (λ _, waf)) | None => mret tt end.

Definition reuse_child_waf (d : nat) : M W unit :=
  dcf ← get_dir d;
  match merge_child dcf with
  | Some c =>
      when (bool_decide (waf dcf = 0)) (
        child ← get_dir c; upd_dir d (set_waf (λ _, waf child)))
  | None => mret tt
  end.

Definition reuse_cached_waf (d : nat) : M W unit :=
  dcf ← get_dir d;
  when (bool_decide (waf dcf = 0)) (
    rules ← get_array (rules dcf);
    cached ← waf_cache_find (rules_hash rules) rules;
    when (bool_decide (cached ≠ 0)) (
      upd_dir d (set_waf (λ _, cached)) ;;
      set_child_waf (merge_child dcf) cached)).

Definition build_and_cache_waf (d : nat) : M W unit :=
  dcf ← get_dir d;
  when (bool_decide (waf dcf = 0)) (
    l ← get_array (rules dcf);
    waf ← coraza_build_waf (Some (rules dcf));
    upd_dir d (set_waf (λ _, waf)) ;;
    when (bool_decide (waf ≠ 0)) (waf_cache_add (rules_hash l) l waf) ;;
    set_child_waf (merge_child dcf) waf).

Definition lazy_waf (d : nat) : M W unit :=
  dcf ← get_dir d;
  when (bool_decide (waf dcf = 0) && has_rules dcf) (
    l ← get_array (rules dcf);
    when (bool_decide (l ≠ [])) (
      lock ;;
      reuse_child_waf d ;;
      reuse_cached_waf d ;;
      build_and_cache_waf d ;;
      unlock)).

(** A new context: [apr_pcalloc] from the request pool never fails. *)
Definition new_ctx : M W nat :=
  c ← gets (λ w, next_key (ctxs w));
  modify (set_ctxs (λ m, <[c := zero_ctx]> m)) ;; mret c.

(** [dcf->waf != 0 ? dcf->waf : scf->waf]. *)
Definition chosen_waf (d : nat) (scf : option nat) : M W Z :=
  dcf ← get_dir d;
  if bool_decide (waf dcf ≠ 0) then mret (waf dcf)
  else match scf with
       | Some s => sc ← get_server_conf s; mret (s_waf sc)
       | None => undefined
       end.

Definition coraza_create_ctx (r : nat) : M W (option nat) :=
  c ← new_ctx;
  q ← get_req r;
  sv ← deref (λ w, servers (cfg w) !! r_server q);
  match r_dir_conf q with
  | None => undefined
  | Some d =>
      lazy_waf d ;;
      waf ← chosen_waf d (sv_conf sv);
      if bool_decide (waf = 0) then mret None
      else
        dcf ← get_dir d;
        t ← match transaction_id dcf with
            | Some id => coraza_new_transaction_with_id waf id
            | None => coraza_new_transaction waf
            end;
        upd_ctx c (set_transaction (λ _, t)) ;;
        if bool_decide (t = 0) then
          ap_log APLOG_ERR "coraza: failed to create transaction" ;;
          mret None
        else
          upd_req r (set_r_ctx (λ _, Some c)) ;;
          emit (EvCleanupRegister c) ;;
          mret (Some c)
  end.

(** ** Starting a child process *)

(** The WAF of one server record. *)
Definition empty_waf (c : nat) : M W unit :=
  config ← coraza_new_waf_config;
  when (bool_decide (config ≠ 0)) (
    r ← coraza_new_waf config;
    let '(waf, err) := r in
    upd_server_conf c (set_s_waf (λ _, waf)) ;;
    coraza_free_waf_config config ;;
    match err with
    | Some e =>
        ap_log APLOG_ERR "coraza: failed to create empty WAF" ;;
        coraza_free_string e
    | None => mret tt
    end).

Definition init_server (sv : server_rec) : M W unit :=
  match sv_conf sv with
  | None => mret tt
  | Some c =>
      scf ← get_server_conf c;
      l ← get_array (s_rules scf);
      (if bool_decide (l ≠ []) then
         waf ← coraza_build_waf (Some (s_rules scf));
         upd_server_conf c (set_s_waf (λ _, waf))
       else empty_waf c) ;;
      scf ← get_server_conf c;
      if bool_decide (s_waf scf = 0) then
        ap_log APLOG_ERR "coraza: failed to build server WAF in child"
      else
        match sv_lookup_defaults sv with
        | Some b =>
            base ← get_dir b;
            when (bool_decide (waf base = 0)) (upd_dir b (set_waf (λ _, s_waf scf)))
        | None => mret tt
        end ;;
        coraza_rules_count (s_waf scf) ;;
        ap_log APLOG_NOTICE "coraza: server WAF initialized"
  end.

Fixpoint init_servers (svs : list server_rec) : M W unit :=
  match svs with [] => mret tt | sv :: svs => init_server sv ;; init_servers svs end.

(** The WAF of the first record of [earlier] that shares the rules array. *)
Fixpoint built_earlier (a : nat) (earlier : list nat) : M W Z :=
  match earlier with
  | [] => mret 0
  | d :: earlier =>
      dcf ← get_dir d;
      if bool_decide (rules dcf = a) && bool_decide (waf dcf ≠ 0) then mret (waf dcf)
      else built_earlier a earlier
  end.

Definition init_dir (earlier : list nat) (d : nat) : M W unit :=
  dcf ← get_dir d;
  l ← get_array (rules dcf);
  if negb (has_rules dcf) || bool_decide (l = []) then mret tt
  else
    shared ← built_earlier (rules dcf) earlier;
    if bool_decide (shared ≠ 0) then upd_dir d (set_waf (λ _, shared))
    else
      waf ← coraza_build_waf (Some (rules dcf));
      upd_dir d (set_waf (λ _, waf)) ;;
      if bool_decide (waf = 0) then ap_log APLOG_ERR "coraza: failed to build dir WAF in child"
      else
        coraza_rules_count waf ;;
        ap_log APLOG_NOTICE "coraza: dir WAF initialized".

Fixpoint init_dirs (earlier dirs : list nat) : M W unit :=
  match dirs with
  | [] => mret tt
  | d :: dirs => init_dir earlier d ;; init_dirs (earlier ++ [d]) dirs
  end.

Definition coraza_child_init : M W unit :=
  rc ← coraza_dl_open;
  if bool_decide (rc ≠ OK) then
    ap_log APLOG_EMERG "coraza: failed to load libcoraza.so, module disabled"
  else
    ok ← outside apr_thread_mutex_create;
    when ok (modify (set_wafs (set_g_waf_build_mutex (λ _, Some false)))) ;;
    modify (set_wafs (set_g_waf_cache_pool (λ _, true))) ;;
    svs ← gets (λ w, servers (cfg w));
    init_servers svs ;;
    tracked ← gets (λ w, g_tracked_dir_confs (cfg w));
    match tracked with Some l => init_dirs [] l | None => mret tt end ;;
    modify (set_cfg (λ g, set_g_config_dir_confs (λ _, g_tracked_dir_confs g) g)) ;;
    modify (set_cfg (set_g_tracked_dir_confs (λ _, None))) ;;
    ap_log APLOG_NOTICE "coraza: WAFs initialized in child process" ;;
    emit EvChildExitRegister.

(** ** Ending a child process *)

(** Does some server hold the handle [h]? *)
Fixpoint server_holds (h : Z) (svs : list server_rec) : M W bool :=
  match svs with
  | [] => mret false
  | sv :: svs =>
      match sv_conf sv with
      | None => server_holds h svs
      | Some c =>
          scf ← get_server_conf c;
          if bool_decide (h = s_waf scf) then mret true else server_holds h svs
      end
  end.

Fixpoint dir_holds (h : Z) (dirs : list nat) : M W bool :=
  match dirs with
  | [] => mret false
  | d :: dirs =>
      dcf ← get_dir d;
      if bool_decide (waf dcf = h) then mret true else dir_holds h dirs
  end.

Definition exit_dir (svs : list server_rec) (earlier : list nat) (d : nat) : M W unit :=
  dcf ← get_dir d;
  if bool_decide (waf dcf = 0) then mret tt
  else
    skip ← server_holds (waf dcf) svs;
    if skip : bool then mret tt
    else
      shared ← dir_holds (waf dcf) earlier;
      when (negb shared) (coraza_free_waf (waf dcf) ;; mret tt).

Fixpoint exit_dirs (svs : list server_rec) (earlier dirs : list nat) : M W unit :=
  match dirs with
  | [] => mret tt
  | d :: dirs => exit_dir svs earlier d ;; exit_dirs svs (earlier ++ [d]) dirs
  end.

Fixpoint zero_dirs (dirs : list nat) : M W unit :=
  match dirs with [] => mret tt | d :: dirs => upd_dir d (set_waf (λ _, 0)) ;; zero_dirs dirs end.

Fixpoint exit_servers (svs : list server_rec) : M W unit :=
  match svs with
  | [] => mret tt
  | sv :: svs =>
      match sv_conf sv with
      | None => mret tt
      | Some c =>
          scf ← get_server_conf c;
          when (bool_decide (s_waf scf ≠ 0)) (
            coraza_free_waf (s_waf scf) ;;
            upd_server_conf c (set_s_waf (λ _, 0)))
      end ;;
      exit_servers svs
  end.

Definition coraza_child_exit : M W apr_status :=
  svs ← gets (λ w, servers (cfg w));
  dirs ← gets (λ w, g_config_dir_confs (cfg w));
  match dirs with
  | Some dirs => exit_dirs svs [] dirs ;; zero_dirs dirs
  | None => mret tt
  end ;;
  exit_servers svs ;;
  coraza_dl_close ;;
  mret APR_SUCCESS.
End waf.
