(* ===== verification/WafFacts.v ===== *)
(** * Building and sharing WAFs: proofs

    The log tells which rules a WAF handle was built from ([built]); the cache
    keeps that knowledge ([cache_ok]), and [coraza_create_ctx] picks the WAF of a
    request in a fixed order ([resolution]). *)
From S2P Require Import Prelude Types World DynLib DynLibFacts Sim InterventionFacts Config Waf.
Local Open Scope Z_scope.

(** ** Comparing rule sets *)

Lemma entries_equal_iff a : ∀ b, length a = length b → entries_equal a b = true ↔ a = b.
Proof.
  induction a as [|[xt xv] a IH]; intros [|[yt yv] b] Hlen; try done. simpl in *.
  injection Hlen as Hlen. case_bool_decide as Ht; simpl; [split; [done|congruence]|].
  subst yt. destruct (String.eqb_spec xv yv) as [->|Hv]; simpl.
  - rewrite IH by done. split; [by intros ->|by intros [= ->]].
  - split; [done|congruence].
Qed.

Lemma rules_equal_iff a l : rules_equal a (Z.of_nat (length a)) l = true ↔ a = l.
Proof.
  unfold rules_equal. case_bool_decide as H.
  - split; [done|]. by intros ->.
  - apply entries_equal_iff. lia.
Qed.

(** Entries remember how many rules they copied, and their hash. *)
Definition entry_ok (e : waf_cache_entry_t) : Prop :=
  e_rules_nelts e = Z.of_nat (length (e_rules e)) ∧ e_hash e = rules_hash (e_rules e).

(** The specification of a lookup: the first entry with these very rules. *)
Fixpoint find_rules (l : list coraza_rule_entry_t) (c : list waf_cache_entry_t) : Z :=
  match c with
  | [] => 0
  | e :: c => if decide (e_rules e = l) then e_waf e else find_rules l c
  end.

Lemma find_entry_rules l c : Forall entry_ok c → find_entry (rules_hash l) l c = find_rules l c.
Proof.
  induction 1 as [|e c [Hn Hh] _ IH]; [done|]. simpl. rewrite Hn, Hh, IH. case_decide as E.
  - subst l. rewrite bool_decide_eq_true_2 by done. simpl.
    by rewrite (proj2 (rules_equal_iff (e_rules e) (e_rules e))).
  - destruct (rules_equal _ _ _) eqn:Eq; [by apply rules_equal_iff in Eq|].
    by rewrite andb_false_r.
Qed.

Lemma find_rules_elem l c : find_rules l c ≠ 0 → ∃ e, e ∈ c ∧ e_rules e = l ∧ e_waf e = find_rules l c.
Proof.
  induction c as [|e c IH]; simpl; [done|]. case_decide as E; intros H.
  - exists e. by split; [left|].
  - destruct (IH H) as (e' & ? & ?). exists e'. by split; [right|].
Qed.

Lemma find_rules_snoc l c e :
  find_rules l (c ++ [e]) = if decide (l ∈ e_rules <$> c) then find_rules l c
                            else if decide (e_rules e = l) then e_waf e else 0.
Proof.
  induction c as [|x c IH]; simpl.
  { repeat case_decide; try done; by match goal with H : _ ∈ _ |- _ => apply not_elem_of_nil in H end. }
  rewrite IH. destruct (decide (e_rules x = l)) as [<-|E].
  { symmetry. apply decide_True. by left. }
  destruct (decide (l ∈ e_rules <$> c)) as [Hin|Hin].
  - by rewrite decide_True by (by right).
  - rewrite (decide_False (P := l ∈ e_rules x :: _)); [done|]. rewrite elem_of_cons. naive_solver.
Qed.

(** ** What was built from what *)
Definition add_call (c : Z) (e : coraza_rule_entry_t) : call :=
  match rule_type e with
  | CORAZA_RULE_INLINE => RulesAdd c (rule_value e)
  | CORAZA_RULE_FILE => RulesAddFile c (rule_value e)
  end.

Definition adds (c : Z) (l : list coraza_rule_entry_t) (rets : list Z) : list event :=
  zip_with (λ e r, EvCall (add_call c e) r) l rets.

(** The log shows that handle [h] was created from exactly the rules [l], in
    order: a fresh configuration, each rule accepted, then the WAF. *)
Definition built (tr : list event) (h : Z) (l : list coraza_rule_entry_t) : Prop :=
  h ≠ 0 ∧ ∃ pre c rets err post,
    tr = pre ++ EvCall NewWafConfig c :: adds c l rets ++ EvNewWaf c h err :: post
    ∧ c ≠ 0 ∧ length rets = length l ∧ Forall (λ r, 0 ≤ r) rets.

Lemma built_app t1 t2 h l : built t1 h l → built (t1 ++ t2) h l.
Proof.
  intros (Hh & pre & c & rets & err & post & -> & H). split; [done|].
  exists pre, c, rets, err, (post ++ t2). split; [|done].
  by rewrite <- app_assoc, <- app_comm_cons, <- app_assoc.
Qed.

Lemma built_app_r t1 t2 h l : built t2 h l → built (t1 ++ t2) h l.
Proof.
  intros (Hh & pre & c & rets & err & post & -> & H). split; [done|].
  exists (t1 ++ pre), c, rets, err, post. split; [|done]. by rewrite <- app_assoc.
Qed.

#[export] Hint Resolve built_app built_app_r : coraza.

Lemma calls_adds c l rets : length rets = length l → calls (adds c l rets) = add_call c <$> l.
Proof.
  revert rets. induction l as [|e l IH]; intros [|r rets] H; try done. simpl in *.
  unfold calls, adds in *. simpl. f_equal. apply IH. lia.
Qed.

(** ** Building *)
Section building.
Context {X : Type} `{!Libcoraza X, !Libc X}.
Implicit Types w : world X.

(** No allocation fails and libcoraza accepts every rule. *)
Definition healthy : Prop :=
  (∀ s x, (strdup s x).1 = true) ∧ (∀ x, (lib_call NewWafConfig x).1 ≠ 0)
  ∧ (∀ c e x, 0 ≤ (lib_call (add_call c e) x).1) ∧ (∀ c x, (lib_new_waf c x).1.1 ≠ 0).

(** Handing one rule to libcoraza, whatever its kind. *)
Lemma replay_cons_wp config e l (Q : option Z → world X → Prop) w :
  dl_ready w →
  (∀ r x, 0 ≤ r → wp (replay_rules config l) Q (ext x [EvCall (add_call config e) r] w)) →
  (∀ k tr x, (k ≤ 1)%nat → calls tr = (add_call config <$> take k [e]) ++ [FreeWafConfig config] →
     ¬ healthy → Q (Some 0) (ext x tr w)) →
  wp (replay_rules config (e :: l)) Q w.
Proof.
  intros Hr Hok Hfail. simpl. do 2 act_step. rename H into Hdup. destruct a; simpl.
  2: { do 2 act_step. act_step. apply wp_dl_call; [done|done|]. intros a x1 _. apply wp_ret.
       rewrite ext_after, ext_log, ext_env, !ext_ext. apply (Hfail 0%nat); [lia|done|].
       intros (Hs & _). specialize (Hs (rule_value e) (env w)). by rewrite Hdup in Hs. }
  assert (Hcont : wp (rc ← dl_call (fn_of (add_call config e)) (add_call config e);
     if bool_decide (rc < 0) then
       ap_log APLOG_ERR (match rule_type e with
         | CORAZA_RULE_INLINE => "coraza: failed to add inline rule"
         | CORAZA_RULE_FILE => "coraza: failed to add rules file" end) ;;
       coraza_free_waf_config config ;; mret (Some 0)
     else replay_rules config l) Q (set_env (λ _, x) w)).
  { act_step. apply wp_dl_call; [done|done|]. intros rc x1 Hrc. rewrite ext_after, ext_env, ext_ext.
    case_bool_decide as Hneg; [|by apply Hok; lia].
    do 2 act_step. act_step. apply wp_dl_call; [done|done|]. intros a x2 _. apply wp_ret.
    rewrite ext_after, ext_log, !ext_ext. apply (Hfail 1%nat); [lia|done|].
    intros (_ & _ & Hadd & _). specialize (Hadd config e (env (set_env (λ _, x) w))).
    rewrite Hrc in Hadd. simpl in Hadd. lia. }
  unfold add_call in Hcont. destruct (rule_type e); exact Hcont.
Qed.

Lemma replay_wp config l (Q : option Z → world X → Prop) : ∀ w,
  dl_ready w →
  (∀ rets x, length rets = length l → Forall (λ r, 0 ≤ r) rets →
     Q None (ext x (adds config l rets) w)) →
  (∀ k tr x, (k ≤ length l)%nat →
     calls tr = (add_call config <$> take k l) ++ [FreeWafConfig config] →
     ¬ healthy → Q (Some 0) (ext x tr w)) →
  wp (replay_rules config l) Q w.
Proof.
  revert Q. induction l as [|e l IH]; intros Q w Hr Hok Hfail.
  { apply wp_ret. specialize (Hok [] (env w) eq_refl ltac:(constructor)). simpl in Hok.
    unfold ext in Hok. by destruct w; rewrite set_trace_nil in Hok. }
  apply replay_cons_wp; [done| |].
  - intros r x Hrc. apply IH; [done| |].
    + intros rets x2 Hlen Hall. rewrite ext_ext.
      apply (Hok (r :: rets)); [simpl; by rewrite Hlen|by constructor].
    + intros k tr x2 Hk Htr Hbad. rewrite ext_ext. apply (Hfail (S k)); [simpl; lia| |done].
      by rewrite calls_app, Htr.
  - intros k tr x Hk Htr Hbad. apply (Hfail k); [simpl; lia| |done].
    destruct k as [|[|]]; [done|done|lia].
Qed.

(** The calls of one build: nothing without rules; the creation of a
    configuration, which may fail; then some of the rules in order, the release
    of that configuration, and of the error string when there is one. *)
Definition build_calls (l : list coraza_rule_entry_t) (h : Z) (cs : list call) : Prop :=
  (h = 0 ∧ (cs = [] ∨ cs = [NewWafConfig]))
  ∨ ∃ c k err, (k ≤ length l)%nat ∧ (h ≠ 0 → k = length l)
      ∧ cs = NewWafConfig :: (add_call c <$> take k l) ++ [FreeWafConfig c]
             ++ match err with Some s => [FreeString s] | None => [] end.

Lemma build_waf_wp a l (Q : Z → world X → Prop) w :
  dl_ready w → arrays (cfg w) !! a = Some l →
  (∀ h tr x, (h ≠ 0 → built tr h l) → build_calls l h (calls tr) →
     (healthy → l ≠ [] → h ≠ 0) → Q h (ext x tr w)) →
  wp (coraza_build_waf (Some a)) Q w.
Proof.
  intros Hr Hl HQ. unfold coraza_build_waf. do 2 act_step. case_bool_decide as He.
  { apply wp_ret. specialize (HQ 0 [] (env w)). unfold ext in HQ.
    replace (set_trace _ _) with w in HQ by (destruct w; symmetry; apply set_trace_nil).
    apply HQ; [done|left; auto|done]. }
  act_step. apply wp_dl_call; [done|done|]. intros c x0 Hc. rewrite ext_after.
  case_bool_decide as Hc0.
  { act_step. act_step. apply wp_ret. rewrite ext_log, ext_ext. apply HQ; [done|left; auto|].
    intros (_ & Hn & _). specialize (Hn (env w)). by rewrite Hc, Hc0 in Hn. }
  act_step. apply replay_wp; [done| |].
  - intros rets x1 Hlen Hall. act_step. apply wp_through; [done|done|].
    intros [h err] x2 Hh. act_step. apply wp_dl_call; [done|done|]. intros r x3 _.
    rewrite !ext_after, !ext_ext. simpl.
    set (tr0 := EvCall NewWafConfig c
       :: adds c l rets ++ [EvNewWaf c h err; EvCall (FreeWafConfig c) r]).
    assert (Hfin : ∀ x tl, calls tl = match err with Some s => [FreeString s] | None => [] end →
              Q h (ext x (tr0 ++ tl) w)).
    { intros x tl Htl. apply HQ.
      - intros Hh0. split; [done|]. exists [], c, rets, err. eexists. split; [|done].
        unfold tr0. rewrite app_nil_l, <- app_comm_cons, <- !app_assoc. reflexivity.
      - right. exists c, (length l), err. split_and!; [done|done|].
        unfold tr0. rewrite calls_app, Htl, firstn_all, <- (calls_adds c l rets) by done.
        change (EvCall NewWafConfig c :: ?t) with ([EvCall NewWafConfig c] ++ t).
        rewrite !calls_app. simpl. by rewrite <- app_assoc.
      - intros (_ & _ & _ & Hnw) _. specialize (Hnw c (env (ext x1
          ([EvCall NewWafConfig c] ++ adds c l rets) w))). simpl in Hnw.
        simpl in Hh. by rewrite Hh in Hnw. }
    fold tr0.
    act_step. eapply (wp_mono _ (λ _ w', ∃ tl, calls tl = [] ∧ w' = ext x3 (tr0 ++ tl) w)).
    { apply wp_when; intros _.
      - act_step. eexists [_]. rewrite ext_log, ext_ext. split; [|reflexivity]. done.
      - exists []. by rewrite app_nil_r. }
    intros _ w' (tl & Htl & ->). act_step.
    eapply (wp_mono _ (λ _ w', Q h w')).
    + destruct err as [s|].
      * unfold coraza_free_string. act_step. apply wp_dl_call; [done|done|]. intros r' x4 _.
        apply wp_ret.
        rewrite ext_after, ext_ext, <- app_assoc. apply Hfin. by rewrite calls_app, Htl.
      * apply wp_ret. by apply Hfin.
    + intros _ w' HQ'. case_bool_decide as Hh0; apply wp_ret; [by subst|done].
  - intros k tr x1 Hk Htr Hbad. rewrite ext_ext. apply HQ; [done| |by intros ?].
    right. exists c, k, None. split_and!; [done|done|]. by rewrite calls_app, Htr.
Qed.
End building.

(** ** Resolving the WAF of a request *)
Section resolving.
Context {X : Type} `{!Libcoraza X, !Libc X, !Dynlib X}.
Implicit Types w : world X.

(** Every cached handle was built from the rules it is cached under. *)
Definition cache_ok w : Prop :=
  Forall (λ e, entry_ok e ∧ built (trace w) (e_waf e) (e_rules e)) (g_waf_cache (wafs w))
  ∧ Z.of_nat (length (g_waf_cache (wafs w))) ≤ WAF_CACHE_MAX.

(** [w] is [w0] in the middle of resolving the WAF of the record [d] with the
    rules [l]: its handle is [h], that of the record it caches for [hc]; [tr] was
    logged and [es] added to the cache. *)
Record resolving w0 w d dcf l (h hc : Z) tr es (mu : option bool) : Prop := {
  rs_dl : dl w = dl w0;
  rs_arrays : arrays (cfg w) = arrays (cfg w0);
  rs_servers : servers (cfg w) = servers (cfg w0);
  rs_confs : server_confs (cfg w) = server_confs (cfg w0);
  rs_reqs : reqs w = reqs w0;
  rs_ctxs : ctxs w = ctxs w0;
  rs_conn : conn w = conn w0;
  rs_trace : trace w = trace w0 ++ tr;
  rs_pool : g_waf_cache_pool (wafs w) = g_waf_cache_pool (wafs w0);
  rs_entries : g_waf_cache (wafs w) = g_waf_cache (wafs w0) ++ es;
  rs_dir : dir_confs (cfg w) !! d = Some (set_waf (λ _, h) dcf);
  rs_rules : arrays (cfg w0) !! rules dcf = Some l;
  rs_child : ∀ m, merge_child dcf = Some m → m ≠ d ∧ ∃ mx,
    dir_confs (cfg w0) !! m = Some mx ∧ dir_confs (cfg w) !! m = Some (set_waf (λ _, hc) mx);
  rs_others : ∀ e, e ≠ d → merge_child dcf ≠ Some e →
    dir_confs (cfg w) !! e = dir_confs (cfg w0) !! e;
  rs_cache : cache_ok w;
  rs_mutex : g_waf_build_mutex (wafs w) = mu }.

Lemma cache_ok_mono w w' tr :
  trace w' = trace w ++ tr → g_waf_cache (wafs w') = g_waf_cache (wafs w) →
  cache_ok w → cache_ok w'.
Proof.
  intros Ht Hc [H1 H2]. unfold cache_ok. rewrite Hc, Ht. split; [|done].
  eapply Forall_impl; [|exact H1]. intros e [He Hb]. split; [done|]. by apply built_app.
Qed.

(** Only the log, the environment, the mutex and the cache's flag moved. *)
Lemma resolving_mono w0 w d dcf l h hc tr es mu w' t mu' :
  resolving w0 w d dcf l h hc tr es mu → trace w' = trace w ++ t → dl w' = dl w → cfg w' = cfg w →
  reqs w' = reqs w → ctxs w' = ctxs w → conn w' = conn w →
  g_waf_cache (wafs w') = g_waf_cache (wafs w) →
  g_waf_cache_pool (wafs w') = g_waf_cache_pool (wafs w) →
  g_waf_build_mutex (wafs w') = mu' → resolving w0 w' d dcf l h hc (tr ++ t) es mu'.
Proof.
  intros [] Ht E1 E2 E3 E4 E4' E5 E5' E6. constructor; rewrite ?E1, ?E2, ?E3, ?E4, ?E4', ?E5, ?E5'; try done.
  - by rewrite Ht, rs_trace0, app_assoc.
  - by eapply cache_ok_mono.
Qed.

(** The record takes the handle [k]. *)
Lemma assign_wp w0 w d dcf l h hc tr es mu k (Q : unit → world X → Prop) :
  resolving w0 w d dcf l h hc tr es mu →
  (∀ w', resolving w0 w' d dcf l k hc tr es mu → Q tt w') →
  wp (upd_dir d (set_waf (λ _, k))) Q w.
Proof.
  intros [] HQ. eapply wp_upd_dir; [exact rs_dir0|]. apply HQ. constructor; simpl; try done.
  - by rewrite lookup_insert_eq.
  - intros m Hm. destruct (rs_child0 m Hm) as (Hne & mx & E0 & E). split; [done|].
    exists mx. by rewrite lookup_insert_ne.
  - intros e He Hm. rewrite lookup_insert_ne by done. by apply rs_others0.
Qed.

(** So does the record it caches for. *)
Lemma set_child_wp w0 w d dcf l h hc tr es mu (Q : unit → world X → Prop) :
  resolving w0 w d dcf l h hc tr es mu →
  (∀ w', resolving w0 w' d dcf l h h tr es mu → Q tt w') →
  wp (set_child_waf (merge_child dcf) h) Q w.
Proof.
  intros Hrs HQ. unfold set_child_waf. destruct (merge_child dcf) as [m|] eqn:Em.
  - destruct (rs_child _ _ _ _ _ _ _ _ _ _ Hrs m Em) as (Hne & mx & E0 & E).
    eapply wp_upd_dir; [exact E|]. apply HQ. destruct Hrs. constructor; simpl; try done.
    + by rewrite lookup_insert_ne.
    + intros m' Hm'. rewrite Em in Hm'. injection Hm' as <-. split; [done|].
      exists mx. split; [done|]. by rewrite lookup_insert_eq.
    + intros e He Hm. rewrite lookup_insert_ne by congruence. apply rs_others0; congruence.
  - apply wp_ret, HQ. destruct Hrs. constructor; try done. intros m Hm. congruence.
Qed.

Lemma reuse_child_wp w0 w d dcf l hc tr es mu (Q : unit → world X → Prop) :
  resolving w0 w d dcf l 0 hc tr es mu → (merge_child dcf = None → hc = 0) →
  (∀ w', resolving w0 w' d dcf l hc hc tr es mu → Q tt w') →
  wp (reuse_child_waf d) Q w.
Proof.
  intros Hrs Hnone HQ. unfold reuse_child_waf. act_step. eapply wp_get_dir; [apply Hrs|].
  simpl. destruct (merge_child dcf) as [m|] eqn:Em.
  - act_step. destruct (rs_child _ _ _ _ _ _ _ _ _ _ Hrs m Em) as (Hne & mx & _ & E).
    act_step. by eapply assign_wp.
  - apply wp_ret, HQ. by rewrite (Hnone eq_refl) in *.
Qed.

(** Nothing more is done once the record has a handle. *)
Lemma reuse_cached_skip w0 w d dcf l h hc tr es mu (Q : unit → world X → Prop) :
  resolving w0 w d dcf l h hc tr es mu → h ≠ 0 → Q tt w → wp (reuse_cached_waf d) Q w.
Proof.
  intros Hrs Hh HQ. unfold reuse_cached_waf. act_step. eapply wp_get_dir; [apply Hrs|]. simpl.
  rewrite bool_decide_eq_false_2 by done. by apply wp_ret.
Qed.
Lemma build_and_cache_skip w0 w d dcf l h hc tr es mu (Q : unit → world X → Prop) :
  resolving w0 w d dcf l h hc tr es mu → h ≠ 0 → Q tt w → wp (build_and_cache_waf d) Q w.
Proof.
  intros Hrs Hh HQ. unfold build_and_cache_waf. act_step. eapply wp_get_dir; [apply Hrs|]. simpl.
  rewrite bool_decide_eq_false_2 by done. by apply wp_ret.
Qed.

Lemma reuse_cached_wp w0 w d dcf l hc tr mu (Q : unit → world X → Prop) :
  resolving w0 w d dcf l 0 hc tr [] mu →
  (find_rules l (g_waf_cache (wafs w0)) = 0 → Q tt w) →
  (∀ w', find_rules l (g_waf_cache (wafs w0)) ≠ 0 →
     resolving w0 w' d dcf l (find_rules l (g_waf_cache (wafs w0)))
       (find_rules l (g_waf_cache (wafs w0))) tr [] mu → Q tt w') →
  wp (reuse_cached_waf d) Q w.
Proof.
  intros Hrs HN HS. unfold reuse_cached_waf. act_step. eapply wp_get_dir; [apply Hrs|].
  act_step; [|done]. act_step.
  eapply wp_get_array; [simpl; rewrite (rs_arrays _ _ _ _ _ _ _ _ _ _ Hrs); apply Hrs|].
  act_step. unfold waf_cache_find. act_step.
  destruct (rs_cache _ _ _ _ _ _ _ _ _ _ Hrs) as [Hc _].
  rewrite find_entry_rules by (eapply Forall_impl; [|exact Hc]; naive_solver).
  rewrite (rs_entries _ _ _ _ _ _ _ _ _ _ Hrs), app_nil_r.
  apply wp_when; intros Hf.
  - apply bool_decide_eq_true in Hf. act_step. eapply assign_wp; [exact Hrs|].
    intros w1 Hrs1. apply (set_child_wp w0 w1 d dcf l _ hc tr [] mu); [exact Hrs1|].
    intros w'. by apply HS.
  - apply bool_decide_eq_false, dec_stable in Hf. by apply HN.
Qed.

(** The entry a new handle gets in the cache. *)
Definition cache_entry w l h : list waf_cache_entry_t :=
  if bool_decide (Z.of_nat (length (g_waf_cache (wafs w))) < WAF_CACHE_MAX)
     && g_waf_cache_pool (wafs w)
  then [CacheEntry (rules_hash l) (Z.of_nat (length l)) l h] else [].

Lemma cache_add_wp w0 w d dcf l h hc tr mu (Q : unit → world X → Prop) :
  resolving w0 w d dcf l h hc tr [] mu → built (trace w) h l →
  (∀ w' t, calls t = [] →
     resolving w0 w' d dcf l h hc (tr ++ t) (cache_entry w0 l h) mu → Q tt w') →
  wp (waf_cache_add (rules_hash l) l h) Q w.
Proof.
  intros Hrs Hb HQ. unfold waf_cache_add. do 2 act_step.
  pose proof (rs_entries _ _ _ _ _ _ _ _ _ _ Hrs) as Hes. rewrite app_nil_r in Hes.
  pose proof (rs_pool _ _ _ _ _ _ _ _ _ _ Hrs) as Hpool.
  set (es := cache_entry w0 l h) in HQ.
  assert (es = cache_entry w l h) as Ees by (unfold es, cache_entry; by rewrite Hes, Hpool).
  rewrite Ees in HQ. clear es Ees. unfold cache_entry in HQ.
  case_goal as Hfull.
  - assert (HQ' : ∀ w' t, calls t = [] → resolving w0 w' d dcf l h hc (tr ++ t) [] mu → Q tt w').
    { intros w' t. specialize (HQ w' t). by rewrite bool_decide_eq_false_2 in HQ by lia. }
    act_step.
    + act_step. act_step. act_step. eapply (HQ' _ [EvLog _ _]); [reflexivity|].
      eapply resolving_mono; [exact Hrs|done..|]. by destruct Hrs.
    + eapply (HQ' _ []); [reflexivity|]. by rewrite app_nil_r.
  - destruct (g_waf_cache_pool (wafs w)) eqn:Ep; simpl in *.
    2: { apply wp_ret, (HQ _ []); [done|]. by rewrite andb_false_r, app_nil_r. }
    act_step. apply (HQ _ []); [done|]. rewrite bool_decide_eq_true_2 by lia. simpl.
    rewrite app_nil_r. destruct Hrs.
    constructor; simpl; try done; [by rewrite Hes|].
    destruct rs_cache0 as [H1 H2]. split; simpl.
    + apply Forall_app. split; [done|]. constructor; [by split|constructor].
    + rewrite length_app. simpl. lia.
Qed.

Lemma build_and_cache_wp w0 w d dcf l hc tr mu (Q : unit → world X → Prop) :
  dl_ready w0 → l ≠ [] → resolving w0 w d dcf l 0 hc tr [] mu →
  (∀ h t w', (h ≠ 0 → built t h l) → build_calls l h (calls t) → (healthy → h ≠ 0) →
     resolving w0 w' d dcf l h h (tr ++ t) (if decide (h = 0) then [] else cache_entry w0 l h) mu →
     Q tt w') →
  wp (build_and_cache_waf d) Q w.
Proof.
  intros Hr Hl Hrs HQ. unfold build_and_cache_waf. act_step. eapply wp_get_dir; [apply Hrs|].
  act_step; [|done].
  act_step. eapply wp_get_array; [simpl; rewrite (rs_arrays _ _ _ _ _ _ _ _ _ _ Hrs); apply Hrs|].
  act_step. apply build_waf_wp with l.
  { intros f. rewrite (rs_dl _ _ _ _ _ _ _ _ _ _ Hrs). apply Hr. }
  { simpl. rewrite (rs_arrays _ _ _ _ _ _ _ _ _ _ Hrs). apply Hrs. }
  intros h t x Hb Hcalls Hhealthy.
  assert (Hrs1 : resolving w0 (ext x t w) d dcf l 0 hc (tr ++ t) [] mu).
  { eapply resolving_mono; [exact Hrs|done..|]. by destruct Hrs. }
  act_step. eapply assign_wp; [exact Hrs1|].
  intros w2 Hrs2. act_step. apply wp_when; intros Hh.
  - apply bool_decide_eq_true in Hh. eapply cache_add_wp; [exact Hrs2| |].
    { rewrite (rs_trace _ _ _ _ _ _ _ _ _ _ Hrs2), app_assoc. by apply built_app_r, Hb. }
    intros w' t' Ht' Hrs3. eapply (set_child_wp w0 w' d dcf l); [exact Hrs3|]. intros w'' Hrs4.
    rewrite <- app_assoc in Hrs4. eapply (HQ h (t ++ t')); [| | |by rewrite decide_False].
    + intros _. by apply built_app, Hb.
    + by rewrite calls_app, Ht', app_nil_r.
    + intros Hhe. by apply Hhealthy.
  - apply bool_decide_eq_false, dec_stable in Hh. subst h.
    eapply (set_child_wp w0 w2 d dcf l); [exact Hrs2|]. intros w'' Hrs4.
    eapply (HQ 0 t); [done|done| |by rewrite decide_True]. intros Hhe. by apply Hhealthy.
Qed.

(** What [coraza_create_ctx] relies on: valid pointers, an unlocked mutex and a
    sound cache.  Nothing is asked of the handles already stored. *)
Record ctx_ready w r q d dcf l sv s sc : Prop := {
  cr_dl : dl_ready w;
  cr_req : reqs w !! r = Some q;
  cr_slot : r_dir_conf q = Some d;
  cr_dir : dir_confs (cfg w) !! d = Some dcf;
  cr_rules : arrays (cfg w) !! rules dcf = Some l;
  cr_flag : has_rules dcf = bool_decide (l ≠ []);
  cr_server : servers (cfg w) !! r_server q = Some sv;
  cr_server_slot : sv_conf sv = Some s;
  cr_conf : server_confs (cfg w) !! s = Some sc;
  cr_mutex : g_waf_build_mutex (wafs w) = Some false;
  cr_cache : cache_ok w;
  cr_child : ∀ m, merge_child dcf = Some m → m ≠ d ∧ is_Some (dir_confs (cfg w) !! m) }.

(** The handle of the record this one was merged from, 0 if there is none. *)
Definition child_waf w (dcf : coraza_dir_conf_t) : Z :=
  match merge_child dcf with
  | Some m => match dir_confs (cfg w) !! m with Some mx => waf mx | None => 0 end
  | None => 0
  end.

(** Which handle a record with the rules [l] gets ([h]), which one the record it
    was merged from has then ([hc]), what is added to the cache, and what is
    logged: the handle it has; none without rules; else, under the mutex, that
    of the record it was merged from; else a cached one for these rules; else a
    new one, cached when there is room. *)
Inductive resolution w (dcf : coraza_dir_conf_t) l
  : Z → Z → list waf_cache_entry_t → list event → Prop :=
| rn_stored : waf dcf ≠ 0 → resolution w dcf l (waf dcf) (child_waf w dcf) [] []
| rn_no_rules : waf dcf = 0 → l = [] → resolution w dcf l 0 (child_waf w dcf) [] []
| rn_child : waf dcf = 0 → l ≠ [] → child_waf w dcf ≠ 0 →
    resolution w dcf l (child_waf w dcf) (child_waf w dcf) [] [EvLock; EvUnlock]
| rn_cached h : waf dcf = 0 → l ≠ [] → child_waf w dcf = 0 →
    find_rules l (g_waf_cache (wafs w)) = h → h ≠ 0 →
    resolution w dcf l h h [] [EvLock; EvUnlock]
| rn_built h t : waf dcf = 0 → l ≠ [] → child_waf w dcf = 0 →
    find_rules l (g_waf_cache (wafs w)) = 0 →
    (h ≠ 0 → built t h l) → build_calls l h (calls t) → (healthy → h ≠ 0) →
    resolution w dcf l h h (if decide (h = 0) then [] else cache_entry w l h)
      (EvLock :: t ++ [EvUnlock]).

(** Where the handle comes from. *)
Lemma resolution_provenance w dcf l h hc es tr :
  cache_ok w → resolution w dcf l h hc es tr → h ≠ 0 →
  h = waf dcf ∨ h = child_waf w dcf ∨ built (trace w ++ tr) h l.
Proof.
  intros [Hc _]. destruct 1 as [| | |h _ _ _ Hf _|h t _ _ _ _ Hb _ _]; intros Hh; auto; right; right.
  - subst h. destruct (find_rules_elem l (g_waf_cache (wafs w)) Hh) as (e & He & El & Eh).
    rewrite list.Forall_forall in Hc. destruct (Hc e He) as [_ Hb]. rewrite El, Eh in Hb.
    by apply built_app.
  - apply built_app_r. change (EvLock :: t ++ [EvUnlock]) with ([EvLock] ++ t ++ [EvUnlock]).
    by apply built_app_r, built_app, Hb.
Qed.

Lemma resolution_healthy w dcf l h hc es tr :
  resolution w dcf l h hc es tr → healthy → h = 0 → l = [].
Proof.
  destruct 1 as [| | |h _ _ _ _ Hne|h t _ _ _ _ _ _ Hn]; intros Hhe Hz; try done.
  by destruct (Hn Hhe).
Qed.

Lemma resolution_ctxs g w dcf l h hc es tr :
  resolution (set_ctxs g w) dcf l h hc es tr → resolution w dcf l h hc es tr.
Proof.
  assert (child_waf (set_ctxs g w) dcf = child_waf w dcf) as Ec by done.
  destruct 1; rewrite ?Ec in *; [by apply rn_stored|by apply rn_no_rules|by apply rn_child|by apply rn_cached|].
  change (cache_entry (set_ctxs g w)) with (cache_entry w). by apply rn_built.
Qed.

Lemma resolving_start w d dcf l :
  dir_confs (cfg w) !! d = Some dcf → arrays (cfg w) !! rules dcf = Some l → cache_ok w →
  (∀ m, merge_child dcf = Some m → m ≠ d ∧ is_Some (dir_confs (cfg w) !! m)) →
  resolving w w d dcf l (waf dcf) (child_waf w dcf) [] [] (g_waf_build_mutex (wafs w)).
Proof.
  intros Hd Hl Hc Hm. constructor; try done; [by rewrite app_nil_r..|by destruct dcf|].
  intros m Em. destruct (Hm m Em) as (Hne & mx & E). split; [done|]. exists mx.
  split; [done|]. unfold child_waf. rewrite Em, E. by destruct mx.
Qed.

Lemma lock_wp w0 w d dcf l h hc tr es (Q : unit → world X → Prop) :
  resolving w0 w d dcf l h hc tr es (Some false) →
  (∀ w', resolving w0 w' d dcf l h hc (tr ++ [EvLock]) es (Some true) → Q tt w') → wp lock Q w.
Proof.
  intros Hrs HQ. unfold lock. do 2 act_step. rewrite (rs_mutex _ _ _ _ _ _ _ _ _ _ Hrs).
  do 2 act_step. act_step. apply HQ. by eapply resolving_mono.
Qed.

Lemma unlock_wp w0 w d dcf l h hc tr es (Q : unit → world X → Prop) :
  resolving w0 w d dcf l h hc tr es (Some true) →
  (∀ w', resolving w0 w' d dcf l h hc (tr ++ [EvUnlock]) es (Some false) → Q tt w') → wp unlock Q w.
Proof.
  intros Hrs HQ. unfold unlock. do 2 act_step. rewrite (rs_mutex _ _ _ _ _ _ _ _ _ _ Hrs).
  do 2 act_step. act_step. apply HQ. by eapply resolving_mono.
Qed.

(** Under the mutex: the child's handle, a cached one, or a new one. *)
Lemma critical_wp w0 w d dcf l tr0 (Q : unit → world X → Prop) :
  dl_ready w0 → l ≠ [] → waf dcf = 0 →
  resolving w0 w d dcf l 0 (child_waf w0 dcf) [EvLock] [] (Some true) → tr0 = [EvLock] →
  (∀ h hc es t w', resolution w0 dcf l h hc es (EvLock :: t ++ [EvUnlock]) →
     resolving w0 w' d dcf l h hc (EvLock :: t) es (Some true) → wp unlock Q w') →
  wp (reuse_child_waf d ;; reuse_cached_waf d ;; build_and_cache_waf d ;; unlock) Q w.
Proof.
  intros Hr Hl Hz Hrs -> HQ. act_step. eapply reuse_child_wp; [exact Hrs| |].
  { unfold child_waf. by intros ->. }
  intros w2 Hrs2. destruct (decide (child_waf w0 dcf = 0)) as [Ec|Ec].
  2: { act_step. eapply reuse_cached_skip; [exact Hrs2|exact Ec|].
       act_step. eapply build_and_cache_skip; [exact Hrs2|exact Ec|].
       eapply (HQ _ _ _ []); [|exact Hrs2]. by apply rn_child. }
  rewrite Ec in Hrs2. act_step. eapply reuse_cached_wp; [exact Hrs2| |].
  - intros Hf. act_step. eapply build_and_cache_wp; [exact Hr|exact Hl|exact Hrs2|].
    intros h t w3 Hb Hcalls Hh Hrs3. eapply HQ; [|exact Hrs3]. by apply rn_built.
  - intros w3 Hf Hrs3. act_step. eapply build_and_cache_skip; [exact Hrs3|exact Hf|].
    eapply (HQ _ _ _ []); [|exact Hrs3]. by apply rn_cached.
Qed.

Lemma lazy_waf_wp w d dcf l (Q : unit → world X → Prop) :
  dl_ready w →
  resolving w w d dcf l (waf dcf) (child_waf w dcf) [] [] (Some false) →
  has_rules dcf = bool_decide (l ≠ []) →
  (∀ h hc es tr w', resolution w dcf l h hc es tr →
     resolving w w' d dcf l h hc tr es (Some false) → Q tt w') →
  wp (lazy_waf d) Q w.
Proof.
  intros Hr Hrs Hf HQ. assert (Hd := rs_dir _ _ _ _ _ _ _ _ _ _ Hrs).
  replace (set_waf _ dcf) with dcf in Hd by (by destruct dcf).
  unfold lazy_waf. act_step. eapply wp_get_dir; [exact Hd|]. rewrite Hf.
  destruct (decide (waf dcf = 0)) as [Hz|Hz].
  2: { rewrite bool_decide_eq_false_2 by done. apply wp_ret. eapply HQ; [by apply rn_stored|exact Hrs]. }
  rewrite Hz in Hrs |- *. rewrite (bool_decide_eq_true_2 (0 = 0)) by done.
  destruct (decide (l = [])) as [Hl|Hl].
  { rewrite bool_decide_eq_false_2 by (by intros ?). apply wp_ret. by eapply HQ; [apply rn_no_rules|]. }
  rewrite bool_decide_eq_true_2 by done. simpl. act_step. eapply wp_get_array; [apply Hrs|].
  rewrite bool_decide_eq_true_2 by done. simpl.
  act_step. eapply lock_wp; [exact Hrs|]. intros w1 Hrs1.
  eapply critical_wp; [exact Hr|exact Hl|exact Hz|exact Hrs1|done|].
  intros h hc es t w2 Hres Hrs2. eapply unlock_wp; [exact Hrs2|]. intros w3 Hrs3.
  by eapply HQ; [exact Hres|].
Qed.

Lemma new_transaction_wp h id (Q : Z → world X → Prop) w :
  dl_ready w →
  (∀ t x, Q t (ext x [EvCall match id with Some i => NewTransactionWithId h i
                             | None => NewTransaction h end t] w)) →
  wp (match id with Some i => coraza_new_transaction_with_id h i
      | None => coraza_new_transaction h end) Q w.
Proof.
  intros Hr HQ. destruct id; apply wp_dl_call; try done; intros t x _; apply HQ.
Qed.
End resolving.

(** ** Properties *)

Section ctx_properties.
Context {X : Type} `{!Libcoraza X, !Libc X, !Dynlib X}.
Implicit Types w : world X.

(** What the resolution of the record [d] left behind: its handle and that of
    the record it was merged from, every other record as it was, the cache. *)
Record handles_stored w w' d (dcf : coraza_dir_conf_t) (h hc : Z) (es : list waf_cache_entry_t) : Prop := {
  hs_dir : dir_confs (cfg w') !! d = Some (set_waf (λ _, h) dcf);
  hs_child : ∀ m, merge_child dcf = Some m → ∃ mx,
    dir_confs (cfg w) !! m = Some mx ∧ dir_confs (cfg w') !! m = Some (set_waf (λ _, hc) mx);
  hs_others : ∀ e, e ≠ d → merge_child dcf ≠ Some e →
    dir_confs (cfg w') !! e = dir_confs (cfg w) !! e;
  hs_entries : g_waf_cache (wafs w') = g_waf_cache (wafs w) ++ es;
  hs_cache : cache_ok w';
  hs_mutex : g_waf_build_mutex (wafs w') = Some false }.

(** The transaction of a record is opened on its handle, or its server's. *)
Definition opened_waf (h : Z) (sc : coraza_server_conf_t) : Z := if decide (h = 0) then s_waf sc else h.
Definition opening (dcf : coraza_dir_conf_t) (k : Z) : call :=
  match transaction_id dcf with Some i => NewTransactionWithId k i | None => NewTransaction k end.

(** The outcome, [tr] having been logged by the resolution: no WAF, no
    transaction, or a zeroed context [c] of request [r] with a live transaction,
    registered for cleanup. *)
Inductive ctx_outcome r q (dcf : coraza_dir_conf_t) (k : Z) (tr : list event) w w' : option nat → Prop :=
| co_no_waf : k = 0 → reqs w' = reqs w → trace w' = trace w ++ tr →
    ctx_outcome r q dcf k tr w w' None
| co_no_transaction msg : k ≠ 0 → reqs w' = reqs w →
    trace w' = trace w ++ tr ++ [EvCall (opening dcf k) 0; EvLog APLOG_ERR msg] →
    ctx_outcome r q dcf k tr w w' None
| co_opened c t : k ≠ 0 → t ≠ 0 → ctxs w !! c = None →
    ctxs w' !! c = Some (set_transaction (λ _, t) zero_ctx) →
    reqs w' = <[r := set_r_ctx (λ _, Some c) q]> (reqs w) → dl w' = dl w → conn w' = conn w →
    trace w' = trace w ++ tr ++ [EvCall (opening dcf k) t; EvCleanupRegister c] →
    ctx_outcome r q dcf k tr w w' (Some c).

Lemma stored_mono w w2 w' d dcf l h hc es tr t :
  resolving w w2 d dcf l h hc tr es (Some false) → trace w' = trace w2 ++ t →
  cfg w' = cfg w2 → wafs w' = wafs w2 → handles_stored w w' d dcf h hc es.
Proof.
  intros [] Ht E1 E2. constructor; rewrite ?E1, ?E2; try done.
  - intros m Hm. by destruct (rs_child0 m Hm).
  - eapply cache_ok_mono; [exact Ht|by rewrite E2|done].
Qed.

(** The part of [coraza_create_ctx] after the WAF was chosen. *)
Lemma open_ctx_wp r q d dcf l c h hc es tr w w2 k :
  dl_ready w → reqs w !! r = Some q → ctxs w !! c = None →
  resolving (set_ctxs (λ m, <[c := zero_ctx]> m) w) w2 d dcf l h hc tr es (Some false) →
  wp (if bool_decide (k = 0) then mret None
      else
        dcf ← get_dir d;
        t ← match transaction_id dcf with
            | Some id => coraza_new_transaction_with_id k id
            | None => coraza_new_transaction k end;
        upd_ctx c (set_transaction (λ _, t)) ;;
        if bool_decide (t = 0) then
          ap_log APLOG_ERR "coraza: failed to create transaction" ;; mret None
        else upd_req r (set_r_ctx (λ _, Some c)) ;; emit (EvCleanupRegister c) ;; mret (Some c))
     (λ res w', handles_stored w w' d dcf h hc es ∧ ctx_outcome r q dcf k tr w w' res) w2.
Proof.
  intros Hr Hq Hfresh Hrs. pose proof Hrs as []. simpl in *.
  assert (Hst : ∀ w' t, trace w' = trace w2 ++ t → cfg w' = cfg w2 → wafs w' = wafs w2 →
    handles_stored w w' d dcf h hc es).
  { intros w' t E1 E2 E3. by destruct (stored_mono _ _ _ _ _ _ _ _ _ _ _ Hrs E1 E2 E3). }
  case_bool_decide as Hk0.
  { apply wp_ret. split; [apply (Hst w2 []); [by rewrite app_nil_r|done|done]|by apply co_no_waf]. }
  act_step. eapply wp_get_dir; [exact rs_dir0|]. act_step.
  apply new_transaction_wp; [intros f; rewrite rs_dl0; apply Hr|]. intros t x.
  act_step. eapply wp_upd_ctx; [simpl; rewrite rs_ctxs0; apply lookup_insert_eq|].
  case_bool_decide as Ht.
  { do 2 act_step. apply wp_ret. split; [by eapply Hst; [simpl; by rewrite <- app_assoc|..]|].
    subst t. eapply co_no_transaction; [done|done|]. simpl. by rewrite rs_trace0, <- !app_assoc. }
  act_step. eapply wp_upd_req; [simpl; rewrite rs_reqs0; exact Hq|].
  act_step. act_step. apply wp_ret. split; [by eapply Hst; [simpl; by rewrite <- app_assoc|..]|].
  eapply (co_opened _ _ _ _ _ _ _ c t); try done; simpl.
  - by rewrite lookup_insert_eq.
  - by rewrite rs_reqs0.
  - by rewrite rs_trace0, <- !app_assoc.
Qed.

Lemma create_ctx_wp r q d dcf l sv s sc w :
  ctx_ready w r q d dcf l sv s sc →
  wp (coraza_create_ctx r) (λ res w', ∃ h hc es tr,
    resolution w dcf l h hc es tr ∧ handles_stored w w' d dcf h hc es
    ∧ ctx_outcome r q dcf (opened_waf h sc) tr w w' res) w.
Proof.
  intros []. unfold coraza_create_ctx, new_ctx. do 4 act_step.
  pose proof (next_key_fresh (ctxs w)) as Hfresh. set (c := next_key (ctxs w)) in *.
  do 5 act_step. eapply wp_deref; [exact cr_server0|].
  rewrite cr_slot0, cr_server_slot0. act_step.
  set (w1 := set_ctxs (λ m, <[c := zero_ctx]> m) w).
  eapply (lazy_waf_wp w1 d dcf l); [exact cr_dl0| |exact cr_flag0|].
  { rewrite <- cr_mutex0. by apply (resolving_start w1). }
  intros h hc es tr w2 Hres Hrs. act_step. unfold chosen_waf. act_step.
  eapply wp_get_dir; [apply Hrs|]. simpl.
  assert (Hend : ∀ k, k = opened_waf h sc → wp (if bool_decide (k = 0) then mret None else
      dcf ← get_dir d;
      t ← match transaction_id dcf with
          | Some id => coraza_new_transaction_with_id k id
          | None => coraza_new_transaction k end;
      upd_ctx c (set_transaction (λ _, t)) ;;
      if bool_decide (t = 0) then
        ap_log APLOG_ERR "coraza: failed to create transaction" ;; mret None
      else upd_req r (set_r_ctx (λ _, Some c)) ;; emit (EvCleanupRegister c) ;; mret (Some c))
    (λ res w', ∃ h hc es tr, resolution w dcf l h hc es tr ∧ handles_stored w w' d dcf h hc es
       ∧ ctx_outcome r q dcf (opened_waf h sc) tr w w' res) w2).
  { intros k ->. eapply wp_mono; [by eapply open_ctx_wp|]. intros res w' [H1 H2].
    exists h, hc, es, tr. split; [by apply (resolution_ctxs (λ m, <[c := zero_ctx]> m))|by split]. }
  unfold opened_waf in Hend at 1. destruct (decide (h = 0)) as [Hz|Hz].
  - rewrite bool_decide_eq_false_2 by (by intros ?). act_step.
    eapply wp_get_server_conf; [rewrite (rs_confs _ _ _ _ _ _ _ _ _ _ Hrs); exact cr_conf0|].
    by apply wp_ret, Hend.
  - rewrite bool_decide_eq_true_2 by done. by apply wp_ret, Hend.
Qed.

(** C6: which WAF a request is inspected by.  [coraza_create_ctx] resolves the
    handle of the request's record, in this order: the one stored in it; none if
    it has no rules; the one stored in the record it was merged from; a cached
    one for exactly these rules; a new one, built from exactly these rules in
    order, and cached while there is room.  The last two are stored in the record
    and in the one it was merged from, and no other record changes.  The
    transaction is opened on that handle, or on the server's when there is none,
    which a healthy libcoraza leaves only to records without rules; so a handle
    that was stored neither in the record nor in the one it was merged from was
    built from the request's own rules.  The result is NULL without a WAF or a
    transaction, the request being left without a context, and otherwise a zeroed
    context with a live transaction, registered for cleanup.  The mutex is
    released and the cache stays sound on every path. *)
Theorem create_ctx_policy r q d dcf l sv s sc w :
  ctx_ready w r q d dcf l sv s sc →
  ∃ res w' h hc es tr, coraza_create_ctx r w = Some (res, w')
    ∧ resolution w dcf l h hc es tr ∧ handles_stored w w' d dcf h hc es
    ∧ ctx_outcome r q dcf (opened_waf h sc) tr w w' res
    ∧ (h ≠ 0 → h = waf dcf ∨ h = child_waf w dcf ∨ built (trace w') h l)
    ∧ (h = 0 → healthy → l = []).
Proof.
  intros H. pose proof (cr_cache _ _ _ _ _ _ _ _ _ H) as Hc.
  apply create_ctx_wp, wp_det in H as (res & w' & E & h & hc & es & tr & H1 & H2 & H3).
  exists res, w', h, hc, es, tr. split_and!; try done.
  - intros Hh. destruct (resolution_provenance _ _ _ _ _ _ _ Hc H1 Hh) as [?|[?|Hb]]; [auto..|].
    right; right. destruct H3 as [_ _ ->|msg _ _ ->|c t _ _ _ _ _ _ _ ->];
      rewrite ?(app_assoc (trace w)); [exact Hb|by apply built_app..].
  - intros Hz Hhe. by eapply resolution_healthy.
Qed.
End ctx_properties.

(** C33: the cache never answers for another policy.  A lookup compares the
    ordered rules themselves, not their hash: it returns the handle of the first
    entry with these very rules, 0 when there is none.  Adding keeps the cache
    within 64 entries: it appends a copy when there is room (and a pool), and
    changes no entry otherwise. *)
Theorem cache_matches_rules_only {X} l l' h (w : world X) :
  Forall entry_ok (g_waf_cache (wafs w)) → Z.of_nat (length (g_waf_cache (wafs w))) ≤ WAF_CACHE_MAX →
  ∃ w' v, waf_cache_add (rules_hash l) l h w = Some (tt, w')
    ∧ waf_cache_find (rules_hash l') l' w' = Some (v, w')
    ∧ g_waf_cache (wafs w') = g_waf_cache (wafs w)
        ++ (if bool_decide (Z.of_nat (length (g_waf_cache (wafs w))) < WAF_CACHE_MAX)
               && g_waf_cache_pool (wafs w)
            then [CacheEntry (rules_hash l) (Z.of_nat (length l)) l h] else [])
    ∧ Forall entry_ok (g_waf_cache (wafs w'))
    ∧ Z.of_nat (length (g_waf_cache (wafs w'))) ≤ WAF_CACHE_MAX
    ∧ v = find_rules l' (g_waf_cache (wafs w'))
    ∧ (v ≠ 0 → ∃ e, e ∈ g_waf_cache (wafs w') ∧ e_rules e = l' ∧ e_waf e = v).
Proof.
  intros Hok Hlen.
  assert (wp (waf_cache_add (rules_hash l) l h) (λ _ w',
    g_waf_cache (wafs w') = g_waf_cache (wafs w)
        ++ (if bool_decide (Z.of_nat (length (g_waf_cache (wafs w))) < WAF_CACHE_MAX)
               && g_waf_cache_pool (wafs w)
            then [CacheEntry (rules_hash l) (Z.of_nat (length l)) l h] else [])) w) as H.
  { unfold waf_cache_add. do 2 act_step. case_goal as Hfull.
    - rewrite bool_decide_eq_false_2 by lia. simpl. rewrite app_nil_r.
      apply wp_when; intros _; [|done]. by repeat act_step.
    - rewrite bool_decide_eq_true_2 by lia. simpl.
      destruct (g_waf_cache_pool (wafs w)); simpl; [by act_step|].
      apply wp_ret. by rewrite app_nil_r. }
  apply wp_det in H as ([] & w' & E & Hc).
  assert (Hok' : Forall entry_ok (g_waf_cache (wafs w'))).
  { rewrite Hc. apply Forall_app. split; [done|]. by destruct (_ && _); repeat constructor. }
  exists w', (find_rules l' (g_waf_cache (wafs w'))). split_and!; try done.
  - unfold waf_cache_find, gets. by rewrite find_entry_rules.
  - rewrite Hc, length_app. case_goal as Hroom; simpl; [|lia].
    destruct (g_waf_cache_pool (wafs w)); simpl; lia.
  - apply find_rules_elem.
Qed.

(** The environment of the witnesses: allocation never fails. *)
#[export] Instance sim_libc : Libc script := {|
  strdup s x := (true, x);
  apr_thread_mutex_create x := (true, x) |}.

(** A libcoraza in which nothing fails. *)
Definition obliging : Libcoraza script := {|
  lib_call c x := (1, x);
  lib_new_waf c x := ((101, None), x);
  lib_rules_merge a b x := ((0, None), x);
  lib_intervention t x := (None, x);
  lib_version_num x := (10800, x) |}.

Lemma obliging_healthy : @healthy script obliging sim_libc.
Proof. by split_and!. Qed.

Definition inline (s : string) : coraza_rule_entry_t := Rule CORAZA_RULE_INLINE s.

Lemma cache_matches_rules_only_witness :
  ∃ w', waf_cache_add (rules_hash [inline "a"]) [inline "a"] 9 (sim_world (Script [] [] [] 1 0) ∅ ∅)
          = Some (tt, w')
        ∧ waf_cache_find (rules_hash [inline "a"]) [inline "a"] w' = Some (9, w').
Proof.
  destruct (cache_matches_rules_only [inline "a"] [inline "a"] 9
    (sim_world (Script [] [] [] 1 0) ∅ ∅)) as (w' & v & E & Ev & Hc & _ & _ & Hv & _).
  - constructor.
  - discriminate.
  - exists w'. split; [exact E|]. rewrite Ev, Hv, Hc. reflexivity.
Defined.

(** C19: building a WAF replays the rules in order and leaks nothing: a handle
    other than 0 was built from exactly these rules; whatever fails and where,
    the configuration object is released exactly once and every error string is
    given back; without rules libcoraza is not called; when nothing fails the
    handle is not 0.  The store is untouched. *)
Theorem build_waf_spec {X} `{!Libcoraza X, !Libc X} a l (w : world X) :
  dl_ready w → arrays (cfg w) !! a = Some l →
  ∃ h tr x, coraza_build_waf (Some a) w = Some (h, ext x tr w)
    ∧ (h ≠ 0 → built tr h l) ∧ build_calls l h (calls tr) ∧ (healthy → l ≠ [] → h ≠ 0).
Proof.
  intros Hr Hl.
  assert (wp (coraza_build_waf (Some a)) (λ h w', ∃ tr x, w' = ext x tr w
    ∧ (h ≠ 0 → built tr h l) ∧ build_calls l h (calls tr) ∧ (healthy → l ≠ [] → h ≠ 0)) w) as H.
  { apply build_waf_wp with l; [done|done|]. intros h tr x H1 H2 H3. by exists tr, x. }
  apply wp_det in H as (h & w' & E & tr & x & -> & H). by exists h, tr, x.
Qed.

Lemma build_waf_spec_witness :
  ∃ h tr x, coraza_build_waf (Some 0%nat) (sim_world (Script [] [] [] 1 0) ∅ ∅)
              = Some (h, ext x tr (sim_world (Script [] [] [] 1 0) ∅ ∅))
            ∧ built tr h [inline "SecRuleEngine On"].
Proof.
  destruct (build_waf_spec 0 [inline "SecRuleEngine On"] (sim_world (Script [] [] [] 1 0) ∅ ∅)
    (λ f, eq_refl) eq_refl) as (h & tr & x & E & Hb & _ & _).
  exists h, tr, x. split; [exact E|]. apply Hb. vm_compute in E. injection E as <- _. discriminate.
Defined.

(** A request in a directory whose WAF is not built yet. *)
Definition unbuilt : world script :=
  set_cfg (set_dir_confs (λ _, {[ 0%nat := set_waf (λ _, 0) sim_dir ]}))
    (sim_world (Script [] [] [] 1 0) {[ 0%nat := sim_request None None ]} ∅).

Lemma create_ctx_policy_witness :
  ∃ c w', coraza_create_ctx 0 unbuilt = Some (Some c, w') ∧ transaction <$> ctxs w' !! c = Some 7.
Proof.
  destruct (create_ctx_policy 0 (sim_request None None) 0 (set_waf (λ _, 0) sim_dir)
    [inline "SecRuleEngine On"] (Server (Some 0%nat) (Some 0%nat) None) 0 (ServerConf 0 [] 100 1 0)
    unbuilt) as (res & w' & h & hc & es & tr & E & _).
  { constructor; try reflexivity; try done. }
  destruct res as [c|]; [|vm_compute in E; discriminate E].
  exists c, w'. split; [exact E|]. vm_compute in E. injection E as <- <-. reflexivity.
Defined.

(** ** Two consequences worth knowing *)

(** The WAF handles transactions were opened on, and the rules handed to
    libcoraza, in a log. *)
Definition opened_on (tr : list event) : list Z :=
  omap (λ k, match k with NewTransaction h | NewTransactionWithId h _ => Some h | _ => None end)
    (calls tr).
Definition rules_added (tr : list event) : list string :=
  omap (λ k, match k with RulesAdd _ d => Some d | _ => None end) (calls tr).
Definition rules_of {X} (w : world X) (d : nat) : option (list coraza_rule_entry_t) :=
  dcf ← dir_confs (cfg w) !! d; arrays (cfg w) !! rules dcf.

(** A <Location> record (3) under two <Directory> records (1 and 2), each with
    a rule of its own; requests 0 and 1 will be in the merged records 4 and 5. *)
Definition two_directories : world script :=
  set_cfg (λ g, Config {[ 1%nat := [inline "A"]; 2%nat := [inline "B"]; 3%nat := [inline "C"] ]}
      {[ 1%nat := DirConf 1 true 1 None (-1) 0 None; 2%nat := DirConf 1 true 2 None (-1) 0 None;
         3%nat := DirConf 1 true 3 None (-1) 0 None ]} (server_confs g) (servers g) None None)
    (sim_world (Script [] [] [] 1 0)
       {[ 0%nat := set_r_dir_conf (λ _, Some 4%nat) (sim_request None None);
          1%nat := set_r_dir_conf (λ _, Some 5%nat) (sim_request None None) ]} ∅).

(** The handle cached in a <Location> is not tied to what it was merged
    under.  With one <Location> below two directories, the first request builds
    a WAF from A and C and stores it in the <Location>'s record; the second
    request, whose rules are B and C, inherits that handle in the merge and is
    inspected with A and C: B is never given to libcoraza. *)
Example merge_child_crosses_policies :
  (λ p : unit * world script, (rules_of p.2 4, rules_of p.2 5, opened_on (trace p.2),
      rules_added (trace p.2)))
    <$> (coraza_merge_dir_conf 1 3 ;; coraza_create_ctx 0 ;;
         coraza_merge_dir_conf 2 3 ;; coraza_create_ctx 1 ;; mret tt) two_directories
  = Some (Some [inline "A"; inline "C"], Some [inline "B"; inline "C"], [101; 101],
          ["A"%string; "C"%string]).
Proof. vm_compute. reflexivity. Qed.

(** A directory whose rules libcoraza rejects, on a server without rules. *)
Definition rejected : world script :=
  set_cfg (set_dir_confs (λ _, {[ 0%nat := set_waf (λ _, 0) sim_dir ]}))
    (sim_world (Script [] [rules_add] [] 1 0) {[ 0%nat := sim_request None None ]} ∅).

(** A directory whose rules fail to build is not failed closed: the request
    gets a context, with a transaction on the server's WAF (handle 100), and
    none of the directory's rules. *)
Example failed_build_uses_server_waf :
  (λ p : option nat * world script, (bool_decide (is_Some p.1), waf <$> dir_confs (cfg p.2) !! 0%nat,
      opened_on (trace p.2)))
    <$> coraza_create_ctx 0 rejected = Some (true, Some 0, [100]).
Proof. vm_compute. reflexivity. Qed.
