(* ===== verification/ChildFacts.v ===== *)
(** * The end and the start of a child process: proofs

    [coraza_child_exit] releases every handle it knows of exactly once;
    [coraza_child_init] gives every configured scope a WAF built from its own
    rules. *)
From S2P Require Import Prelude Types World DynLib DynLibFacts Sim InterventionFacts Waf WafFacts.
Local Open Scope Z_scope.

(** ** Specification of the first pass *)

(** The handles to free among [hs]: not 0, not held by a server ([held]), and
    not [seen] before. *)
Fixpoint to_free (held seen hs : list Z) : list Z :=
  match hs with
  | [] => []
  | h :: hs => (if decide (h = 0 ∨ h ∈ held ∨ h ∈ seen) then [] else [h])
                 ++ to_free held (seen ++ [h]) hs
  end.

Lemma elem_of_to_free held hs : ∀ seen h,
  h ∈ to_free held seen hs ↔ h ∈ hs ∧ h ≠ 0 ∧ h ∉ held ∧ h ∉ seen.
Proof.
  induction hs as [|x hs IH]; intros seen h; simpl.
  { rewrite elem_of_nil. naive_solver. }
  rewrite elem_of_app, IH, elem_of_cons, elem_of_app, list_elem_of_singleton.
  case_decide as E; rewrite ?elem_of_nil, ?list_elem_of_singleton;
    destruct (decide (h = x)) as [->|]; tauto.
Qed.

Lemma NoDup_to_free held hs : ∀ seen, NoDup (to_free held seen hs).
Proof.
  induction hs as [|x hs IH]; intros seen; simpl; [constructor|].
  case_decide as E; simpl; [apply IH|]. constructor; [|apply IH].
  rewrite elem_of_to_free, elem_of_app, list_elem_of_singleton. tauto.
Qed.

Section child_exit.
Context {X : Type} `{!Dynlib X, !Libcoraza X, !Libc X}.
Implicit Types w : world X.

(** The handles of some records, and of the servers. *)
Definition dir_wafs w (dirs : list nat) : list Z :=
  omap (λ d, waf <$> dir_confs (cfg w) !! d) dirs.
Definition server_wafs w (svs : list server_rec) : list Z :=
  omap (λ sv, c ← sv_conf sv; s_waf <$> server_confs (cfg w) !! c) svs.

Definition dirs_valid w (dirs : list nat) : Prop :=
  Forall (λ d, is_Some (dir_confs (cfg w) !! d)) dirs.
Definition servers_valid w (svs : list server_rec) : Prop :=
  Forall (λ sv, ∀ c, sv_conf sv = Some c → is_Some (server_confs (cfg w) !! c)) svs.

Lemma server_holds_wp h svs w :
  servers_valid w svs →
  wp (server_holds h svs) (λ b w', w' = w ∧ b = bool_decide (h ∈ server_wafs w svs)) w.
Proof.
  unfold servers_valid. induction 1 as [|sv svs Hsv _ IH]; simpl; [by apply wp_ret|].
  unfold server_wafs in *. simpl. destruct (sv_conf sv) as [c|] eqn:Ec; [|done].
  destruct (Hsv c eq_refl) as [scf Hscf]. simpl. rewrite Hscf. simpl.
  do 2 act_step. case_goal as E.
  - apply wp_ret. split; [done|]. symmetry. apply bool_decide_eq_true_2. rewrite E. left.
  - eapply wp_mono; [exact IH|]. intros b w' [-> ->]. split; [done|].
    apply bool_decide_ext. rewrite elem_of_cons. tauto.
Qed.

Lemma dir_holds_wp h dirs w :
  dirs_valid w dirs →
  wp (dir_holds h dirs) (λ b w', w' = w ∧ b = bool_decide (h ∈ dir_wafs w dirs)) w.
Proof.
  unfold dirs_valid. induction 1 as [|d dirs [x Hx] _ IH]; simpl; [by apply wp_ret|].
  unfold dir_wafs in *. simpl. rewrite Hx. simpl. do 2 act_step. case_goal as E.
  - apply wp_ret. split; [done|]. symmetry. apply bool_decide_eq_true_2. rewrite <- E. left.
  - eapply wp_mono; [exact IH|]. intros b w' [-> ->]. split; [done|].
    apply bool_decide_ext. rewrite elem_of_cons. split; [by right|]. by intros [?|?].
Qed.

Lemma dir_wafs_app w d1 d2 : dir_wafs w (d1 ++ d2) = dir_wafs w d1 ++ dir_wafs w d2.
Proof. apply omap_app. Qed.

(** The first pass. *)
Lemma exit_dirs_wp svs dirs : ∀ earlier w,
  dl_ready w → servers_valid w svs → dirs_valid w earlier → dirs_valid w dirs →
  wp (exit_dirs svs earlier dirs) (λ _ w', ∃ x tr, w' = ext x tr w
    ∧ calls tr = FreeWaf <$> to_free (server_wafs w svs) (dir_wafs w earlier) (dir_wafs w dirs)) w.
Proof.
  induction dirs as [|d dirs IH]; intros earlier w Hr Hsv He Hd; simpl.
  { apply wp_ret. exists (env w), []. split; [|done]. symmetry. destruct w. apply set_trace_nil. }
  apply Forall_cons_1 in Hd as [[y Hy] Hd].
  assert (Hds : dir_wafs w (d :: dirs) = waf y :: dir_wafs w dirs).
  { unfold dir_wafs. simpl. by rewrite Hy. }
  assert (Hrest : ∀ x tr, calls tr
     = FreeWaf <$> (if decide (waf y = 0 ∨ waf y ∈ server_wafs w svs ∨ waf y ∈ dir_wafs w earlier)
                    then [] else [waf y]) →
     wp (exit_dirs svs (earlier ++ [d]) dirs) (λ _ w', ∃ x tr, w' = ext x tr w
      ∧ calls tr = FreeWaf <$> to_free (server_wafs w svs) (dir_wafs w earlier)
                                 (dir_wafs w (d :: dirs))) (ext x tr w)).
  { intros x tr Htr. eapply wp_mono.
    - apply IH; [done|done| |done]. apply Forall_app. split; [done|]. constructor; [|done].
      by exists y.
    - intros _ w' (x' & tr' & -> & Htr'). exists x', (tr ++ tr'). rewrite ext_ext. split; [done|].
      rewrite calls_app, Htr, Htr', Hds. simpl. rewrite fmap_app. do 2 f_equal.
      change (dir_wafs (ext x tr w)) with (dir_wafs w). rewrite dir_wafs_app.
      unfold dir_wafs at 2. simpl. by rewrite Hy. }
  assert (Hskip : (waf y = 0 ∨ waf y ∈ server_wafs w svs ∨ waf y ∈ dir_wafs w earlier) →
     wp (exit_dirs svs (earlier ++ [d]) dirs) (λ _ w', ∃ x tr, w' = ext x tr w
      ∧ calls tr = FreeWaf <$> to_free (server_wafs w svs) (dir_wafs w earlier)
                                 (dir_wafs w (d :: dirs))) w).
  { intros Hno. specialize (Hrest (env w) []). rewrite decide_True in Hrest by done.
    specialize (Hrest eq_refl). destruct w; unfold ext in Hrest. by rewrite set_trace_nil in Hrest. }
  act_step. unfold exit_dir. do 2 act_step. case_goal as Hz; [apply wp_ret; auto|].
  act_step. eapply wp_mono; [by apply server_holds_wp|]. intros b w' [-> ->].
  case_goal as Hs; [apply wp_ret; auto|].
  act_step. eapply wp_mono; [by apply dir_holds_wp|]. intros b w' [-> ->].
  case_goal as Hsh; simpl; [apply wp_ret; auto|].
  act_step. apply wp_dl_call; [done|done|]. intros r x _. apply wp_ret.
  rewrite ext_after. apply Hrest. rewrite decide_False by tauto. done.
Qed.

(** The second pass. *)
Lemma zero_dirs_wp dirs : ∀ w,
  dirs_valid w dirs →
  wp (zero_dirs dirs) (λ _ w', trace w' = trace w ∧ dl w' = dl w
    ∧ server_confs (cfg w') = server_confs (cfg w)
    ∧ (∀ d x, dir_confs (cfg w') !! d = Some x →
         (d ∈ dirs → waf x = 0) ∧ (d ∉ dirs → dir_confs (cfg w) !! d = Some x))) w.
Proof.
  induction dirs as [|d dirs IH]; intros w Hd; simpl.
  { apply wp_ret. split_and!; try done. intros d x Hx. split; [by intros ?%not_elem_of_nil|done]. }
  apply Forall_cons_1 in Hd as [[y Hy] Hd]. do 2 act_step.
  eapply wp_mono.
  - apply IH. eapply Forall_impl; [|exact Hd]. simpl. intros d' [z Hz].
    rewrite lookup_insert. case_decide; eauto.
  - intros _ w' (H1 & H2 & H3 & H4). split_and!; [done..|]. intros d' x Hx.
    destruct (H4 d' x Hx) as [Hin Hout]. simpl in Hout.
    destruct (decide (d' ∈ dirs)) as [Hi|Hi].
    + split; [by auto|]. intros Hn. destruct Hn. by right.
    + specialize (Hout Hi). split; [intros [->|?]%elem_of_cons; [|done]|].
      * rewrite lookup_insert_eq in Hout. by simplify_eq.
      * intros [Hne _]%not_elem_of_cons. by rewrite lookup_insert_ne in Hout.
Qed.

(** Two server records hold different handles, unless they are 0. *)
Definition handles_apart w : Prop :=
  ∀ c1 c2 x1 x2, server_confs (cfg w) !! c1 = Some x1 → server_confs (cfg w) !! c2 = Some x2 →
    s_waf x1 = s_waf x2 → s_waf x1 ≠ 0 → c1 = c2.

Lemma elem_of_server_wafs w svs h :
  h ∈ server_wafs w svs ↔ ∃ sv c x, sv ∈ svs ∧ sv_conf sv = Some c
    ∧ server_confs (cfg w) !! c = Some x ∧ s_waf x = h.
Proof.
  unfold server_wafs. rewrite list_elem_of_omap. split.
  - intros (sv & Hsv & H). destruct (sv_conf sv) as [c|] eqn:Ec; [|done]. simpl in H.
    apply fmap_Some in H as (x & Hx & ->). naive_solver.
  - intros (sv & c & x & Hsv & Ec & Hx & <-). exists sv. split; [done|]. by rewrite Ec; simpl; rewrite Hx.
Qed.

(** The handle of one server record is released and cleared. *)
Definition clear_server (c : nat) (x : coraza_server_conf_t) w : world X :=
  set_cfg (set_server_confs (λ m, <[c := set_s_waf (λ _, 0) x]> m)) w.

Lemma clear_server_apart c x w :
  server_confs (cfg w) !! c = Some x → handles_apart w → handles_apart (clear_server c x w).
Proof.
  intros Hx Ha c1 c2 x1 x2. simpl. intros H1 H2 E Hne.
  destruct (decide (c1 = c)) as [->|]; [rewrite lookup_insert_eq in H1; by simplify_eq|].
  destruct (decide (c2 = c)) as [->|].
  { rewrite lookup_insert_eq in H2. injection H2 as <-. simpl in E. congruence. }
  rewrite lookup_insert_ne in H1, H2 by done. by eapply Ha.
Qed.

Lemma clear_server_wafs c x svs w h :
  server_confs (cfg w) !! c = Some x → handles_apart w → h ≠ 0 →
  h ∈ server_wafs (clear_server c x w) svs ↔ h ∈ server_wafs w svs ∧ h ≠ s_waf x.
Proof.
  intros Hx Ha Hh. rewrite !elem_of_server_wafs. simpl. split.
  - intros (sv & c' & x' & Hsv & Ec & Hx' & <-). destruct (decide (c' = c)) as [->|Hne].
    { rewrite lookup_insert_eq in Hx'. by simplify_eq. }
    rewrite lookup_insert_ne in Hx' by done. split; [by eauto 10|].
    intros E. by destruct Hne; eapply Ha.
  - intros [(sv & c' & x' & Hsv & Ec & Hx' & <-) Hne].
    exists sv, c', x'. split_and!; try done. rewrite lookup_insert_ne; [done|]. congruence.
Qed.

Lemma exit_servers_wp svs : ∀ w,
  dl_ready w → servers_valid w svs → handles_apart w →
  wp (exit_servers svs) (λ _ w', ∃ tr hs, trace w' = trace w ++ tr ∧ dl w' = dl w
    ∧ dir_confs (cfg w') = dir_confs (cfg w)
    ∧ calls tr = FreeWaf <$> hs ∧ NoDup hs
    ∧ (∀ h, h ∈ hs ↔ h ∈ server_wafs w svs ∧ h ≠ 0)
    ∧ Forall (λ h, h = 0) (server_wafs w' svs)
    ∧ (∀ c x, server_confs (cfg w) !! c = Some x → s_waf x = 0 → server_confs (cfg w') !! c = Some x)
    ∧ (∀ c, is_Some (server_confs (cfg w) !! c) → is_Some (server_confs (cfg w') !! c))) w.
Proof.
  induction svs as [|sv svs IH]; intros w Hr Hsv Ha; cbn [exit_servers].
  { apply wp_ret. exists [], []. rewrite app_nil_r. split_and!; try done; [apply NoDup_nil_2|].
    intros h. unfold server_wafs. simpl. rewrite elem_of_nil. naive_solver. }
  apply Forall_cons_1 in Hsv as [Hc Hsv]. act_step.
  destruct (sv_conf sv) as [c|] eqn:Ec.
  2: { apply wp_ret. eapply wp_mono; [by apply IH|].
       assert (Hn : ∀ w', server_wafs w' (sv :: svs) = server_wafs w' svs).
       { intros w'. unfold server_wafs. simpl. by rewrite Ec. }
       intros _ w' (tr & hs & H). exists tr, hs. by rewrite !Hn. }
  destruct (Hc c eq_refl) as [x Hx]. do 2 act_step.
  assert (Hws : ∀ w', server_wafs w' (sv :: svs)
    = match server_confs (cfg w') !! c with Some y => [s_waf y] | None => [] end
      ++ server_wafs w' svs).
  { intros w'. unfold server_wafs. simpl. rewrite Ec. simpl.
    by destruct (server_confs (cfg w') !! c). }
  rewrite !Hws. rewrite Hx. simpl.
  case_goal as Hz; simpl.
  - act_step. apply wp_dl_call; [done|done|]. intros r e _. rewrite ext_after. act_step.
    change (set_cfg _ _) with (clear_server c x (ext e [EvCall (FreeWaf (s_waf x)) r] w)).
    eapply wp_mono.
    + apply IH; [done| |by apply clear_server_apart].
      eapply Forall_impl; [|exact Hsv]. simpl. intros sv' H c' Hc'. rewrite lookup_insert.
      case_decide; eauto.
    + intros _ w' (tr & hs & Ht & Hd & Hdc & Hcs & Hnd & Hin & Hall & Hkeep & Hsome).
      eexists (_ :: tr), (s_waf x :: hs). split_and!; try done.
      * rewrite Ht. simpl. by rewrite <- app_assoc.
      * simpl. change (calls (?e :: tr)) with (calls [e] ++ calls tr). by rewrite Hcs.
      * constructor; [|done]. rewrite Hin. intros [H _].
        by apply (clear_server_wafs c x svs (ext e _ w)) in H as [_ ?].
      * intros h. rewrite !elem_of_cons, Hin. split.
        -- intros [->|[H Hh]]; [by split; [left|]|]. split; [right|done].
           by apply (clear_server_wafs c x svs (ext e _ w)) in H as [? _].
        -- intros [[->|H] Hh]; [by left|]. destruct (decide (h = s_waf x)); [by left|].
           right. split; [|done]. by apply (clear_server_wafs c x svs (ext e _ w)).
      * change (Forall (λ h, h = 0) (server_wafs w' (sv :: svs))).
        rewrite Hws. rewrite (Hkeep c (set_s_waf (λ _, 0) x)); [|simpl; by rewrite lookup_insert_eq|done].
        by constructor.
      * intros c' y Hy Hy0. destruct (decide (c' = c)) as [->|Hne].
        { by rewrite Hx in Hy; simplify_eq. }
        apply Hkeep; [|done]. simpl. by rewrite lookup_insert_ne.
      * intros c' [y Hy]. apply Hsome. simpl. rewrite lookup_insert. case_decide; eauto.
  - apply wp_ret. eapply wp_mono; [by apply IH|].
    intros _ w' (tr & hs & Ht & Hd & Hdc & Hcs & Hnd & Hin & Hall & Hkeep & Hsome).
    apply dec_stable in Hz. exists tr, hs. split_and!; try done.
    + intros h. rewrite Hin, elem_of_cons.
      split; [intros [? ?]; by split; [right|]|by intros [[->|?] ?]].
    + change (Forall (λ h, h = 0) (server_wafs w' (sv :: svs))).
      rewrite Hws. rewrite (Hkeep c x); [|done|done]. by constructor.
Qed.
End child_exit.

(** ** Starting a child *)
Section child_init.
Context {X : Type} `{!Dynlib X, !Libcoraza X, !Libc X}.
Implicit Types w : world X.

(** A record with its handle forgotten. *)
Definition no_waf : coraza_dir_conf_t → coraza_dir_conf_t := set_waf (λ _, 0).
Definition no_s_waf : coraza_server_conf_t → coraza_server_conf_t := set_s_waf (λ _, 0).

(** [w] is [w0] while WAFs are being built: only handles, the log and the
    environment moved. *)
Record starting w0 w : Prop := {
  sg_dl : dl w = dl w0;
  sg_arrays : arrays (cfg w) = arrays (cfg w0);
  sg_servers : servers (cfg w) = servers (cfg w0);
  sg_tracked : g_tracked_dir_confs (cfg w) = g_tracked_dir_confs (cfg w0);
  sg_dirs : no_waf <$> dir_confs (cfg w) = no_waf <$> dir_confs (cfg w0);
  sg_confs : no_s_waf <$> server_confs (cfg w) = no_s_waf <$> server_confs (cfg w0);
  sg_wafs : wafs w = wafs w0;
  sg_trace : ∃ tr, trace w = trace w0 ++ tr }.

#[export] Instance starting_preorder : PreOrder starting.
Proof.
  split.
  - intros w. constructor; try done. exists []. by rewrite app_nil_r.
  - intros w1 w2 w3 [???????[t1 E1]] [???????[t2 E2]]. constructor; try congruence.
    exists (t1 ++ t2). by rewrite E2, E1, app_assoc.
Qed.

Lemma starting_ext x tr w : starting w (ext x tr w).
Proof. constructor; try done. by exists tr. Qed.

Lemma starting_upd_dir d h x w :
  dir_confs (cfg w) !! d = Some x →
  starting w (set_cfg (set_dir_confs (λ m, <[d := set_waf (λ _, h) x]> m)) w).
Proof.
  intros Hx. constructor; try done; [|exists []; by rewrite app_nil_r]. simpl.
  rewrite fmap_insert. apply insert_id. by rewrite lookup_fmap, Hx.
Qed.

Lemma starting_upd_conf c h x w :
  server_confs (cfg w) !! c = Some x →
  starting w (set_cfg (set_server_confs (λ m, <[c := set_s_waf (λ _, h) x]> m)) w).
Proof.
  intros Hx. constructor; try done; [|exists []; by rewrite app_nil_r]. simpl.
  rewrite fmap_insert. apply insert_id. by rewrite lookup_fmap, Hx.
Qed.

Lemma starting_dir w0 w d x :
  starting w0 w → dir_confs (cfg w0) !! d = Some x →
  ∃ h, dir_confs (cfg w) !! d = Some (set_waf (λ _, h) x).
Proof.
  intros Hs Hx. assert ((no_waf <$> dir_confs (cfg w)) !! d = Some (no_waf x)) as E
    by (rewrite (sg_dirs _ _ Hs), lookup_fmap, Hx; done).
  rewrite lookup_fmap in E. destruct (dir_confs (cfg w) !! d) as [y|]; [|done].
  exists (waf y). clear Hx. destruct x, y. unfold no_waf, set_waf in *. simpl in *. congruence.
Qed.

Lemma starting_conf w0 w c x :
  starting w0 w → server_confs (cfg w0) !! c = Some x →
  ∃ h, server_confs (cfg w) !! c = Some (set_s_waf (λ _, h) x).
Proof.
  intros Hs Hx. assert ((no_s_waf <$> server_confs (cfg w)) !! c = Some (no_s_waf x)) as E
    by (rewrite (sg_confs _ _ Hs), lookup_fmap, Hx; done).
  rewrite lookup_fmap in E. destruct (server_confs (cfg w) !! c) as [y|]; [|done].
  exists (s_waf y). clear Hx. destruct x, y. unfold no_s_waf, set_s_waf in *. simpl in *. congruence.
Qed.

(** Every server's handle stands for its own rules. *)
Definition servers_built w : Prop :=
  ∀ c x l, server_confs (cfg w) !! c = Some x → arrays (cfg w) !! s_rules x = Some l →
    s_waf x ≠ 0 → built (trace w) (s_waf x) l.

(** Every pointer of the configuration is valid, and [has_rules] is right. *)
Record config_valid w : Prop := {
  cv_confs : ∀ c x, server_confs (cfg w) !! c = Some x → is_Some (arrays (cfg w) !! s_rules x);
  cv_servers : servers_valid w (servers (cfg w));
  cv_defaults : ∀ sv b, sv ∈ servers (cfg w) → sv_lookup_defaults sv = Some b →
    is_Some (dir_confs (cfg w) !! b);
  cv_tracked : ∀ ds d, g_tracked_dir_confs (cfg w) = Some ds → d ∈ ds → ∃ x l,
    dir_confs (cfg w) !! d = Some x ∧ arrays (cfg w) !! rules x = Some l
    ∧ has_rules x = bool_decide (l ≠ []) }.

Lemma servers_built_ext x tr w : servers_built w → servers_built (ext x tr w).
Proof. intros H c y l H1 H2 H3. simpl. apply built_app. by apply (H c). Qed.

Lemma servers_built_dir d h w :
  servers_built w → servers_built (set_cfg (set_dir_confs (λ m, <[d := h]> m)) w).
Proof. done. Qed.

Lemma servers_built_conf c x h l w :
  servers_built w → arrays (cfg w) !! s_rules x = Some l → (h ≠ 0 → built (trace w) h l) →
  servers_built (set_cfg (set_server_confs (λ m, <[c := set_s_waf (λ _, h) x]> m)) w).
Proof.
  intros H Hl Hb c' x' l'. simpl. intros Hx' Hl' Hne. destruct (decide (c' = c)) as [->|Hc].
  - rewrite lookup_insert_eq in Hx'. injection Hx' as <-. simpl in *.
    rewrite Hl in Hl'. injection Hl' as <-. by apply Hb.
  - rewrite lookup_insert_ne in Hx' by done. by apply (H c').
Qed.

Lemma built_empty c h err tr : h ≠ 0 → c ≠ 0 →
  built ([EvCall NewWafConfig c; EvNewWaf c h err] ++ tr) h [].
Proof. intros. split; [done|]. exists [], c, [], err, tr. by split_and!. Qed.

(** The handles of a server record and of a section. *)
Definition server_waf w (c : nat) : Z :=
  match server_confs (cfg w) !! c with Some x => s_waf x | None => 0 end.
Definition dir_waf w (d : nat) : Z :=
  match dir_confs (cfg w) !! d with Some x => waf x | None => 0 end.

(** When nothing fails no handle is lost. *)
Definition kept w w' : Prop :=
  healthy → (∀ c, server_waf w c ≠ 0 → server_waf w' c ≠ 0)
          ∧ (∀ d, dir_waf w d ≠ 0 → dir_waf w' d ≠ 0).

#[local] Instance kept_preorder : PreOrder kept.
Proof.
  split; [by intros w _|]. intros w1 w2 w3 H1 H2 Hh. destruct (H1 Hh), (H2 Hh). auto.
Qed.
Lemma kept_ext e tr w : kept w (ext e tr w).
Proof. by intros _. Qed.
Lemma kept_conf c x h w :
  (healthy → h ≠ 0) → kept w (set_cfg (set_server_confs (λ m, <[c := set_s_waf (λ _, h) x]> m)) w).
Proof.
  intros Hh He. split; [|done]. intros c'. unfold server_waf. simpl. destruct (decide (c = c')) as [->|Hne].
  - rewrite lookup_insert_eq. intros _. by apply Hh.
  - by rewrite lookup_insert_ne.
Qed.
Lemma kept_dir d x h w :
  (healthy → h ≠ 0) → kept w (set_cfg (set_dir_confs (λ m, <[d := set_waf (λ _, h) x]> m)) w).
Proof.
  intros Hh He. split; [done|]. intros d'. unfold dir_waf. simpl. destruct (decide (d = d')) as [->|Hne].
  - rewrite lookup_insert_eq. intros _. by apply Hh.
  - by rewrite lookup_insert_ne.
Qed.

(** When nothing fails the server and its server-level section have a WAF. *)
Definition armed w (sv : server_rec) : Prop :=
  healthy → ∀ c, sv_conf sv = Some c →
    server_waf w c ≠ 0 ∧ ∀ b, sv_lookup_defaults sv = Some b → dir_waf w b ≠ 0.

Lemma armed_kept w w' sv : kept w w' → armed w sv → armed w' sv.
Proof.
  intros Hk Ha Hh c Hc. destruct (Hk Hh) as [K1 K2], (Ha Hh c Hc) as [A1 A2]. split; [auto|].
  intros b Hb. auto.
Qed.

(** The empty WAF of a server without rules. *)
Lemma empty_waf_wp c x w :
  dl_ready w → server_confs (cfg w) !! c = Some x → arrays (cfg w) !! s_rules x = Some [] →
  servers_built w →
  wp (empty_waf c) (λ _ w', (starting w w' ∧ servers_built w')
    ∧ kept w w' ∧ (healthy → server_waf w' c ≠ 0)) w.
Proof.
  intros Hr Hx Hl Hsb. unfold empty_waf. act_step. apply wp_dl_call; [done|done|].
  intros cf e Hcf. rewrite ext_after. apply wp_when; intros Hc.
  2: { split; [split; [apply starting_ext|by apply servers_built_ext]|].
       split; [apply kept_ext|]. intros (_ & Hn & _). specialize (Hn (env w)). rewrite Hcf in Hn.
       apply bool_decide_eq_false, dec_stable in Hc. by destruct Hn. }
  apply bool_decide_eq_true in Hc. act_step. apply wp_through; [done|done|].
  intros [h err] e2 Hh. rewrite ext_after, ext_ext. simpl.
  act_step. eapply wp_upd_server_conf; [exact Hx|].
  set (w1 := set_cfg _ _).
  assert (H1 : starting w w1 ∧ servers_built w1).
  { split; [etransitivity; [apply starting_ext|by apply starting_upd_conf]|].
    eapply servers_built_conf; [by apply servers_built_ext|exact Hl|]. simpl. intros Hne.
    apply built_app_r. by apply (built_empty cf h err []). }
  assert (Hne : healthy → h ≠ 0).
  { intros (_ & _ & _ & Hnw). specialize (Hnw cf (env (ext e [EvCall NewWafConfig cf] w))).
    by rewrite Hh in Hnw. }
  assert (Hext : ∀ x tr, (starting w (ext x tr w1) ∧ servers_built (ext x tr w1))
    ∧ kept w (ext x tr w1) ∧ (healthy → server_waf (ext x tr w1) c ≠ 0)).
  { intros e' tr. split; [split; [etransitivity; [apply H1|apply starting_ext]|]|split].
    - by apply servers_built_ext, H1.
    - exact (kept_conf c x h w Hne).
    - intros Hhe. unfold server_waf, w1. simpl. rewrite lookup_insert_eq. by apply Hne. }
  act_step. apply wp_dl_call; [done|done|]. intros r e3 _. rewrite ext_after.
  destruct err as [s|]; [|apply wp_ret; apply Hext].
  act_step. act_step. unfold coraza_free_string. act_step. apply wp_dl_call; [done|done|].
  intros r' e4 _. apply wp_ret. rewrite ext_after, ext_log, !ext_ext. apply Hext.
Qed.

(** The server's own handle. *)
Lemma server_waf_wp c x l w :
  dl_ready w → server_confs (cfg w) !! c = Some x → arrays (cfg w) !! s_rules x = Some l →
  servers_built w →
  wp (if bool_decide (l ≠ []) then
        waf ← coraza_build_waf (Some (s_rules x)); upd_server_conf c (set_s_waf (λ _, waf))
      else empty_waf c) (λ _ w', (starting w w' ∧ servers_built w')
    ∧ kept w w' ∧ (healthy → server_waf w' c ≠ 0)) w.
Proof.
  intros Hr Hx Hl Hsb. case_goal as E.
  - act_step. apply build_waf_wp with l; [done|done|]. intros h tr e Hb _ Hne.
    eapply wp_upd_server_conf; [exact Hx|]. split; [split|split].
    + etransitivity; [apply starting_ext|by apply starting_upd_conf].
    + eapply servers_built_conf; [by apply servers_built_ext|exact Hl|]. simpl. intros Hh.
      by apply built_app_r, Hb.
    + apply (kept_conf c x h w). auto.
    + intros Hhe. unfold server_waf. simpl. rewrite lookup_insert_eq. by apply Hne.
  - apply dec_stable in E as ->. by eapply empty_waf_wp.
Qed.

Lemma init_server_wp sv w :
  dl_ready w → servers_built w →
  (∀ c, sv_conf sv = Some c → ∃ x l, server_confs (cfg w) !! c = Some x
     ∧ arrays (cfg w) !! s_rules x = Some l) →
  (∀ b, sv_lookup_defaults sv = Some b → is_Some (dir_confs (cfg w) !! b)) →
  wp (init_server sv) (λ _ w', (starting w w' ∧ servers_built w') ∧ kept w w' ∧ armed w' sv) w.
Proof.
  intros Hr Hsb Hc Hb. unfold init_server, armed. destruct (sv_conf sv) as [c|]; [|by apply wp_ret].
  destruct (Hc c eq_refl) as (x & l & Hx & Hl). do 4 act_step.
  act_step. eapply wp_mono; [by apply server_waf_wp|]. intros _ w1 ([Hs1 Hb1] & Hk1 & Hn1).
  destruct (starting_conf _ _ _ _ Hs1 Hx) as [h Hxh].
  act_step. eapply wp_get_server_conf; [exact Hxh|]. simpl. case_goal as Hz.
  { act_step. rewrite ext_log. split; [split; [etransitivity; [done|apply starting_ext]|]|].
    - by apply servers_built_ext.
    - split; [exact Hk1|]. intros Hhe. specialize (Hn1 Hhe). unfold server_waf in Hn1.
      by rewrite Hxh in Hn1. }
  act_step. eapply (wp_mono _ (λ _ w2, (starting w w2 ∧ servers_built w2) ∧ kept w w2
    ∧ server_waf w2 c ≠ 0 ∧ ∀ b, sv_lookup_defaults sv = Some b → dir_waf w2 b ≠ 0)).
  { assert (server_waf w1 c ≠ 0) as Hw1 by (unfold server_waf; by rewrite Hxh).
    destruct (sv_lookup_defaults sv) as [b|]; [|by apply wp_ret].
    destruct (Hb b eq_refl) as [y Hy]. destruct (starting_dir _ _ _ _ Hs1 Hy) as [hb Hyb].
    act_step. eapply wp_get_dir; [exact Hyb|]. apply wp_when; intros Hy0.
    - eapply wp_upd_dir; [exact Hyb|]. split; [split; [|by apply servers_built_dir]|].
      { etransitivity; [exact Hs1|by apply starting_upd_dir]. }
      split; [etransitivity; [exact Hk1|by apply kept_dir]|]. split; [exact Hw1|].
      intros ? [= <-]. unfold dir_waf. simpl. by rewrite lookup_insert_eq.
    - split_and!; try done. intros ? [= <-]. unfold dir_waf. rewrite Hyb.
      by apply bool_decide_eq_false in Hy0. }
  intros _ w2 ([Hs2 Hb2] & Hk2 & Hw2 & Hd2). act_step.
  apply wp_dl_call; [intros f; rewrite (sg_dl _ _ Hs2); apply Hr|done|]. intros n e _.
  act_step. rewrite ext_after, ext_log, ext_ext.
  split; [split; [etransitivity; [done|apply starting_ext]|]|split; [exact Hk2|]].
  - by apply servers_built_ext.
  - intros _ ? [= <-]. by split.
Qed.

Lemma config_valid_starting w w' : starting w w' → config_valid w → config_valid w'.
Proof.
  intros Hs Hv. constructor; rewrite ?(sg_arrays _ _ Hs), ?(sg_servers _ _ Hs), ?(sg_tracked _ _ Hs).
  - intros c x Hx. assert ((no_s_waf <$> server_confs (cfg w')) !! c = Some (no_s_waf x)) as E
      by (by rewrite lookup_fmap, Hx).
    rewrite (sg_confs _ _ Hs), lookup_fmap in E.
    destruct (server_confs (cfg w) !! c) as [y|] eqn:Ey; [|done].
    assert (s_rules y = s_rules x) as <- by (destruct x, y; unfold no_s_waf, set_s_waf in E;
      simpl in *; congruence). by apply (cv_confs _ Hv c).
  - eapply Forall_impl; [|apply (cv_servers _ Hv)]. intros sv H c Hc.
    destruct (H c Hc) as [x Hx]. destruct (starting_conf _ _ _ _ Hs Hx); eauto.
  - intros sv b H1 H2. destruct (cv_defaults _ Hv sv b H1 H2) as [x Hx].
    destruct (starting_dir _ _ _ _ Hs Hx); eauto.
  - intros ds d H1 H2. destruct (cv_tracked _ Hv ds d H1 H2) as (x & l & Hx & Hl).
    destruct (starting_dir _ _ _ _ Hs Hx) as [h Hh]. by exists (set_waf (λ _, h) x), l.
Qed.

Lemma init_servers_wp svs : ∀ w,
  dl_ready w → servers_built w → config_valid w → svs ⊆ servers (cfg w) →
  wp (init_servers svs) (λ _ w', (starting w w' ∧ servers_built w') ∧ kept w w'
    ∧ Forall (armed w') svs) w.
Proof.
  induction svs as [|sv svs IH]; intros w Hr Hsb Hv Hin; simpl; [by apply wp_ret|].
  assert (Hsv : sv ∈ servers (cfg w)) by (apply Hin; left).
  act_step. eapply wp_mono.
  - apply init_server_wp; [done|done| |].
    + intros c Hc. pose proof (cv_servers _ Hv) as Hs. unfold servers_valid in Hs.
      rewrite list.Forall_forall in Hs. destruct (Hs sv Hsv c Hc) as [x Hx].
      destruct (cv_confs _ Hv c x Hx) as [l Hl]. eauto.
    + intros b. by apply (cv_defaults _ Hv).
  - intros _ w1 ([Hs1 Hb1] & Hk1 & Ha1). eapply wp_mono.
    + apply IH; [intros f; rewrite (sg_dl _ _ Hs1); apply Hr|done|by eapply config_valid_starting|].
      rewrite (sg_servers _ _ Hs1). intros s H. apply Hin. by right.
    + intros _ w2 ([Hs2 Hb2] & Hk2 & Ha2). split; [by split; [etransitivity|]|].
      split; [by etransitivity|]. constructor; [by eapply armed_kept|done].
Qed.

(** *** The tracked records *)

(** A record with rules has a handle that stands for them, if any handle, and
    has one when nothing fails. *)
Definition dir_built w (d : nat) : Prop :=
  ∀ x l, dir_confs (cfg w) !! d = Some x → arrays (cfg w) !! rules x = Some l → l ≠ [] →
    (waf x ≠ 0 → built (trace w) (waf x) l) ∧ (healthy → waf x ≠ 0).

Definition dir_ok w (d : nat) : Prop :=
  ∃ x l, dir_confs (cfg w) !! d = Some x ∧ arrays (cfg w) !! rules x = Some l
    ∧ has_rules x = bool_decide (l ≠ []).

Lemma dir_ok_starting w w' d : starting w w' → dir_ok w d → dir_ok w' d.
Proof.
  intros Hs (x & l & Hx & Hl). destruct (starting_dir _ _ _ _ Hs Hx) as [h Hh].
  exists (set_waf (λ _, h) x), l. by rewrite (sg_arrays _ _ Hs).
Qed.

Lemma dir_built_ext x tr w d : dir_built w d → dir_built (ext x tr w) d.
Proof.
  intros H y l Hy Hl Hne. destruct (H y l Hy Hl Hne) as [H1 H2]. split; [|done].
  intros Hw. by apply built_app, H1.
Qed.

(** The record [d] takes the handle [h]; the others keep theirs. *)
Lemma dir_built_assign d x l h w e :
  dir_confs (cfg w) !! d = Some x → arrays (cfg w) !! rules x = Some l →
  (h ≠ 0 → built (trace w) h l) → (healthy → l ≠ [] → h ≠ 0) → (e ≠ d → dir_built w e) →
  dir_built (set_cfg (set_dir_confs (λ m, <[d := set_waf (λ _, h) x]> m)) w) e.
Proof.
  intros Hx Hl Hb Hh He y l' Hy Hl' Hne. simpl in *. destruct (decide (e = d)) as [->|Hed].
  - rewrite lookup_insert_eq in Hy. injection Hy as <-. simpl in *.
    rewrite Hl in Hl'. injection Hl' as <-. auto.
  - rewrite lookup_insert_ne in Hy by done. by apply (He Hed).
Qed.

Lemma built_earlier_wp a earlier w :
  Forall (dir_ok w) earlier →
  wp (built_earlier a earlier) (λ h w', w' = w ∧ (h = 0 ∨ ∃ e x, e ∈ earlier
     ∧ dir_confs (cfg w) !! e = Some x ∧ rules x = a ∧ waf x = h ∧ h ≠ 0)) w.
Proof.
  induction 1 as [|e earlier (x & l & Hx & _) _ IH]; simpl; [apply wp_ret; auto|].
  do 2 act_step. case_goal as E1; [case_goal as E2|]; simpl.
  { apply wp_ret. split; [done|]. right. exists e, x. by split_and!; [left|..]. }
  all: eapply wp_mono; [exact IH|]; intros h w' [-> [->|(e' & x' & He & H)]]; [by auto|].
  all: split; [done|]; right; exists e', x'; by split; [right|].
Qed.

Lemma init_dir_wp earlier d w :
  dl_ready w → Forall (dir_ok w) earlier → dir_ok w d → (∀ e, e ∈ earlier → dir_built w e) →
  wp (init_dir earlier d) (λ _ w', starting w w' ∧ kept w w' ∧ server_confs (cfg w') = server_confs (cfg w)
     ∧ ∀ e, e ∈ earlier ∨ e = d → dir_built w' e) w.
Proof.
  intros Hr He (x & l & Hx & Hl & Hf) Hb. unfold init_dir. do 4 act_step.
  rewrite Hf. destruct (decide (l = [])) as [->|Hne].
  { apply wp_ret. split_and!; [done..|]. intros e [?| ->]; [by apply Hb|]. intros y l' Hy Hl' Hne.
    rewrite Hx in Hy. injection Hy as <-. by rewrite Hl in Hl'; simplify_eq. }
  rewrite bool_decide_eq_true_2, bool_decide_eq_false_2 by done. simpl.
  assert (Hassign : ∀ w1 h, starting w w1 → (∀ e, e ∈ earlier → dir_built w1 e) →
    dir_confs (cfg w1) !! d = Some x → (h ≠ 0 → built (trace w1) h l) → (healthy → h ≠ 0) →
    let w2 := set_cfg (set_dir_confs (λ m, <[d := set_waf (λ _, h) x]> m)) w1 in
    starting w w2 ∧ ∀ e, e ∈ earlier ∨ e = d → dir_built w2 e).
  { intros w1 h Hs Hb1 Hx1 Hh1 Hh2 w2. split; [etransitivity; [done|by apply starting_upd_dir]|].
    intros e Hin. apply dir_built_assign with l; try done.
    - by rewrite (sg_arrays _ _ Hs).
    - by intros ? _; apply Hh2.
    - intros Hed. apply Hb1. by destruct Hin. }
  act_step. eapply wp_mono; [by apply built_earlier_wp|].
  intros h w' [-> Hshared]. case_goal as Hh.
  - destruct Hshared as [|(e & y & Hin & Hy & Hra & Hw & _)]; [done|].
    destruct (Hb e Hin y l Hy) as [H1 H2]; [by rewrite Hra|done|]. rewrite Hw in H1, H2.
    act_step. destruct (Hassign w h) as [? ?]; try done.
    split_and!; [done|by apply kept_dir|done|done].
  - act_step. apply build_waf_wp with l; [done|done|]. intros h' tr e Hbt _ Hhe.
    act_step. eapply wp_upd_dir; [exact Hx|].
    destruct (Hassign (ext e tr w) h') as [Hs2 Hb2]; [apply starting_ext| |done| | |].
    { intros ? ?. by apply dir_built_ext, Hb. }
    { intros H. by apply built_app_r, Hbt. }
    { auto. }
    assert (Hfin : ∀ x' tr', starting w (ext x' tr' (set_cfg (set_dir_confs
        (λ m, <[d := set_waf (λ _, h') x]> m)) (ext e tr w)))
        ∧ kept w (set_cfg (set_dir_confs (λ m, <[d := set_waf (λ _, h') x]> m)) w)
        ∧ server_confs (cfg w) = server_confs (cfg w) ∧ ∀ e0, e0 ∈ earlier ∨ e0 = d → dir_built (ext x' tr' (set_cfg (set_dir_confs
        (λ m, <[d := set_waf (λ _, h') x]> m)) (ext e tr w))) e0).
    { intros x' tr'. split_and!; [etransitivity; [exact Hs2|apply starting_ext]|apply kept_dir; auto|done|].
      intros e0 Hin. by apply dir_built_ext, Hb2. }
    case_goal as Hz; [act_step; rewrite ext_log; apply Hfin|].
    act_step. apply wp_dl_call; [done|done|]. intros n x3 _. act_step.
    rewrite ext_after, ext_log, (ext_ext x3). apply Hfin.
Qed.

Lemma init_dirs_wp dirs : ∀ earlier w,
  dl_ready w → Forall (dir_ok w) earlier → Forall (dir_ok w) dirs →
  (∀ e, e ∈ earlier → dir_built w e) →
  wp (init_dirs earlier dirs) (λ _ w', starting w w' ∧ kept w w'
    ∧ server_confs (cfg w') = server_confs (cfg w) ∧ ∀ e, e ∈ earlier ∨ e ∈ dirs → dir_built w' e) w.
Proof.
  induction dirs as [|d dirs IH]; intros earlier w Hr He Hd Hb; simpl.
  { apply wp_ret. split_and!; [done..|]. intros e [?|H]; [by apply Hb|]. by apply not_elem_of_nil in H. }
  apply Forall_cons_1 in Hd as [Hd Hds]. act_step. eapply wp_mono; [by apply init_dir_wp|].
  intros _ w1 (Hs1 & Hk1 & Hc1 & Hb1).
  assert (Hok : ∀ ds, Forall (dir_ok w) ds → Forall (dir_ok w1) ds).
  { intros ds H. eapply Forall_impl; [|exact H]. intros ?. by apply dir_ok_starting. }
  eapply wp_mono.
  - apply IH; [intros f; rewrite (sg_dl _ _ Hs1); apply Hr| |by apply Hok|].
    + apply Forall_app. split; [by apply Hok|]. constructor; [|constructor]. by eapply dir_ok_starting.
    + intros e [?|H]%elem_of_app; apply Hb1; [by left|]. right. by apply list_elem_of_singleton.
  - intros _ w2 (Hs2 & Hk2 & Hc2 & Hb2). split_and!; [by etransitivity|by etransitivity|by rewrite Hc2|].
    intros e H. apply Hb2.
    rewrite elem_of_app, list_elem_of_singleton. rewrite elem_of_cons in H. tauto.
Qed.

(** *** Loading touches neither the configuration nor the cache *)
Definition dl_only w w' : Prop :=
  cfg w' = cfg w ∧ wafs w' = wafs w ∧ ∃ tr, trace w' = trace w ++ tr.

#[export] Instance dl_only_preorder : PreOrder dl_only.
Proof.
  split; [intros w; split_and!; try done; exists []; by rewrite app_nil_r|].
  intros w1 w2 w3 (E1 & E2 & t1 & E3) (E4 & E5 & t2 & E6).
  split_and!; try congruence. exists (t1 ++ t2). by rewrite E6, E3, app_assoc.
Qed.

Lemma dl_sym_frame p g w : wp (DL_SYM p g) (λ _ w', dl_only w w') w.
Proof.
  unfold DL_SYM, dynlib_sym, dynlib_close, set_handle. do 4 act_step.
  destruct (if lib_exports g (env w) then Some g else None).
  - apply wp_ret. split_and!; try done. exists []. by rewrite app_nil_r.
  - repeat act_step. split_and!; try done. by eexists [_].
Qed.

Lemma dl_sym_all_frame l : ∀ w, wp (dl_sym_all l) (λ _ w', dl_only w w') w.
Proof.
  induction l as [|[p g] l IH]; intros w; cbn [dl_sym_all]; [by apply wp_ret|].
  act_step. eapply wp_mono; [apply dl_sym_frame|]. intros [rc|] w1 H1; [by apply wp_ret|].
  eapply wp_mono; [apply IH|]. intros r w2 H2. by etransitivity.
Qed.

Lemma dl_open_frame w : wp coraza_dl_open (λ _ w', dl_only w w') w.
Proof.
  assert (Hstep : ∀ w0 w1 w2 : world X, dl_only w0 w1 → dl_only w1 w2 → dl_only w0 w2)
    by (intros ????; by etransitivity).
  unfold coraza_dl_open, dynlib_open, set_handle. do 2 act_step.
  destruct (dl_handle (dl w)); [by apply wp_ret|]. do 4 act_step.
  set (w1 := set_dl _ _). assert (H1 : dl_only w w1).
  { split_and!; try done. exists []. by rewrite app_nil_r. }
  destruct a; cbn [negb].
  2: { do 2 act_step. apply wp_ret. split_and!; try done. by eexists [_]. }
  act_step. eapply wp_mono; [apply dl_sym_all_frame|]. intros [rc|] w2 H2; [by eapply Hstep|].
  act_step. unfold loaded_version. do 2 act_step.
  eapply (wp_mono _ (λ _ w3, dl_only w2 w3)).
  { destruct (lib_exports_version_num (env w2)); [|by apply wp_ret]. act_step.
    split_and!; try done. exists []. by rewrite app_nil_r. }
  intros v w3 H3. assert (H03 : dl_only w w3) by (eapply Hstep; [exact H1|]; by eapply Hstep).
  assert (Hlog : ∀ w4 e, dl_only w w4 → dl_only w (set_trace (λ t, t ++ [e]) w4)).
  { intros w4 e Hw4. eapply Hstep; [exact Hw4|]. split_and!; try done. by eexists [_]. }
  case_goal as Hv; [do 2 act_step; apply wp_ret; by apply Hlog|].
  act_step. eapply wp_mono; [apply dl_sym_frame|]. intros [rc|] w4 H4; [by eapply Hstep|].
  do 2 act_step. apply wp_ret. apply Hlog. by eapply Hstep.
Qed.
End child_init.

(** ** Properties *)

(** C23: the end of a child releases each WAF handle it knows of exactly once:
    the handles freed are, without repetition, the non-zero ones held by the
    configuration-time records and the servers -- however many records share
    one --, every one of those fields is zero afterwards, and libcoraza stays
    loaded.  Handles held only by the cache are not among them. *)
Theorem child_exit_frees_once {X} `{!Dynlib X, !Libcoraza X, !Libc X} dirs (w : world X) :
  dl_ready w → g_config_dir_confs (cfg w) = Some dirs → dirs_valid w dirs →
  servers_valid w (servers (cfg w)) → handles_apart w →
  ∃ w' tr hs, coraza_child_exit w = Some (APR_SUCCESS, w')
    ∧ trace w' = trace w ++ tr ∧ calls tr = FreeWaf <$> hs ∧ NoDup hs
    ∧ (∀ h, h ∈ hs ↔ h ≠ 0 ∧ (h ∈ dir_wafs w dirs ∨ h ∈ server_wafs w (servers (cfg w))))
    ∧ (∀ d x, d ∈ dirs → dir_confs (cfg w') !! d = Some x → waf x = 0)
    ∧ Forall (λ h, h = 0) (server_wafs w' (servers (cfg w)))
    ∧ dl w' = dl w.
Proof.
  intros Hr Hg Hd Hs Ha.
  assert (wp coraza_child_exit (λ rv w', rv = APR_SUCCESS ∧ ∃ tr hs,
    trace w' = trace w ++ tr ∧ calls tr = FreeWaf <$> hs ∧ NoDup hs
    ∧ (∀ h, h ∈ hs ↔ h ≠ 0 ∧ (h ∈ dir_wafs w dirs ∨ h ∈ server_wafs w (servers (cfg w))))
    ∧ (∀ d x, d ∈ dirs → dir_confs (cfg w') !! d = Some x → waf x = 0)
    ∧ Forall (λ h, h = 0) (server_wafs w' (servers (cfg w)))
    ∧ dl w' = dl w) w) as H.
  2: { apply wp_det in H as (rv & w' & E & -> & tr & hs & H). by exists w', tr, hs. }
  unfold coraza_child_exit. do 5 act_step. rewrite Hg. act_step.
  eapply wp_mono; [apply exit_dirs_wp; [done|done|by constructor|done]|].
  intros _ w1 (x1 & tr1 & -> & Htr1).
  eapply wp_mono; [by apply zero_dirs_wp|]. intros _ w2 (Ht2 & Hd2 & Hs2 & Hz2).
  assert (Hws : server_wafs w2 (servers (cfg w)) = server_wafs w (servers (cfg w))).
  { unfold server_wafs. by rewrite Hs2. }
  act_step. eapply wp_mono; [apply exit_servers_wp|].
  { intros f. rewrite Hd2. apply Hr. }
  { unfold servers_valid. rewrite Hs2. exact Hs. }
  { unfold handles_apart. rewrite Hs2. exact Ha. }
  intros _ w3 (tr3 & hs3 & Ht3 & Hd3 & Hdc3 & Hcs3 & Hnd3 & Hin3 & Hall3 & _).
  rewrite Hws in Hin3. act_step.
  eapply (wp_mono _ (λ _ w', ∃ tr, calls tr = [] ∧ w' = ext (env w3) tr w3)).
  { unfold coraza_dl_close. do 2 act_step. apply wp_when; intros _.
    - act_step. eexists [_]. rewrite ext_log. split; [|reflexivity]. done.
    - exists []. split; [done|]. symmetry. destruct w3. apply set_trace_nil. }
  intros _ w4 (tr4 & Hc4 & ->). apply wp_ret. split; [done|].
  exists (tr1 ++ tr3 ++ tr4), (to_free (server_wafs w (servers (cfg w))) [] (dir_wafs w dirs) ++ hs3).
  simpl. split_and!.
  - rewrite Ht3, Ht2. simpl. by rewrite <- !app_assoc.
  - by rewrite !calls_app, Htr1, Hcs3, Hc4, fmap_app, app_nil_r.
  - apply list.NoDup_app. split_and!; [apply NoDup_to_free| |done].
    intros h (_ & _ & Hno & _)%elem_of_to_free [? _]%Hin3. done.
  - intros h. rewrite elem_of_app, elem_of_to_free, Hin3.
    destruct (decide (h ∈ server_wafs w (servers (cfg w)))); [tauto|].
    split; [tauto|]. intros [? [?|?]]; [|done]. left. split_and!; try done. apply not_elem_of_nil.
  - intros d x Hin. rewrite Hdc3. intros Hx. by apply (Hz2 d x Hx).
  - exact Hall3.
  - by rewrite Hd3, Hd2.
Qed.

(** C20: a child that loaded libcoraza is armed as configured: the mutex and
    the cache exist; every server's handle and the handle of every tracked
    record with rules is 0 or was built, according to the log, from exactly the
    rules of that server or record, in order; when nothing fails none of them is
    0 -- every server has a WAF, an empty one if it has no rules, and so has its
    server-level section -- and the tracked records are frozen for the end of the child, so that no
    request-time merge is added to them. *)
Theorem child_init_builds_policies {X} `{!Dynlib X, !Libcoraza X, !Libc X} (w w0 : world X) :
  coraza_dl_open w = Some (OK, w0) → dl_ready w0 → config_valid w → servers_built w →
  (∀ x, (apr_thread_mutex_create x).1 = true) →
  ∃ w', coraza_child_init w = Some (tt, w')
    ∧ g_waf_build_mutex (wafs w') = Some false ∧ g_waf_cache_pool (wafs w') = true
    ∧ g_waf_cache (wafs w') = g_waf_cache (wafs w)
    ∧ servers_built w' ∧ Forall (armed w') (servers (cfg w))
    ∧ (∀ ds d, g_tracked_dir_confs (cfg w) = Some ds → d ∈ ds → dir_built w' d)
    ∧ g_config_dir_confs (cfg w') = g_tracked_dir_confs (cfg w)
    ∧ g_tracked_dir_confs (cfg w') = None.
Proof.
  intros Hop Hr Hv Hsb Hmx.
  assert (wp coraza_child_init (λ (_ : unit) w',
    g_waf_build_mutex (wafs w') = Some false ∧ g_waf_cache_pool (wafs w') = true
    ∧ g_waf_cache (wafs w') = g_waf_cache (wafs w)
    ∧ servers_built w' ∧ Forall (armed w') (servers (cfg w))
    ∧ (∀ ds d, g_tracked_dir_confs (cfg w) = Some ds → d ∈ ds → dir_built w' d)
    ∧ g_config_dir_confs (cfg w') = g_tracked_dir_confs (cfg w)
    ∧ g_tracked_dir_confs (cfg w') = None) w) as H.
  2: { apply wp_det in H as ([] & w' & E & H). by exists w'. }
  unfold coraza_child_init. act_step. pose proof (dl_open_frame w) as Hfr.
  unfold wp at 1. rewrite Hop. apply (wp_run _ _ _ _ _ Hfr) in Hop as (Ec & Ew & tr & Et).
  clear Hfr. rewrite bool_decide_eq_false_2 by (intros []; done). do 2 act_step.
  specialize (Hmx (env w0)). rewrite H in Hmx. simpl in Hmx. subst a. cbn [when].
  do 5 act_step. act_step. cbn [wafs cfg set_wafs set_env].
  set (w1 := set_wafs _ (set_wafs _ _)).
  assert (Hv1 : config_valid w1).
  { destruct Hv. constructor; unfold servers_valid; simpl; rewrite Ec; eauto. }
  assert (Hsb1 : servers_built w1).
  { intros c y l. simpl. rewrite Ec, Et. intros H1 H2 H3. by apply built_app, (Hsb c). }
  act_step. eapply wp_mono; [by apply (init_servers_wp (servers (cfg w0)) w1)|].
  intros _ w2 ([Hs2 Hb2] & _ & Ha2). do 2 act_step. act_step.
  assert (Hv2 := config_valid_starting _ _ Hs2 Hv1).
  eapply (wp_mono _ (λ _ w3, starting w2 w3 ∧ kept w2 w3 ∧ servers_built w3
    ∧ ∀ ds d, g_tracked_dir_confs (cfg w) = Some ds → d ∈ ds → dir_built w3 d)).
  - rewrite (sg_tracked _ _ Hs2). simpl. rewrite Ec.
    destruct (g_tracked_dir_confs (cfg w)) as [ds|] eqn:Eds; [|by apply wp_ret].
    assert (Hok : Forall (dir_ok w2) ds).
    { apply list.Forall_forall. intros d Hd. apply (cv_tracked _ Hv2 ds); [|done].
      rewrite (sg_tracked _ _ Hs2). simpl. by rewrite Ec. }
    assert (Hr2 : dl_ready w2) by (intros f; rewrite (sg_dl _ _ Hs2); apply Hr).
    eapply wp_mono; [apply (init_dirs_wp ds [] w2)|]; try done.
    { by intros e He%not_elem_of_nil. }
    intros _ w3 (Hs3 & Hk3 & Hc3 & Hb3). split; [done|]. split; [done|].
    split; [|intros ? d [= <-] Hd; apply Hb3; by right].
    intros c y l. rewrite Hc3, (sg_arrays _ _ Hs3). destruct (sg_trace _ _ Hs3) as [t3 ->].
    intros H1 H2 H3. by apply built_app, (Hb2 c).
  - intros _ w3 (Hs3 & Hk3 & Hb3 & Hd3). repeat act_step. rewrite !ext_log, !ext_ext.
    split_and!; try (simpl; rewrite ?(sg_wafs _ _ Hs3), ?(sg_wafs _ _ Hs2); simpl; congruence).
    + intros c y l H1 H2 H3. by apply built_app, (Hb3 c).
    + rewrite <- Ec. eapply list.Forall_impl; [exact Ha2|]. intros sv. by apply armed_kept.
    + intros ds d H1 H2. apply dir_built_ext. by apply (Hd3 ds d).
    + simpl. rewrite (sg_tracked _ _ Hs3), (sg_tracked _ _ Hs2). simpl. by rewrite Ec.
Qed.

(** Two virtual hosts on one server record with rule A, a tracked record with
    the same rules, before anything is built. *)
Definition before_fork : world script :=
  set_wafs (λ _, WafState [] false false None)
  (set_cfg (λ _, Config {[ 0%nat := [inline "A"] ]}
      {[ 0%nat := DirConf 1 true 0 None (-1) 0 None; 1%nat := DirConf 1 true 0 None (-1) 0 None ]}
      {[ 0%nat := ServerConf 0 [] 0 1 0 ]}
      [Server (Some 0%nat) (Some 0%nat) None; Server (Some 0%nat) (Some 1%nat) None]
      (Some [1%nat]) None)
    (sim_world (Script [] [] [] 1 0) {[ 0%nat := set_r_dir_conf (λ _, Some 0%nat) (sim_request None None) ]} ∅)).

Definition loaded : world script :=
  set_cfg (set_g_config_dir_confs (λ _, Some [0%nat]))
    (sim_world (Script [] [] [] 1 0) ∅ ∅).

Lemma child_exit_frees_once_witness :
  ∃ w' tr, coraza_child_exit loaded = Some (APR_SUCCESS, w') ∧ calls tr = [FreeWaf 100].
Proof.
  destruct (child_exit_frees_once [0%nat] loaded (λ f, eq_refl) eq_refl)
    as (w' & tr & hs & E & Ht & Hc & Hnd & Hin & _).
  - constructor; [eexists; reflexivity|constructor].
  - constructor; [|constructor]. intros c [= <-]. eexists. reflexivity.
  - intros c1 c2 x1 x2 H1 H2 _ _.
    change (({[ 0%nat := ServerConf 0 [] 100 1 0 ]} : gmap nat coraza_server_conf_t) !! c1 = Some x1) in H1.
    change (({[ 0%nat := ServerConf 0 [] 100 1 0 ]} : gmap nat coraza_server_conf_t) !! c2 = Some x2) in H2.
    apply lookup_singleton_Some in H1 as [<- _].
    by apply lookup_singleton_Some in H2 as [<- _].
  - exists w', tr. split; [exact E|].
    assert (trace w' = [EvCall (FreeWaf 100) 0; EvLog APLOG_DEBUG "coraza: left loaded for process lifetime"])
      as Htr by (vm_compute in E; injection E as <-; reflexivity).
    rewrite Ht in Htr. change (trace loaded) with (@nil event) in Htr. rewrite app_nil_l in Htr.
    by rewrite Htr.
Defined.

Lemma child_init_builds_policies_witness :
  ∃ w', @coraza_child_init script _ obliging _ before_fork = Some (tt, w')
    ∧ @dir_built script obliging _ w' 1 ∧ server_waf w' 0 ≠ 0.
Proof.
  destruct (@child_init_builds_policies script _ obliging _ before_fork before_fork)
    as (w' & E & _ & _ & _ & _ & Ha & H & _).
  - reflexivity.
  - intros f. reflexivity.
  - constructor.
    + intros c x H.
      change (({[ 0%nat := ServerConf 0 [] 0 1 0 ]} : gmap nat coraza_server_conf_t) !! c = Some x) in H.
      apply lookup_singleton_Some in H as [<- <-]. eexists. reflexivity.
    + repeat constructor; intros c [= <-]; eexists; reflexivity.
    + intros sv b Hsv Hb. assert (b = 0%nat ∨ b = 1%nat) as [-> | ->]; [|eexists; reflexivity..].
      change (sv ∈ [Server (Some 0%nat) (Some 0%nat) None; Server (Some 0%nat) (Some 1%nat) None]) in Hsv.
      rewrite !elem_of_cons in Hsv. destruct Hsv as [->|[->|H]]; [left|right|by apply not_elem_of_nil in H];
        by injection Hb.
    + intros ds d [= <-] Hd. apply list_elem_of_singleton in Hd as ->.
      eexists _, [inline "A"]. split_and!; reflexivity.
  - intros c x l H _ Hw.
    change (({[ 0%nat := ServerConf 0 [] 0 1 0 ]} : gmap nat coraza_server_conf_t) !! c = Some x) in H.
    apply lookup_singleton_Some in H as [<- <-]. by destruct Hw.
  - reflexivity.
  - exists w'. split; [exact E|]. split.
    + apply (H [1%nat] 1%nat); [reflexivity|apply list_elem_of_singleton; reflexivity].
    + apply list.Forall_cons_1 in Ha as [Ha _]. apply (Ha obliging_healthy 0%nat). reflexivity.
Defined.

(** A loader that finds no library, and a child that has not loaded it. *)
Definition no_library : Dynlib script := {|
  lib_open x := (false, x); lib_close x := (0, x);
  lib_exports f x := true; lib_exports_version_num x := true |}.
Definition unloaded : world script := set_dl (λ _, DlState false (λ _, None)) before_fork.

(** Without a mutex the lazy build of a record with rules is undefined. *)
Section no_mutex.
Context {X : Type} `{!Dynlib X, !Libcoraza X, !Libc X}.

Lemma lazy_waf_no_mutex d dcf l (w : world X) :
  g_waf_build_mutex (wafs w) = None → dir_confs (cfg w) !! d = Some dcf →
  arrays (cfg w) !! rules dcf = Some l → has_rules dcf = true → l ≠ [] → waf dcf = 0 →
  lazy_waf d w = None.
Proof.
  intros Hmu Hd Hl Hf Hne Hz. unfold lazy_waf, lock, get_dir, get_array, deref, gets, when, mbind, M_bind.
  rewrite Hd, Hz, Hf. simpl. rewrite Hl, bool_decide_eq_true_2 by done. by rewrite Hmu.
Qed.

Lemma create_ctx_no_mutex r q d dcf l (w : world X) :
  g_waf_build_mutex (wafs w) = None → reqs w !! r = Some q → r_dir_conf q = Some d →
  dir_confs (cfg w) !! d = Some dcf → arrays (cfg w) !! rules dcf = Some l →
  has_rules dcf = true → l ≠ [] → waf dcf = 0 → coraza_create_ctx r w = None.
Proof.
  intros Hmu Hq Hs Hd Hl Hf Hne Hz.
  unfold coraza_create_ctx, new_ctx, get_req, deref, gets, modify, mbind, M_bind, mret, M_ret.
  set (v := set_ctxs _ w). change (reqs v) with (reqs w). rewrite Hq.
  destruct (servers (cfg v) !! r_server q); [|done]. rewrite Hs.
  by rewrite (lazy_waf_no_mutex d dcf l v).
Qed.
End no_mutex.

(** C38: a failed load does not stop the child, and leaves its requests without
    the guard.  Whenever libcoraza cannot be opened, [coraza_child_init] returns
    after one message, with the configuration and the mutex as they were; and
    since the mutex was never created, every request for a section with rules
    whose WAF is not built -- none is -- runs into the lock of a mutex that does
    not exist: undefined behaviour, not a refusal. *)
Theorem load_failure_leaves_requests_unguarded {X} `{!Dynlib X, !Libcoraza X, !Libc X} (w w0 : world X) rc :
  coraza_dl_open w = Some (rc, w0) → rc ≠ OK → g_waf_build_mutex (wafs w) = None →
  ∃ w', coraza_child_init w = Some (tt, w') ∧ cfg w' = cfg w
    ∧ g_waf_build_mutex (wafs w') = None
    ∧ (∃ msg, trace w' = trace w0 ++ [EvLog APLOG_EMERG msg])
    ∧ ∀ r q d dcf l, reqs w' !! r = Some q → r_dir_conf q = Some d →
        dir_confs (cfg w) !! d = Some dcf → arrays (cfg w) !! rules dcf = Some l →
        has_rules dcf = true → l ≠ [] → waf dcf = 0 → coraza_create_ctx r w' = None.
Proof.
  intros Hop Hrc Hmu. pose proof (wp_run _ _ _ _ _ (dl_open_frame w) Hop) as (Ec & Ew & _).
  unfold coraza_child_init, mbind, M_bind. rewrite Hop, bool_decide_eq_true_2 by done.
  eexists. split; [reflexivity|]. split; [exact Ec|]. split; [simpl; by rewrite Ew|].
  split; [by eexists|]. intros r q d dcf l Hq Hs Hd Hl Hf Hne Hz. simpl in Hq.
  eapply create_ctx_no_mutex; simpl; rewrite ?Ew, ?Ec; eauto.
Qed.

Lemma load_failure_leaves_requests_unguarded_witness :
  ∃ w', @coraza_child_init script no_library _ _ unloaded = Some (tt, w')
        ∧ @coraza_create_ctx script _ _ 0 w' = None.
Proof.
  destruct (@load_failure_leaves_requests_unguarded script no_library _ _ unloaded
    (set_trace (λ _, trace (default unloaded (snd <$> @coraza_dl_open script no_library _ unloaded)))
       unloaded) HTTP_INTERNAL_SERVER_ERROR) as (w' & E & _ & _ & _ & H).
  - vm_compute. reflexivity.
  - discriminate.
  - reflexivity.
  - exists w'. split; [exact E|]. vm_compute in E. injection E as <-.
    apply (H 0%nat (set_r_dir_conf (λ _, Some 0%nat) (sim_request None None)) 0%nat
      (DirConf 1 true 0 None (-1) 0 None) [inline "A"]); (reflexivity || discriminate).
Defined.

(** The WAFs created and freed in a log. *)
Definition created (tr : list event) : list Z :=
  omap (λ e, match e with EvNewWaf _ h _ => Some h | _ => None end) tr.
Definition freed (tr : list event) : list Z :=
  omap (λ k, match k with FreeWaf h => Some h | _ => None end) (calls tr).

(** When two servers share one server record (what httpd does for a
    virtual host without directives of the module, the module having no server
    merge), the child builds that record's WAF twice and loses the first: of
    three WAFs created, the first, which the main server's default record still
    points to, is never freed. *)
Example shared_server_record_leaks :
  (λ p : apr_status * world script, (created (trace p.2), freed (trace p.2),
       waf <$> dir_confs (cfg p.2) !! 0%nat))
    <$> (coraza_child_init ;; coraza_child_exit) before_fork
  = Some ([101; 102; 103], [103; 102], Some 101).
Proof. vm_compute. reflexivity. Qed.
