(* ===== verification/Headers.v ===== *)
(** * Handing headers to libcoraza

    The header loops that src/mod_coraza_phase1.c (request) and
    src/mod_coraza_filter_out.c (response) both contain: collecting an
    [apr_table_t] into pairs, the bulk submission, and the per-header loop.
    They are parameterised by the libcoraza call each caller makes. *)
From S2P Require Import Prelude Pack Types World.
Local Open Scope Z_scope.

(** [apr_palloc]: the uninitialised block it returns. *)
Class Pool := { apr_palloc : Z → bytes }.

(** One pair; a NULL value is sent as the empty string. *)
Definition c_pair (name : string) (value : option string) : coraza_header_pair_t :=
  HeaderPair (bytes_of name) (strlen name)
    match value with Some v => bytes_of v | None => [] end
    match value with Some v => strlen v | None => 0 end.

(** The collecting loop; an entry without a key is skipped. *)
Fixpoint table_pairs (t : table) : list coraza_header_pair_t :=
  match t with
  | [] => []
  | (None, _) :: t => table_pairs t
  | (Some key, val) :: t => c_pair key val :: table_pairs t
  end.

Section headers.
Context {X : Type} `{!Pool}.
Abbreviation W := (world X).

(** The fast path: [bulk_done]. *)
Definition bulk_submit (send : bytes → Z → Z → M W Z) (failed : string)
    (pairs : list coraza_header_pair_t) : M W bool :=
  let count := Z.of_nat (length pairs) in
  if bool_decide (count = 0) then mret true
  else
    match coraza_pack_headers apr_palloc pairs with
    | None => undefined
    | Some None => mret false
    | Some (Some (packed, packed_len)) =>
        rc ← send packed packed_len count;
        if negb (CORAZA_CALL_FAILED rc) then mret true
        else ap_log APLOG_ERR failed ;; mret false
    end.

(** The slow path: [false] when a header is too long or is rejected. *)
Fixpoint send_each (send : bytes → Z → bytes → Z → M W Z) (too_long rejected : string)
    (pairs : list coraza_header_pair_t) : M W bool :=
  match pairs with
  | [] => mret true
  | p :: pairs =>
      if bool_decide (name_len p > INT_MAX) || bool_decide (value_len p > INT_MAX) then
        ap_log APLOG_ERR too_long ;; mret false
      else
        rc ← send (hp_name p) (name_len p) (hp_value p) (value_len p);
        if CORAZA_CALL_FAILED rc then ap_log APLOG_ERR rejected ;; mret false
        else send_each send too_long rejected pairs
  end.
End headers.
