(* ===== verification/HeadersFacts.v ===== *)
(** * Handing headers to libcoraza: proofs

    Whatever path is taken, either libcoraza accepted every header, or the
    submission reports failure. *)
From S2P Require Import Prelude Pack Types World DynLib DynLibFacts InterventionFacts Headers.
Local Open Scope Z_scope.

(** A table of C strings. *)
Definition table_ok (t : table) : Prop :=
  Forall (λ e, (∀ k, e.1 = Some k → strlen k < 2 ^ 63) ∧ (∀ v, e.2 = Some v → strlen v < 2 ^ 63)) t.

Lemma c_pair_wf k v :
  strlen k < 2 ^ 63 → (∀ s, v = Some s → strlen s < 2 ^ 63) → pair_wf (c_pair k v).
Proof.
  intros Hk Hv. unfold pair_wf, c_pair. simpl. rewrite length_bytes_of.
  split_and!; [done|by destruct v; [rewrite length_bytes_of|]|done|].
  destruct v as [s|]; [by apply Hv|done].
Qed.

Lemma table_pairs_wf t : table_ok t → Forall pair_wf (table_pairs t).
Proof.
  induction 1 as [|[[k|] v] t [Hk Hv] _ IH]; simpl in *; [done| |done].
  constructor; [|done]. apply c_pair_wf; auto.
Qed.

(** Every entry with a key is sent, and nothing else. *)
Lemma table_pairs_names t :
  (λ p, (hp_name p, hp_value p)) <$> table_pairs t
  = omap (λ e, k ← e.1; Some (bytes_of k, match e.2 with Some v => bytes_of v | None => [] end)) t.
Proof. induction t as [|[[k|] v] t IH]; simpl; [done|f_equal; exact IH|exact IH]. Qed.

(** A call to libcoraza or a message. *)
Definition submission_event (e : event) : Prop :=
  match e with EvCall _ _ | EvLog _ _ => True | _ => False end.

Section headers_facts.
Context {X : Type} `{!Libcoraza X, Pool0 : !Pool}.
Implicit Types w : world X.
Hypothesis palloc_size : ∀ n, 0 ≤ n → Z.of_nat (length (apr_palloc n)) = n.

(** The two calls of a caller: bulk and per header. *)
Variables (bulk : bytes → Z → Z → call) (single : coraza_header_pair_t → call).

Definition bulk_call (pairs : list coraza_header_pair_t) : call :=
  bulk (encode_all pairs) (total_size pairs) (Z.of_nat (length pairs)).

(** libcoraza accepted all of [pairs]. *)
Inductive headers_given (pairs : list coraza_header_pair_t) : list event → Prop :=
| given_none : pairs = [] → headers_given pairs []
| given_bulk : packable pairs → headers_given pairs [EvCall (bulk_call pairs) 0]
| given_each first :
    (¬ packable pairs ∧ first = [] ∨
     ∃ rc msg, rc ≠ 0 ∧ packable pairs ∧ first = [EvCall (bulk_call pairs) rc; EvLog APLOG_ERR msg]) →
    headers_given pairs (first ++ ((λ p, EvCall (single p) 0) <$> pairs)).

(** The per-header loop stopped: the headers before some header were accepted,
    that one was too long to be handed over or was rejected. *)
Inductive each_refused : list coraza_header_pair_t → list event → Prop :=
| er_too_long p post msg :
    INT_MAX < name_len p ∨ INT_MAX < value_len p →
    each_refused (p :: post) [EvLog APLOG_ERR msg]
| er_rejected p post rc msg : rc ≠ 0 →
    each_refused (p :: post) [EvCall (single p) rc; EvLog APLOG_ERR msg]
| er_later p post tr : each_refused post tr → each_refused (p :: post) (EvCall (single p) 0 :: tr).

(** libcoraza was not given all of [pairs]. *)
Inductive headers_refused (pairs : list coraza_header_pair_t) : list event → Prop :=
| refused_each first tr :
    (¬ packable pairs ∧ first = [] ∨
     ∃ rc msg, rc ≠ 0 ∧ packable pairs ∧ first = [EvCall (bulk_call pairs) rc; EvLog APLOG_ERR msg]) →
    each_refused pairs tr → headers_refused pairs (first ++ tr).

Lemma each_refused_events pairs tr : each_refused pairs tr → Forall submission_event tr.
Proof. induction 1; by repeat constructor. Qed.
Lemma headers_refused_events pairs tr : headers_refused pairs tr → Forall submission_event tr.
Proof.
  intros [first tr' Hf Hr]. apply Forall_app. split; [|by eapply each_refused_events].
  destruct Hf as [[_ ->]|(rc & msg & _ & _ & ->)]; by repeat constructor.
Qed.

Lemma bulk_submit_wp send failed pairs (Q : bool → world X → Prop) w :
  (∀ p l n, send p l n = dl_call (fn_of (bulk p l n)) (bulk p l n)) →
  dl_ready w → Forall pair_wf pairs →
  (∀ x tr, (pairs = [] ∧ tr = [] ∨ packable pairs ∧ tr = [EvCall (bulk_call pairs) 0]) →
     Q true (ext x tr w)) →
  (∀ x first, (¬ packable pairs ∧ first = [] ∨
     ∃ rc msg, rc ≠ 0 ∧ packable pairs ∧ first = [EvCall (bulk_call pairs) rc; EvLog APLOG_ERR msg]) →
     Q false (ext x first w)) →
  wp (bulk_submit send failed pairs) Q w.
Proof.
  intros Hsend Hr Hwf Ht Hf. unfold bulk_submit. case_goal as Hc.
  { apply wp_ret. rewrite <- ext_nil. apply Ht. left. split; [|done]. destruct pairs; [done|].
    simpl in Hc. lia. }
  rewrite (pack_headers_run apr_palloc palloc_size pairs Hwf). case_decide as Hp.
  - rewrite Hsend. act_step. apply wp_dl_call; [done|done|]. intros rc x _. rewrite ext_after.
    unfold CORAZA_CALL_FAILED. case_goal as Hrc; simpl.
    + do 2 act_step. apply wp_ret. rewrite ext_log, ext_ext. apply Hf. right.
      exists rc, failed. by split_and!.
    + apply dec_stable in Hrc as ->. apply wp_ret. apply Ht. by right.
  - apply wp_ret. rewrite <- (ext_nil w). apply Hf. by left.
Qed.

Lemma send_each_wp send too_long rejected pairs (Q : bool → world X → Prop) : ∀ w,
  (∀ p, send (hp_name p) (name_len p) (hp_value p) (value_len p)
        = dl_call (fn_of (single p)) (single p)) →
  dl_ready w →
  (∀ x, Q true (ext x ((λ p, EvCall (single p) 0) <$> pairs) w)) →
  (∀ x tr, each_refused pairs tr → Q false (ext x tr w)) →
  wp (send_each send too_long rejected pairs) Q w.
Proof.
  intros w Hsend. revert Q w. induction pairs as [|p pairs IH]; intros Q w Hr Ht Hf; simpl.
  { apply wp_ret. specialize (Ht (env w)). simpl in Ht. by rewrite ext_nil in Ht. }
  act_step.
  { do 2 act_step. apply wp_ret. rewrite ext_log. apply Hf, er_too_long.
    rewrite orb_true_iff, !bool_decide_eq_true in *. lia. }
  rewrite Hsend. act_step. apply wp_dl_call; [done|done|]. intros rc x _. rewrite ext_after.
  unfold CORAZA_CALL_FAILED. case_goal as Hrc.
  { do 2 act_step. apply wp_ret. rewrite ext_log, ext_ext. apply Hf. by apply er_rejected. }
  apply dec_stable in Hrc as ->. apply IH; [done| |].
  - intros x'. rewrite ext_ext. apply Ht.
  - intros x' tr Htr. rewrite ext_ext. apply Hf. by constructor.
Qed.

(** Both paths together, as the callers combine them. *)
Lemma submit_wp send1 send2 failed too_long rejected pairs (Q : bool → world X → Prop) w :
  (∀ p l n, send1 p l n = dl_call (fn_of (bulk p l n)) (bulk p l n)) →
  (∀ p, send2 (hp_name p) (name_len p) (hp_value p) (value_len p)
        = dl_call (fn_of (single p)) (single p)) →
  dl_ready w → Forall pair_wf pairs →
  (∀ x tr, headers_given pairs tr → Q true (ext x tr w)) →
  (∀ x tr, headers_refused pairs tr → Q false (ext x tr w)) →
  wp (b ← bulk_submit send1 failed pairs;
      if b : bool then mret true else send_each send2 too_long rejected pairs) Q w.
Proof.
  intros H1 H2 Hr Hwf Ht Hf. act_step. apply bulk_submit_wp; [done|done|done| |].
  - intros x tr [[-> ->]|[Hp ->]]; apply wp_ret, Ht; by constructor.
  - intros x first Hfirst. apply send_each_wp; [done|done| |].
    + intros x'. rewrite ext_ext. apply Ht. by constructor.
    + intros x' tr Htr. rewrite ext_ext. apply Hf. by constructor.
Qed.
End headers_facts.
