(* ===== verification/Brigade.v ===== *)
(** * Brigades

    What a brigade carries, and the documented behaviour of the APR and httpd
    operations the module moves bodies with ([BrigadeLaws]), which the
    conservation theorems rely on; the environment of [Sim] satisfies it. *)
From S2P Require Import Prelude Types World Sim.
Local Open Scope Z_scope.

(** The content of a brigade: its data bytes and, in their place, its other
    buckets. *)
Inductive item := Byte (c : ascii) | Mark (b : bucket).

Definition items_of (b : bucket) : list item :=
  match b with Data _ d => Byte <$> d | _ => [Mark b] end.
Definition content (bb : brigade) : list item := bb ≫= items_of.

(** Its bytes alone, and how many of them are held in memory. *)
Definition data_of (b : bucket) : bytes := match b with Data _ d => d | _ => [] end.
Definition body_of (bb : brigade) : bytes := bb ≫= data_of.
Definition memory_of (bb : brigade) : Z :=
  foldr (λ b n, match b with
                | Data File _ => n | Data _ d => Z.of_nat (length d) + n | _ => n end) 0 bb.

(** Only data, and nothing that its producer may overwrite. *)
Definition is_data (b : bucket) : Prop := match b with Data _ _ => True | _ => False end.
Definition stable (b : bucket) : Prop := match b with Data Transient _ => False | _ => True end.

Lemma content_app b1 b2 : content (b1 ++ b2) = content b1 ++ content b2.
Proof. apply bind_app. Qed.
Lemma body_of_app b1 b2 : body_of (b1 ++ b2) = body_of b1 ++ body_of b2.
Proof. apply bind_app. Qed.
Lemma memory_of_app b1 b2 : memory_of (b1 ++ b2) = memory_of b1 + memory_of b2.
Proof.
  induction b1 as [|[[| |] d|rv| |k] b1 IH]; simpl; rewrite ?IH; lia.
Qed.
Lemma memory_of_nonneg bb : 0 ≤ memory_of bb.
Proof. induction bb as [|[[| |] d|rv| |k] bb IH]; simpl; lia. Qed.

(** The bytes of a content. *)
Definition bytes_in (l : list item) : bytes :=
  omap (λ i, match i with Byte c => Some c | Mark _ => None end) l.

Lemma bytes_in_app l1 l2 : bytes_in (l1 ++ l2) = bytes_in l1 ++ bytes_in l2.
Proof. apply omap_app. Qed.
Lemma bytes_in_bytes d : bytes_in (Byte <$> d) = d.
Proof. unfold bytes_in. induction d as [|c d IH]; [done|]. simpl. f_equal. exact IH. Qed.
Lemma bytes_in_content bb : bytes_in (content bb) = body_of bb.
Proof.
  induction bb as [|b bb IH]; [done|]. unfold content, body_of in *. rewrite !bind_cons, bytes_in_app, IH.
  f_equal. destruct b; simpl; [apply bytes_in_bytes|done..].
Qed.

(** Documented behaviour:
    - [apr_brigade_write] appends the bytes in memory, [apr_file_write_full]
      to the file;
    - [apr_brigade_partition] splits buckets at byte [n] of a brigade and loses
      nothing: on success [n] bytes precede the split point; [APR_INCOMPLETE]
      means the brigade is shorter, and the split point is its end;
    - [apr_brigade_split_line] moves a prefix; [apr_bucket_copy] copies;
    - [ap_save_brigade] appends, setting aside what would not survive;
    - [ap_setup_client_block] returns OK or an HTTP status. *)
Class BrigadeLaws (X : Type) `{!Httpd X} := {
  write_law bb d x rv bb' x' : apr_brigade_write bb d x = ((rv, bb'), x') → rv = APR_SUCCESS →
    Forall is_data bb →
    body_of bb' = body_of bb ++ d ∧ memory_of bb' = memory_of bb + Z.of_nat (length d)
    ∧ Forall is_data bb' ∧ (Forall stable bb → Forall stable bb');
  file_law f d x rv f' x' : apr_file_write_full f d x = ((rv, f'), x') → rv = APR_SUCCESS →
    f' = f ++ d;
  partition_law bb n x rv a b x' : 0 < n → apr_brigade_partition bb n x = ((rv, (a, b)), x') →
    content a ++ content b = content bb
    ∧ (rv = APR_SUCCESS → Z.of_nat (length (body_of a)) = n)
    ∧ (rv = APR_INCOMPLETE → b = [] ∧ Z.of_nat (length (body_of a)) < n);
  split_line_law bb saved block n x rv bb' saved' x' :
    apr_brigade_split_line bb saved block n x = ((rv, (bb', saved')), x') →
    ∃ moved, content bb' = content bb ++ moved ∧ moved ++ content saved' = content saved;
  copy_law e x rv e' x' : apr_bucket_copy e x = ((rv, e'), x') → rv = APR_SUCCESS →
    items_of e' = items_of e;
  save_law pending bb x rv pending' bb' x' :
    ap_save_brigade pending bb x = ((rv, (pending', bb')), x') → rv = APR_SUCCESS →
    content pending' = content pending ++ content bb ∧ bb' = []
    ∧ (Forall stable pending → Forall stable pending');
  setup_law r x : (ap_setup_client_block r x).1 = OK ∨ 0 < (ap_setup_client_block r x).1 }.

(** ** The environment of the witnesses satisfies it *)

Lemma content_cons b bb : content (b :: bb) = items_of b ++ content bb.
Proof. done. Qed.
Lemma body_of_cons b bb : body_of (b :: bb) = data_of b ++ body_of bb.
Proof. done. Qed.

Lemma split_brigade_spec bb : ∀ n rv a b,
  split_brigade bb n = (rv, (a, b)) →
  content a ++ content b = content bb
  ∧ (rv = APR_SUCCESS → Z.of_nat (length (body_of a)) = Z.max 0 n)
  ∧ (rv = APR_INCOMPLETE → b = [] ∧ Z.of_nat (length (body_of a)) < n).
Proof.
  induction bb as [|e bb IH]; intros n rv a b; simpl.
  { case_bool_decide as Hn; intros [= <- <- <-]; simpl; split_and!; try done.
    - intros _. lia.
    - intros _. split; [done|lia]. }
  case_bool_decide as Hn.
  { intros [= <- <- <-]. split_and!; [done| |done]. intros _. simpl. lia. }
  destruct e as [k d|rv'| |k].
  - case_bool_decide as Hd.
    + destruct (split_brigade bb (n - Z.of_nat (length d))) as [rv1 [a1 b1]] eqn:E.
      intros [= <- <- <-]. destruct (IH _ _ _ _ E) as (H1 & H2 & H3).
      rewrite !content_cons, body_of_cons, length_app, <- app_assoc, H1. split_and!; [done| |].
      * intros Hrv. specialize (H2 Hrv). simpl. lia.
      * intros Hrv. destruct (H3 Hrv) as [-> ?]. split; [done|]. simpl. lia.
    + intros [= <- <- <-]. rewrite !content_cons. split_and!; [|intros _|done].
      * simpl. by rewrite app_nil_r, app_assoc, <- fmap_app, take_drop.
      * simpl. rewrite app_nil_r, length_take. lia.
  - by intros [= <- <- <-].
  - destruct (split_brigade bb n) as [rv1 [a1 b1]] eqn:E. intros [= <- <- <-].
    destruct (IH _ _ _ _ E) as (H1 & H2 & H3). rewrite !content_cons, body_of_cons. simpl.
    split_and!; [by rewrite H1|done|done].
  - destruct (split_brigade bb n) as [rv1 [a1 b1]] eqn:E. intros [= <- <- <-].
    destruct (IH _ _ _ _ E) as (H1 & H2 & H3). rewrite !content_cons, body_of_cons. simpl.
    split_and!; [by rewrite H1|done|done].
Qed.

Lemma content_set_aside bb : content (set_aside <$> bb) = content bb.
Proof.
  induction bb as [|b bb IH]; [done|]. change (items_of (set_aside b) ++ content (set_aside <$> bb) = items_of b ++ content bb).
  rewrite IH. by destruct b as [[]| | |].
Qed.
Lemma stable_set_aside bb : Forall stable (set_aside <$> bb).
Proof. induction bb as [|b bb IH]; constructor; [by destruct b as [[]| | |]|done]. Qed.

#[export] Instance sim_laws : BrigadeLaws script.
Proof.
  constructor; cbn.
  - intros bb d x rv bb' x' [= <- <- <-] _ Hd. rewrite body_of_app, memory_of_app. split_and!.
    + simpl. by rewrite app_nil_r.
    + simpl. lia.
    + apply Forall_app. by repeat constructor.
    + intros Hs. apply Forall_app. by repeat constructor.
  - by intros f d x rv f' x' [= <- <- <-].
  - intros bb n x rv a b x' Hn [= E <-]. destruct (split_brigade_spec bb n rv a b E) as (H1 & H2 & H3).
    split_and!; [done| |done]. intros Hrv. rewrite H2 by done. lia.
  - intros bb saved block n x rv bb' saved' x' [= <- <- <- <-]. exists (content saved).
    by rewrite content_app, app_nil_r.
  - by intros e x rv e' x' [= <- <- <-].
  - intros pending bb x rv p' bb' x' [= <- <- <- <-] _. rewrite content_app, content_set_aside.
    split_and!; [done|done|]. intros Hs. apply Forall_app. split; [done|apply stable_set_aside].
  - intros r x. by left.
Qed.
