(* ===== verification/Phase1.v ===== *)
(** * Phases 1 and 2

    src/mod_coraza_phase1.c: the fixups hook.  A block of the hook that may
    [return] is a computation of [option Z] ([None]: fall through); the blocks
    are composed with [then_] in the order of the code. *)
From S2P Require Import Prelude Pack Types World DynLib Intervention Waf Headers.
Local Open Scope Z_scope.

Section phase1.
Context {X : Type} `{!Libcoraza X, !Httpd X, !Libc X, !Pool}.
Abbreviation W := (world X).

(** ** Helpers of the file *)

(** On success the spool is a new, empty file. *)
Definition coraza_open_body_spool : M W apr_status :=
  rv ← outside apr_temp_dir_get;
  if bool_decide (rv ≠ APR_SUCCESS) then
    ap_log APLOG_ERR "coraza: no temp directory to spool the request body" ;; mret rv
  else
    rv ← outside apr_file_mktemp;
    if bool_decide (rv ≠ APR_SUCCESS) then
      ap_log APLOG_ERR "coraza: cannot create request body spool file" ;; mret rv
    else
      ap_log APLOG_DEBUG "coraza: request body exceeds CorazaRequestBodyInMemoryLimit" ;;
      mret APR_SUCCESS.

Definition coraza_enforce_intervention (r c : nat) (status : Z) : M W Z :=
  upd_ctx c (set_intervention_triggered (λ _, true)) ;;
  ctx ← get_ctx c;
  if drop_connection ctx then coraza_drop_connection r ;; mret DONE
  else mret status.

(** The walk back through [r->prev]; [fuel] bounds the length of the chain. *)
Fixpoint ctx_from_prev (fuel : nat) (p : option nat) : M W (option nat) :=
  match p with
  | None => mret None
  | Some p =>
      match fuel with
      | O => undefined
      | S fuel =>
          q ← get_req p;
          match r_ctx q with
          | Some ctx => mret (Some ctx)
          | None => ctx_from_prev fuel (r_prev q)
          end
      end
  end.
Definition coraza_ctx_from_prev (r : nat) : M W (option nat) :=
  q ← get_req r;
  fuel ← gets (λ w, size (reqs w));
  ctx_from_prev fuel (r_prev q).

(** ** Shared endings of the blocks *)

(** [ctx->intervention_triggered = 1; return HTTP_INTERNAL_SERVER_ERROR;] *)
Definition fail_closed (c : nat) : M W (option Z) :=
  upd_ctx c (set_intervention_triggered (λ _, true)) ;;
  mret (Some HTTP_INTERNAL_SERVER_ERROR).

(** [ret = coraza_process_intervention(...); if (ret > 0) return ...;] *)
Definition poll (r c : nat) : M W (option Z) :=
  ctx ← get_ctx c;
  ret ← coraza_process_intervention (transaction ctx) r true;
  if bool_decide (ret > 0) then rc ← coraza_enforce_intervention r c ret; mret (Some rc)
  else mret None.

(** An engine call whose failure ends the hook, then the poll. *)
Definition checked (r c : nat) (m : M W Z) (msg : string) : M W (option Z) :=
  rc ← m;
  if coraza_process_failed rc then ap_log APLOG_ERR msg ;; fail_closed c
  else poll r c.

(** ** Phase 1 *)
Definition default_ip : string := "0.0.0.0".

Definition phase1_connection (r c : nat) : M W (option Z) :=
  q ← get_req r;
  cn ← gets conn;
  let client_port := match r_useragent_port q with Some p => p | None => 0 end in
  let server_port := match c_local_port cn with Some p => p | None => 0 end in
  let client_ip := match r_useragent_ip q with Some ip => ip | None => default_ip end in
  let server_ip := match c_local_ip cn with Some ip => ip | None => default_ip end in
  ctx ← get_ctx c;
  checked r c
    (coraza_process_connection (transaction ctx) client_ip client_port server_ip server_port)
    "coraza: engine error processing connection info".

Definition enum_version (proto_num : Z) : string :=
  if bool_decide (proto_num = HTTP_VERSION 0 9) then "HTTP/0.9"
  else if bool_decide (proto_num = HTTP_VERSION 1 0) then "HTTP/1.0"
  else if bool_decide (proto_num = HTTP_VERSION 1 1) then "HTTP/1.1"
  else if bool_decide (proto_num = HTTP_VERSION 2 0) then "HTTP/2.0"
  else "HTTP/1.1".

(** [r->protocol] as it arrived, else the version of [r->proto_num]. *)
Definition http_version (q : request_rec) : string :=
  match r_protocol q with
  | Some (String _ _ as p) => p
  | _ => enum_version (r_proto_num q)
  end.

Definition phase1_uri (r c : nat) : M W (option Z) :=
  q ← get_req r;
  ctx ← get_ctx c;
  checked r c
    (coraza_process_uri (transaction ctx) (r_unparsed_uri q) (r_method q) (http_version q))
    "coraza: engine error processing the request line".

Definition phase1_headers (r c : nat) : M W (option Z) :=
  q ← get_req r;
  ctx ← get_ctx c;
  let pairs := table_pairs (r_headers_in q) in
  bulk_done ← bulk_submit (coraza_add_request_headers (transaction ctx))
    "coraza: bulk request-header submission failed, falling back to per-header path" pairs;
  sent ← (if bulk_done : bool then mret true
          else send_each (coraza_add_request_header (transaction ctx))
                 "coraza: request header too long to inspect"
                 "coraza: engine error adding request header" pairs);
  if negb sent then fail_closed c
  else checked r c (coraza_process_request_headers (transaction ctx))
         "coraza: engine error processing request headers".

(** ** Phase 2 *)

(** [(dcf->body_mem_limit >= 0) ? dcf->body_mem_limit : DEFAULT]. *)
Definition effective_limit (dcf : coraza_dir_conf_t) : Z :=
  if bool_decide (body_mem_limit dcf >= 0) then body_mem_limit dcf
  else CORAZA_DEFAULT_BODY_MEM_LIMIT.

(** Keep a copy of one chunk: the new [saved_len] and spool file, or the
    failure of the hook.  The spool is [None] until it is opened, then the
    bytes written to it. *)
Definition save_chunk (c : nat) (mem_limit saved_len : Z) (spool : option bytes) (buf : bytes)
  : M W (Z + (Z * option bytes)) :=
  let nread := Z.of_nat (length buf) in
  let fail := upd_ctx c (set_intervention_triggered (λ _, true)) ;;
              mret (inl HTTP_INTERNAL_SERVER_ERROR) in
  if bool_decide (spool = None) && bool_decide (saved_len + nread <= mem_limit) then
    ctx ← get_ctx c;
    match saved_body ctx with
    | None => undefined
    | Some bb =>
        a ← outside (apr_brigade_write bb buf);
        upd_ctx c (set_saved_body (λ _, Some a.2)) ;;
        if bool_decide (a.1 ≠ APR_SUCCESS) then fail
        else mret (inr (saved_len + nread, spool))
    end
  else
    rv ← (if bool_decide (spool = None) then coraza_open_body_spool else mret APR_SUCCESS);
    if bool_decide (rv ≠ APR_SUCCESS) then fail
    else
      a ← outside (apr_file_write_full match spool with Some f => f | None => [] end buf);
      if bool_decide (a.1 ≠ APR_SUCCESS) then
        ap_log APLOG_ERR "coraza: failed to spool request body" ;; fail
      else mret (inr (saved_len, Some a.2)).

(** Inspect one chunk. *)
Definition inspect_chunk (r c : nat) (inspect_body : Z) (buf : bytes) : M W (option Z) :=
  if bool_decide (inspect_body = 0) then mret None
  else
    ctx ← get_ctx c;
    rc ← coraza_append_request_body (transaction ctx) buf (Z.of_nat (length buf));
    if CORAZA_CALL_FAILED rc then fail_closed c else poll r c.

(** The [while (ap_get_client_block() > 0)] loop over what it delivers: chunks,
    then 0 ([ok]) or -1.  The result is the spool file at the end. *)
Fixpoint read_loop (r c : nat) (inspect_body mem_limit : Z) (chunks : list bytes) (ok : bool)
    (saved_len : Z) (spool : option bytes) : M W (Z + option bytes) :=
  match chunks with
  | [] => if ok then mret (inr spool) else mret (inl HTTP_BAD_REQUEST)
  | [] :: _ => mret (inr spool)
  | buf :: chunks =>
      s ← save_chunk c mem_limit saved_len spool buf;
      match s with
      | inl rc => mret (inl rc)
      | inr (saved_len, spool) =>
          o ← inspect_chunk r c inspect_body buf;
          match o with
          | Some rc => mret (inl rc)
          | None => read_loop r c inspect_body mem_limit chunks ok saved_len spool
          end
      end
  end.

(** [APR_BRIGADE_INSERT_TAIL(ctx->saved_body, e)]. *)
Definition save_bucket (c : nat) (e : bucket) : M W unit :=
  ctx ← get_ctx c;
  match saved_body ctx with
  | Some bb => upd_ctx c (set_saved_body (λ _, Some (bb ++ [e])))
  | None => undefined
  end.

Definition finish_phase2 (r c : nat) : M W (option Z) :=
  ctx ← get_ctx c;
  rc ← coraza_process_request_body (transaction ctx);
  if coraza_process_failed rc then fail_closed c
  else upd_ctx c (set_phase2_done (λ _, true)) ;; poll r c.

Definition read_body (r c d : nat) : M W (option Z) :=
  dcf ← get_dir d;
  ctx ← get_ctx c;
  inspect_body ← coraza_is_request_body_accessible (transaction ctx);
  upd_ctx c (set_saved_body (λ _, Some [])) ;;
  body ← gets (λ w, request_body r (env w));
  res ← read_loop r c inspect_body (effective_limit dcf) body.1 body.2 0 None;
  match res with
  | inl rc => mret (Some rc)
  | inr spool =>
      match spool with Some f => save_bucket c (Data File f) | None => mret tt end ;;
      save_bucket c Eos ;;
      upd_req r (set_r_read_length (λ _, 0)) ;;
      emit (EvAddInputFilter c r) ;;
      finish_phase2 r c
  end.

Definition phase2 (r c d : nat) : M W (option Z) :=
  rc ← outside (ap_setup_client_block r);
  if bool_decide (rc ≠ OK) then mret (Some rc)
  else
    b ← outside (ap_should_client_block r);
    if b : bool then read_body r c d else finish_phase2 r c.

(** ** The hook *)

(** An internal redirect whose original request was inspected. *)
Definition reuse_transaction (r : nat) (q : request_rec) : M W (option Z) :=
  match r_prev q with
  | None => mret None
  | Some _ =>
      ctx ← coraza_ctx_from_prev r;
      match ctx with
      | Some c =>
          upd_req r (set_r_ctx (λ _, Some c)) ;;
          emit (EvAddOutputFilter c r) ;;
          mret (Some DECLINED)
      | None => mret None
      end
  end.

(** The phases of a new transaction. *)
Definition run_phases (r c d : nat) : M W Z :=
  then_ (phase1_connection r c) (
  then_ (phase1_uri r c) (
  then_ (phase1_headers r c) (
  emit (EvAddOutputFilter c r) ;;
  then_ (phase2 r c d) (
  mret DECLINED)))).

Definition coraza_post_read_request (r : nat) : M W Z :=
  q ← get_req r;
  if r_main q then mret DECLINED
  else
    match r_dir_conf q with
    | None => mret DECLINED
    | Some d =>
        dcf ← get_dir d;
        if bool_decide (enable dcf ≠ 1) then mret DECLINED
        else
          match r_ctx q with
          | Some _ => mret DECLINED
          | None =>
              then_ (reuse_transaction r q) (
              ctx ← coraza_create_ctx r;
              match ctx with
              | None => mret HTTP_INTERNAL_SERVER_ERROR
              | Some c => run_phases r c d
              end)
          end
    end.
End phase1.
