(* ===== verification/Phase1Facts.v ===== *)
(** * Phases 1 and 2: proofs

    The hook fails closed (it declines only when every phase ran clean), the
    handler gets the bytes that were inspected, within the memory limit, and an
    internal redirect continues the transaction of the original request. *)
From S2P Require Import Prelude Pack Types World DynLib DynLibFacts Sim Intervention InterventionFacts Waf WafFacts Headers HeadersFacts Brigade Phase1.
Local Open Scope Z_scope.

(** ** What a clean run looks like *)

(** The engine's answer lets the request go on.  A rejected header batch is not
    an error: the headers are sent again one by one. *)
Definition call_ok (c : call) (ret : Z) : Prop :=
  match c with
  | ProcessConnection _ _ _ _ _ | ProcessUri _ _ _ _ | ProcessRequestHeaders _
  | ProcessRequestBody _ | ProcessResponseHeaders _ _ _ | ProcessResponseBody _ => 0 ≤ ret
  | AddRequestHeader _ _ _ _ _ | AppendRequestBody _ _ _ | AddResponseHeader _ _ _ _ _
  | AppendResponseBody _ _ _ => ret = 0
  | _ => True
  end.

Definition clean (e : event) : Prop :=
  match e with
  | EvCall c ret => call_ok c ret
  | EvIntervention _ it => it = None
  | _ => True
  end.

(** The request is refused: the context says so, and the hook's result is an
    HTTP status, or DONE with the connection given up. *)
Definition denied {X} (c : nat) (rc : Z) (w : world X) : Prop :=
  intervention_triggered <$> ctxs w !! c = Some true
  ∧ (0 < rc ∨ rc = DONE ∧ c_aborted (conn w) = true ∧ c_keepalive_close (conn w) = true).

Lemma denied_not_declined {X} c rc (w : world X) : denied c rc w → rc ≠ DECLINED.
Proof. intros [_ [H|[-> _]]]; [|done]. intros ->. unfold DECLINED in H. lia. Qed.

(** What was asked of libcoraza, in order: the calls, and the polls for an
    intervention. *)
Inductive exchange := Asked (k : call) | Polled (t : Z).
Definition exchanges (tr : list event) : list exchange :=
  omap (λ e, match e with
             | EvCall k _ => Some (Asked k)
             | EvIntervention t _ => Some (Polled t)
             | _ => None
             end) tr.
Definition asked (xs : list exchange) : list call :=
  omap (λ x, match x with Asked k => Some k | Polled _ => None end) xs.

Lemma exchanges_app t1 t2 : exchanges (t1 ++ t2) = exchanges t1 ++ exchanges t2.
Proof. apply omap_app. Qed.
Lemma calls_exchanges tr : calls tr = asked (exchanges tr).
Proof.
  induction tr as [|e tr IH]; [done|].
  destruct e; cbn [calls exchanges asked omap list_omap]; [f_equal|..]; exact IH.
Qed.

Section phase1_facts.
Context {X : Type} `{!Libcoraza X, !Httpd X, !Libc X, Pool0 : !Pool}.
Implicit Types w : world X.

(** Request [r] has context [c], whose transaction is [t]. *)
Record in_request w r q c t : Prop := {
  ir_dl : dl_ready w;
  ir_req : reqs w !! r = Some q;
  ir_ctx : r_ctx q = Some c;
  ir_dir : dir_valid w q;
  ir_tx : ∃ x, ctxs w !! c = Some x ∧ transaction x = t }.

Lemma in_request_ext w r q c t e tr : in_request w r q c t → in_request (ext e tr w) r q c t.
Proof. intros []. by constructor. Qed.

(** ** The endings *)

Lemma fail_closed_wp w r q c t (Q : option Z → world X → Prop) :
  in_request w r q c t → (∀ rc w', denied c rc w' → Q (Some rc) w') →
  wp (fail_closed c) Q w.
Proof.
  intros [? ? ? ? (x & Hx & _)] HQ. unfold fail_closed. do 2 act_step. apply wp_ret, HQ.
  split; [simpl; by rewrite lookup_insert_eq|by left].
Qed.

Lemma enforce_wp w r q c x status (Q : Z → world X → Prop) :
  reqs w !! r = Some q → ctxs w !! c = Some x → 0 < status →
  (∀ rc w', denied c rc w' → Q rc w') →
  wp (coraza_enforce_intervention r c status) Q w.
Proof.
  intros Hq Hx Hs HQ. unfold coraza_enforce_intervention, coraza_drop_connection.
  do 4 act_step. simpl. destruct (drop_connection x).
  - repeat act_step. apply HQ. split; [simpl; by rewrite lookup_insert_eq|by right].
  - apply wp_ret, HQ. split; [simpl; by rewrite lookup_insert_eq|by left].
Qed.

Lemma poll_wp w r q c t (Q : option Z → world X → Prop) :
  in_request w r q c t →
  (∀ e, Q None (ext e [EvIntervention t None] w)) →
  (∀ rc w', denied c rc w' → Q (Some rc) w') →
  wp (poll r c) Q w.
Proof.
  intros [Hr Hq Hc Hd (x & Hx & <-)] HN HS. unfold poll. do 3 act_step.
  eapply process_intervention_wp; [done|done|done|done|done| |].
  - intros e _. rewrite bool_decide_eq_false_2 by (unfold OK; lia). apply wp_ret, HN.
  - intros it e w' _ Hiv. rewrite bool_decide_eq_true_2 by (pose proof (enforced_status_pos it); lia).
    act_step. eapply enforce_wp; [| |apply enforced_status_pos|].
    + rewrite (iv_reqs _ _ _ _ _ _ _ _ _ Hiv). apply lookup_insert_eq.
    + rewrite (iv_ctxs _ _ _ _ _ _ _ _ _ Hiv). apply lookup_insert_eq.
    + intros rc w'' Hden. by apply wp_ret, HS.
Qed.

(** An engine call that ends the hook when it fails, with or without a message. *)
Lemma checked_wp w r q c t k m msg (Q : option Z → world X → Prop) :
  in_request w r q c t → m = dl_call (fn_of k) k →
  (∀ rc e, 0 ≤ rc → Q None (ext e [EvCall k rc; EvIntervention t None] w)) →
  (∀ rc w', denied c rc w' → Q (Some rc) w') →
  wp (checked r c m msg) Q w.
Proof.
  intros Hin -> HN HS. unfold checked. act_step. apply wp_dl_call; [apply Hin|done|].
  intros rc e _. rewrite ext_after. unfold coraza_process_failed. case_goal as Hneg.
  - do 2 act_step. rewrite ext_log, ext_ext. eapply fail_closed_wp; [|exact HS].
    by apply in_request_ext.
  - eapply poll_wp; [by apply in_request_ext| |exact HS]. intros e'. rewrite ext_ext. apply HN. lia.
Qed.

(** ** Phase 1 *)

Definition connection_call (t : Z) (q : request_rec) (cn : conn_rec) : call :=
  ProcessConnection t (default default_ip (r_useragent_ip q)) (default 0 (r_useragent_port q))
    (default default_ip (c_local_ip cn)) (default 0 (c_local_port cn)).

Lemma connection_wp w r q c t (Q : option Z → world X → Prop) :
  in_request w r q c t →
  (∀ rc e, 0 ≤ rc →
     Q None (ext e [EvCall (connection_call t q (conn w)) rc; EvIntervention t None] w)) →
  (∀ rc w', denied c rc w' → Q (Some rc) w') →
  wp (phase1_connection r c) Q w.
Proof.
  intros Hin HN HS. destruct (ir_tx _ _ _ _ _ Hin) as (x & Hx & Ht). unfold phase1_connection.
  act_step. eapply wp_get_req; [apply Hin|]. do 4 act_step.
  apply (checked_wp w r q c t (connection_call t q (conn w))); [done| |exact HN|exact HS].
  rewrite Ht. unfold connection_call.
  by destruct (r_useragent_ip q), (r_useragent_port q), (c_local_ip (conn w)), (c_local_port (conn w)).
Qed.

Definition uri_call (t : Z) (q : request_rec) : call :=
  ProcessUri t (r_unparsed_uri q) (r_method q) (http_version q).

Lemma uri_wp w r q c t (Q : option Z → world X → Prop) :
  in_request w r q c t →
  (∀ rc e, 0 ≤ rc → Q None (ext e [EvCall (uri_call t q) rc; EvIntervention t None] w)) →
  (∀ rc w', denied c rc w' → Q (Some rc) w') →
  wp (phase1_uri r c) Q w.
Proof.
  intros Hin HN HS. destruct (ir_tx _ _ _ _ _ Hin) as (x & Hx & Ht). unfold phase1_uri.
  act_step. eapply wp_get_req; [apply Hin|]. do 2 act_step.
  apply (checked_wp w r q c t (uri_call t q)); [done|by rewrite Ht|exact HN|exact HS].
Qed.

(** All request headers were accepted. *)
Definition request_headers_given (t : Z) (q : request_rec) : list event → Prop :=
  headers_given (AddRequestHeaders t)
    (λ p, AddRequestHeader t (hp_name p) (name_len p) (hp_value p) (value_len p))
    (table_pairs (r_headers_in q)).

Hypothesis palloc_size : ∀ n, 0 ≤ n → Z.of_nat (length (apr_palloc n)) = n.

Lemma headers_wp w r q c t (Q : option Z → world X → Prop) :
  in_request w r q c t → table_ok (r_headers_in q) →
  (∀ rc e tr, 0 ≤ rc → request_headers_given t q tr →
     Q None (ext e (tr ++ [EvCall (ProcessRequestHeaders t) rc; EvIntervention t None]) w)) →
  (∀ rc w', denied c rc w' → Q (Some rc) w') →
  wp (phase1_headers r c) Q w.
Proof.
  intros Hin Htb HN HS. destruct (ir_tx _ _ _ _ _ Hin) as (x & Hx & Ht). unfold phase1_headers.
  act_step. eapply wp_get_req; [apply Hin|]. do 2 act_step. rewrite Ht.
  pose proof (submit_wp palloc_size (AddRequestHeaders t)
    (λ p, AddRequestHeader t (hp_name p) (name_len p) (hp_value p) (value_len p))
    (coraza_add_request_headers t) (coraza_add_request_header t)
    "coraza: bulk request-header submission failed, falling back to per-header path"
    "coraza: request header too long to inspect"
    "coraza: engine error adding request header" (table_pairs (r_headers_in q))
    (λ sent w', wp (if negb sent then fail_closed c
      else checked r c (coraza_process_request_headers t)
         "coraza: engine error processing request headers") Q w') w) as Hsub.
  assert (∀ m1 : M (world X) bool, ∀ k1 : bool → M (world X) bool, ∀ k2 : bool → M (world X) (option Z),
    wp (m1 ≫= k1) (λ b w', wp (k2 b) Q w') w → wp (m1 ≫= λ b, k1 b ≫= k2) Q w) as Hassoc.
  { intros m1 k1 k2. unfold wp, mbind, M_bind. destruct (m1 w) as [[b w']|]; [|done].
    by destruct (k1 b w') as [[]|]. }
  apply Hassoc, Hsub; [done|done|apply Hin|by apply table_pairs_wf| |].
  - intros e tr Hg. simpl.
    apply (checked_wp _ r q c t (ProcessRequestHeaders t)); [by apply in_request_ext|done| |exact HS].
    intros rc e' Hrc. rewrite ext_ext. by apply HN.
  - intros e tr _. eapply fail_closed_wp; [by apply in_request_ext|exact HS].
Qed.

(** ** Phase 2 *)
Context `{!BrigadeLaws X}.

(** The chunks read before the first empty one. *)
Fixpoint read_chunks (chunks : list bytes) : list bytes :=
  match chunks with [] | [] :: _ => [] | d :: chunks => d :: read_chunks chunks end.

(** The whole body was read: the last read found its end, not an error. *)
Fixpoint fully_read (chunks : list bytes) (ok : bool) : Prop :=
  match chunks with [] => ok = true | [] :: _ => True | _ :: chunks => fully_read chunks ok end.

(** Each chunk is handed to the engine, which is polled after it. *)
Definition body_exchanges (t inspect_body : Z) (chunks : list bytes) : list exchange :=
  if bool_decide (inspect_body = 0) then []
  else chunks ≫= λ d, [Asked (AppendRequestBody t d (Z.of_nat (length d))); Polled t].

Lemma body_exchanges_cons t i d chunks :
  body_exchanges t i (d :: chunks) = body_exchanges t i [d] ++ body_exchanges t i chunks.
Proof. unfold body_exchanges. by case_bool_decide. Qed.

(** The body httpd and libcoraza announced: none, or the chunks that the reads
    deliver, all of it, [i] telling whether libcoraza wants it. *)
Definition body_given (r : nat) (t i : Z) (body : option (list bytes)) : Prop :=
  match body with
  | None => ∃ e, (ap_should_client_block r e).1 = false
  | Some chunks => ∃ e e1 e2, ap_should_client_block r e = (true, e1)
      ∧ lib_call (IsRequestBodyAccessible t) e1 = (i, e2)
      ∧ (request_body r e2).1 = chunks ∧ fully_read chunks (request_body r e2).2
  end.

(** [w'] is [w] with [bb] as the saved body and [tr] clean events more. *)
Record saving w w' c x bb tr : Prop := {
  sv_dl : dl w' = dl w;
  sv_cfg : cfg w' = cfg w;
  sv_reqs : reqs w' = reqs w;
  sv_conn : conn w' = conn w;
  sv_ctxs : ctxs w' = <[c := set_saved_body (λ _, Some bb) x]> (ctxs w);
  sv_trace : trace w' = trace w ++ tr;
  sv_clean : Forall clean tr }.

Lemma saving_ext w w' c x bb tr e tr' :
  saving w w' c x bb tr → Forall clean tr' → saving w (ext e tr' w') c x bb (tr ++ tr').
Proof.
  intros [] Hc. constructor; simpl; try done; [by rewrite sv_trace0, app_assoc|].
  by apply Forall_app.
Qed.

Lemma saving_body w w' c x bb tr bb' :
  saving w w' c x bb tr →
  saving w (set_ctxs (λ m, <[c := set_saved_body (λ _, Some bb') x]> m) w') c x bb' tr.
Proof.
  intros []. constructor; simpl; try done. by rewrite sv_ctxs0, insert_insert_eq.
Qed.

Lemma saving_in_request w w' r q c x bb tr t :
  saving w w' c x bb tr → in_request w r q c t → transaction x = t → in_request w' r q c t.
Proof.
  intros [] [] Ht. constructor.
  - intros f. rewrite sv_dl0. apply ir_dl0.
  - by rewrite sv_reqs0.
  - done.
  - unfold dir_valid. rewrite sv_cfg0. done.
  - exists (set_saved_body (λ _, Some bb) x). by rewrite sv_ctxs0, lookup_insert_eq.
Qed.

Lemma saving_ctx w w' c x bb tr :
  saving w w' c x bb tr → ctxs w' !! c = Some (set_saved_body (λ _, Some bb) x).
Proof. intros []. by rewrite sv_ctxs0, lookup_insert_eq. Qed.

(** What has been saved: the bytes [got], at most [limit] of them in memory. *)
Record saved_ok (limit : Z) (got : bytes) (bb : brigade) (saved_len : Z) (spool : option bytes) : Prop := {
  so_bytes : body_of bb ++ default [] spool = got;
  so_memory : memory_of bb = saved_len;
  so_limit : saved_len ≤ limit;
  so_data : Forall is_data bb;
  so_stable : Forall stable bb }.

Lemma fail_saving_wp w w' c x bb tr (Q : Z + (Z * option bytes) → world X → Prop) :
  saving w w' c x bb tr → (∀ rc w'', denied c rc w'' → Q (inl rc) w'') →
  wp (upd_ctx c (set_intervention_triggered (λ _, true)) ;;
      mret (inl HTTP_INTERNAL_SERVER_ERROR)) Q w'.
Proof.
  intros Hs HQ. act_step. eapply wp_upd_ctx; [simpl; by eapply saving_ctx|]. apply wp_ret, HQ.
  split; [simpl; by rewrite lookup_insert_eq|by left].
Qed.

Lemma open_spool_wp (Q : apr_status → world X → Prop) w :
  (∀ rv e tr, exchanges tr = [] → Forall clean tr → Q rv (ext e tr w)) →
  wp coraza_open_body_spool Q w.
Proof.
  intros HQ. unfold coraza_open_body_spool. do 2 act_step. case_goal as Hrv1.
  { do 2 act_step. apply wp_ret. rewrite ext_log, ext_env, ext_ext. apply HQ; [done|by repeat constructor]. }
  do 2 act_step. case_goal as Hrv2; do 2 act_step; apply wp_ret; rewrite ext_log, !ext_env, !ext_ext;
    apply HQ; try done; by repeat constructor.
Qed.

(** Appending to the spool file, open or just opened. *)
Lemma write_spool_wp w w0 c x bb tr limit got saved_len spool buf
    (Q : Z + (Z * option bytes) → world X → Prop) :
  saving w0 w c x bb tr → saved_ok limit got bb saved_len spool →
  (∀ w' tr' f, saving w0 w' c x bb (tr ++ tr') → exchanges tr' = [] →
     saved_ok limit (got ++ buf) bb saved_len (Some f) → Q (inr (saved_len, Some f)) w') →
  (∀ rc w', denied c rc w' → Q (inl rc) w') →
  wp (a ← outside (apr_file_write_full match spool with Some f => f | None => [] end buf);
      if bool_decide (a.1 ≠ APR_SUCCESS) then
        ap_log APLOG_ERR "coraza: failed to spool request body" ;;
        upd_ctx c (set_intervention_triggered (λ _, true)) ;;
        mret (inl HTTP_INTERNAL_SERVER_ERROR)
      else mret (inr (saved_len, Some a.2))) Q w.
Proof.
  intros Hsv [Hb Hm Hl Hd Hst] Hok Hfail. do 2 act_step. destruct a as [rv f]. simpl.
  rewrite ext_env. case_goal as Hrv.
  - do 2 act_step. rewrite ext_log, ext_ext. eapply fail_saving_wp; [|done].
    apply saving_ext; [done|]. by repeat constructor.
  - apply dec_stable in Hrv as ->. apply wp_ret.
    apply (Hok _ [] f); [by apply saving_ext|done|].
    constructor; try done. simpl. rewrite (file_law _ _ _ _ _ _ H eq_refl), <- Hb.
    rewrite <- !app_assoc. by destruct spool.
Qed.

(** Saving one chunk. *)
Lemma save_chunk_wp w w0 c x bb tr limit got saved_len spool buf
    (Q : Z + (Z * option bytes) → world X → Prop) :
  saving w0 w c x bb tr → saved_ok limit got bb saved_len spool →
  (∀ w' bb' tr' saved_len' spool', saving w0 w' c x bb' (tr ++ tr') → exchanges tr' = [] →
     saved_ok limit (got ++ buf) bb' saved_len' spool' → Q (inr (saved_len', spool')) w') →
  (∀ rc w', denied c rc w' → Q (inl rc) w') →
  wp (save_chunk c limit saved_len spool buf) Q w.
Proof.
  intros Hsv [Hb Hm Hl Hd Hst] Hok Hfail. unfold save_chunk. cbv zeta. case_goal as Hsp; simpl.
  - subst spool. case_goal as Hle; simpl.
    + act_step. eapply wp_get_ctx; [by eapply saving_ctx|]. simpl. do 2 act_step.
      destruct a as [rv bb']. simpl. act_step.
      eapply wp_upd_ctx; [simpl; by eapply saving_ctx|].
      assert (Hsv' : saving w0 (set_ctxs (λ m, <[c := set_saved_body (λ _, Some bb') x]> m)
                (set_env (λ _, x0) w)) c x bb' tr).
      { apply (saving_body _ _ _ _ bb). rewrite ext_env. rewrite <- (app_nil_r tr).
        by apply saving_ext. }
      case_goal as Hrv; [by eapply fail_saving_wp|]. apply dec_stable in Hrv as ->. apply wp_ret.
      destruct (write_law _ _ _ _ _ _ H eq_refl Hd) as (W1 & W2 & W3 & W4).
      apply (Hok _ bb' [] _ None); [by rewrite app_nil_r|done|].
      constructor; simpl in *; try done; [|lia|by apply W4].
      rewrite app_nil_r in Hb. by rewrite app_nil_r, W1, Hb.
    + act_step. apply open_spool_wp. intros rv e tr' Hc Hcl. case_goal as Hrv.
      { eapply fail_saving_wp; [by apply saving_ext|done]. }
      apply (write_spool_wp _ w0 c x bb (tr ++ tr') limit got saved_len None);
        [by apply saving_ext|by constructor| |done].
      intros w' tr'' sp Hs' Hc' Hok'. apply (Hok _ bb (tr' ++ tr'') saved_len (Some sp)); [by rewrite app_assoc| |done].
      by rewrite exchanges_app, Hc, Hc'.
  - act_step. apply wp_ret. simpl.
    apply (write_spool_wp _ w0 c x bb tr limit got saved_len spool); [done|by constructor| |done].
    intros w' tr'' sp Hs' Hc' Hok'. by apply (Hok _ bb tr'' saved_len (Some sp)).
Qed.

Lemma inspect_chunk_wp w r q c t i buf (Q : option Z → world X → Prop) :
  in_request w r q c t →
  (∀ e tr, exchanges tr = body_exchanges t i [buf] → Forall clean tr → Q None (ext e tr w)) →
  (∀ rc w', denied c rc w' → Q (Some rc) w') →
  wp (inspect_chunk r c i buf) Q w.
Proof.
  intros Hin HN HS. unfold inspect_chunk, body_exchanges in *. case_goal as Hi.
  { apply wp_ret. rewrite <- ext_nil. by apply HN. }
  destruct (ir_tx _ _ _ _ _ Hin) as (x & Hx & Ht). do 2 act_step. rewrite Ht. act_step.
  apply wp_dl_call; [apply Hin|done|]. intros rc e _. rewrite ext_after.
  unfold CORAZA_CALL_FAILED. case_goal as Hrc.
  - eapply fail_closed_wp; [by apply in_request_ext|exact HS].
  - apply dec_stable in Hrc as ->.
    eapply poll_wp; [by apply in_request_ext| |exact HS]. intros e'. rewrite ext_ext.
    apply HN; [done|]. by repeat constructor.
Qed.

Lemma read_loop_wp r q c t i limit chunks ok w0 x (Q : Z + option bytes → world X → Prop) :
  in_request w0 r q c t → transaction x = t →
  (∀ rc w', denied c rc w' → Q (inl rc) w') →
  (∀ w', Q (inl HTTP_BAD_REQUEST) w') →
  ∀ w bb tr got saved_len spool,
  saving w0 w c x bb tr → saved_ok limit got bb saved_len spool →
  (∀ w' bb' tr' saved_len' spool', saving w0 w' c x bb' (tr ++ tr') →
     exchanges tr' = body_exchanges t i (read_chunks chunks) →
     saved_ok limit (got ++ concat (read_chunks chunks)) bb' saved_len' spool' →
     fully_read chunks ok → Q (inr spool') w') →
  wp (read_loop r c i limit chunks ok saved_len spool) Q w.
Proof.
  intros Hin Ht Hden Hbad. induction chunks as [|[|a d] chunks IH];
    intros w bb tr got saved_len spool Hsv Hok HQ.
  - cbn [read_loop]. destruct ok; apply wp_ret; [|apply Hbad].
    apply (HQ _ bb [] saved_len); rewrite ?app_nil_r; try done. unfold body_exchanges. by case_goal as Hi.
  - apply wp_ret. apply (HQ _ bb [] saved_len); rewrite ?app_nil_r; try done.
    unfold body_exchanges. by case_goal as Hi.
  - cbn [read_loop read_chunks concat]. set (buf := a :: d) in *. act_step.
    eapply save_chunk_wp; [done|done| |]; [|by intros rc w' H; apply wp_ret, Hden].
    intros w1 bb1 tr1 sl1 sp1 Hsv1 Hc1 Hok1. act_step.
    eapply inspect_chunk_wp; [by eapply saving_in_request| |by intros rc w' H; apply wp_ret, Hden].
    intros e tr2 Hc2 Hcl2.
    eapply IH; [by apply saving_ext|done|]. intros w' bb' tr' sl' sp' Hsv' Hc' Hok' Hfull.
    apply (HQ _ bb' (tr1 ++ tr2 ++ tr') sl'); [by rewrite !app_assoc| | |done].
    + rewrite !exchanges_app, Hc1, Hc2, Hc'. symmetry. apply (body_exchanges_cons t i buf).
    + by rewrite <- app_assoc in Hok'.
Qed.

Lemma save_bucket_wp w w0 c x bb tr e (Q : unit → world X → Prop) :
  saving w0 w c x bb tr → (∀ w', saving w0 w' c x (bb ++ [e]) tr → Q tt w') →
  wp (save_bucket c e) Q w.
Proof.
  intros Hsv HQ. unfold save_bucket. act_step. eapply wp_get_ctx; [by eapply saving_ctx|]. simpl.
  eapply wp_upd_ctx; [by eapply saving_ctx|].
  apply HQ. exact (saving_body _ _ _ _ _ _ (bb ++ [e]) Hsv).
Qed.

(** The end of phase 2: the rules run, then the last poll. *)
Lemma finish_phase2_wp w r q c t x (Q : option Z → world X → Prop) :
  in_request w r q c t → ctxs w !! c = Some x →
  (∀ rc e, 0 ≤ rc → Q None (ext e [EvCall (ProcessRequestBody t) rc; EvIntervention t None]
     (set_ctxs (λ m, <[c := set_phase2_done (λ _, true) x]> m) w))) →
  (∀ rc w', denied c rc w' → Q (Some rc) w') →
  wp (finish_phase2 r c) Q w.
Proof.
  intros Hin Hx HN HS. unfold finish_phase2. do 2 act_step.
  assert (transaction x = t) as Ht by (destruct (ir_tx _ _ _ _ _ Hin) as (y & Hy & E); congruence).
  rewrite Ht. act_step. apply wp_dl_call; [apply Hin|done|]. intros rc e _. rewrite ext_after.
  unfold coraza_process_failed. case_goal as Hneg.
  - eapply fail_closed_wp; [by apply in_request_ext|exact HS].
  - do 2 act_step. eapply poll_wp; [| |exact HS].
    + apply (in_request_ext _ _ _ _ _ e) with (tr := [EvCall (ProcessRequestBody t) rc]) in Hin.
      destruct Hin. constructor; try done. simpl.
      exists (set_phase2_done (λ _, true) x). by rewrite lookup_insert_eq.
    + intros e'. specialize (HN rc e' ltac:(lia)). clear -HN. destruct w. unfold ext, set_ctxs, set_trace, set_env in *.
      simpl in *. by rewrite <- app_assoc.
Qed.

(** The brigade CORAZA_IN replays: the bytes read, in memory up to the limit,
    then in one file, then the end. *)
Record replay_ready (limit : Z) (got : bytes) (bb : brigade) : Prop := {
  rr_body : body_of bb = got;
  rr_memory : memory_of bb ≤ limit;
  rr_eos : ∃ data, bb = data ++ [Eos] ∧ Forall is_data data ∧ Forall stable data }.

Lemma saved_ok_ready limit got bb n spool :
  saved_ok limit got bb n spool →
  replay_ready limit got ((bb ++ match spool with Some f => [Data File f] | None => [] end) ++ [Eos]).
Proof.
  intros [Hb Hm Hl Hd Hs]. constructor.
  - rewrite !body_of_app, <- Hb. destruct spool; simpl; by rewrite ?app_nil_r.
  - rewrite !memory_of_app. destruct spool; simpl; lia.
  - eexists. split; [done|]. destruct spool; rewrite ?app_nil_r; [|done].
    split; apply Forall_app; by repeat constructor.
Qed.

(** Phase 2 when it lets the request go on. *)
Definition phase2_exchanges t i (body : option (list bytes)) : list exchange :=
  match body with
  | Some chunks => Asked (IsRequestBodyAccessible t) :: body_exchanges t i (read_chunks chunks)
  | None => [] end ++ [Asked (ProcessRequestBody t); Polled t].
Definition phase2_clean t i (body : option (list bytes)) (tr : list event) : Prop :=
  Forall clean tr ∧ exchanges tr = phase2_exchanges t i body.

(** The state it leaves: the context, the request and the filter. *)
Definition phase2_state r c q limit (body : option (list bytes)) x w w' : Prop :=
  dl w' = dl w ∧ cfg w' = cfg w ∧ conn w' = conn w
  ∧ match body with
    | Some chunks => ∃ bb, replay_ready limit (concat (read_chunks chunks)) bb
        ∧ ctxs w' = <[c := set_phase2_done (λ _, true) (set_saved_body (λ _, Some bb) x)]> (ctxs w)
        ∧ reqs w' = <[r := set_r_read_length (λ _, 0) q]> (reqs w)
        ∧ EvAddInputFilter c r ∈ drop (length (trace w)) (trace w')
    | None => ctxs w' = <[c := set_phase2_done (λ _, true) x]> (ctxs w) ∧ reqs w' = reqs w
    end.

Lemma effective_limit_nonneg dcf : 0 ≤ effective_limit dcf.
Proof.
  unfold effective_limit, CORAZA_DEFAULT_BODY_MEM_LIMIT. case_bool_decide; lia.
Qed.

Lemma effective_limit_waf h dcf : effective_limit (set_waf h dcf) = effective_limit dcf.
Proof. done. Qed.

Lemma read_body_wp w r q c t x d dcf (Q : option Z → world X → Prop) :
  in_request w r q c t → ctxs w !! c = Some x → dir_confs (cfg w) !! d = Some dcf →
  (∀ i e chunks w' tr, lib_call (IsRequestBodyAccessible t) (env w) = (i, e) →
     chunks = (request_body r e).1 → fully_read chunks (request_body r e).2 →
     phase2_clean t i (Some chunks) tr → EvCall (IsRequestBodyAccessible t) i ∈ tr →
     trace w' = trace w ++ tr →
     phase2_state r c q (effective_limit dcf) (Some chunks) x w w' → Q None w') →
  (∀ rc w', denied c rc w' → Q (Some rc) w') →
  (∀ w', Q (Some HTTP_BAD_REQUEST) w') →
  wp (read_body r c d) Q w.
Proof.
  intros Hin Hx Hd HN HS Hbad. unfold read_body.
  assert (transaction x = t) as Ht by (destruct (ir_tx _ _ _ _ _ Hin) as (y & Hy & E); congruence).
  do 4 act_step. rewrite Ht. act_step. apply wp_dl_call; [apply Hin|done|]. intros i e Hacc.
  rewrite ext_after. set (w0 := ext e [EvCall (IsRequestBodyAccessible t) i] w).
  assert (Hin0 : in_request w0 r q c t) by (by apply in_request_ext).
  do 4 act_step.
  set (w1 := set_ctxs _ w0). set (body := request_body r (env w1)).
  assert (Hs1 : saving w0 w1 c x [] []).
  { constructor; try done. by rewrite app_nil_r. }
  act_step. eapply (read_loop_wp r q c t i (effective_limit dcf) body.1 body.2 w0 x);
    [done|done|by intros; apply wp_ret, HS|by intros; apply wp_ret, Hbad|exact Hs1| |].
  { constructor; try done. apply effective_limit_nonneg. }
  intros w2 bb tr sl spool Hs2 Hc2 Hok2 Hfull. simpl in Hs2, Hok2.
  assert (Hready := saved_ok_ready _ _ _ _ _ Hok2). act_step.
  set (bb' := bb ++ match spool with Some f => [Data File f] | None => [] end) in *.
  eapply (wp_mono _ (λ _ w3, saving w0 w3 c x bb' tr)).
  { unfold bb'. destruct spool; [by eapply save_bucket_wp|]. apply wp_ret. by rewrite app_nil_r. }
  intros _ w3 Hs3. act_step. eapply save_bucket_wp; [done|]. intros w4 Hs4.
  act_step. eapply wp_upd_req; [rewrite (sv_reqs _ _ _ _ _ _ Hs4); apply Hin|].
  act_step. act_step. destruct Hs4.
  set (y := set_saved_body (λ _, Some (bb' ++ [Eos])) x) in *.
  eapply (finish_phase2_wp _ r (set_r_read_length (λ _, 0) q) c t y).
  - constructor; simpl.
    + intros f. simpl. rewrite sv_dl0. apply Hin.
    + by rewrite lookup_insert_eq.
    + apply Hin.
    + unfold dir_valid. simpl. rewrite sv_cfg0. apply (ir_dir _ _ _ _ _ Hin).
    + exists y. by rewrite sv_ctxs0, lookup_insert_eq.
  - simpl. by rewrite sv_ctxs0, lookup_insert_eq.
  - intros rc e' Hrc.
    apply (HN i (env w1) body.1 _ (EvCall (IsRequestBodyAccessible t) i :: tr ++
       [EvAddInputFilter c r; EvCall (ProcessRequestBody t) rc; EvIntervention t None])); [exact Hacc|done|exact Hfull| |left| |].
    + split.
      * constructor; [done|]. apply Forall_app. split; [done|]. by repeat constructor.
      * unfold phase2_exchanges. simpl. f_equal. by rewrite exchanges_app, Hc2.
    + simpl. rewrite sv_trace0. simpl. by rewrite <- !app_assoc.
    + unfold phase2_state. simpl. rewrite sv_dl0, sv_cfg0, sv_conn0, sv_ctxs0, sv_reqs0. simpl.
      split_and!; [done..|]. exists (bb' ++ [Eos]). split_and!; [exact Hready| |done|].
      * by rewrite insert_insert_eq.
      * rewrite sv_trace0. simpl. rewrite <- !app_assoc, drop_app_length. simpl.
        right. apply elem_of_app. right. left.
  - exact HS.
Qed.

(** The outcome of phase 2. *)
Lemma phase2_wp w r q c t x d dcf (Q : option Z → world X → Prop) :
  in_request w r q c t → ctxs w !! c = Some x → dir_confs (cfg w) !! d = Some dcf →
  (∀ i body w' tr, body_given r t i body →
     (body ≠ None → EvCall (IsRequestBodyAccessible t) i ∈ tr) →
     phase2_clean t i body tr → trace w' = trace w ++ tr →
     phase2_state r c q (effective_limit dcf) body x w w' → Q None w') →
  (∀ rc w', denied c rc w' → Q (Some rc) w') →
  (∀ rc w', 0 < rc → Q (Some rc) w') →
  wp (phase2 r c d) Q w.
Proof.
  intros Hin Hx Hd HN HS Herr. unfold phase2. do 2 act_step. rewrite ext_env.
  pose proof (setup_law r (env w)) as Hlaw. rewrite H in Hlaw. simpl in Hlaw.
  case_goal as Hrc.
  { apply wp_ret, Herr. by destruct Hlaw. }
  do 2 act_step. rewrite ext_env, ext_ext. simpl. destruct a0.
  - eapply read_body_wp; [by apply in_request_ext|done|done| |done|].
    + intros i e chunks w' tr Hcall Hch Hfull Hcl Hacc Ht Hst.
      apply (HN i (Some chunks) w' tr); try done.
      * exists x0, x1, e. by split_and!.
      * simpl in Ht. by rewrite app_nil_r in Ht.
      * unfold phase2_state in *. simpl in *. by rewrite app_nil_r in Hst.
    + intros w'. by apply Herr.
  - eapply finish_phase2_wp; [by apply in_request_ext|done| |done].
    intros rc e Hpos. apply (HN 0 None _ [EvCall (ProcessRequestBody t) rc; EvIntervention t None]); try done.
    + eexists. match goal with E : ap_should_client_block _ _ = _ |- _ => by rewrite E end.
    + split; [by repeat constructor|done].
    + simpl. by rewrite app_nil_r.
Qed.

(** ** The hook *)

(** The request went through phases 1 and 2 unharmed: every header was
    accepted, every engine result was good, the engine was polled after the
    connection, the request line, the headers, each chunk of the body and the
    body rules, every poll found nothing, the phases came in order; and the
    state phase 2 leaves. *)
Record inspected r q limit c t x i (body : option (list bytes)) hs tr w w' : Prop := {
  in_trace : trace w' = trace w ++ tr;
  in_clean : Forall clean tr;
  in_headers : request_headers_given t q hs;
  in_exchanges : exchanges tr =
    [Asked (connection_call t q (conn w)); Polled t; Asked (uri_call t q); Polled t]
    ++ exchanges hs ++ [Asked (ProcessRequestHeaders t); Polled t]
    ++ phase2_exchanges t i body;
  in_filter : EvAddOutputFilter c r ∈ tr;
  in_access : body ≠ None → EvCall (IsRequestBodyAccessible t) i ∈ tr;
  in_body : body_given r t i body;
  in_state : phase2_state r c q limit body x w w' }.

Lemma given_clean t q hs : request_headers_given t q hs → Forall clean hs.
Proof.
  intros [|_|first Hf]; [constructor|by repeat constructor|]. apply Forall_app. split.
  - destruct Hf as [[_ ->]|(rc & msg & _ & _ & ->)]; by repeat constructor.
  - apply list.Forall_fmap, list.Forall_forall. intros p _. done.
Qed.

Lemma phase2_state_ext r c q limit body x e tr w w' :
  phase2_state r c q limit body x (ext e tr w) w' → phase2_state r c q limit body x w w'.
Proof.
  unfold phase2_state. intros (H1 & H2 & H3 & H4). split_and!; [done..|].
  destruct body as [chunks|]; [|done]. destruct H4 as (bb & Hr & Hc & Hq & Hf).
  exists bb. split_and!; try done. clear -Hf. simpl in Hf. rewrite length_app, <- drop_drop in Hf.
  revert Hf. generalize (drop (length (trace w)) (trace w')). intros l. rewrite <- (take_drop (length tr) l) at 2.
  rewrite elem_of_app. by right.
Qed.

Lemma run_phases_wp w r q c t x d dcf (Q : Z → world X → Prop) :
  in_request w r q c t → ctxs w !! c = Some x → dir_confs (cfg w) !! d = Some dcf →
  table_ok (r_headers_in q) →
  (∀ i body hs tr w', inspected r q (effective_limit dcf) c t x i body hs tr w w' → Q DECLINED w') →
  (∀ rc w', denied c rc w' → Q rc w') →
  (∀ rc w', 0 < rc → Q rc w') →
  wp (run_phases r c d) Q w.
Proof.
  intros Hin Hx Hd Htb HN HS Herr. unfold run_phases.
  act_step. eapply connection_wp; [exact Hin| |exact HS]. intros rc1 e1 H1.
  act_step. eapply uri_wp; [by apply in_request_ext| |exact HS]. intros rc2 e2 H2. rewrite ext_ext.
  act_step. eapply headers_wp; [by apply in_request_ext|done| |exact HS].
  intros rc3 e3 hs H3 Hhs. rewrite ext_ext.
  do 2 act_step. rewrite ext_log, ext_ext.
  set (tr1 := (([_; _] ++ [_; _]) ++ _) ++ _).
  act_step. eapply phase2_wp; [by apply in_request_ext|exact Hx|exact Hd| |exact HS|exact Herr].
  intros i body w' tr Hbody Hacc [Hcl Hx2] Ht Hst. apply wp_ret.
  apply (HN i body hs (tr1 ++ tr)). constructor.
  - rewrite Ht. simpl. by rewrite <- app_assoc.
  - apply Forall_app. split; [|done]. unfold tr1. repeat (apply Forall_app; split);
      try (by repeat constructor). by eapply given_clean.
  - done.
  - rewrite exchanges_app, Hx2. unfold tr1. rewrite !exchanges_app. simpl.
    rewrite <- !app_assoc. simpl. by rewrite <- ?app_assoc.
  - unfold tr1. apply elem_of_app. left. apply elem_of_app. right. left.
  - intros Hb. apply elem_of_app. right. by apply Hacc.
  - done.
  - by eapply phase2_state_ext.
Qed.

(** A request the hook inspects: not a subrequest, Coraza on, no context yet,
    not an internal redirect; its headers are C strings. *)
Record fixups_ready w r q d dcf l sv s sc : Prop := {
  fr_ctx : ctx_ready w r q d dcf l sv s sc;
  fr_main : r_main q = false;
  fr_enable : enable dcf = 1;
  fr_new : r_ctx q = None;
  fr_prev : r_prev q = None;
  fr_headers : table_ok (r_headers_in q) }.

(** The state in which the phases start: the transaction [t] was just opened. *)
Definition ctx_attached r q c t w w' : Prop :=
  ctxs w' !! c = Some (set_transaction (λ _, t) zero_ctx) ∧ t ≠ 0
  ∧ reqs w' = <[r := set_r_ctx (λ _, Some c) q]> (reqs w) ∧ conn w' = conn w
  ∧ ∃ pre k, trace w' = trace w ++ pre ++ [EvCall k t; EvCleanupRegister c]
      ∧ (fn_of k = new_transaction ∨ fn_of k = new_transaction_with_id).

Lemma hook_wp w r q d dcf l sv s sc (Q : Z → world X → Prop) :
  fixups_ready w r q d dcf l sv s sc →
  (∀ c t i body hs tr w1 w', ctx_attached r q c t w w1 →
     inspected r (set_r_ctx (λ _, Some c) q) (effective_limit dcf) c t (set_transaction (λ _, t) zero_ctx) i body hs tr w1 w' →
     Q DECLINED w') →
  (∀ c rc w', denied c rc w' → Q rc w') →
  (∀ rc w', 0 < rc → Q rc w') →
  wp (coraza_post_read_request r) Q w.
Proof.
  intros [Hctx Hmain Hen Hnew Hprev Htb] HN HS Herr. unfold coraza_post_read_request.
  act_step. eapply wp_get_req; [apply Hctx|]. rewrite Hmain, (cr_slot _ _ _ _ _ _ _ _ _ Hctx).
  act_step. eapply wp_get_dir; [apply Hctx|].
  rewrite Hen, bool_decide_eq_false_2, Hnew by (by intros []).
  act_step. unfold reuse_transaction. rewrite Hprev. apply wp_ret.
  act_step. eapply wp_mono; [by eapply create_ctx_wp|].
  intros o w1 (h & hc & es & tr & _ & [Hd _ _ _ _ _] & Hw1).
  destruct Hw1 as [| |c t _ Ht _ Hx Hrq Hdl Hcn Htr]; [by apply wp_ret, Herr..|].
  eapply (run_phases_wp w1 r (set_r_ctx (λ _, Some c) q) c t).
  - constructor.
    + intros f. rewrite Hdl. apply Hctx.
    + by rewrite Hrq, lookup_insert_eq.
    + done.
    + intros d' Hd'. simpl in Hd'. rewrite (cr_slot _ _ _ _ _ _ _ _ _ Hctx) in Hd'.
      injection Hd' as <-. eauto.
    + eexists. by split.
  - done.
  - done.
  - done.
  - intros i body hs tr' w' Hi. eapply HN; [|exact Hi]. split_and!; [done..|].
    eexists tr, _. split; [exact Htr|]. unfold opening. destruct (transaction_id dcf); auto.
  - apply HS.
  - exact Herr.
Qed.
End phase1_facts.

(** ** Internal redirects *)
Section redirects.
Context {X : Type} `{!Libcoraza X, !Httpd X, !Libc X, !Pool}.
Implicit Types w : world X.

(** The request records reached through [prev], nearest first. *)
Inductive prev_path w : option nat → list nat → Prop :=
| path_end : prev_path w None []
| path_step p q l : reqs w !! p = Some q → prev_path w (r_prev q) l → prev_path w (Some p) (p :: l).

Lemma prev_path_det w p l1 : prev_path w p l1 → ∀ l2, prev_path w p l2 → l1 = l2.
Proof.
  induction 1 as [|p q l Hq _ IH]; intros l2 H2; inversion H2 as [|p' q' l' Hq' Hl']; [done|].
  subst. rewrite Hq in Hq'. injection Hq' as <-. f_equal. by apply IH.
Qed.

Lemma prev_path_suffix w p l : prev_path w p l → ∀ y, y ∈ l →
  ∃ l', prev_path w (Some y) l' ∧ (length l' ≤ length l)%nat.
Proof.
  induction 1 as [|p q l Hq Hl IH]; intros y; [by intros ?%not_elem_of_nil|].
  intros [->|Hy]%elem_of_cons.
  - exists (p :: l). split; [by econstructor|done].
  - destruct (IH y Hy) as (l' & H1 & H2). exists l'. split; [done|]. simpl. lia.
Qed.

Lemma prev_path_NoDup w p l : prev_path w p l → NoDup l.
Proof.
  induction 1 as [|p q l Hq Hl IH]; constructor; [|done].
  intros Hin. destruct (prev_path_suffix _ _ _ Hl p Hin) as (l' & H1 & H2).
  assert (p :: l = l') as <- by (eapply prev_path_det; [by econstructor|done]). simpl in H2. lia.
Qed.

Lemma prev_path_length w p l : prev_path w p l → (length l ≤ size (reqs w))%nat.
Proof.
  intros Hp. pose proof (prev_path_NoDup _ _ _ Hp) as Hnd.
  assert (list_to_set l ⊆ dom (reqs w)) as Hsub.
  { intros y Hy. apply elem_of_list_to_set in Hy. clear Hnd. induction Hp as [|p q l Hq _ IH].
    - by apply not_elem_of_nil in Hy.
    - apply elem_of_cons in Hy as [->|Hy]; [apply elem_of_dom; eauto|by apply IH]. }
  apply subseteq_size in Hsub. rewrite size_list_to_set in Hsub by done.
  by rewrite size_dom in Hsub.
Qed.

(** The contexts along a path. *)
Definition path_ctxs w (l : list nat) : list nat := omap (λ p, q ← reqs w !! p; r_ctx q) l.

Lemma ctx_from_prev_wp w p l : prev_path w p l → ∀ fuel, (length l ≤ fuel)%nat →
  ctx_from_prev fuel p w = Some (head (path_ctxs w l), w).
Proof.
  induction 1 as [|p q l Hq Hl IH]; intros fuel Hf; [by destruct fuel|].
  destruct fuel as [|fuel]; simpl in Hf; [lia|]. simpl.
  unfold get_req, deref, mbind, M_bind. rewrite Hq.
  unfold path_ctxs in *. simpl.
  destruct (r_ctx q) as [c|] eqn:Ec; [done|]. apply IH; lia.
Qed.
End redirects.

(** ** Properties *)

(** C1: the hook fails closed.  On a request it is to inspect, it always
    returns, and declines (lets the request go on) only if a transaction was
    opened and, in order, the connection, the request line, every header, the
    header rules, the body if there is one and the body rules went through with
    good results, libcoraza being polled after each of these (and after each
    chunk of the body) and reporting no intervention, with the output filter in
    place; the body is there exactly when httpd announces one.  In every other case the result is an HTTP status, or DONE
    with the client connection marked aborted. *)
Theorem fixups_declines_only_when_inspected {X} `{!Libcoraza X, !Httpd X, !Libc X, !Dynlib X, !Pool, !BrigadeLaws X}
    r q d dcf l sv s sc (w : world X) :
  fixups_ready w r q d dcf l sv s sc →
  (∀ n, 0 ≤ n → Z.of_nat (length (apr_palloc n)) = n) →
  ∃ rc w', coraza_post_read_request r w = Some (rc, w')
    ∧ (rc = DECLINED ∧ (∃ c t i body hs tr w1, ctx_attached r q c t w w1
         ∧ inspected r (set_r_ctx (λ _, Some c) q) (effective_limit dcf) c t
             (set_transaction (λ _, t) zero_ctx) i body hs tr w1 w')
       ∨ 0 < rc ∨ rc = DONE ∧ c_aborted (conn w') = true).
Proof.
  intros Hf Hp. apply wp_det. eapply (hook_wp Hp); [exact Hf| | |].
  - intros. left. split; [done|]. by eexists _, _, _, _, _, _, _.
  - intros c rc w' [_ [Hrc|(H1 & H2 & _)]]; auto.
  - auto.
Qed.

(** What the engine was given of the request body. *)
Definition submitted (tr : list event) : bytes :=
  concat (omap (λ k, match k with AppendRequestBody _ d _ => Some d | _ => None end) (calls tr)).

Lemma submitted_exchanges tr :
  submitted tr = concat (omap (λ x, match x with Asked (AppendRequestBody _ d _) => Some d | _ => None end)
                           (exchanges tr)).
Proof.
  unfold submitted. rewrite calls_exchanges. f_equal. generalize (exchanges tr). intros xs.
  induction xs as [|[k|t] xs IH]; [done| |exact IH].
  destruct k; simpl; try exact IH. f_equal. exact IH.
Qed.

Lemma submitted_body t i chunks :
  concat (omap (λ x, match x with Asked (AppendRequestBody _ d _) => Some d | _ => None end)
            (body_exchanges t i chunks)) = if decide (i = 0) then [] else concat chunks.
Proof.
  unfold body_exchanges. rewrite bool_decide_decide. case_decide; [done|].
  induction chunks as [|d chunks IH]; [done|]. rewrite bind_cons, omap_app, concat_app, IH. simpl.
  by rewrite app_nil_r.
Qed.

Lemma given_submits_nothing t q hs : request_headers_given t q hs → submitted hs = [].
Proof.
  assert (∀ pairs, omap (λ k, match k with AppendRequestBody _ d _ => Some d | _ => None end)
    (calls ((λ p, EvCall (AddRequestHeader t (hp_name p) (name_len p) (hp_value p) (value_len p)) 0)
              <$> pairs)) = []) as Hsingle.
  { intros pairs. induction pairs as [|p pairs IH]; [done|]. exact IH. }
  intros [|_|first Hf]; [done|done|]. unfold submitted. rewrite calls_app, omap_app, Hsingle.
  by destruct Hf as [[_ ->]|(rc & msg & _ & _ & ->)].
Qed.

(** C11: the application receives the body that was inspected.  When the hook
    lets a request with a body go on, the saved brigade holds exactly the bytes
    read from the client, in order, followed by one end-of-stream, with at most
    CorazaRequestBodyInMemoryLimit (128 KiB when unset) of them in memory; the
    engine was given these very bytes unless it said it inspects no request
    body, and httpd had announced a body; without a saved body httpd announced
    none; phase 2 is marked done and the body can be read again
    ([read_length] is 0). *)
Theorem replayed_body_is_inspected_body {X} `{!Libcoraza X, !Httpd X, !Libc X, !Dynlib X, !Pool, !BrigadeLaws X}
    r q d dcf l sv s sc (w : world X) w' :
  fixups_ready w r q d dcf l sv s sc →
  (∀ n, 0 ≤ n → Z.of_nat (length (apr_palloc n)) = n) →
  coraza_post_read_request r w = Some (DECLINED, w') →
  ∃ c x w1 tr, ctxs w' !! c = Some x ∧ ctx_attached r q c (transaction x) w w1
    ∧ phase2_done x = true ∧ intervention_triggered x = false
    ∧ r_ctx <$> reqs w' !! r = Some (Some c) ∧ trace w' = trace w1 ++ tr
    ∧ match saved_body x with
      | None => submitted tr = [] ∧ ∃ e, (ap_should_client_block r e).1 = false
      | Some bb => ∃ e i, body_given r (transaction x) i (Some (request_body r e).1)
          ∧ replay_ready (effective_limit dcf) (concat (read_chunks (request_body r e).1)) bb
          ∧ EvCall (IsRequestBodyAccessible (transaction x)) i ∈ tr
          ∧ (i ≠ 0 → submitted tr = body_of bb) ∧ (i = 0 → submitted tr = [])
          ∧ r_read_length <$> reqs w' !! r = Some 0
      end.
Proof.
  intros Hf Hp Hrun.
  set (Post := λ rc (w' : world X), rc = DECLINED → ∃ c t i body hs tr w1, ctx_attached r q c t w w1
         ∧ inspected r (set_r_ctx (λ _, Some c) q) (effective_limit dcf) c t
             (set_transaction (λ _, t) zero_ctx) i body hs tr w1 w').
  assert (wp (coraza_post_read_request r) Post w) as Hwp.
  { eapply (hook_wp Hp); [exact Hf| | |].
    - intros c t i body hs tr w1 w2 H1 H2 _. by eexists _, _, _, _, _, _, _.
    - intros c rc w2 Hd ->. by apply denied_not_declined in Hd.
    - intros rc w2 Hd ->. by unfold DECLINED in Hd; lia. }
  destruct (wp_run _ _ _ _ _ Hwp Hrun eq_refl) as (c & t & i & body & hs & tr & w1 & Ha & Hin).
  destruct Hin as [Htr _ Hhs Hcalls _ Hacc Hbody (_ & _ & _ & Hst)].
  pose proof Ha as (_ & _ & Hrq1 & _).
  assert (Hsub : submitted tr = match body with
            | Some chunks => if decide (i = 0) then [] else concat (read_chunks chunks)
            | None => [] end).
  { pose proof (given_submits_nothing _ _ _ Hhs) as Hnone. rewrite submitted_exchanges in *.
    rewrite Hcalls. unfold phase2_exchanges. rewrite !omap_app, !concat_app, Hnone. simpl.
    destruct body as [chunks|]; [|done]. simpl. by rewrite submitted_body, app_nil_r. }
  destruct body as [chunks|].
  - destruct Hst as (bb & Hready & Hcx & Hrq & _).
    pose proof Hbody as (e & e1 & e2 & _ & _ & <- & _).
    eexists c, _, w1, tr. rewrite Hcx, lookup_insert_eq.
    split; [done|]. split; [exact Ha|]. split_and!; [done|done| |done|].
    + rewrite Hrq, lookup_insert_eq. done.
    + simpl. exists e2, i. split_and!; [exact Hbody|done|by apply Hacc| | |].
      * intros Hi. rewrite Hsub, decide_False by done. symmetry. apply (rr_body _ _ _ Hready).
      * intros ->. by rewrite Hsub.
      * by rewrite Hrq, lookup_insert_eq.
  - destruct Hst as [Hcx Hrq]. eexists c, _, w1, tr. rewrite Hcx, lookup_insert_eq.
    split; [done|]. split; [exact Ha|]. split_and!; [done|done| |done|by split].
    rewrite Hrq, Hrq1, lookup_insert_eq. done.
Qed.

(** C36: an internal redirect continues the original transaction.  The hook
    walks back through [prev] (never further than the chain is long) to the
    nearest inspected request: it shares that context, re-attaches the output
    filter and declines, without one call to the engine; when there is none the
    request is treated as a fresh one. *)
Theorem redirect_reuses_transaction {X} `{!Libcoraza X, !Httpd X, !Libc X, !Pool}
    r q d dcf p path (w : world X) :
  reqs w !! r = Some q → r_main q = false → r_dir_conf q = Some d →
  dir_confs (cfg w) !! d = Some dcf → enable dcf = 1 → r_ctx q = None →
  r_prev q = Some p → prev_path w (Some p) path →
  coraza_post_read_request r w =
    match head (path_ctxs w path) with
    | Some c => Some (DECLINED, set_trace (λ t, t ++ [EvAddOutputFilter c r])
                        (set_reqs (λ m, <[r := set_r_ctx (λ _, Some c) q]> m) w))
    | None => (ctx ← coraza_create_ctx r;
               match ctx with
               | None => mret HTTP_INTERNAL_SERVER_ERROR
               | Some c => run_phases r c d
               end) w
    end.
Proof.
  intros Hq Hmain Hd Hdcf Hen Hc Hp Hpath.
  unfold coraza_post_read_request, get_req, get_dir, deref, mbind, M_bind.
  rewrite Hq, Hmain, Hd, Hdcf, Hen, bool_decide_eq_false_2, Hc by (by intros []).
  unfold then_, reuse_transaction, coraza_ctx_from_prev, get_req, deref, gets, mbind, M_bind.
  rewrite Hp, Hq, Hp.
  rewrite (ctx_from_prev_wp w (Some p) path Hpath) by (by eapply prev_path_length).
  destruct (head (path_ctxs w path)) as [c|]; [|done].
  unfold upd_req, get_req, deref, mbind, M_bind. by rewrite Hq.
Qed.

(** Requests the hook is not for. *)
Definition not_for_hook {X} (w : world X) (q : request_rec) : Prop :=
  r_main q = true ∨ r_dir_conf q = None
  ∨ (∃ d dcf, r_dir_conf q = Some d ∧ dir_confs (cfg w) !! d = Some dcf
       ∧ (enable dcf ≠ 1 ∨ r_ctx q ≠ None)).

(** C30: requests the hook is not for are left alone: subrequests, requests
    outside the module's configuration or where Coraza is not On, and requests
    that already have a context. *)
Theorem fixups_skips {X} `{!Libcoraza X, !Httpd X, !Libc X, !Pool} r q (w : world X) :
  reqs w !! r = Some q → not_for_hook w q →
  coraza_post_read_request r w = Some (DECLINED, w).
Proof.
  intros Hq Hor. unfold not_for_hook in Hor. unfold coraza_post_read_request, get_req, get_dir, deref, mbind, M_bind. rewrite Hq.
  destruct (r_main q) eqn:Em; [done|]. destruct Hor as [Hor|[->|(d & dcf & -> & -> & Hor)]]; [done|done|].
  case_goal as He; [done|]. destruct Hor as [Hor|Hor]; [done|]. by destruct (r_ctx q).
Qed.

(** ** Witnesses *)

(** Memory comes zeroed. *)
Definition zeroed_pool : Pool := {| apr_palloc n := replicate (Z.to_nat n) zero |}.

(** A POST of "abcd" in three chunks, of which three bytes may stay in memory. *)
Definition upload_dir : coraza_dir_conf_t := DirConf 1 true 0 None 3 0 None.
Definition upload : world script :=
  set_cfg (set_dir_confs (λ _, {[ 0%nat := upload_dir ]}))
    (sim_world (Script [] [] [bytes_of "ab"; bytes_of "c"; bytes_of "d"] 1 0)
       {[ 0%nat := sim_request None None ]} ∅).

Lemma upload_ready : fixups_ready upload 0 (sim_request None None) 0 upload_dir
  [inline "SecRuleEngine On"] (Server (Some 0%nat) (Some 0%nat) None) 0 (ServerConf 0 [] 100 1 0).
Proof.
  constructor; try reflexivity; [constructor; try reflexivity; done|].
  constructor; [|constructor]. split; intros ? [= <-]; reflexivity.
Qed.

Lemma zeroed_pool_law n : 0 ≤ n → Z.of_nat (length (@apr_palloc zeroed_pool n)) = n.
Proof. intros Hn. simpl. rewrite length_replicate. lia. Qed.

Lemma fixups_declines_only_when_inspected_witness :
  ∃ w', @coraza_post_read_request script _ _ _ zeroed_pool 0 upload = Some (DECLINED, w')
    ∧ c_aborted (conn w') = false.
Proof.
  destruct (@fixups_declines_only_when_inspected script _ _ _ _ zeroed_pool _ 0 _ 0 _ _ _ _ _ upload
    upload_ready zeroed_pool_law) as (rc & w' & E & _).
  exists w'. vm_compute in E. injection E as <- <-. split; vm_compute; reflexivity.
Defined.

(** The saved body: "abc" in memory, then "d" spooled. *)
Lemma replayed_body_is_inspected_body_witness :
  ∃ w' x, @coraza_post_read_request script _ _ _ zeroed_pool 0 upload = Some (DECLINED, w')
    ∧ ctxs w' !! 0%nat = Some x
    ∧ saved_body x = Some [Data Heap (bytes_of "ab"); Data Heap (bytes_of "c");
                           Data File (bytes_of "d"); Eos].
Proof.
  destruct (@coraza_post_read_request script _ _ _ zeroed_pool 0 upload) as [[rc w']|] eqn:E;
    [|vm_compute in E; discriminate E].
  assert (rc = DECLINED) as -> by (vm_compute in E; injection E as <- _; reflexivity).
  destruct (@replayed_body_is_inspected_body script _ _ _ _ zeroed_pool _ 0 _ 0 _ _ _ _ _ upload w'
    upload_ready zeroed_pool_law E) as (c & x & w1 & tr & Hx & _).
  exists w'. vm_compute in E. injection E as <-. eexists.
  split; [reflexivity|]. split; vm_compute; reflexivity.
Defined.

(** Request 2 was redirected from 1, itself redirected from the inspected 0. *)
Definition redirected : world script :=
  sim_world (Script [] [] [] 1 0)
    {[ 0%nat := sim_request None (Some 5%nat); 1%nat := sim_request (Some 0%nat) None;
       2%nat := sim_request (Some 1%nat) None ]} {[ 5%nat := sim_ctx ]}.

Lemma redirect_reuses_transaction_witness :
  (λ p : Z * world script, (p.1, r_ctx <$> reqs p.2 !! 2%nat))
    <$> @coraza_post_read_request script _ _ _ zeroed_pool 2 redirected
  = Some (DECLINED, Some (Some 5%nat)).
Proof.
  rewrite (@redirect_reuses_transaction script _ _ _ zeroed_pool 2 (sim_request (Some 1%nat) None)
    0 sim_dir 1 [1%nat; 0%nat] redirected); try reflexivity.
  econstructor; [reflexivity|]. econstructor; [reflexivity|]. constructor.
Defined.

Lemma fixups_skips_witness :
  @coraza_post_read_request script _ _ _ zeroed_pool 0 redirected = Some (DECLINED, redirected).
Proof.
  apply (@fixups_skips script _ _ _ zeroed_pool 0 (sim_request None (Some 5%nat))); [reflexivity|].
  right. right. exists 0%nat, sim_dir. split; [reflexivity|]. split; [reflexivity|]. right. discriminate.
Defined.
