(* ===== verification/BodyIn.v ===== *)
(** * Replaying the request body

    src/mod_coraza_body_in.c: the input filter that hands the handler the body
    the fixups hook has read.  A filter function's result is its status and the
    brigade it leaves in [bb]. *)
From S2P Require Import Prelude Types World.
Local Open Scope Z_scope.

Section body_in.
Context {X : Type} `{!Httpd X}.
Abbreviation W := (world X).

(** [ap_get_brigade(f->next, ...)]: the filters below answer. *)
Definition get_from_next (bb : brigade) (mode : input_mode) (block : read_type) (readbytes : Z)
  : M W (apr_status * brigade) :=
  emit (EvGetBrigade mode readbytes) ;;
  outside (ap_get_brigade bb mode block readbytes).

(** The copying loop of a speculative read: the buckets before [stop]. *)
Fixpoint copy_buckets (before_stop bb : brigade) : M W (apr_status * brigade) :=
  match before_stop with
  | [] => mret (APR_SUCCESS, bb)
  | e :: before_stop =>
      a ← outside (apr_bucket_copy e);
      if bool_decide (a.1 ≠ APR_SUCCESS) then mret (a.1, bb)
      else copy_buckets before_stop (bb ++ [a.2])
  end.

Definition set_saved (c : nat) (saved : brigade) : M W unit :=
  upd_ctx c (set_saved_body (λ _, Some saved)).

(** [AP_MODE_SPECULATIVE]: [apr_brigade_partition] may split a bucket of the
    saved brigade where it is, and moves none. *)
Definition read_speculative (c : nat) (saved bb : brigade) (readbytes : Z)
  : M W (apr_status * brigade) :=
  if bool_decide (readbytes > 0) then
    a ← outside (apr_brigade_partition saved readbytes);
    let '(rv, (before, after)) := a in
    set_saved c (before ++ after) ;;
    if bool_decide (rv ≠ APR_SUCCESS) && bool_decide (rv ≠ APR_INCOMPLETE) then mret (rv, bb)
    else copy_buckets before bb
  else copy_buckets saved bb.

(** [AP_MODE_READBYTES] with a limit. *)
Definition read_bytes (c : nat) (saved bb : brigade) (readbytes : Z)
  : M W (apr_status * brigade) :=
  a ← outside (apr_brigade_partition saved readbytes);
  let '(rv, (before, after)) := a in
  if bool_decide (rv = APR_INCOMPLETE) then
    set_saved c [] ;; mret (APR_SUCCESS, bb ++ before ++ after)
  else if bool_decide (rv ≠ APR_SUCCESS) then
    set_saved c (before ++ after) ;; mret (rv, bb)
  else set_saved c after ;; mret (APR_SUCCESS, bb ++ before).

Definition HUGE_STRING_LEN : Z := 8192.

Definition coraza_replay_saved_body (f : ap_filter_t) (bb : brigade) (mode : input_mode)
    (block : read_type) (readbytes : Z) : M W (apr_status * brigade) :=
  match f_ctx f with
  | None => undefined
  | Some c =>
      ctx ← get_ctx c;
      match saved_body ctx with
      | None => undefined
      | Some [] =>
          upd_ctx c (set_saved_body (λ _, None)) ;;
          emit (EvRemoveInputFilter f) ;;
          get_from_next bb mode block readbytes
      | Some saved =>
          match mode with
          | AP_MODE_EATCRLF => get_from_next bb mode block readbytes
          | AP_MODE_GETLINE =>
              a ← outside (apr_brigade_split_line bb saved block HUGE_STRING_LEN);
              set_saved c a.2.2 ;; mret (a.1, a.2.1)
          | AP_MODE_SPECULATIVE => read_speculative c saved bb readbytes
          | _ =>
              if bool_decide (mode = AP_MODE_EXHAUSTIVE) || bool_decide (readbytes <= 0) then
                set_saved c [] ;; mret (APR_SUCCESS, bb ++ saved)
              else read_bytes c saved bb readbytes
          end
      end
  end.

Definition coraza_input_filter (f : ap_filter_t) (bb : brigade) (mode : input_mode)
    (block : read_type) (readbytes : Z) : M W (apr_status * brigade) :=
  replay ← (match f_ctx f with
            | None => mret false
            | Some c =>
                ctx ← get_ctx c;
                mret (bool_decide (saved_body ctx ≠ None) && negb (intervention_triggered ctx))
            end);
  if replay : bool then coraza_replay_saved_body f bb mode block readbytes
  else
    emit (EvRemoveInputFilter f) ;;
    get_from_next bb mode block readbytes.
End body_in.
