(* ===== verification/BodyInFacts.v ===== *)
(** * Replaying the request body: proofs

    The input filter refines reading from a stream of items: what it delivers
    and what it keeps always make up the saved body, in order. *)
From S2P Require Import Prelude Types World Sim Brigade Phase1Facts BodyIn.
Local Open Scope Z_scope.

(** ** The specification: reading from a stream *)

(** [d] is what a read limited to [n] bytes (unlimited when [n ≤ 0]) takes,
    [rest] what it leaves. *)
Definition upto (n : Z) (d rest : list item) : Prop :=
  (n ≤ 0 ∧ rest = [])
  ∨ (0 < n ∧ (Z.of_nat (length (bytes_in d)) = n
              ∨ rest = [] ∧ Z.of_nat (length (bytes_in d)) < n)).

(** One read of the stream [s] delivers [d] and leaves [s']. *)
Definition stream_read (mode : input_mode) (n : Z) (s d s' : list item) : Prop :=
  match mode with
  | AP_MODE_EATCRLF => False
  | AP_MODE_GETLINE => s = d ++ s'
  | AP_MODE_SPECULATIVE => s' = s ∧ ∃ rest, s = d ++ rest ∧ upto n d rest
  | AP_MODE_EXHAUSTIVE => d = s ∧ s' = []
  | AP_MODE_READBYTES | AP_MODE_INIT => s = d ++ s' ∧ upto n d s'
  end.

Section body_in_facts.
Context {X : Type} `{!Httpd X, !BrigadeLaws X}.
Implicit Types w : world X.

(** The filter [f] is replaying [saved] for the context [c]. *)
Record replaying w (f : ap_filter_t) c x saved : Prop := {
  rp_filter : f_ctx f = Some c;
  rp_ctx : ctxs w !! c = Some x;
  rp_saved : saved_body x = Some saved;
  rp_allowed : intervention_triggered x = false }.

(** Only the saved body (and the environment) moved: no filter was removed,
    nothing was read from the connection. *)
Definition saved_now w w' c x rest : Prop :=
  ∃ e, w' = set_ctxs (λ m, <[c := set_saved_body (λ _, Some rest) x]> m) (set_env (λ _, e) w).

Lemma set_env_id w : set_env (λ _, env w) w = w.
Proof. by destruct w. Qed.

Lemma saved_now_here w c x saved e :
  ctxs w !! c = Some x → saved_body x = Some saved →
  saved_now w (set_env (λ _, e) w) c x saved.
Proof.
  intros Hx Hs. exists e.
  assert (set_saved_body (λ _, Some saved) x = x) as ->.
  { destruct x. simpl in Hs. by rewrite Hs. }
  by rewrite set_ctxs_id.
Qed.

Lemma saved_now_replaying w w' f c x saved rest :
  replaying w f c x saved → saved_now w w' c x rest →
  replaying w' f c (set_saved_body (λ _, Some rest) x) rest.
Proof. intros [] [e ->]. constructor; try done. simpl. apply lookup_insert_eq. Qed.

Lemma saved_now_trans w1 w2 w3 c x r1 r2 :
  saved_now w1 w2 c x r1 → saved_now w2 w3 c (set_saved_body (λ _, Some r1) x) r2 →
  saved_now w1 w3 c x r2.
Proof.
  intros [e1 ->] [e2 ->]. exists e2. unfold set_ctxs, set_env. simpl. by rewrite insert_insert_eq.
Qed.

Lemma set_saved_wp c rest x (Q : unit → world X → Prop) w e :
  ctxs w !! c = Some x →
  (∀ w', saved_now w w' c x rest → Q tt w') → wp (set_saved c rest) Q (set_env (λ _, e) w).
Proof. intros Hx HQ. unfold set_saved. act_step. apply HQ. by exists e. Qed.

(** ** The reads *)

Lemma copy_buckets_wp before : ∀ bb c x saved (Q : apr_status * brigade → world X → Prop) w w',
  ctxs w !! c = Some x → saved_now w w' c x saved →
  (∀ rv bb' w'', (rv = APR_SUCCESS → content bb' = content bb ++ content before) →
     saved_now w w'' c x saved → Q (rv, bb') w'') →
  wp (copy_buckets before bb) Q w'.
Proof.
  induction before as [|b before IH]; intros bb c x saved Q w w' Hx Hs HQ; simpl.
  { apply wp_ret, HQ; [|done]. by rewrite app_nil_r. }
  do 2 act_step. rename a into a0. destruct a0 as [rv b']. simpl.
  assert (saved_now w (set_env (λ _, x0) w') c x saved) as Hs'.
  { destruct Hs as [e ->]. by exists x0. }
  case_goal as Hrv; [by apply wp_ret, HQ|]. apply dec_stable in Hrv.
  eapply IH; [done|done|]. intros rv2 bb2 w2 Hb Hw2. apply HQ; [|done]. intros Hok.
  assert (items_of b' = items_of b) as Hcopy by (eapply copy_law; [eassumption|done]).
  by rewrite (Hb Hok), content_app, !content_cons, <- app_assoc, Hcopy, app_nil_r.
Qed.
(** What a read does: a value for [stream_read], whatever the status. *)
Record read_result w c x saved mode n (bb : brigade) rv bb' w' d rest : Prop := {
  rd_state : saved_now w w' c x rest;
  rd_keeps : mode = AP_MODE_SPECULATIVE → content rest = content saved;
  rd_moves : mode ≠ AP_MODE_SPECULATIVE →
    content bb' = content bb ++ d ∧ d ++ content rest = content saved;
  rd_ok : rv = APR_SUCCESS →
    content bb' = content bb ++ d ∧ stream_read mode n (content saved) d (content rest) }.

Lemma partition_upto n bb x rv a b x' :
  0 < n → apr_brigade_partition bb n x = ((rv, (a, b)), x') →
  rv = APR_SUCCESS ∨ rv = APR_INCOMPLETE → upto n (content a) (content b).
Proof.
  intros Hn E Hrv. destruct (partition_law _ _ _ _ _ _ _ Hn E) as (_ & Hs & Hi).
  right. split; [done|]. rewrite bytes_in_content.
  destruct Hrv as [H|H]; [left; auto|right]. destruct (Hi H) as [-> ?]. by split.
Qed.

Lemma speculative_wp w c x saved bb n (Q : apr_status * brigade → world X → Prop) :
  ctxs w !! c = Some x → saved_body x = Some saved →
  (∀ rv bb' w' d rest, read_result w c x saved AP_MODE_SPECULATIVE n bb rv bb' w' d rest →
     Q (rv, bb') w') →
  wp (read_speculative c saved bb n) Q w.
Proof.
  intros Hx Hs HQ. unfold read_speculative. case_goal as Hn.
  - do 2 act_step. destruct a as [rv [a b]].
    destruct (partition_law saved n (env w) rv a b x0) as (Hc & _ & _); [lia|done|].
    act_step. apply set_saved_wp with x; [done|]. intros w1 Hw1.
    assert (content (a ++ b) = content saved) as Hab by by rewrite content_app.
    destruct (bool_decide (rv ≠ APR_SUCCESS) && bool_decide (rv ≠ APR_INCOMPLETE)) eqn:E.
    { apply wp_ret, (HQ _ _ _ [] (a ++ b)). constructor; try done.
      apply andb_true_iff in E as [E%bool_decide_eq_true _]. done. }
    assert (rv = APR_SUCCESS ∨ rv = APR_INCOMPLETE) as Hok.
    { apply andb_false_iff in E as [E%bool_decide_eq_false|E%bool_decide_eq_false];
        apply dec_stable in E; auto. }
    apply copy_buckets_wp with c x (a ++ b) w; [done|done|]. intros rv' bb' w2 Hb Hw2.
    apply (HQ _ _ _ (content a) (a ++ b)). constructor; try done. intros Hrv.
    split; [by apply Hb|]. simpl. split; [done|]. exists (content b). split; [done|].
    eapply partition_upto; [lia|done|done].
  - apply copy_buckets_wp with c x saved w; [done| |].
    { rewrite <- (set_env_id w) at 2. by apply saved_now_here. }
    intros rv' bb' w2 Hb Hw2. apply (HQ _ _ _ (content saved) saved). constructor; try done.
    intros Hrv. split; [by apply Hb|]. simpl. split; [done|]. exists []. rewrite app_nil_r.
    split; [done|]. left. split; [lia|done].
Qed.

Lemma bytes_wp w c x saved bb mode n (Q : apr_status * brigade → world X → Prop) :
  ctxs w !! c = Some x → saved_body x = Some saved → 0 < n →
  mode = AP_MODE_READBYTES ∨ mode = AP_MODE_INIT →
  (∀ rv bb' w' d rest, read_result w c x saved mode n bb rv bb' w' d rest → Q (rv, bb') w') →
  wp (read_bytes c saved bb n) Q w.
Proof.
  intros Hx Hs Hn Hmode HQ. unfold read_bytes. do 2 act_step. destruct a as [rv [a b]].
  destruct (partition_law saved n (env w) rv a b x0) as (Hc & _ & Hi); [lia|done|].
  pose proof (partition_upto n saved _ rv a b x0 Hn H) as Hup.
  case_goal as E1.
  - act_step. apply set_saved_wp with x; [done|]. intros w1 Hw1. apply wp_ret.
    assert (b = []) as -> by (by destruct (Hi E1)).
    apply (HQ _ _ _ (content a) []). rewrite app_nil_r in *. 
    constructor; [done|by destruct Hmode as [-> | ->]| |].
    + by rewrite content_app, app_nil_r.
    + intros _. split; [by rewrite content_app|].
      assert (content saved = content a ++ [] ∧ upto n (content a) []) by (rewrite app_nil_r; auto).
      by destruct Hmode as [-> | ->].
  - case_goal as E2; act_step; (apply set_saved_wp with x; [done|]); intros w1 Hw1; apply wp_ret.
    + apply (HQ _ _ _ [] (a ++ b)). constructor; [done|by destruct Hmode as [-> | ->]| |done].
      intros _. by rewrite content_app, app_nil_r.
    + apply dec_stable in E2. apply (HQ _ _ _ (content a) b).
      constructor; [done|by destruct Hmode as [-> | ->]| |]; intros _.
      * by rewrite content_app.
      * split; [by rewrite content_app|]. specialize (Hup (or_introl E2)).
        by destruct Hmode as [-> | ->].
Qed.

(** Every read of the filter while it replays. *)
Lemma read_wp w f c x saved bb mode block n (Q : apr_status * brigade → world X → Prop) :
  replaying w f c x saved → saved ≠ [] → mode ≠ AP_MODE_EATCRLF →
  (∀ rv bb' w' d rest, read_result w c x saved mode n bb rv bb' w' d rest → Q (rv, bb') w') →
  wp (coraza_input_filter f bb mode block n) Q w.
Proof.
  intros [Hf Hx Hs Hi] Hne Hmode HQ. unfold coraza_input_filter. rewrite Hf. do 3 act_step.
  apply wp_ret. rewrite Hs, Hi. simpl. unfold coraza_replay_saved_body. rewrite Hf. do 2 act_step.
  rewrite Hs. destruct saved as [|e saved]; [done|]. set (all := e :: saved) in *.
  assert (Hall : ∀ m, m ≠ AP_MODE_SPECULATIVE → m = AP_MODE_EXHAUSTIVE ∨ n <= 0 ∧ (m = AP_MODE_READBYTES ∨ m = AP_MODE_INIT) →
    ∀ w', saved_now w w' c x [] → read_result w c x all m n bb APR_SUCCESS (bb ++ all) w' (content all) []).
  { intros m Hm Hor w' Hw'. constructor; [done|done| |]; intros _; rewrite content_app, ?app_nil_r; [done|].
    split; [done|]. destruct Hor as [-> |[Hn [-> | ->]]]; simpl; rewrite ?app_nil_r; [done|..];
      (split; [done|by left]). }
  assert (Htake : ∀ m, mode = m → m ≠ AP_MODE_SPECULATIVE →
    m = AP_MODE_EXHAUSTIVE ∨ n <= 0 ∧ (m = AP_MODE_READBYTES ∨ m = AP_MODE_INIT) →
    wp (set_saved c [] ;; mret (APR_SUCCESS, bb ++ all)) Q w).
  { intros m <- Hm Hor. act_step. rewrite <- (set_env_id w).
    apply set_saved_wp with x; [done|]. intros w1 Hw1. apply wp_ret.
    by apply (HQ _ _ _ (content all) []), Hall. }
  destruct mode; try done.
  - rewrite (bool_decide_eq_false_2 (AP_MODE_READBYTES = AP_MODE_EXHAUSTIVE)) by done. simpl. case_goal as Hn.
    + apply Htake with AP_MODE_READBYTES; try done. auto.
    + apply (bytes_wp w c x all bb AP_MODE_READBYTES n); [done|done|lia|auto|exact HQ].
  - do 2 act_step. destruct a as [rv [bb' saved']]. simpl.
    destruct (split_line_law _ _ _ _ _ _ _ _ _ H) as (d & H1 & H2).
    act_step. apply set_saved_wp with x; [done|]. intros w1 Hw1. apply wp_ret.
    by apply (HQ _ _ _ d saved').
  - by apply speculative_wp with x.
  - by apply Htake with AP_MODE_EXHAUSTIVE; auto.
  - rewrite (bool_decide_eq_false_2 (AP_MODE_INIT = AP_MODE_EXHAUSTIVE)) by done. simpl. case_goal as Hn.
    + apply Htake with AP_MODE_INIT; try done. auto.
    + apply (bytes_wp w c x all bb AP_MODE_INIT n); [done|done|lia|auto|exact HQ].
Qed.

(** ** A handler reading its body *)

(** Reads of the given modes and limits, until nothing is saved: the mode and
    the brigade of each. *)
Fixpoint serve (f : ap_filter_t) (c : nat) (ops : list (input_mode * Z))
  : M (world X) (list (input_mode * brigade)) :=
  match ops with
  | [] => mret []
  | (mode, n) :: ops =>
      ctx ← get_ctx c;
      if bool_decide (saved_body ctx = Some []) then mret []
      else
        a ← coraza_input_filter f [] mode APR_BLOCK_READ n;
        l ← serve f c ops;
        mret ((mode, a.2) :: l)
  end.

(** What the reads took: speculative ones take nothing. *)
Definition consumed (l : list (input_mode * brigade)) : brigade :=
  l ≫= λ p, if bool_decide (p.1 = AP_MODE_SPECULATIVE) then [] else p.2.

Lemma saved_now_refl w f c x saved : replaying w f c x saved → saved_now w w c x saved.
Proof. intros []. rewrite <- (set_env_id w) at 2. by apply saved_now_here. Qed.

Lemma serve_wp f c ops : ∀ w x saved,
  replaying w f c x saved → Forall (λ o, o.1 ≠ AP_MODE_EATCRLF) ops →
  wp (serve f c ops) (λ l w', ∃ rest, saved_now w w' c x rest
    ∧ content (consumed l) ++ content rest = content saved) w.
Proof.
  induction ops as [|[mode n] ops IH]; intros w x saved Hr Hops; simpl.
  { apply wp_ret. exists saved. split; [by eapply saved_now_refl|done]. }
  apply list.Forall_cons in Hops as [Hm Hops]. pose proof Hr as [_ Hx Hs _].
  do 2 act_step. rewrite Hs. case_goal as He.
  { apply wp_ret. exists saved. split; [by eapply saved_now_refl|done]. }
  act_step. eapply read_wp; [exact Hr|congruence|done|]. intros rv bb' w1 d rest [Hst Hk Hmv _].
  act_step. eapply wp_mono; [eapply IH; [by eapply saved_now_replaying|done]|].
  intros l w2 (rest2 & Hst2 & Hc). apply wp_ret. exists rest2. split; [by eapply saved_now_trans|].
  unfold consumed. rewrite bind_cons. simpl. case_bool_decide as Hmode.
  - rewrite <- (Hk Hmode). exact Hc.
  - destruct (Hmv Hmode) as [Hb Hd]. simpl in Hb.
    rewrite content_app, Hb, <- app_assoc. unfold consumed in Hc. by rewrite Hc.
Qed.

(** Splitting what is left of [saved] does not fail. *)
Definition partitions (saved : brigade) : Prop :=
  ∀ bb d n x, d ++ content bb = content saved → 0 < n →
    (apr_brigade_partition bb n x).1.1 = APR_SUCCESS
    ∨ (apr_brigade_partition bb n x).1.1 = APR_INCOMPLETE.

Lemma partitions_suffix saved rest d :
  d ++ content rest = content saved → partitions saved → partitions rest.
Proof. intros Hd Hp bb d' n x Hd'. apply (Hp bb (d ++ d')). by rewrite <- app_assoc, Hd'. Qed.

Lemma read_bytes_ok_wp w f c x saved n (Q : apr_status * brigade → world X → Prop) :
  replaying w f c x saved → saved ≠ [] → 0 < n → partitions saved →
  (∀ bb' w' rest, saved_now w w' c x rest → content bb' ++ content rest = content saved →
     upto n (content bb') (content rest) → Q (APR_SUCCESS, bb') w') →
  wp (coraza_input_filter f [] AP_MODE_READBYTES APR_BLOCK_READ n) Q w.
Proof.
  intros [Hf Hx Hs Hi] Hne Hn Hp HQ. unfold coraza_input_filter. rewrite Hf. do 3 act_step.
  apply wp_ret. rewrite Hs, Hi. simpl. unfold coraza_replay_saved_body. rewrite Hf. do 2 act_step.
  rewrite Hs. destruct saved as [|e saved]; [done|]. set (all := e :: saved) in *.
  rewrite (bool_decide_eq_false_2 (AP_MODE_READBYTES = AP_MODE_EXHAUSTIVE)) by done.
  rewrite (bool_decide_eq_false_2 (n <= 0)) by lia. simpl.
  unfold read_bytes. do 2 act_step. destruct a as [rv [a b]].
  assert (rv = APR_SUCCESS ∨ rv = APR_INCOMPLETE) as Hrv.
  { specialize (Hp all [] n (env w) eq_refl Hn). by rewrite H in Hp. }
  pose proof (partition_upto n all _ rv a b x0 Hn H Hrv) as Hup.
  destruct (partition_law all n (env w) rv a b x0) as (Hc & _ & Hinc); [lia|done|].
  case_goal as E1.
  - act_step. apply set_saved_wp with x; [done|]. intros w1 Hw1. apply wp_ret.
    destruct (Hinc E1) as [-> _]. rewrite app_nil_r. apply (HQ a w1 []); done.
  - rewrite bool_decide_eq_false_2 by (by destruct Hrv as [-> | ->]; auto).
    act_step. apply set_saved_wp with x; [done|]. intros w1 Hw1. apply wp_ret. by apply (HQ a w1 b).
Qed.

Lemma drain_wp f c n k : 0 < n → ∀ w x saved,
  replaying w f c x saved → partitions saved →
  content saved = [] ∨ Z.of_nat (length (body_of saved)) < n * Z.of_nat k →
  wp (serve f c (replicate k (AP_MODE_READBYTES, n))) (λ l w',
    content (consumed l) = content saved
    ∧ Forall (λ p, Z.of_nat (length (body_of p.2)) ≤ n) l
    ∧ ∃ rest, saved_now w w' c x rest ∧ content rest = []) w.
Proof.
  intros Hn. induction k as [|k IH]; intros w x saved Hr Hp Hlen; simpl.
  { apply wp_ret. destruct Hlen as [Hlen|Hlen]; [|lia]. rewrite Hlen.
    split_and!; [done|done|]. exists saved. split; [by eapply saved_now_refl|done]. }
  pose proof Hr as [_ Hx Hs _]. do 2 act_step. rewrite Hs. case_goal as He.
  { injection He as ->. apply wp_ret. split_and!; [done|done|]. exists [].
    split; [by eapply saved_now_refl|done]. }
  act_step. eapply read_bytes_ok_wp; [exact Hr|congruence|done|done|].
  intros bb' w1 rest Hst Hc Hup. act_step.
  assert (Hbody : body_of saved = body_of bb' ++ body_of rest)
    by (rewrite <- !bytes_in_content, <- Hc; apply bytes_in_app).
  unfold upto in Hup. rewrite bytes_in_content in Hup.
  eapply wp_mono; [eapply IH; [by eapply saved_now_replaying|by eapply partitions_suffix|]|].
  - destruct Hlen as [Hlen|Hlen].
    { left. rewrite Hlen in Hc. by apply app_eq_nil in Hc as [_ Hc]. }
    destruct Hup as [[? _]|[_ [Hup|[Hup _]]]]; [lia| |by left]. right.
    rewrite Hbody, length_app in Hlen. lia.
  - intros l w2 (H1 & H2 & rest2 & Hst2 & H3). apply wp_ret. split_and!.
    + unfold consumed in *. rewrite bind_cons. simpl. by rewrite content_app, H1.
    + constructor; [|done]. simpl. destruct Hup as [[? _]|[_ Hup]]; [lia|].
      destruct Hup as [?|[_ ?]]; lia.
    + exists rest2. split; [by eapply saved_now_trans|done].
Qed.
End body_in_facts.

(** ** Properties *)

(** C12: every read of the input filter is a read of the saved body as a stream.
    Whatever the mode (only EATCRLF is left to the filters below), the limit and
    the status, the call returns, touches nothing but the saved body and reads
    nothing from the connection.  A speculative read leaves the content alone;
    any other read appends to [bb] exactly what it takes off the front.  When it
    succeeds, what it delivers and keeps is what the mode asks for: with a limit
    [n], exactly [n] bytes, or everything left when that is less. *)
Theorem replay_refines_stream {X} `{!Httpd X, !BrigadeLaws X} f c x saved mode block n bb (w : world X) :
  replaying w f c x saved → saved ≠ [] → mode ≠ AP_MODE_EATCRLF →
  ∃ rv bb' w' d rest, coraza_input_filter f bb mode block n w = Some ((rv, bb'), w')
    ∧ saved_now w w' c x rest
    ∧ (mode = AP_MODE_SPECULATIVE → content rest = content saved)
    ∧ (mode ≠ AP_MODE_SPECULATIVE → content bb' = content bb ++ d ∧ d ++ content rest = content saved)
    ∧ (rv = APR_SUCCESS →
        content bb' = content bb ++ d ∧ stream_read mode n (content saved) d (content rest)).
Proof.
  intros Hr Hne Hm.
  assert (wp (coraza_input_filter f bb mode block n) (λ a w', ∃ d rest,
    read_result w c x saved mode n bb a.1 a.2 w' d rest) w) as H.
  { apply read_wp with c x saved; [done..|]. intros rv bb' w' d rest H. by exists d, rest. }
  apply wp_det in H as ([rv bb'] & w' & E & d & rest & []). by exists rv, bb', w', d, rest.
Qed.

(** C27: nothing is lost, repeated or reordered over a whole handler.  However
    the handler mixes modes and limits, what the consuming reads delivered,
    followed by what is still saved, is the saved body. *)
Theorem replay_conserves_body {X} `{!Httpd X, !BrigadeLaws X} f c x saved ops (w : world X) :
  replaying w f c x saved → Forall (λ o, o.1 ≠ AP_MODE_EATCRLF) ops →
  ∃ l w' rest, serve f c ops w = Some (l, w') ∧ saved_now w w' c x rest
    ∧ content (consumed l) ++ content rest = content saved.
Proof.
  intros Hr Hops. pose proof (serve_wp f c ops w x saved Hr Hops) as H.
  apply wp_det in H as (l & w' & E & rest & H). by exists l, w', rest.
Qed.

Lemma content_data bb : Forall is_data bb → content bb = Byte <$> body_of bb.
Proof.
  induction 1 as [|b bb Hb _ IH]; [done|]. rewrite content_cons, body_of_cons, fmap_app, IH.
  by destruct b.
Qed.

Lemma replay_ready_content limit got saved :
  replay_ready limit got saved → content saved = (Byte <$> got) ++ [Mark Eos].
Proof.
  intros [Hb _ (data & -> & Hd & _)]. rewrite content_app, content_data by done.
  rewrite body_of_app in Hb. simpl in Hb. rewrite app_nil_r in Hb. by rewrite Hb.
Qed.

(** C13: a handler receives the whole body.  From the state the fixups hook
    leaves, reading at most [n] bytes at a time, [length / n + 1] reads deliver
    every byte the client sent, in order, then the end of the stream, no read
    exceeds [n] bytes, and the connection is not touched. *)
Theorem replay_delivers_everything {X} `{!Httpd X, !BrigadeLaws X} f c x saved limit got n (w : world X) :
  replaying w f c x saved → replay_ready limit got saved → 0 < n → partitions saved →
  ∃ l w' rest,
    serve f c (replicate (S (Z.to_nat (Z.of_nat (length got) / n))) (AP_MODE_READBYTES, n)) w
      = Some (l, w')
    ∧ content (consumed l) = (Byte <$> got) ++ [Mark Eos]
    ∧ Forall (λ p, Z.of_nat (length (body_of p.2)) ≤ n) l
    ∧ saved_now w w' c x rest ∧ content rest = [].
Proof.
  intros Hr Hready Hn Hp. rewrite <- (replay_ready_content _ _ _ Hready).
  set (k := S _). assert (wp (serve f c (replicate k (AP_MODE_READBYTES, n))) (λ l w',
    content (consumed l) = content saved
    ∧ Forall (λ p, Z.of_nat (length (body_of p.2)) ≤ n) l
    ∧ ∃ rest, saved_now w w' c x rest ∧ content rest = []) w) as H.
  { apply drain_wp; [done..|]. right. rewrite (rr_body _ _ _ Hready). unfold k.
    pose proof (Z.mul_div_le (Z.of_nat (length got)) n Hn).
    pose proof (Z.mod_pos_bound (Z.of_nat (length got)) n Hn).
    pose proof (Z.div_mod (Z.of_nat (length got)) n).
    assert (0 ≤ Z.of_nat (length got) / n) by (apply Z.div_pos; lia). lia. }
  apply wp_det in H as (l & w' & E & H1 & H2 & rest & H3 & H4). by exists l, w', rest.
Qed.

(** The filter has nothing to replay. *)
Definition nothing_to_replay {X} (w : world X) (f : ap_filter_t) : Prop :=
  match f_ctx f with
  | None => True
  | Some c => ∃ x, ctxs w !! c = Some x
      ∧ (saved_body x = None ∨ intervention_triggered x = true ∨ saved_body x = Some [])
  end.

(** The answer of the filters below, after [tr] was logged. *)
Definition answered {X} `{!Httpd X} bb mode block n tr (w w' : world X) : Prop :=
  env w' = (ap_get_brigade bb mode block n (env w)).2 ∧ reqs w' = reqs w ∧ conn w' = conn w
  ∧ trace w' = trace w ++ tr ++ [EvGetBrigade mode n].

Lemma get_from_next_wp {X} `{!Httpd X} bb mode block n (Q : apr_status * brigade → world X → Prop) w :
  (∀ w', answered bb mode block n [] w w' → ctxs w' = ctxs w →
     Q (ap_get_brigade bb mode block n (env w)).1 w') →
  wp (get_from_next bb mode block n) Q w.
Proof.
  intros HQ. unfold get_from_next. do 3 act_step. simpl in *.
  replace a with (ap_get_brigade bb mode block n (env w)).1 by by rewrite H.
  apply HQ; [|done]. unfold answered. by rewrite H.
Qed.

(** With nothing to replay -- no context, no saved body, a denied request,
    or everything handed over -- the filter leaves the chain and the filters
    below answer, with the caller's own arguments and result; a body handed over
    is forgotten and no other context changes.  An EATCRLF read while the body
    lasts goes to the filters below and the filter stays. *)
Theorem input_filter_steps_aside {X} `{!Httpd X} f bb mode block n (w : world X) :
  (nothing_to_replay w f →
     ∃ w', coraza_input_filter f bb mode block n w
             = Some ((ap_get_brigade bb mode block n (env w)).1, w')
       ∧ answered bb mode block n [EvRemoveInputFilter f] w w'
       ∧ (ctxs w' = ctxs w
          ∨ ∃ c x, f_ctx f = Some c ∧ ctxs w !! c = Some x ∧ saved_body x = Some []
              ∧ ctxs w' = <[c := set_saved_body (λ _, None) x]> (ctxs w)))
  ∧ (∀ c x saved, replaying w f c x saved → saved ≠ [] → mode = AP_MODE_EATCRLF →
     ∃ w', coraza_input_filter f bb mode block n w
             = Some ((ap_get_brigade bb mode block n (env w)).1, w')
       ∧ answered bb mode block n [] w w' ∧ ctxs w' = ctxs w).
Proof.
  assert (Hleave : ∀ Q : apr_status * brigade → world X → Prop,
    (∀ w', answered bb mode block n [EvRemoveInputFilter f] w w' → ctxs w' = ctxs w →
       Q (ap_get_brigade bb mode block n (env w)).1 w') →
    wp (emit (EvRemoveInputFilter f) ;; get_from_next bb mode block n) Q w).
  { intros Q HQ. do 2 act_step. apply get_from_next_wp. intros w' (H1 & H2 & H3 & H4) Hc.
    apply HQ; [|done]. split_and!; try done. simpl in H4. by rewrite H4, <- app_assoc. }
  split.
  - intros Hno. apply wp_returns. unfold coraza_input_filter, nothing_to_replay in *.
    destruct (f_ctx f) as [c|] eqn:Hf; [|act_step; apply wp_ret, Hleave; by auto].
    destruct Hno as (x & Hx & Hno). do 3 act_step. apply wp_ret.
    destruct (bool_decide (saved_body x ≠ None) && negb (intervention_triggered x)) eqn:E;
      [|apply Hleave; by auto].
    apply andb_true_iff in E as [Hsome%bool_decide_eq_true Hin%negb_true_iff].
    assert (saved_body x = Some []) as Hs by (destruct Hno as [?|[?|?]]; congruence).
    unfold coraza_replay_saved_body. rewrite Hf. do 2 act_step. rewrite Hs. do 4 act_step.
    apply get_from_next_wp. intros w' (H1 & H2 & H3 & H4) Hc. split; [done|]. split.
    + split_and!; try done. simpl in H4. by rewrite H4, <- app_assoc.
    + right. by exists c, x.
  - intros c x saved [Hf Hx Hs Hi] Hne ->. apply wp_returns. unfold coraza_input_filter.
    rewrite Hf. do 3 act_step. apply wp_ret. rewrite Hs, Hi. simpl.
    unfold coraza_replay_saved_body. rewrite Hf. do 2 act_step. rewrite Hs.
    destruct saved as [|e saved]; [done|]. by apply get_from_next_wp.
Qed.

(** ** Witnesses *)

(** What the fixups hook saved of an upload of "abcd", for a filter on it. *)
Definition sim_saved : brigade :=
  [Data Heap (bytes_of "abc"); Data File (bytes_of "d"); Eos].
Definition sim_filter : ap_filter_t := Filter (Some 3%nat) 0.
Definition sim_replay : world script :=
  sim_world (Script [] [] [] 1 0) {[ 0%nat := sim_request None (Some 3%nat) ]}
    {[ 3%nat := set_saved_body (λ _, Some sim_saved) sim_ctx ]}.

Lemma sim_replaying :
  replaying sim_replay sim_filter 3 (set_saved_body (λ _, Some sim_saved) sim_ctx) sim_saved.
Proof. by constructor. Qed.

Lemma sim_saved_ready : replay_ready 3 (bytes_of "abcd") sim_saved.
Proof.
  constructor; [reflexivity|vm_compute; discriminate|].
  exists [Data Heap (bytes_of "abc"); Data File (bytes_of "d")]. by repeat constructor.
Qed.

Lemma split_brigade_readable bb : ∀ n,
  (∀ rv, Mark (Unreadable rv) ∉ content bb) →
  (split_brigade bb n).1 = APR_SUCCESS ∨ (split_brigade bb n).1 = APR_INCOMPLETE.
Proof.
  induction bb as [|b bb IH]; intros n Hr; simpl; [case_goal as Hn; auto|].
  case_goal as Hn; [by left|]. rewrite content_cons in Hr.
  assert (Htl : ∀ m, (split_brigade bb m).1 = APR_SUCCESS ∨ (split_brigade bb m).1 = APR_INCOMPLETE).
  { intros m. apply IH. intros rv Hin. apply (Hr rv), elem_of_app. by right. }
  destruct b as [k d|rv| |k].
  - case_goal as Hd; [|by left]. specialize (Htl (n - Z.of_nat (length d))).
    by destruct (split_brigade bb _) as [? [? ?]].
  - destruct (Hr rv). left.
  - specialize (Htl n). by destruct (split_brigade bb n) as [? [? ?]].
  - specialize (Htl n). by destruct (split_brigade bb n) as [? [? ?]].
Qed.

Lemma sim_partitions : partitions sim_saved.
Proof.
  intros bb d n x Hd Hn. apply split_brigade_readable. intros rv Hin.
  assert (Mark (Unreadable rv) ∈ content sim_saved) as H
    by (rewrite <- Hd; apply elem_of_app; by right).
  apply list_elem_of_In in H. simpl in H. by repeat destruct H as [H|H].
Qed.

Lemma replay_refines_stream_witness :
  (λ p : (apr_status * brigade) * world script, (p.1, saved_body <$> ctxs p.2 !! 3%nat))
    <$> coraza_input_filter sim_filter [] AP_MODE_READBYTES APR_BLOCK_READ 2 sim_replay
  = Some ((APR_SUCCESS, [Data Heap (bytes_of "ab")]),
          Some (Some [Data Heap (bytes_of "c"); Data File (bytes_of "d"); Eos])).
Proof.
  destruct (replay_refines_stream sim_filter 3 _ sim_saved AP_MODE_READBYTES APR_BLOCK_READ 2 []
    sim_replay sim_replaying) as (rv & bb' & w' & d & rest & E & _); [discriminate..|].
  rewrite E. vm_compute in E. injection E as <- <- <-. vm_compute. reflexivity.
Defined.

(** A speculative read of one byte, a line, then the rest. *)
Lemma replay_conserves_body_witness :
  ∃ l w' rest, serve sim_filter 3 [(AP_MODE_SPECULATIVE, 1); (AP_MODE_READBYTES, 3);
      (AP_MODE_EXHAUSTIVE, 0)] sim_replay = Some (l, w')
    ∧ content (consumed l) ++ content rest = content sim_saved ∧ length l = 3%nat.
Proof.
  destruct (replay_conserves_body sim_filter 3 _ sim_saved [(AP_MODE_SPECULATIVE, 1);
    (AP_MODE_READBYTES, 3); (AP_MODE_EXHAUSTIVE, 0)] sim_replay sim_replaying)
    as (l & w' & rest & E & _ & H); [by repeat constructor|].
  exists l, w', rest. split; [exact E|]. split; [exact H|].
  vm_compute in E. injection E as <- _. reflexivity.
Defined.

Lemma replay_delivers_everything_witness :
  ∃ l w', serve sim_filter 3 (replicate 2 (AP_MODE_READBYTES, 3)) sim_replay = Some (l, w')
    ∧ content (consumed l) = (Byte <$> bytes_of "abcd") ++ [Mark Eos].
Proof.
  destruct (replay_delivers_everything sim_filter 3 _ sim_saved 3 (bytes_of "abcd") 3
    sim_replay sim_replaying sim_saved_ready) as (l & w' & rest & E & H & _);
    [reflexivity|exact sim_partitions|].
  exists l, w'. split; [exact E|exact H].
Defined.

(** A denied request: the filter is not replaying. *)
Lemma input_filter_steps_aside_witness :
  ∃ w', coraza_input_filter (Filter None 0) [] AP_MODE_READBYTES APR_BLOCK_READ 8 sim_replay
          = Some ((APR_SUCCESS, [Eos]), w')
    ∧ trace w' = [EvRemoveInputFilter (Filter None 0); EvGetBrigade AP_MODE_READBYTES 8].
Proof.
  destruct (proj1 (input_filter_steps_aside (Filter None 0) [] AP_MODE_READBYTES APR_BLOCK_READ 8
    sim_replay) I) as (w' & E & (_ & _ & _ & H) & _).
  exists w'. split; [exact E|exact H].
Defined.
