(* ===== verification/FilterOut.v ===== *)
(** * Phases 3 and 4

    src/mod_coraza_filter_out.c: the output filter.  A filter function's result
    is its status and the brigade it leaves in [bb]; a part of it that may
    [return] is a computation of an [option], composed with [then_].  The
    brigade a read may split bucket by bucket is given already split (see
    [Types]), so [apr_bucket_read] changes nothing here. *)
From S2P Require Import Prelude Pack Types World DynLib Intervention Headers.
Local Open Scope Z_scope.

Section filter_out.
Context {X : Type} `{!Libcoraza X, !Httpd X, !Pool}.
Abbreviation W := (world X).
Abbreviation result := (apr_status * brigade)%type.

(** ** Server-sent events *)
Definition sse : string := "text/event-stream".

(** [strncasecmp(s, p, strlen(p)) == 0] for a string at least as long as [p]. *)
Fixpoint has_prefix_nocase (p s : string) : bool :=
  match p, s with
  | EmptyString, _ => true
  | String a p, String b s => bool_decide (tolower a = tolower b) && has_prefix_nocase p s
  | String _ _, EmptyString => false
  end.

(** The loop over what follows the media type. *)
Fixpoint sse_tail (s : string) : bool :=
  match s with
  | EmptyString => true
  | String a s =>
      if bool_decide (a = " "%char) || bool_decide (a = chr 9) then sse_tail s
      else bool_decide (a = ";"%char)
  end.

Definition coraza_is_sse_response (q : request_rec) : bool :=
  match r_content_type q with
  | None => false
  | Some ct =>
      if bool_decide (strlen ct < strlen sse) || negb (has_prefix_nocase sse ct) then false
      else sse_tail (String.substring (String.length sse) (String.length ct - String.length sse) ct)
  end.

(** ** Endings *)

(** [ap_pass_brigade(f->next, bb)]. *)
Definition pass_to_next (bb : brigade) : M W result :=
  emit (EvPass bb) ;; outside (ap_pass_brigade bb).

Definition coraza_die (status : Z) (r : nat) : M W unit :=
  upd_req r (set_r_status (λ _, HTTP_OK)) ;;
  q ← get_req r;
  emit (EvDie status (r_status q)) ;;
  q ← outside (ap_die status r q);
  upd_req r (λ _, q).

(** [ctx->intervention_triggered = 1; ap_remove_output_filter(f);] *)
Definition step_out (f : ap_filter_t) (c : nat) : M W unit :=
  upd_ctx c (set_intervention_triggered (λ _, true)) ;;
  emit (EvRemoveOutputFilter f).

(** [ctx->headers_delayed = 0; apr_brigade_cleanup(ctx->pending_brigade);] *)
Definition discard_pending (c : nat) : M W unit :=
  upd_ctx c (set_headers_delayed (λ _, false)) ;;
  ctx ← get_ctx c;
  match pending_brigade ctx with
  | None => undefined
  | Some _ => upd_ctx c (set_pending_brigade (λ _, Some []))
  end.

Definition coraza_fail_closed_response (f : ap_filter_t) (r c : nat) : M W result :=
  step_out f c ;;
  upd_req r (set_r_status (λ _, HTTP_INTERNAL_SERVER_ERROR)) ;;
  ctx ← get_ctx c;
  if headers_delayed ctx then
    discard_pending c ;;
    coraza_die HTTP_INTERNAL_SERVER_ERROR r ;;
    mret (AP_FILTER_ERROR, [])
  else mret (APR_EGENERAL, []).

Definition coraza_fail_closed_headers (f : ap_filter_t) (r c : nat) : M W result :=
  step_out f c ;;
  coraza_die HTTP_INTERNAL_SERVER_ERROR r ;;
  mret (AP_FILTER_ERROR, []).

Definition coraza_drop_response (f : ap_filter_t) (r c : nat) : M W result :=
  step_out f c ;;
  ctx ← get_ctx c;
  when (headers_delayed ctx) (discard_pending c) ;;
  coraza_drop_connection r ;;
  mret (APR_ECONNABORTED, []).

(** An intervention before anything was sent. *)
Definition deny_headers (f : ap_filter_t) (r c : nat) (ret : Z) : M W result :=
  ctx ← get_ctx c;
  if drop_connection ctx then coraza_drop_response f r c
  else step_out f c ;; coraza_die ret r ;; mret (AP_FILTER_ERROR, []).

(** An intervention on the body. *)
Definition deny_body (f : ap_filter_t) (r c : nat) (ret : Z) : M W result :=
  ctx ← get_ctx c;
  if drop_connection ctx then coraza_drop_response f r c
  else
    step_out f c ;;
    ctx ← get_ctx c;
    if headers_delayed ctx then
      discard_pending c ;; coraza_die ret r ;; mret (AP_FILTER_ERROR, [])
    else
      upd_req r (set_r_status (λ _, ret)) ;; mret (APR_EGENERAL, []).

(** [m] reported an intervention: [deny] it. *)
Definition poll_response (r c : nat) (deny : Z → M W result) : M W (option result) :=
  ctx ← get_ctx c;
  ret ← coraza_process_intervention (transaction ctx) r false;
  if bool_decide (ret > 0) then a ← deny ret; mret (Some a) else mret None.

(** ** Phase 3 *)

(** Every response header the client will see. *)
Definition response_pairs (q : request_rec) : list coraza_header_pair_t :=
  table_pairs (r_headers_out q)
  ++ match r_content_type q with
     | Some ct => [c_pair "Content-Type" (Some ct)]
     | None => []
     end
  ++ table_pairs (r_err_headers_out q).

Definition submit_headers (r c : nat) : M W bool :=
  q ← get_req r;
  ctx ← get_ctx c;
  bulk_done ← bulk_submit (coraza_add_response_headers (transaction ctx))
    "coraza: bulk response-header submission failed, falling back to per-header path"
    (response_pairs q);
  if bulk_done : bool then mret true
  else send_each (coraza_add_response_header (transaction ctx))
         "coraza: response header too long to inspect"
         "coraza: engine error adding response header" (response_pairs q).

Definition protocol_sent (q : request_rec) : string :=
  match r_protocol q with Some p => p | None => "HTTP/1.1" end.

(** [coraza_is_response_body_accessible(t) && ..._processable(t)]. *)
Definition is_processable (t : Z) : M W bool :=
  a ← coraza_is_response_body_accessible t;
  if bool_decide (a = 0) then mret false
  else p ← coraza_is_response_body_processable t; mret (bool_decide (p ≠ 0)).

(** Phase 4 of a body that is not inspected, before any header goes out. *)
Definition finish_uninspected (f : ap_filter_t) (r c : nat) (bb : brigade) : M W result :=
  ctx ← get_ctx c;
  rc ← coraza_process_response_body (transaction ctx);
  if coraza_process_failed rc then coraza_fail_closed_headers f r c
  else
    upd_ctx c (set_phase4_done (λ _, true)) ;;
    then_ (poll_response r c (deny_headers f r c)) (
    emit (EvRemoveOutputFilter f) ;;
    pass_to_next bb).

Definition start_delay (r c : nat) : M W unit :=
  q ← get_req r;
  if r_header_only q || r_main q || bool_decide (r_status q >= 400) then mret tt
  else
    upd_ctx c (set_pending_brigade (λ _, Some [])) ;;
    upd_ctx c (set_headers_delayed (λ _, true)).

Definition phase3 (f : ap_filter_t) (r c : nat) (bb : brigade) : M W (option result) :=
  upd_ctx c (set_phase3_done (λ _, true)) ;;
  sent ← submit_headers r c;
  if negb sent then a ← coraza_fail_closed_headers f r c; mret (Some a)
  else
    q ← get_req r;
    ctx ← get_ctx c;
    rc ← coraza_process_response_headers (transaction ctx) (r_status q) (protocol_sent q);
    if coraza_process_failed rc then
      ap_log APLOG_ERR "coraza: engine error processing response headers" ;;
      a ← coraza_fail_closed_headers f r c; mret (Some a)
    else
      b ← is_processable (transaction ctx);
      upd_ctx c (set_response_body_processable (λ _, b)) ;;
      p ← poll_response r c (deny_headers f r c);
      match p with
      | Some a => mret (Some a)
      | None =>
          if negb b then a ← finish_uninspected f r c bb; mret (Some a)
          else if coraza_is_sse_response q then
            emit (EvRemoveOutputFilter f) ;; a ← pass_to_next bb; mret (Some a)
          else start_delay r c ;; mret None
      end.

(** ** Phase 4 *)

(** [APR_BRIGADE_PREPEND(bb, ctx->pending_brigade)]: [ctx->pending_brigade] is
    left empty. *)
Definition prepend_pending (c : nat) (bb : brigade) : M W brigade :=
  ctx ← get_ctx c;
  match pending_brigade ctx with
  | None => undefined
  | Some pending => upd_ctx c (set_pending_brigade (λ _, Some [])) ;; mret (pending ++ bb)
  end.

(** The bound on what the header delay holds; [size_t] additions wrap. *)
Definition bound_delay (f : ap_filter_t) (c : nat) (bb : brigade) (len : Z) : M W (option result) :=
  ctx ← get_ctx c;
  if headers_delayed ctx && bool_decide (len > 0) then
    upd_ctx c (set_pending_len (λ n, wrap64 (n + len))) ;;
    ctx ← get_ctx c;
    if bool_decide (pending_len ctx > CORAZA_MAX_DELAYED_BODY) then
      ap_log APLOG_WARNING "coraza: delayed response body exceeded bytes; flushing headers early" ;;
      upd_ctx c (set_headers_delayed (λ _, false)) ;;
      emit (EvRemoveOutputFilter f) ;;
      all ← prepend_pending c bb;
      upd_ctx c (set_pending_brigade (λ _, None)) ;;
      a ← pass_to_next all; mret (Some a)
    else mret None
  else mret None.

(** Inspect the data of one bucket. *)
Definition inspect_data (f : ap_filter_t) (r c : nat) (data : bytes) : M W (option result) :=
  let len := Z.of_nat (length data) in
  ctx ← get_ctx c;
  if bool_decide (len > 0) && response_body_processable ctx then
    if bool_decide (len > INT_MAX) then
      ap_log APLOG_ERR "coraza: response body chunk too large to inspect" ;;
      a ← coraza_fail_closed_response f r c; mret (Some a)
    else
      rc ← coraza_append_response_body (transaction ctx) data len;
      if CORAZA_CALL_FAILED rc then a ← coraza_fail_closed_response f r c; mret (Some a)
      else poll_response r c (deny_body f r c)
  else mret None.

(** The loop over the buckets of [bb], [rest] being those ahead: the result of
    the filter, or [has_eos]. *)
Fixpoint body_loop (f : ap_filter_t) (r c : nat) (bb rest : brigade) (has_eos : bool)
  : M W (result + bool) :=
  match rest with
  | [] => mret (inr has_eos)
  | Eos :: rest => body_loop f r c bb rest true
  | Meta _ :: rest => body_loop f r c bb rest has_eos
  | Unreadable _ :: _ =>
      ap_log APLOG_ERR "coraza: cannot read response bucket for inspection" ;;
      a ← coraza_fail_closed_response f r c; mret (inl a)
  | Data _ data :: rest =>
      o ← bound_delay f c bb (Z.of_nat (length data));
      match o with
      | Some a => mret (inl a)
      | None =>
          o ← inspect_data f r c data;
          match o with
          | Some a => mret (inl a)
          | None => body_loop f r c bb rest has_eos
          end
      end
  end.

(** [has_eos]. *)
Definition end_of_body (f : ap_filter_t) (r c : nat) (bb : brigade) : M W result :=
  ctx ← get_ctx c;
  rc ← coraza_process_response_body (transaction ctx);
  if coraza_process_failed rc then coraza_fail_closed_response f r c
  else
    then_ (poll_response r c (λ ret,
             upd_ctx c (set_phase4_done (λ _, true)) ;; deny_body f r c ret)) (
    upd_ctx c (set_phase4_done (λ _, true)) ;;
    ctx ← get_ctx c;
    bb ← (if headers_delayed ctx then
            upd_ctx c (set_headers_delayed (λ _, false)) ;; prepend_pending c bb
          else mret bb);
    emit (EvRemoveOutputFilter f) ;;
    pass_to_next bb).

(** Not the last brigade; [ap_save_brigade] creates the brigade it saves to
    when there is none. *)
Definition hold_or_pass (f : ap_filter_t) (r c : nat) (bb : brigade) : M W result :=
  ctx ← get_ctx c;
  if headers_delayed ctx then
    a ← outside (ap_save_brigade (default [] (pending_brigade ctx)) bb);
    let '(rv, (pending, bb)) := a in
    upd_ctx c (set_pending_brigade (λ _, Some pending)) ;;
    if bool_decide (rv ≠ APR_SUCCESS) then
      ap_log APLOG_ERR "coraza: cannot set aside the delayed response body" ;;
      coraza_fail_closed_response f r c
    else mret (APR_SUCCESS, bb)
  else pass_to_next bb.

Definition phase4 (f : ap_filter_t) (r c : nat) (bb : brigade) : M W result :=
  l ← body_loop f r c bb bb false;
  match l with
  | inl a => mret a
  | inr true => end_of_body f r c bb
  | inr false => hold_or_pass f r c bb
  end.

(** ** The filter *)
Definition coraza_output_filter (f : ap_filter_t) (bb : brigade) : M W result :=
  live ← (match f_ctx f with
          | None => mret None
          | Some c =>
              ctx ← get_ctx c;
              mret (if intervention_triggered ctx then None else Some c)
          end);
  match live with
  | None => emit (EvRemoveOutputFilter f) ;; pass_to_next bb
  | Some c =>
      ctx ← get_ctx c;
      then_ (if phase3_done ctx then mret None else phase3 f (f_r f) c bb) (
      phase4 f (f_r f) c bb)
  end.
End filter_out.
