(* ===== verification/FilterOutFacts.v ===== *)
(** * Phases 3 and 4: proofs

    The output filter is gated: while it holds a response nothing of it reaches
    the client, what it releases is what it was given, in order, and a response
    it refuses is never passed on. *)
From S2P Require Import Prelude Pack Types World DynLib DynLibFacts Sim Intervention InterventionFacts Headers HeadersFacts Brigade Phase1Facts FilterOut.
Local Open Scope Z_scope.

(** What was passed on, and the error pages produced, in a log. *)
Definition passed (tr : list event) : list brigade :=
  omap (λ e, match e with EvPass bb => Some bb | _ => None end) tr.
Definition died (tr : list event) : list (Z * Z) :=
  omap (λ e, match e with EvDie s p => Some (s, p) | _ => None end) tr.

Lemma passed_app t1 t2 : passed (t1 ++ t2) = passed t1 ++ passed t2.
Proof. apply omap_app. Qed.
Lemma died_app t1 t2 : died (t1 ++ t2) = died t1 ++ died t2.
Proof. apply omap_app. Qed.

(** Did the filter leave the chain? *)
Definition left_chain (tr : list event) : bool :=
  existsb (λ e, match e with EvRemoveOutputFilter _ => true | _ => false end) tr.

(** Nothing was sent, neither the response nor an error page, and the filter
    stayed. *)
Definition silent (tr : list event) : Prop := passed tr = [] ∧ died tr = [] ∧ left_chain tr = false.

Lemma silent_app t1 t2 : silent t1 → silent t2 → silent (t1 ++ t2).
Proof.
  intros (H1 & H2 & H3) (H4 & H5 & H6). unfold silent, left_chain in *.
  by rewrite passed_app, died_app, existsb_app, H1, H2, H3, H4, H5, H6.
Qed.

Lemma intervention_silent tr : Forall intervention_event tr → silent tr.
Proof.
  induction 1 as [|e tr He _ IH]; [done|]. apply (silent_app [e]); [|done].
  by destruct e.
Qed.

Lemma submission_silent tr : Forall submission_event tr → silent tr.
Proof.
  induction 1 as [|e tr He _ IH]; [done|]. apply (silent_app [e]); [|done].
  by destruct e.
Qed.

Section filter_out_facts.
Context {X : Type} `{!Libcoraza X, !Httpd X, Pool0 : !Pool}.
Implicit Types w : world X.

(** Only context [c] changed, to [x], and [tr] was logged. *)
Definition only c x tr w w' : Prop :=
  ∃ e, w' = set_ctxs (λ m, <[c := x]> m) (ext e tr w).

Lemma only_refl w c x : ctxs w !! c = Some x → only c x [] w w.
Proof. intros Hx. exists (env w). by rewrite ext_nil, set_ctxs_id. Qed.
Lemma only_trans w1 w2 w3 c x y t1 t2 :
  only c x t1 w1 w2 → only c y t2 w2 w3 → only c y (t1 ++ t2) w1 w3.
Proof.
  intros [e1 ->] [e2 ->]. exists e2. unfold set_ctxs, ext, set_trace, set_env. simpl.
  by rewrite insert_insert_eq, app_assoc.
Qed.
Lemma only_ext w w' c x tr e t : only c x tr w w' → only c x (tr ++ t) w (ext e t w').
Proof.
  intros [e1 ->]. exists e. unfold set_ctxs, ext, set_trace, set_env. simpl. by rewrite app_assoc.
Qed.
Lemma only_ctx w w' c x y tr :
  only c x tr w w' → only c y tr w (set_ctxs (λ m, <[c := y]> m) w').
Proof.
  intros [e1 ->]. exists e1. unfold set_ctxs, ext, set_trace, set_env. simpl.
  by rewrite insert_insert_eq.
Qed.
Lemma only_lookup w w' c x tr : only c x tr w w' → ctxs w' !! c = Some x.
Proof. intros [e ->]. apply lookup_insert_eq. Qed.
Lemma only_trace w w' c x tr : only c x tr w w' → trace w' = trace w ++ tr ∧ reqs w' = reqs w.
Proof. by intros [e ->]. Qed.
Lemma only_in_request w w' r q c t x tr :
  only c x tr w w' → transaction x = t → in_request w r q c t → in_request w' r q c t.
Proof.
  intros [e ->] Ht []. constructor; try done. exists x. split; [apply lookup_insert_eq|done].
Qed.

(** ** Refusals *)

(** The response is refused: nothing of it was sent after [w]; the filter left
    the chain and will pass an error page through.  With the headers still
    held ([held]) there is exactly one error page, produced as the first error
    of the request, unless the connection was dropped; otherwise the response is
    cut. *)
Definition refused f c (held : bool) rv w w' : Prop :=
  intervention_triggered <$> ctxs w' !! c = Some true
  ∧ ∃ tr, trace w' = trace w ++ tr ∧ EvRemoveOutputFilter f ∈ tr ∧ passed tr = []
    ∧ (rv = AP_FILTER_ERROR ∧ held = true ∧ (∃ s, 0 < s ∧ died tr = [(s, HTTP_OK)])
       ∨ rv = APR_ECONNABORTED ∧ died tr = [] ∧ c_aborted (conn w') = true
          ∧ c_keepalive_close (conn w') = true
       ∨ rv = APR_EGENERAL ∧ held = false ∧ died tr = []).

Lemma refused_from f c held rv w w1 w' tr :
  trace w1 = trace w ++ tr → silent tr → refused f c held rv w1 w' → refused f c held rv w w'.
Proof.
  intros Ht (Hp & Hd & _) (H1 & tr' & Ht' & Hrm & Hp' & Hor). split; [done|]. exists (tr ++ tr').
  rewrite Ht', Ht, app_assoc, passed_app, died_app, Hp, Hd. split_and!; [done| |done|done].
  apply elem_of_app. by right.
Qed.

(** ** Why a response is refused *)

(** A call to the engine, or the inspection of a bucket, failed; or a poll
    reported an intervention. *)
Inductive verdict :=
| Failed
| Denied (it : coraza_intervention_t).

Definition verdict_status (v : verdict) : Z :=
  match v with Failed => HTTP_INTERNAL_SERVER_ERROR | Denied it => enforced_status it end.

(** Is the connection dropped?  [coraza_drop_connection] follows from this
    intervention or from an earlier one that dropped. *)
Definition drops (x : coraza_request_ctx_t) (v : verdict) : bool :=
  match v with Failed => false | Denied it => drop_connection x || is_drop it end.

(** What the poll logs after reporting the intervention. *)
Definition enforcement (t : Z) (v : verdict) (tr : list event) : Prop :=
  match v with
  | Failed => tr = []
  | Denied it => Forall intervention_event tr
      ∧ calls tr = [UpdateStatusCode t (enforced_status it); FreeIntervention it]
  end.

Lemma enforcement_silent t v tr : enforcement t v tr → silent tr.
Proof. destruct v; simpl; [by intros ->|intros [H _]; by apply intervention_silent]. Qed.

Lemma verdict_status_pos v : 0 < verdict_status v.
Proof. destruct v; [done|apply enforced_status_pos]. Qed.

(** [coraza_drop_response]; an error page, only while the headers are held;
    the response cut off, with the connection left as it was. *)
Inductive ending f r (drop held : bool) (s : Z) w w' : apr_status → list event → Prop :=
| en_drop q : drop = true → reqs w' !! r = Some q → r_status q = HTTP_FORBIDDEN →
    c_aborted (conn w') = true → c_keepalive_close (conn w') = true →
    ending f r drop held s w w' APR_ECONNABORTED [EvRemoveOutputFilter f]
| en_page : drop = false → held = true → conn w' = conn w →
    ending f r drop held s w w' AP_FILTER_ERROR [EvRemoveOutputFilter f; EvDie s HTTP_OK]
| en_cut q : drop = false → held = false → reqs w' !! r = Some q → r_status q = s →
    conn w' = conn w →
    ending f r drop held s w w' APR_EGENERAL [EvRemoveOutputFilter f].

(** The context's denial is recorded and nothing is held any more. *)
Definition denied_ctx c w' : Prop :=
  ∃ y, ctxs w' !! c = Some y ∧ intervention_triggered y = true ∧ headers_delayed y = false.

Definition ended f r c drop held s rv w w' : Prop :=
  denied_ctx c w' ∧ ∃ e, trace w' = trace w ++ e ∧ ending f r drop held s w w' rv e.

(** The response, of which [pre] was logged, is refused for reason [v]; [x] is
    its context before. *)
Definition refusal f r c x v held pre rv w w' : Prop :=
  denied_ctx c w' ∧ ∃ n e, trace w' = trace w ++ pre ++ n ++ e
    ∧ enforcement (transaction x) v n
    ∧ ending f r (drops x v) held (verdict_status v) w w' rv e.

(** [tr] was logged and the connection left alone. *)
Definition since tr w w1 : Prop := trace w1 = trace w ++ tr ∧ conn w1 = conn w.

Lemma since_trans t1 t2 w1 w2 w3 : since t1 w1 w2 → since t2 w2 w3 → since (t1 ++ t2) w1 w3.
Proof. intros [E1 H1] [E2 H2]. split; [by rewrite E2, E1, app_assoc|congruence]. Qed.
Lemma since_ext w e tr : since tr w (ext e tr w).
Proof. done. Qed.
Lemma since_only w w' c x tr : only c x tr w w' → since tr w w'.
Proof. by intros [e ->]. Qed.

Lemma ending_from f r drop held s w w1 w' rv e :
  conn w1 = conn w → ending f r drop held s w1 w' rv e → ending f r drop held s w w' rv e.
Proof.
  intros H [q| |q]; [by eapply en_drop|apply en_page; congruence|eapply en_cut; [..|by rewrite <- H]; done].
Qed.

Lemma ended_ctxs f r c drop held s rv w w' g :
  ended f r c drop held s rv (set_ctxs g w) w' → ended f r c drop held s rv w w'.
Proof. intros (Hden & e & E & He). split; [done|]. exists e. split; [done|]. by eapply ending_from; [|exact He]. Qed.

Lemma refusal_from f r c x y v held pre tr rv w w1 w' :
  since tr w w1 → transaction y = transaction x → drop_connection y = drop_connection x →
  refusal f r c y v held pre rv w1 w' → refusal f r c x v held (tr ++ pre) rv w w'.
Proof.
  intros [Ht Hc] Et Ed (Hden & n & e & E & Hn & He). split; [done|]. exists n, e.
  split_and!; [by rewrite E, Ht, <- !app_assoc|by rewrite <- Et|].
  replace (drops x v) with (drops y v) by (destruct v; simpl; congruence).
  by eapply ending_from.
Qed.

Lemma ended_failed f r c x held pre rv w w1 w' :
  since pre w w1 → ended f r c false held HTTP_INTERNAL_SERVER_ERROR rv w1 w' →
  refusal f r c x Failed held pre rv w w'.
Proof.
  intros [Ht Hc] (Hden & e & E & He). split; [done|]. exists [], e.
  split_and!; [by rewrite E, Ht, <- app_assoc|done|by eapply ending_from].
Qed.

Lemma refusal_refused f r c x v held pre rv w w' :
  silent pre → refusal f r c x v held pre rv w w' → refused f c held rv w w'.
Proof.
  intros Hpre ((y & Hy & Hi & _) & n & e & E & Hn%enforcement_silent & He).
  split; [by rewrite Hy, <- Hi|]. exists (pre ++ n ++ e).
  destruct (silent_app _ _ Hpre Hn) as (Hp & Hd & _). rewrite (app_assoc pre), passed_app, died_app, Hp, Hd.
  assert (EvRemoveOutputFilter f ∈ e) as Hin by (destruct He; by left).
  split_and!; [by rewrite E, <- app_assoc|apply elem_of_app; by right|by destruct He|].
  destruct He as [q| |q]; [right; by left|left|right; by right].
  split_and!; [done|done|]. exists (verdict_status v). split; [apply verdict_status_pos|done].
Qed.

Lemma step_out_wp f c x (Q : unit → world X → Prop) w :
  ctxs w !! c = Some x →
  Q tt (set_ctxs (λ m, <[c := set_intervention_triggered (λ _, true) x]> m)
         (ext (env w) [EvRemoveOutputFilter f] w)) →
  wp (step_out f c) Q w.
Proof. intros Hx HQ. unfold step_out. by repeat act_step. Qed.

Lemma die_wp s r q (Q : unit → world X → Prop) w :
  reqs w !! r = Some q →
  (∀ q' e, Q tt (set_reqs (λ m, <[r := q']> m) (ext e [EvDie s HTTP_OK] w))) →
  wp (coraza_die s r) Q w.
Proof.
  intros Hq HQ. unfold coraza_die. do 8 act_step. rename a into q'. act_step. simpl in *.
  specialize (HQ q' x). unfold ext, set_reqs, set_trace, set_env in *. simpl in *.
  by rewrite !insert_insert_eq.
Qed.

Lemma discard_wp c x p (Q : unit → world X → Prop) w :
  ctxs w !! c = Some x → pending_brigade x = Some p →
  Q tt (set_ctxs (λ m, <[c := set_pending_brigade (λ _, Some []) (set_headers_delayed (λ _, false) x)]> m) w) →
  wp (discard_pending c) Q w.
Proof.
  intros Hx Hp HQ. unfold discard_pending. do 4 act_step. simpl. rewrite Hp. act_step.
  unfold set_ctxs in *. simpl in *. by rewrite insert_insert_eq.
Qed.

(** While headers are held there is a pending brigade. *)
Definition can_discard (x : coraza_request_ctx_t) : Prop :=
  headers_delayed x = true → ∃ p, pending_brigade x = Some p.

(** The refusals of a request that is set up: context [c] is [x]. *)
Section refusals.
Variables (f : ap_filter_t) (r : nat) (c : nat) (x : coraza_request_ctx_t).

Lemma drop_response_wp held s q (Q : apr_status * brigade → world X → Prop) w :
  reqs w !! r = Some q → ctxs w !! c = Some x → can_discard x →
  (∀ rv w', ended f r c true held s rv w w' → Q (rv, []) w') →
  wp (coraza_drop_response f r c) Q w.
Proof.
  intros Hq Hx Hd HQ. unfold coraza_drop_response. act_step. eapply step_out_wp; [exact Hx|].
  do 3 act_step. simpl.
  assert (Hend : ∀ y w1, reqs w1 !! r = Some q → ctxs w1 !! c = Some y →
    intervention_triggered y = true → headers_delayed y = false →
    trace w1 = trace w ++ [EvRemoveOutputFilter f] →
    wp (coraza_drop_connection r ;; mret (APR_ECONNABORTED, [])) Q w1).
  { intros y w1 Hq1 Hy Ht Hh Htr. unfold coraza_drop_connection. repeat act_step. apply HQ.
    split; [by exists y|]. exists [EvRemoveOutputFilter f]. split; [done|].
    eapply en_drop; [done|apply lookup_insert_eq|done..]. }
  act_step.
  - destruct (Hd H) as [p Hp].
    eapply discard_wp; [apply lookup_insert_eq|exact Hp|].
    eapply Hend; [done|apply lookup_insert_eq|done..].
  - eapply Hend; [done|apply lookup_insert_eq|done|done|done].
Qed.

(** An error page while nothing was sent. *)
Lemma die_ended_wp s y q (Q : apr_status * brigade → world X → Prop) w w1 :
  reqs w1 !! r = Some q → ctxs w1 !! c = Some y → intervention_triggered y = true →
  headers_delayed y = false → since [EvRemoveOutputFilter f] w w1 →
  (∀ rv w', ended f r c false true s rv w w' → Q (rv, []) w') →
  wp (coraza_die s r ;; mret (AP_FILTER_ERROR, [])) Q w1.
Proof.
  intros Hq Hy Ht Hh [Htr Hcn] HQ. act_step. eapply die_wp; [exact Hq|]. intros q' e. apply wp_ret, HQ.
  split; [by exists y|]. exists [EvRemoveOutputFilter f; EvDie s HTTP_OK].
  split; [simpl; by rewrite Htr, <- app_assoc|by apply en_page].
Qed.

Lemma fail_closed_headers_wp q (Q : apr_status * brigade → world X → Prop) w :
  reqs w !! r = Some q → ctxs w !! c = Some x → headers_delayed x = false →
  (∀ rv w', ended f r c false true HTTP_INTERNAL_SERVER_ERROR rv w w' → Q (rv, []) w') →
  wp (coraza_fail_closed_headers f r c) Q w.
Proof.
  intros Hq Hx Hh HQ. unfold coraza_fail_closed_headers. act_step.
  eapply step_out_wp; [exact Hx|].
  eapply die_ended_wp with (w := w); [exact Hq|apply lookup_insert_eq|done|exact Hh|done|exact HQ].
Qed.

Lemma deny_headers_wp ret q (Q : apr_status * brigade → world X → Prop) w :
  reqs w !! r = Some q → ctxs w !! c = Some x → headers_delayed x = false →
  (∀ rv w', ended f r c (drop_connection x) true ret rv w w' → Q (rv, []) w') →
  wp (deny_headers f r c ret) Q w.
Proof.
  intros Hq Hx Hh HQ. unfold deny_headers. do 2 act_step. destruct (drop_connection x).
  { eapply drop_response_wp; [done|done|by intros E; rewrite Hh in E|exact HQ]. }
  act_step. eapply step_out_wp; [exact Hx|].
  eapply die_ended_wp with (w := w); [exact Hq|apply lookup_insert_eq|done|exact Hh|done|exact HQ].
Qed.

(** With the headers held an error page, otherwise the response is cut. *)
Lemma cut_or_die_wp s y m q (Q : apr_status * brigade → world X → Prop) w w1 :
  reqs w1 !! r = Some q → ctxs w1 !! c = Some y → intervention_triggered y = true →
  can_discard y → since [EvRemoveOutputFilter f] w w1 →
  (∀ rv w', ended f r c false (headers_delayed y) s rv w w' → Q (rv, []) w') →
  (headers_delayed y = false → wp m Q w1) →
  wp (ctx ← get_ctx c;
      if headers_delayed ctx then
        discard_pending c ;; coraza_die s r ;; mret (AP_FILTER_ERROR, [])
      else m) Q w1.
Proof.
  intros Hq Hy Ht Hd Htr HQ Hm. do 2 act_step. destruct (headers_delayed y) eqn:Hh.
  - destruct (Hd Hh) as [p Hp]. act_step. eapply discard_wp; [exact Hy|exact Hp|].
    eapply die_ended_wp with (w := w); [exact Hq|apply lookup_insert_eq|done|done|done|exact HQ].
  - by apply Hm.
Qed.

(** The response is cut: an error without an error page. *)
Lemma cut_ended s y q w w' :
  ctxs w' !! c = Some y → intervention_triggered y = true → headers_delayed y = false →
  reqs w' !! r = Some q → r_status q = s → since [EvRemoveOutputFilter f] w w' →
  ended f r c false false s APR_EGENERAL w w'.
Proof.
  intros Hy Ht Hh Hq Hs [Htr Hcn]. split; [by exists y|]. exists [EvRemoveOutputFilter f].
  split; [done|]. by eapply en_cut.
Qed.

Lemma fail_closed_response_wp q (Q : apr_status * brigade → world X → Prop) w :
  reqs w !! r = Some q → ctxs w !! c = Some x → can_discard x →
  (∀ rv w', ended f r c false (headers_delayed x) HTTP_INTERNAL_SERVER_ERROR rv w w' → Q (rv, []) w') →
  wp (coraza_fail_closed_response f r c) Q w.
Proof.
  intros Hq Hx Hd HQ. unfold coraza_fail_closed_response. act_step.
  eapply step_out_wp; [exact Hx|]. do 2 act_step.
  eapply (cut_or_die_wp _ (set_intervention_triggered (λ _, true) x)) with (w := w);
    [apply lookup_insert_eq|apply lookup_insert_eq|done|done|done|exact HQ|].
  intros Hh. apply wp_ret, HQ. simpl in Hh. rewrite Hh.
  eapply cut_ended; [apply lookup_insert_eq|done|done|apply lookup_insert_eq|done|done].
Qed.

Lemma deny_body_wp ret q (Q : apr_status * brigade → world X → Prop) w :
  reqs w !! r = Some q → ctxs w !! c = Some x → can_discard x →
  (∀ rv w', ended f r c (drop_connection x) (headers_delayed x) ret rv w w' → Q (rv, []) w') →
  wp (deny_body f r c ret) Q w.
Proof.
  intros Hq Hx Hd HQ. unfold deny_body. do 2 act_step. destruct (drop_connection x).
  { by eapply drop_response_wp. }
  act_step. eapply step_out_wp; [exact Hx|].
  eapply (cut_or_die_wp _ (set_intervention_triggered (λ _, true) x)) with (w := w);
    [exact Hq|apply lookup_insert_eq|done|done|done|exact HQ|].
  intros Hh. repeat act_step. apply HQ. simpl in Hh. rewrite Hh.
  eapply cut_ended; [apply lookup_insert_eq|done|done|apply lookup_insert_eq|done|done].
Qed.
End refusals.

(** ** Responses in progress *)

(** What the header delay keeps: set aside, counted, within the bound. *)
Record hold_ok (x : coraza_request_ctx_t) (p : brigade) : Prop := {
  ho_pending : pending_brigade x = Some p;
  ho_stable : Forall stable p;
  ho_len : pending_len x = Z.of_nat (length (body_of p));
  ho_bound : pending_len x ≤ CORAZA_MAX_DELAYED_BODY }.

(** Filter [f] is inspecting the response of request [r]. *)
Record open_response w (f : ap_filter_t) r q c x : Prop := {
  op_in : in_request w r q c (transaction x);
  op_ctx : ctxs w !! c = Some x;
  op_filter : f_ctx f = Some c;
  op_r : f_r f = r;
  op_live : intervention_triggered x = false;
  op_hold : headers_delayed x = true → ∃ p, hold_ok x p;
  op_fresh : phase3_done x = false → headers_delayed x = false ∧ pending_len x = 0 }.

Lemma open_can_discard w f r q c x : open_response w f r q c x → can_discard x.
Proof. intros [] Hh. destruct (op_hold0 Hh) as [p []]. by exists p. Qed.

(** A refusal from a state where [deny] starts. *)
Definition denies (deny : Z → M (world X) (apr_status * brigade)) f r c x held : Prop :=
  ∀ w q y ret, reqs w !! r = Some q → ctxs w !! c = Some y →
    headers_delayed y = headers_delayed x → pending_brigade y = pending_brigade x →
    wp (deny ret) (λ a w', a.2 = [] ∧ ended f r c (drop_connection y) held ret a.1 w w') w.

Lemma poll_response_wp w f r q c x deny held (Q : option (apr_status * brigade) → world X → Prop) :
  in_request w r q c (transaction x) → ctxs w !! c = Some x → denies deny f r c x held →
  (∀ e, Q None (ext e [EvIntervention (transaction x) None] w)) →
  (∀ it rv w', refusal f r c x (Denied it) held [EvIntervention (transaction x) (Some it)] rv w w' →
     Q (Some (rv, [])) w') →
  wp (poll_response r c deny) Q w.
Proof.
  intros [Hdl Hq Hc Hdir _] Hx Hdeny HN HS. unfold poll_response. do 3 act_step.
  eapply process_intervention_wp; [done|done|done|done|done| |].
  - intros e _. rewrite bool_decide_eq_false_2 by (unfold OK; lia). apply wp_ret, HN.
  - intros it e w' _ [_ Hcn Hcx Hrq (tr & Ht & Hev & Hcl)].
    rewrite bool_decide_eq_true_2 by (pose proof (enforced_status_pos it); lia). act_step.
    eapply wp_mono; [eapply Hdeny|].
    + rewrite Hrq. apply lookup_insert_eq.
    + rewrite Hcx. apply lookup_insert_eq.
    + done.
    + done.
    + intros [rv bb'] w2 [H1 (Hden & e2 & E2 & H2)]. simpl in *. subst bb'. apply wp_ret, (HS it).
      split; [done|]. exists tr, e2. split_and!; [|by split|by eapply ending_from].
      by rewrite E2, Ht, <- app_assoc.
Qed.

Lemma denies_headers f r c x : headers_delayed x = false → denies (deny_headers f r c) f r c x true.
Proof.
  intros Hd w q y ret Hq Hy Hh Hp. eapply deny_headers_wp; [exact Hq|exact Hy|congruence|].
  by intros.
Qed.
Lemma denies_body f r c x : can_discard x → denies (deny_body f r c) f r c x (headers_delayed x).
Proof.
  intros Hd w q y ret Hq Hy Hh Hp. eapply deny_body_wp; [exact Hq|exact Hy| |].
  - intros H. rewrite Hh in H. rewrite Hp. by apply Hd.
  - rewrite Hh. by intros.
Qed.

Lemma pass_wp bb (Q : apr_status * brigade → world X → Prop) w :
  (∀ a e, Q a (ext e [EvPass bb] w)) → wp (pass_to_next bb) Q w.
Proof.
  intros HQ. unfold pass_to_next. do 3 act_step. specialize (HQ a x).
  unfold ext, set_trace, set_env in *. done.
Qed.

(** ** The bound *)
Definition sized (bb : brigade) : Prop := Forall (λ b, Z.of_nat (length (data_of b)) < 2 ^ 63) bb.

(** The context after [n] more bytes were counted. *)
Definition counted (n : Z) (x : coraza_request_ctx_t) : coraza_request_ctx_t :=
  if headers_delayed x then set_pending_len (λ m, m + n) x else x.

Lemma counted_0 x : counted 0 x = x.
Proof.
  unfold counted, set_pending_len. destruct x as [??? [] ????????]; cbn -[Z.add]; [f_equal; lia|done].
Qed.
Lemma counted_add m n x : counted n (counted m x) = counted (m + n) x.
Proof.
  unfold counted, set_pending_len. destruct x as [??? [] ????????]; cbn -[Z.add]; [f_equal; lia|done].
Qed.
Lemma counted_delayed n x : headers_delayed (counted n x) = headers_delayed x.
Proof. unfold counted. by destruct x as [??? [] ????????]. Qed.

Lemma counted_pending n x :
  headers_delayed x = true → pending_len (counted n x) = pending_len x + n.
Proof. intros Hh. unfold counted. by rewrite Hh. Qed.
Lemma counted_drop n x : drop_connection (counted n x) = drop_connection x.
Proof. unfold counted. by destruct (headers_delayed x). Qed.
Lemma counted_same n x :
  transaction (counted n x) = transaction x ∧ pending_brigade (counted n x) = pending_brigade x
  ∧ intervention_triggered (counted n x) = intervention_triggered x
  ∧ response_body_processable (counted n x) = response_body_processable x.
Proof. unfold counted. by destruct (headers_delayed x). Qed.

(** Handing one bucket to the engine, and the poll after it. *)
Definition appended (x : coraza_request_ctx_t) (d : bytes) : list event :=
  if bool_decide (Z.of_nat (length d) > 0) && response_body_processable x
  then [EvCall (AppendResponseBody (transaction x) d (Z.of_nat (length d))) 0;
        EvIntervention (transaction x) None]
  else [].
Definition scan_events (x : coraza_request_ctx_t) (bb : brigade) : list event :=
  bb ≫= λ b, match b with Data _ d => appended x d | _ => [] end.

Lemma appended_counted n x d : appended (counted n x) d = appended x d.
Proof. unfold appended. by destruct (counted_same n x) as (-> & _ & _ & ->). Qed.
Lemma scan_events_counted n x bb : scan_events (counted n x) bb = scan_events x bb.
Proof.
  unfold scan_events. induction bb as [|b bb IH]; [done|]. rewrite !bind_cons, IH.
  destruct b; by rewrite ?appended_counted.
Qed.
Lemma appended_silent x d : silent (appended x d).
Proof. unfold appended. by destruct (bool_decide _ && _). Qed.
Lemma scan_silent x bb : silent (scan_events x bb).
Proof.
  unfold scan_events. induction bb as [|b bb IH]; [done|]. rewrite bind_cons.
  apply silent_app; [|done]. destruct b; [apply appended_silent|done..].
Qed.

Definition readable (bb : brigade) : Prop :=
  Forall (λ b, match b with Unreadable _ => False | _ => True end) bb.
Definition has_eos (bb : brigade) : bool := bool_decide (Eos ∈ bb).
Definition body_len (bb : brigade) : Z := Z.of_nat (length (body_of bb)).

Lemma body_len_cons b bb : body_len (b :: bb) = Z.of_nat (length (data_of b)) + body_len bb.
Proof. unfold body_len. rewrite body_of_cons, length_app. lia. Qed.
Lemma has_eos_cons b bb : has_eos (b :: bb) = bool_decide (b = Eos) || has_eos bb.
Proof. unfold has_eos. rewrite <- bool_decide_or. apply bool_decide_ext. rewrite elem_of_cons. naive_solver. Qed.

(** The response is released early: the data bucket [d], after the buckets
    [b1] of this brigade were counted and inspected, passed the bound; the held
    part and the current brigade go out together and the filter leaves. *)
Definition released_early f c x bb (b1 : brigade) (d : bytes) w w' : Prop :=
  ∃ p y msg, pending_brigade x = Some p ∧ headers_delayed x = true
    ∧ pending_len x + body_len b1 ≤ CORAZA_MAX_DELAYED_BODY
    ∧ CORAZA_MAX_DELAYED_BODY < pending_len x + body_len b1 + Z.of_nat (length d)
    ∧ ctxs w' !! c = Some y ∧ headers_delayed y = false ∧ pending_brigade y = None
    ∧ intervention_triggered y = intervention_triggered x
    ∧ reqs w' = reqs w
    ∧ trace w' = trace w ++ scan_events x b1
        ++ [EvLog APLOG_WARNING msg; EvRemoveOutputFilter f; EvPass (p ++ bb)].

Lemma bound_delay_wp w f c x bb d (Q : option (apr_status * brigade) → world X → Prop) :
  let n := Z.of_nat (length d) in
  ctxs w !! c = Some x → can_discard x → n < 2 ^ 63 →
  (headers_delayed x = true → 0 ≤ pending_len x ≤ CORAZA_MAX_DELAYED_BODY) →
  (∀ w', only c (counted n x) [] w w' →
     (headers_delayed x = true → pending_len x + n ≤ CORAZA_MAX_DELAYED_BODY) → Q None w') →
  (∀ a w', released_early f c x bb [] d w w' → Q (Some a) w') →
  wp (bound_delay f c bb n) Q w.
Proof.
  intros n Hx Hd Hn Hb HN HS. assert (0 ≤ n) by (unfold n; lia).
  unfold bound_delay. do 2 act_step.
  destruct (headers_delayed x && bool_decide (n > 0)) eqn:E.
  - apply andb_true_iff in E as [Hh Hpos%bool_decide_eq_true]. specialize (Hb Hh).
    do 4 act_step. simpl.
    assert (wrap64 (pending_len x + n) = pending_len x + n) as Hw
      by (unfold wrap64; apply Z.mod_small; unfold CORAZA_MAX_DELAYED_BODY in *; lia).
    rewrite Hw. case_goal as Hover.
    + destruct (Hd Hh) as [p Hp]. do 7 act_step. unfold prepend_pending. do 2 act_step. simpl.
      rewrite Hp. do 6 act_step. apply pass_wp. intros a e. apply wp_ret, HS.
      exists p. eexists _, _. unfold body_len, n in *. simpl body_of. rewrite Z.add_0_r.
      split_and!; [done|done|lia|lia|apply lookup_insert_eq|done|done|done|done|].
      simpl. by rewrite <- !app_assoc.
    + apply wp_ret, HN; [|intros; lia]. unfold counted. rewrite Hh. exists (env w).
      rewrite ext_nil. unfold set_pending_len. by rewrite Hw.
  - apply wp_ret, HN.
    + apply andb_false_iff in E as [E|E%bool_decide_eq_false].
      * unfold counted. rewrite E. by apply only_refl.
      * replace n with 0 by lia. rewrite counted_0. by apply only_refl.
    + intros Hh. rewrite Hh in E. simpl in E. apply bool_decide_eq_false in E.
      specialize (Hb Hh). lia.
Qed.

(** One bucket more in front of the one that passed the bound. *)
Lemma released_early_from f c x bb k d0 b1 d w w1 w' :
  only c (counted (Z.of_nat (length d0)) x) (appended x d0) w w1 →
  released_early f c (counted (Z.of_nat (length d0)) x) bb b1 d w1 w' →
  released_early f c x bb (Data k d0 :: b1) d w w'.
Proof.
  intros [e ->] (p & y & msg & Hp & Hh & Hle & Hover & Hy & Hyd & Hyp & Hyi & Hrq & Ht).
  destruct (counted_same (Z.of_nat (length d0)) x) as (_ & Epb & Ein & _).
  rewrite counted_delayed in Hh. rewrite counted_pending in * by done.
  exists p, y, msg. rewrite <- Epb, <- Ein, body_len_cons. simpl data_of.
  split_and!; try done; [lia..|]. rewrite Ht, scan_events_counted. simpl. by rewrite <- !app_assoc.
Qed.

(** ** Inspecting the body *)

(** Why one bucket ends the response. *)
Inductive data_verdict (x : coraza_request_ctx_t) (d : bytes) : verdict → list event → Prop :=
| dv_too_large msg : INT_MAX < Z.of_nat (length d) →
    data_verdict x d Failed [EvLog APLOG_ERR msg]
| dv_rejected rc : rc ≠ 0 →
    data_verdict x d Failed
      [EvCall (AppendResponseBody (transaction x) d (Z.of_nat (length d))) rc]
| dv_denied it :
    data_verdict x d (Denied it)
      [EvCall (AppendResponseBody (transaction x) d (Z.of_nat (length d))) 0;
       EvIntervention (transaction x) (Some it)].

(** Why the loop over the buckets ends the response: the buckets before were
    inspected. *)
Inductive scan_verdict (x : coraza_request_ctx_t) : brigade → verdict → list event → Prop :=
| sv_unreadable rv rest msg :
    scan_verdict x (Unreadable rv :: rest) Failed [EvLog APLOG_ERR msg]
| sv_data k d rest v tr :
    d ≠ [] → response_body_processable x = true → data_verdict x d v tr →
    scan_verdict x (Data k d :: rest) v tr
| sv_later b rest v tr :
    readable [b] → scan_verdict x rest v tr →
    scan_verdict x (b :: rest) v (scan_events x [b] ++ tr).

Lemma data_verdict_silent x d v tr : data_verdict x d v tr → silent tr.
Proof. by destruct 1. Qed.
Lemma scan_verdict_silent x bb v tr : scan_verdict x bb v tr → silent tr.
Proof.
  induction 1 as [|k d rest v tr _ _ H|b rest v tr _ _ IH]; [done|by eapply data_verdict_silent|].
  apply silent_app; [apply scan_silent|done].
Qed.
Lemma data_verdict_counted n x d v tr : data_verdict (counted n x) d v tr → data_verdict x d v tr.
Proof. destruct (counted_same n x) as (E & _). destruct 1; rewrite ?E; by constructor. Qed.
Lemma scan_verdict_counted n x bb v tr : scan_verdict (counted n x) bb v tr → scan_verdict x bb v tr.
Proof.
  induction 1 as [|k d rest v tr Hd Hp H|b rest v tr Hr H IH].
  - constructor.
  - apply sv_data; [done| |by eapply data_verdict_counted].
    destruct (counted_same n x) as (_ & _ & _ & E). by rewrite <- E.
  - rewrite scan_events_counted. by constructor.
Qed.

Lemma inspect_data_wp w f r q c x d (Q : option (apr_status * brigade) → world X → Prop) :
  in_request w r q c (transaction x) → ctxs w !! c = Some x → can_discard x →
  (∀ e, Q None (ext e (appended x d) w)) →
  (∀ v tr rv w', d ≠ [] → response_body_processable x = true → data_verdict x d v tr →
     refusal f r c x v (headers_delayed x) tr rv w w' → Q (Some (rv, [])) w') →
  wp (inspect_data f r c d) Q w.
Proof.
  intros Hin Hx Hd HN HS. pose proof Hin as [Hdl Hq _ _ _].
  unfold inspect_data, appended in *. do 2 act_step. cbv zeta.
  destruct (bool_decide (Z.of_nat (length d) > 0) && response_body_processable x) eqn:E.
  2: { apply wp_ret. rewrite <- (ext_nil w). apply HN. }
  apply andb_true_iff in E as [E1%bool_decide_eq_true E2].
  assert (d ≠ []) as Hne by (intros ->; done).
  assert (Hfail : ∀ e tr, data_verdict x d Failed tr →
    wp (coraza_fail_closed_response f r c) (λ a w2, wp (mret (Some a)) Q w2) (ext e tr w)).
  { intros e tr Hv. eapply (fail_closed_response_wp f r c x q); [exact Hq|exact Hx|exact Hd|].
    intros rv w' Href. eapply wp_ret, HS; [done|done|exact Hv|]. by eapply ended_failed; [|exact Href]. }
  case_goal as Hmax.
  { do 2 act_step. rewrite ext_log. act_step. apply Hfail. constructor. lia. }
  act_step. apply wp_dl_call; [done|done|]. intros rc e _. rewrite ext_after.
  unfold CORAZA_CALL_FAILED. case_goal as Hrc.
  { act_step. apply Hfail. by constructor. }
  apply dec_stable in Hrc as ->. eapply poll_response_wp with (x := x).
  - by apply in_request_ext.
  - exact Hx.
  - by apply denies_body.
  - intros e'. rewrite ext_ext. apply HN.
  - intros it rv w' Href. eapply HS; [done|done|apply dv_denied|].
    exact (refusal_from _ _ _ x x _ _ _ [_] _ _ _ _ (since_ext _ _ _) eq_refl eq_refl Href).
Qed.

(** One data bucket, then [K]. *)
Lemma scan_data_wp f r q c bb d w x K (Q : (apr_status * brigade) + bool → world X → Prop) :
  let n := Z.of_nat (length d) in
  in_request w r q c (transaction x) → ctxs w !! c = Some x → can_discard x →
  (headers_delayed x = true → 0 ≤ pending_len x ≤ CORAZA_MAX_DELAYED_BODY) → n < 2 ^ 63 →
  (∀ w', only c (counted n x) (appended x d) w w' →
     (headers_delayed x = true → pending_len x + n ≤ CORAZA_MAX_DELAYED_BODY) → wp K Q w') →
  (∀ a w', released_early f c x bb [] d w w' → Q (inl a) w') →
  (∀ v tr rv w', d ≠ [] → response_body_processable x = true → data_verdict x d v tr →
     refusal f r c x v (headers_delayed x) tr rv w w' → Q (inl (rv, [])) w') →
  wp (o ← bound_delay f c bb n;
      match o with
      | Some a => mret (inl a)
      | None =>
          o ← inspect_data f r c d;
          match o with Some a => mret (inl a) | None => K end
      end) Q w.
Proof.
  intros n Hin Hx Hd Hb Hsz HN HE HS. destruct (counted_same n x) as (Et & Ep & _ & Er).
  act_step. eapply bound_delay_wp; [exact Hx|exact Hd|exact Hsz|exact Hb| |].
  2: { intros a w' Hrel. by apply wp_ret, HE. }
  intros w1 H1 Hle. act_step. eapply (inspect_data_wp _ f r q c (counted n x)).
  - rewrite Et. eapply only_in_request; [exact H1|exact Et|done].
  - by eapply only_lookup.
  - intros Hh. rewrite counted_delayed in Hh. rewrite Ep. by apply Hd.
  - intros e. rewrite appended_counted. apply HN; [|done].
    exact (only_ext _ _ _ _ _ e (appended x d) H1).
  - intros v tr rv w' Hne Hp Hv Href. rewrite counted_delayed in Href. rewrite Er in Hp.
    eapply wp_ret, HS; [done|done|by eapply data_verdict_counted|].
    eapply (refusal_from _ _ _ x (counted n x) _ _ _ []); [by eapply since_only|done| |exact Href].
    apply counted_drop.
Qed.

Lemma body_loop_wp f r q c bb rest : ∀ w x eos (Q : (apr_status * brigade) + bool → world X → Prop),
  in_request w r q c (transaction x) → ctxs w !! c = Some x → can_discard x →
  (headers_delayed x = true → 0 ≤ pending_len x ≤ CORAZA_MAX_DELAYED_BODY) → sized rest →
  (∀ w', only c (counted (body_len rest) x) (scan_events x rest) w w' → readable rest →
     (headers_delayed x = true → pending_len x + body_len rest ≤ CORAZA_MAX_DELAYED_BODY) →
     Q (inr (eos || has_eos rest)) w') →
  (∀ a b1 k d b2 w', rest = b1 ++ Data k d :: b2 → readable b1 →
     released_early f c x bb b1 d w w' → Q (inl a) w') →
  (∀ v tr rv w', scan_verdict x rest v tr →
     refusal f r c x v (headers_delayed x) tr rv w w' → Q (inl (rv, [])) w') →
  wp (body_loop f r c bb rest eos) Q w.
Proof.
  induction rest as [|b rest IH]; intros w x eos Q Hin Hx Hd Hb Hsz HN HE HS; simpl.
  { apply wp_ret. rewrite <- (orb_false_r eos). apply HN.
    - unfold body_len. simpl. rewrite counted_0. by apply only_refl.
    - by constructor.
    - intros Hh. specialize (Hb Hh). unfold body_len. simpl. lia. }
  apply list.Forall_cons_1 in Hsz as [Hsz1 Hsz]. rewrite body_len_cons, has_eos_cons in *.
  destruct b as [k d|rv| |k]; simpl in *.
  - assert (0 ≤ body_len rest)%Z as Hge by (unfold body_len; lia).
    set (n := Z.of_nat (length d)) in *. destruct (counted_same n x) as (Et & Ep & _ & _).
    eapply scan_data_wp; [exact Hin|exact Hx|exact Hd|exact Hb|exact Hsz1| | |].
    2: { intros a w' Hrel. apply (HE a [] k d rest); [done|constructor|done]. }
    2: { intros v tr rv w' Hne Hp Hv Href. by eapply HS; [apply sv_data|]. }
    intros w2 H2 Hle. apply (IH _ (counted n x)).
    + rewrite Et. eapply only_in_request; [exact H2|exact Et|done].
    + by eapply only_lookup.
    + intros Hh. rewrite counted_delayed in Hh. rewrite Ep. by apply Hd.
    + intros Hh. rewrite counted_delayed in Hh. rewrite counted_pending by done.
      specialize (Hle Hh). specialize (Hb Hh). lia.
    + done.
    + intros w' H3 Hrd Hle'. rewrite counted_add, scan_events_counted in H3.
      apply HN; [by eapply only_trans|by constructor|].
      intros Hh. rewrite counted_delayed, counted_pending in Hle' by done. specialize (Hle' Hh). lia.
    + intros a b1 k' d' b2 w' -> Hrd Hrel. apply (HE a (Data k d :: b1) k' d' b2);
        [done|by constructor|]. by eapply released_early_from.
    + intros v tr rv w' Hv Href. rewrite counted_delayed in Href.
      apply scan_verdict_counted in Hv. eapply HS; [apply sv_later; [by repeat constructor|exact Hv]|].
      simpl. rewrite app_nil_r.
      eapply (refusal_from _ _ _ x (counted n x));
        [by eapply since_only|exact Et|apply counted_drop|exact Href].
  - do 2 act_step. rewrite ext_log. act_step. eapply (fail_closed_response_wp f r c x q); [apply Hin|done|done|].
    intros rv' w' Href. eapply wp_ret, HS; [apply sv_unreadable|]. by eapply ended_failed; [|exact Href].
  - eapply IH; try done.
    + intros w' H1 H2 H3. rewrite orb_true_l. specialize (HN w' H1).
      rewrite orb_true_r in HN. apply HN; [by constructor|done].
    + intros a b1 k' d' b2 w' -> Hrd Hrel. by apply (HE a (Eos :: b1) k' d' b2); [|constructor|].
    + intros v tr rv w' Hv Href. by eapply HS; [apply (sv_later _ Eos); [repeat constructor|exact Hv]|].
  - eapply IH; try done.
    + intros w' H1 H2 H3. apply HN; [done|by constructor|done].
    + intros a b1 k' d' b2 w' -> Hrd Hrel. by apply (HE a (Meta k :: b1) k' d' b2); [|constructor|].
    + intros v tr rv w' Hv Href. by eapply HS; [apply (sv_later _ (Meta k)); [repeat constructor|exact Hv]|].
Qed.

(** ** The end of a call *)
Context `{!BrigadeLaws X}.

(** What the filter holds of the response. *)
Definition held_part (x : coraza_request_ctx_t) : brigade :=
  if headers_delayed x then default [] (pending_brigade x) else [].

Lemma prepend_wp c x p bb (Q : brigade → world X → Prop) w :
  ctxs w !! c = Some x → pending_brigade x = Some p →
  Q (p ++ bb) (set_ctxs (λ m, <[c := set_pending_brigade (λ _, Some []) x]> m) w) →
  wp (prepend_pending c bb) Q w.
Proof. intros Hx Hp HQ. unfold prepend_pending. do 2 act_step. rewrite Hp. by repeat act_step. Qed.

(** The response went out after a clean phase 4. *)
Definition released c x (out : brigade) f rc w w' : Prop :=
  0 ≤ rc ∧ reqs w' = reqs w
  ∧ (∃ y, ctxs w' !! c = Some y ∧ headers_delayed y = false ∧ phase4_done y = true
        ∧ intervention_triggered y = intervention_triggered x)
  ∧ trace w' = trace w ++ [EvCall (ProcessResponseBody (transaction x)) rc;
       EvIntervention (transaction x) None; EvRemoveOutputFilter f; EvPass out].

(** The body rules failed, or an intervention followed them. *)
Inductive end_verdict (t : Z) : verdict → list event → Prop :=
| nd_failed rc : rc < 0 → end_verdict t Failed [EvCall (ProcessResponseBody t) rc]
| nd_denied rc it : 0 ≤ rc →
    end_verdict t (Denied it) [EvCall (ProcessResponseBody t) rc; EvIntervention t (Some it)].

Lemma end_verdict_silent t v tr : end_verdict t v tr → silent tr.
Proof. by destruct 1. Qed.

Lemma end_of_body_wp f r q c x bb (Q : apr_status * brigade → world X → Prop) w :
  in_request w r q c (transaction x) → ctxs w !! c = Some x → can_discard x →
  (∀ a rc w', released c x (held_part x ++ bb) f rc w w' → Q a w') →
  (∀ v tr rv w', end_verdict (transaction x) v tr →
     refusal f r c x v (headers_delayed x) tr rv w w' → Q (rv, []) w') →
  wp (end_of_body f r c bb) Q w.
Proof.
  intros Hin Hx Hd HN HS. unfold end_of_body. do 3 act_step.
  apply wp_dl_call; [apply Hin|done|]. intros rc e _. rewrite ext_after.
  unfold coraza_process_failed. case_goal as Hrc.
  { eapply (fail_closed_response_wp f r c x q); [apply Hin|done|done|].
    intros rv w' Href. eapply HS; [by apply nd_failed|]. by eapply ended_failed; [|exact Href]. }
  act_step. eapply poll_response_wp with (x := x) (held := headers_delayed x).
  - by apply in_request_ext.
  - done.
  - intros w1 q1 y ret Hq1 Hy Hh Hp. act_step. eapply wp_upd_ctx; [exact Hy|].
    eapply deny_body_wp; [done|simpl; apply lookup_insert_eq| |].
    + intros H. simpl in *. rewrite Hh in H. rewrite Hp. by apply Hd.
    + intros rv w' Href. simpl in Href. rewrite Hh in Href. split; [done|]. by eapply ended_ctxs.
  - intros e'. rewrite ext_ext. do 4 act_step. simpl. unfold held_part in HN.
    destruct (headers_delayed x) eqn:Hh.
    + destruct (Hd Hh) as [p Hp]. rewrite Hp in HN. do 3 act_step.
      eapply prepend_wp; [simpl; apply lookup_insert_eq|exact Hp|]. do 2 act_step.
      apply pass_wp. intros a e2. apply (HN a rc). split; [lia|]. split; [done|]. split.
      * eexists. split; [simpl; apply lookup_insert_eq|done].
      * simpl. by rewrite <- !app_assoc.
    + do 4 act_step. apply pass_wp. intros a e2. apply (HN a rc). split; [lia|]. split; [done|]. split.
      * eexists. split; [simpl; apply lookup_insert_eq|done].
      * simpl. by rewrite <- !app_assoc.
  - intros it rv w' Href. eapply wp_ret, HS; [apply (nd_denied _ rc); lia|].
    exact (refusal_from _ _ _ x x _ _ _ [_] _ _ _ _ (since_ext _ _ _) eq_refl eq_refl Href).
Qed.

(** The brigade was kept. *)
Lemma hold_wp f r q c x p bb (Q : apr_status * brigade → world X → Prop) w :
  in_request w r q c (transaction x) → ctxs w !! c = Some x →
  headers_delayed x = true → pending_brigade x = Some p → Forall stable p →
  (∀ p' w', content p' = content p ++ content bb → Forall stable p' →
     only c (set_pending_brigade (λ _, Some p') x) [] w w' → Q (APR_SUCCESS, []) w') →
  (∀ msg rv w', refusal f r c x Failed true [EvLog APLOG_ERR msg] rv w w' → Q (rv, []) w') →
  wp (hold_or_pass f r c bb) Q w.
Proof.
  intros Hin Hx Hh Hp Hst HN HS. unfold hold_or_pass. do 2 act_step. rewrite Hh, Hp. simpl.
  do 2 act_step. destruct a as [rv [p' bb']]. rewrite ext_env. do 2 act_step. case_goal as Hrv.
  - do 2 act_step. eapply (fail_closed_response_wp f r c (set_pending_brigade (λ _, Some p') x) q).
    + apply Hin.
    + simpl. apply lookup_insert_eq.
    + intros _. by exists p'.
    + intros rv' w' Href. simpl in Href. rewrite Hh in Href. eapply HS.
      eapply ended_failed; [|exact Href]. split; [|done]. simpl. by rewrite app_nil_r.
  - apply dec_stable in Hrv as ->.
    destruct (save_law _ _ _ _ _ _ _ H eq_refl) as (H1 & -> & H3). apply wp_ret.
    apply (HN p'); [done|by apply H3|]. by exists x0.
Qed.

(** ** One call of the body part

    From a state [w] in which context [c] is [y], with [pre] logged since [w0]. *)
(** Why the response ends in the body part. *)
Inductive body_verdict (y : coraza_request_ctx_t) (bb : brigade) : verdict → list event → Prop :=
| bv_scan v tr : scan_verdict y bb v tr → body_verdict y bb v tr
| bv_end v tr : readable bb → has_eos bb = true → end_verdict (transaction y) v tr →
    body_verdict y bb v (scan_events y bb ++ tr)
| bv_save msg : readable bb → has_eos bb = false → headers_delayed y = true →
    body_verdict y bb Failed (scan_events y bb ++ [EvLog APLOG_ERR msg]).

Lemma body_verdict_silent y bb v tr : body_verdict y bb v tr → silent tr.
Proof.
  destruct 1 as [v tr H|v tr _ _ H|msg _ _ _]; [by eapply scan_verdict_silent| |].
  - apply silent_app; [apply scan_silent|by eapply end_verdict_silent].
  - by apply silent_app; [apply scan_silent|].
Qed.

Inductive body_step f r q c y (bb : brigade) pre w0 : apr_status * brigade → world X → Prop :=
| bs_refused v tr rv w' :
    body_verdict y bb v tr → refusal f r c y v (headers_delayed y) (pre ++ tr) rv w0 w' →
    body_step f r q c y bb pre w0 (rv, []) w'
| bs_held p p' z w' :
    hold_ok y p → headers_delayed y = true → readable bb → has_eos bb = false →
    content p' = content p ++ content bb →
    z = set_pending_brigade (λ _, Some p') (counted (body_len bb) y) →
    hold_ok z p' → open_response w' f r q c z →
    trace w' = trace w0 ++ pre ++ scan_events y bb →
    body_step f r q c y bb pre w0 (APR_SUCCESS, []) w'
| bs_released a rc z w' :
    readable bb → has_eos bb = true → 0 ≤ rc → ctxs w' !! c = Some z → headers_delayed z = false →
    phase4_done z = true → intervention_triggered z = false → reqs w' = reqs w0 →
    trace w' = trace w0 ++ pre ++ scan_events y bb
      ++ [EvCall (ProcessResponseBody (transaction y)) rc; EvIntervention (transaction y) None;
          EvRemoveOutputFilter f; EvPass (held_part y ++ bb)] →
    body_step f r q c y bb pre w0 a w'
| bs_early a b1 k d b2 p z msg w' :
    bb = b1 ++ Data k d :: b2 → readable b1 → hold_ok y p → headers_delayed y = true →
    pending_len y + body_len b1 ≤ CORAZA_MAX_DELAYED_BODY →
    CORAZA_MAX_DELAYED_BODY < pending_len y + body_len b1 + Z.of_nat (length d) →
    ctxs w' !! c = Some z → headers_delayed z = false → intervention_triggered z = false →
    reqs w' = reqs w0 →
    trace w' = trace w0 ++ pre ++ scan_events y b1
      ++ [EvLog APLOG_WARNING msg; EvRemoveOutputFilter f; EvPass (p ++ bb)] →
    body_step f r q c y bb pre w0 a w'
| bs_streamed a w' :
    headers_delayed y = false → readable bb → has_eos bb = false → open_response w' f r q c y →
    trace w' = trace w0 ++ pre ++ scan_events y bb ++ [EvPass bb] →
    body_step f r q c y bb pre w0 a w'.

Lemma open_only w w' f r q c x y tr :
  open_response w f r q c x → only c y tr w w' → transaction y = transaction x →
  intervention_triggered y = false → (headers_delayed y = true → ∃ p, hold_ok y p) →
  (phase3_done y = false → headers_delayed y = false ∧ pending_len y = 0) →
  open_response w' f r q c y.
Proof.
  intros [] Hon Ht Hi Hh Hf. constructor; try done.
  - rewrite Ht. eapply only_in_request; [exact Hon|exact Ht|done].
  - by eapply only_lookup.
Qed.

Lemma hold_counted y p p' bb :
  hold_ok y p → headers_delayed y = true → content p' = content p ++ content bb →
  Forall stable p' → pending_len y + body_len bb ≤ CORAZA_MAX_DELAYED_BODY →
  hold_ok (set_pending_brigade (λ _, Some p') (counted (body_len bb) y)) p'.
Proof.
  intros [Hp Hs Hl Hb] Hh Hc Hs' Hle. unfold counted. rewrite Hh. constructor; try done.
  simpl. rewrite Hl. unfold body_len. rewrite <- !bytes_in_content, Hc, bytes_in_app, length_app. lia.
Qed.

Section body_call.
Variables (f : ap_filter_t) (r : nat) (q : request_rec) (c : nat) (y : coraza_request_ctx_t)
  (bb : brigade) (pre : list event) (w0 w : world X).
Hypothesis Hop : open_response w f r q c y.
Hypothesis H3 : phase3_done y = true.
Hypothesis Hsince : since pre w0 w.
Hypothesis Hrq : reqs w = reqs w0.

Lemma body_refused v tr t1 rv y1 w1 w' :
  body_verdict y bb v (t1 ++ tr) → since t1 w w1 → transaction y1 = transaction y →
  drop_connection y1 = drop_connection y →
  refusal f r c y1 v (headers_delayed y) tr rv w1 w' → body_step f r q c y bb pre w0 (rv, []) w'.
Proof.
  intros Hv Hs Et Ed H. eapply bs_refused; [exact Hv|].
  rewrite app_assoc. by eapply refusal_from; [by eapply since_trans|exact Et|exact Ed|].
Qed.

(** After the loop, the last brigade. *)
Lemma finish_wp y1 w1 (Q : apr_status * brigade → world X → Prop) :
  y1 = counted (body_len bb) y → only c y1 (scan_events y bb) w w1 → readable bb → has_eos bb = true →
  (∀ a w', body_step f r q c y bb pre w0 a w' → Q a w') → wp (end_of_body f r c bb) Q w1.
Proof.
  intros Hy1 H1 Hrd Heos HQ. destruct Hsince as [Ht _]. destruct Hop as [Hin Hx Hf Hr Hl Hh _].
  destruct (counted_same (body_len bb) y) as (Et & Ep & Ei & _). rewrite <- Hy1 in Et, Ep, Ei.
  assert (headers_delayed y1 = headers_delayed y) as Hhd by (rewrite Hy1; apply counted_delayed).
  assert (trace w1 = trace w ++ scan_events y bb ∧ reqs w1 = reqs w) as [Ht1 Hrq1]
    by (by eapply only_trace).
  eapply (end_of_body_wp _ r q c y1).
  - rewrite Et. eapply only_in_request; [exact H1|exact Et|done].
  - by eapply only_lookup.
  - intros H. rewrite Ep. rewrite Hhd in H. by eapply open_can_discard.
  - intros a rc w' (Hrc & Hrq' & (z & Hz & Hzd & Hz4 & Hzi) & Htr). apply HQ.
    eapply (bs_released _ _ _ _ _ _ _ _ a rc z); try done; [congruence..|].
    rewrite Htr, Ht1, Ht, Et. unfold held_part. by rewrite Hhd, Ep, <- !app_assoc.
  - intros v tr rv w' Hv H. rewrite Hhd in H. rewrite Et in Hv.
    apply HQ. eapply body_refused; [by apply bv_end|by eapply since_only|exact Et| |exact H].
    rewrite Hy1. apply counted_drop.
Qed.

(** After the loop, not the last brigade. *)
Lemma keep_wp y1 w1 (Q : apr_status * brigade → world X → Prop) :
  y1 = counted (body_len bb) y → only c y1 (scan_events y bb) w w1 → readable bb → has_eos bb = false →
  (headers_delayed y = true → pending_len y + body_len bb ≤ CORAZA_MAX_DELAYED_BODY) →
  (∀ a w', body_step f r q c y bb pre w0 a w' → Q a w') → wp (hold_or_pass f r c bb) Q w1.
Proof.
  intros Hy1 H1 Hrd Heos Hle HQ. destruct Hsince as [Ht _]. pose proof Hop as [Hin Hx Hf Hr Hl Hh _].
  destruct (counted_same (body_len bb) y) as (Et & Ep & Ei & _). rewrite <- Hy1 in Et, Ep, Ei.
  assert (trace w1 = trace w ++ scan_events y bb) as Ht1 by (by destruct H1 as [e ->]).
  destruct (headers_delayed y) eqn:Hhy.
  - assert (headers_delayed y1 = true) as Hhd by (by rewrite Hy1, counted_delayed).
    destruct (Hh eq_refl) as [p Hp]. pose proof Hp as [Hpp Hps _ _].
    eapply (hold_wp f r q c y1 p); [|by eapply only_lookup|done|by rewrite Ep|exact Hps| |].
    { rewrite Et. eapply only_in_request; [exact H1|exact Et|done]. }
    2: { intros msg rv w' H. apply HQ. eapply body_refused;
           [by apply (bv_save _ _ msg)|by eapply since_only|exact Et| |by rewrite Hhy].
         rewrite Hy1. apply counted_drop. }
    intros p' w' Hc Hs' Hon.
    assert (Hz : hold_ok (set_pending_brigade (λ _, Some p') y1) p')
      by (rewrite Hy1; apply hold_counted with p; auto).
    apply HQ. eapply (bs_held _ _ _ _ _ _ _ _ p p' (set_pending_brigade (λ _, Some p') y1)); try done; [by rewrite Hy1|..].
    + eapply (open_only w); [exact Hop|eapply only_trans; [exact H1|exact Hon]|done|simpl; congruence|by exists p'|].
      intros H. rewrite Hy1 in H. unfold counted in H. rewrite Hhy in H. simpl in H. congruence.
    + destruct Hon as [e ->]. simpl. by rewrite Ht1, Ht, app_nil_r, <- app_assoc.
  - assert (y1 = y) as E1 by (rewrite Hy1; unfold counted; by rewrite Hhy). rewrite E1 in *.
    unfold hold_or_pass. act_step. eapply wp_get_ctx; [by eapply only_lookup|].
    rewrite Hhy. apply pass_wp. intros a e. apply HQ. apply bs_streamed; [done|done|done| |].
    + eapply (open_only w); [exact Hop|apply only_ext; exact H1|done..|congruence|congruence].
    + simpl. by rewrite Ht1, Ht, <- !app_assoc.
Qed.

Lemma phase4_wp (Q : apr_status * brigade → world X → Prop) :
  sized bb → (∀ a w', body_step f r q c y bb pre w0 a w' → Q a w') → wp (phase4 f r c bb) Q w.
Proof.
  intros Hsz HQ. pose proof (open_can_discard _ _ _ _ _ _ Hop) as Hd.
  pose proof Hop as [Hin Hx Hf Hr Hl Hh _].
  destruct Hsince as [Ht _]. unfold phase4. act_step. eapply body_loop_wp; [exact Hin|exact Hx|exact Hd| |exact Hsz| | |].
  { intros H. destruct (Hh H) as [p [_ _ Hlen ?]]. lia. }
  - intros w1 H1 Hrd Hle. simpl. destruct (has_eos bb) eqn:Heos.
    + by eapply finish_wp.
    + by eapply keep_wp.
  - intros a b1 k d b2 w' Hbb Hrd (p & z & msg & Hp & Hhd & Hle & Hover & Hz & Hzd & _ & Hzi & Hrq' & Htr).
    apply wp_ret, HQ. destruct (Hh Hhd) as [p0 Hp0]. pose proof (ho_pending _ _ Hp0) as E.
    rewrite Hp in E. injection E as <-.
    eapply (bs_early _ _ _ _ _ _ _ _ a b1 k d b2 p z msg); try done; [congruence..|].
    by rewrite Htr, Ht, <- app_assoc.
  - intros v tr rv w' Hv H. apply wp_ret, HQ. eapply (body_refused v tr []);
      [by apply bv_scan|apply (since_ext w (env w) [])|done|done|].
    by rewrite ext_nil.
Qed.
End body_call.

(** ** Phase 3 *)
Hypothesis palloc_size : ∀ n, 0 ≤ n → Z.of_nat (length (apr_palloc n)) = n.

(** The response headers are C strings. *)
Record response_ok (q : request_rec) : Prop := {
  rk_out : table_ok (r_headers_out q);
  rk_err : table_ok (r_err_headers_out q);
  rk_type : ∀ ct, r_content_type q = Some ct → strlen ct < 2 ^ 63 }.

Lemma response_pairs_wf q : response_ok q → Forall pair_wf (response_pairs q).
Proof.
  intros [Ho He Hc]. unfold response_pairs. apply Forall_app. split; [by apply table_pairs_wf|].
  apply Forall_app. split; [|by apply table_pairs_wf]. destruct (r_content_type q) as [ct|]; [|done].
  constructor; [|done]. apply c_pair_wf; [by vm_compute|]. intros s [= <-]. auto.
Qed.

(** libcoraza accepted every response header, then the header rules. *)
Definition response_headers_given (t : Z) (q : request_rec) : list event → Prop :=
  headers_given (AddResponseHeaders t)
    (λ p, AddResponseHeader t (hp_name p) (name_len p) (hp_value p) (value_len p))
    (response_pairs q).

(** libcoraza was not given every response header. *)
Definition response_headers_refused (t : Z) (q : request_rec) : list event → Prop :=
  headers_refused (AddResponseHeaders t)
    (λ p, AddResponseHeader t (hp_name p) (name_len p) (hp_value p) (value_len p))
    (response_pairs q).

Lemma submit_headers_wp f r q c x (Q : bool → world X → Prop) w :
  open_response w f r q c x → response_ok q →
  (∀ e tr, response_headers_given (transaction x) q tr → Q true (ext e tr w)) →
  (∀ e tr, response_headers_refused (transaction x) q tr → Q false (ext e tr w)) →
  wp (submit_headers r c) Q w.
Proof.
  intros [[Hdl Hq _ _ _] Hx _ _ _ _ _] Hok HN HF. unfold submit_headers. do 4 act_step.
  eapply (submit_wp palloc_size (AddResponseHeaders (transaction x))
    (λ p, AddResponseHeader (transaction x) (hp_name p) (name_len p) (hp_value p) (value_len p)));
    [done|done|done|by apply response_pairs_wf|exact HN|exact HF].
Qed.

(** Whether the body is inspected, and the calls that tell. *)
Inductive processable_calls (t : Z) : bool → list event → Prop :=
| pc_off : processable_calls t false [EvCall (IsResponseBodyAccessible t) 0]
| pc_on a p : a ≠ 0 →
    processable_calls t (bool_decide (p ≠ 0))
      [EvCall (IsResponseBodyAccessible t) a; EvCall (IsResponseBodyProcessable t) p].

Lemma is_processable_wp t (Q : bool → world X → Prop) w :
  dl_ready w → (∀ b e tr, processable_calls t b tr → Q b (ext e tr w)) →
  wp (is_processable t) Q w.
Proof.
  intros Hdl HQ. unfold is_processable. act_step. apply wp_dl_call; [done|done|].
  intros a e _. rewrite ext_after. case_goal as Ha.
  - subst a. apply wp_ret, HQ. constructor.
  - act_step. apply wp_dl_call; [done|done|]. intros p e' _. rewrite ext_after, ext_ext.
    apply wp_ret, HQ. by constructor.
Qed.

(** The log of a phase 3 that lets the response go on. *)
Inductive headers_inspected (t : Z) (q : request_rec) (b : bool) : list event → Prop :=
| hi hs rc pc : response_headers_given t q hs → 0 ≤ rc → processable_calls t b pc →
    headers_inspected t q b
      (hs ++ [EvCall (ProcessResponseHeaders t (r_status q) (protocol_sent q)) rc] ++ pc
          ++ [EvIntervention t None]).

Lemma given_silent t q hs : response_headers_given t q hs → silent hs.
Proof.
  assert (∀ l, silent ((λ p, EvCall (AddResponseHeader t (hp_name p) (name_len p) (hp_value p) (value_len p)) 0)
     <$> l)) as Hl by (intros l; induction l as [|p l IH]; [done|exact IH]).
  intros [|_|first Hf]; [done|done|]. apply silent_app; [|apply Hl].
  by destruct Hf as [[_ ->]|(rc & msg & _ & _ & ->)].
Qed.

Lemma inspected_silent t q b tr : headers_inspected t q b tr → silent tr.
Proof.
  intros [hs rc pc Hg _ Hpc]. apply silent_app; [by eapply given_silent|].
  apply (silent_app [_]); [done|]. apply silent_app; [by destruct Hpc|done].
Qed.

(** Why the response ends in phase 3: a header was not accepted, the header
    rules failed or denied it, or the body rules of a body that is not
    inspected did. *)
Inductive headers_verdict (t : Z) (q : request_rec) : verdict → list event → Prop :=
| hv_not_given hs : response_headers_refused t q hs → headers_verdict t q Failed hs
| hv_failed hs rc msg : response_headers_given t q hs → rc < 0 →
    headers_verdict t q Failed
      (hs ++ [EvCall (ProcessResponseHeaders t (r_status q) (protocol_sent q)) rc;
              EvLog APLOG_ERR msg])
| hv_denied hs rc b pc it : response_headers_given t q hs → 0 ≤ rc → processable_calls t b pc →
    headers_verdict t q (Denied it)
      (hs ++ [EvCall (ProcessResponseHeaders t (r_status q) (protocol_sent q)) rc] ++ pc
          ++ [EvIntervention t (Some it)])
| hv_end pre v tr : headers_inspected t q false pre → end_verdict t v tr →
    headers_verdict t q v (pre ++ tr).

Lemma headers_verdict_silent t q v tr : headers_verdict t q v tr → silent tr.
Proof.
  destruct 1 as [hs H|hs rc msg H _|hs rc b pc it H _ Hpc|pre v tr H Hv].
  - by eapply submission_silent, headers_refused_events.
  - apply silent_app; [by eapply given_silent|done].
  - repeat apply silent_app; try done; [by eapply given_silent|by destruct Hpc].
  - apply silent_app; [by eapply inspected_silent|by eapply end_verdict_silent].
Qed.

(** Is the response held until its body was inspected? *)
Definition delays (q : request_rec) : bool :=
  negb (r_header_only q || r_main q || bool_decide (r_status q >= 400)).

(** The context when the body part starts. *)
Definition started (q : request_rec) (x : coraza_request_ctx_t) : coraza_request_ctx_t :=
  let x1 := set_response_body_processable (λ _, true) (set_phase3_done (λ _, true) x) in
  if delays q then set_headers_delayed (λ _, true) (set_pending_brigade (λ _, Some []) x1) else x1.

Lemma start_delay_wp r q c x (Q : unit → world X → Prop) w :
  reqs w !! r = Some q → ctxs w !! c = Some x →
  Q tt (set_ctxs (λ m, <[c := if delays q then set_headers_delayed (λ _, true)
                                 (set_pending_brigade (λ _, Some []) x) else x]> m) w) →
  wp (start_delay r c) Q w.
Proof.
  intros Hq Hx HQ. unfold start_delay, delays in *. do 2 act_step.
  destruct (r_header_only q || r_main q || bool_decide (r_status q >= 400)); simpl in HQ.
  - apply wp_ret. by rewrite set_ctxs_id in HQ.
  - do 3 act_step. unfold set_ctxs in *. simpl in *. by rewrite insert_insert_eq.
Qed.

(** What phase 3 does: it ends the call, or the body part follows. *)
Inductive headers_step f r q c x bb w0 : option (apr_status * brigade) → world X → Prop :=
| hs_refused v tr rv w' :
    headers_verdict (transaction x) q v tr → refusal f r c x v true tr rv w0 w' →
    headers_step f r q c x bb w0 (Some (rv, [])) w'
| hs_uninspected a pre rc z w' :
    headers_inspected (transaction x) q false pre → 0 ≤ rc → reqs w' = reqs w0 →
    ctxs w' !! c = Some z → phase4_done z = true → headers_delayed z = false →
    trace w' = trace w0 ++ pre ++ [EvCall (ProcessResponseBody (transaction x)) rc;
      EvIntervention (transaction x) None; EvRemoveOutputFilter f; EvPass bb] →
    headers_step f r q c x bb w0 (Some a) w'
| hs_stream a pre w' :
    headers_inspected (transaction x) q true pre → coraza_is_sse_response q = true →
    reqs w' = reqs w0 → trace w' = trace w0 ++ pre ++ [EvRemoveOutputFilter f; EvPass bb] →
    headers_step f r q c x bb w0 (Some a) w'
| hs_body pre w' :
    headers_inspected (transaction x) q true pre → coraza_is_sse_response q = false →
    only c (started q x) pre w0 w' → headers_step f r q c x bb w0 None w'.

(** The state during phase 3. *)
Definition phase3_ctx (b : bool) (x : coraza_request_ctx_t) : coraza_request_ctx_t :=
  set_response_body_processable (λ _, b) (set_phase3_done (λ _, true) x).

Lemma uninspected_wp f r q c x b pre bb w0 w (Q : option (apr_status * brigade) → world X → Prop) :
  in_request w r q c (transaction x) → only c (phase3_ctx b x) pre w0 w →
  headers_delayed x = false → headers_inspected (transaction x) q false pre →
  (∀ a w', headers_step f r q c x bb w0 a w' → Q a w') →
  wp (a ← finish_uninspected f r c bb; mret (Some a)) Q w.
Proof.
  intros Hin Hon Hh Hpre HQ. pose proof (only_lookup _ _ _ _ _ Hon) as Hx.
  assert (trace w = trace w0 ++ pre ∧ reqs w = reqs w0) as [Ht Hrq] by (by eapply only_trace).
  assert (Href : ∀ v tr z rv w', end_verdict (transaction x) v tr →
    transaction z = transaction x → drop_connection z = drop_connection x →
    refusal f r c z v true tr rv w w' → wp (mret (Some (rv, []))) Q w').
  { intros v tr z rv w' Hv Et Ed H. eapply wp_ret, HQ, hs_refused; [by apply hv_end|].
    eapply refusal_from; [by eapply since_only|exact Et|exact Ed|exact H]. }
  act_step. unfold finish_uninspected. act_step. eapply wp_get_ctx; [exact Hx|].
  act_step. apply wp_dl_call; [apply Hin|done|]. intros rc e _. rewrite ext_after.
  unfold coraza_process_failed. case_goal as Hrc.
  { eapply fail_closed_headers_wp; [apply Hin|exact Hx|exact Hh|]. intros rv w' H.
    eapply (Href Failed _ x); [by apply nd_failed|done|done|]. by eapply ended_failed; [|exact H]. }
  act_step. eapply wp_upd_ctx; [exact Hx|]. set (z := set_phase4_done _ _). act_step.
  eapply (poll_response_wp _ f r q c z).
  - destruct Hin as [H1 H2 H3 H4 H5]. constructor; try done. exists z. split; [|done].
    simpl. apply lookup_insert_eq.
  - simpl. apply lookup_insert_eq.
  - by apply denies_headers.
  - intros e2. do 2 act_step. apply pass_wp. intros a e3. apply wp_ret, HQ.
    eapply (hs_uninspected _ _ _ _ _ _ _ a pre rc z); try done; [lia|simpl; apply lookup_insert_eq|].
    simpl. by rewrite Ht, <- !app_assoc.
  - intros it rv w' H. apply wp_ret. eapply (Href (Denied it) _ z); [apply (nd_denied _ rc); lia|done|done|].
    refine (refusal_from _ _ _ z z _ _ _ [_] _ _ _ _ _ eq_refl eq_refl H). done.
Qed.

(** The end of phase 3, the verdict on the headers being clean. *)
Lemma after_verdict_wp f r q c x b pre bb w0 w (Q : option (apr_status * brigade) → world X → Prop) :
  in_request w r q c (transaction x) → only c (phase3_ctx b x) pre w0 w →
  headers_delayed x = false → headers_inspected (transaction x) q b pre →
  (∀ a w', headers_step f r q c x bb w0 a w' → Q a w') →
  wp (if negb b then a ← finish_uninspected f r c bb; mret (Some a)
      else if coraza_is_sse_response q then
        emit (EvRemoveOutputFilter f) ;; a ← pass_to_next bb; mret (Some a)
      else start_delay r c ;; mret None) Q w.
Proof.
  intros Hin Hon Hh Hpre HQ. destruct b; simpl; [|by eapply uninspected_wp].
  assert (trace w = trace w0 ++ pre ∧ reqs w = reqs w0) as [Ht Hrq] by (by eapply only_trace).
  destruct (coraza_is_sse_response q) eqn:Hsse.
  - do 3 act_step. apply pass_wp. intros a e. apply wp_ret, HQ.
    eapply (hs_stream _ _ _ _ _ _ _ a pre); try done. simpl. by rewrite Ht, <- !app_assoc.
  - act_step. eapply start_delay_wp; [apply Hin|by eapply only_lookup|]. apply wp_ret, HQ.
    eapply (hs_body _ _ _ _ _ _ _ pre); [done|done|]. eapply only_ctx. exact Hon.
Qed.

Lemma phase3_wp f r q c x bb (Q : option (apr_status * brigade) → world X → Prop) w :
  open_response w f r q c x → phase3_done x = false → response_ok q →
  (∀ a w', headers_step f r q c x bb w a w' → Q a w') → wp (phase3 f r c bb) Q w.
Proof.
  intros Hop H3 Hok HQ. pose proof Hop as [Hin Hx _ _ Hlive _ Hfresh].
  destruct (Hfresh H3) as [Hh Hlen]. pose proof Hin as [Hdl Hq Hc Hdir _].
  set (x1 := set_phase3_done (λ _, true) x).
  assert (Hhead : ∀ tr w1, only c x1 tr w w1 → headers_verdict (transaction x) q Failed tr →
    wp (coraza_fail_closed_headers f r c) (λ a w2, wp (mret (Some a)) Q w2) w1).
  { intros tr w1 Hon Hv. eapply fail_closed_headers_wp;
      [by destruct Hon as [e ->]|by eapply only_lookup|exact Hh|].
    intros rv w' H. eapply wp_ret, HQ, hs_refused; [exact Hv|].
    eapply ended_failed; [by eapply since_only|exact H]. }
  unfold phase3. act_step. eapply wp_upd_ctx; [exact Hx|]. set (w1 := set_ctxs _ w).
  assert (only c x1 [] w w1) as H1 by (exists (env w); by rewrite ext_nil).
  assert (Hop1 : open_response w1 f r q c x1)
    by (eapply (open_only w); [exact Hop|exact H1|done|done|simpl; congruence|done]).
  act_step. eapply submit_headers_wp; [exact Hop1|exact Hok| |].
  2: { intros e tr Htr. simpl. act_step.
       apply (Hhead tr); [exact (only_ext _ _ _ _ _ e tr H1)|by apply hv_not_given]. }
  intros e hs Hhs. simpl. pose proof (only_ext _ _ _ _ _ e hs H1) as H2. simpl in H2.
  set (w2 := ext e hs w1) in *. act_step. eapply wp_get_req; [exact Hq|].
  act_step. eapply wp_get_ctx; [by eapply only_lookup|].
  act_step. apply wp_dl_call; [done|done|]. intros rc e2 _. rewrite ext_after.
  pose proof (only_ext _ _ _ _ _ e2 [EvCall (ProcessResponseHeaders (transaction x) (r_status q)
    (protocol_sent q)) rc] H2) as Hon3.
  change (transaction x1) with (transaction x).
  set (w3 := ext e2 _ w2) in *. unfold coraza_process_failed. case_goal as Hrc.
  { do 2 act_step. rewrite ext_log. act_step. eapply Hhead; [apply only_ext; exact Hon3|].
    rewrite <- app_assoc. by apply hv_failed. }
  act_step. apply is_processable_wp; [done|]. intros b e4 pc Hpc.
  pose proof (only_ext _ _ _ _ _ e4 pc Hon3) as H4. set (w4 := ext e4 pc w3) in *.
  act_step. eapply wp_upd_ctx; [by eapply only_lookup|].
  pose proof (only_ctx _ _ _ _ (phase3_ctx b x) _ H4) as H5. fold (phase3_ctx b x).
  change (set_response_body_processable (λ _, b) x1) with (phase3_ctx b x).
  set (w5 := set_ctxs _ w4) in *.
  assert (in_request w5 r q c (transaction x)) as Hin5 by (by eapply only_in_request).
  act_step. eapply (poll_response_wp _ f r q c (phase3_ctx b x)).
  - exact Hin5.
  - by eapply only_lookup.
  - by apply denies_headers.
  - intros e6. pose proof (only_ext _ _ _ _ _ e6 [EvIntervention (transaction x) None] H5) as H6.
    eapply after_verdict_wp; [by apply in_request_ext| |exact Hh| |exact HQ].
    + rewrite <- !app_assoc in H6. exact H6.
    + by constructor; [|lia|].
  - intros it rv w' H. eapply wp_ret, HQ, hs_refused; [apply (hv_denied _ _ hs rc b pc it); [done|lia|done]|].
    pose proof (refusal_from _ _ _ x (phase3_ctx b x) _ _ _ _ _ _ _ _ (since_only _ _ _ _ _ H5)
      eq_refl eq_refl H) as H'. by rewrite <- !app_assoc in H'.
Qed.

(** ** The filter *)
Inductive response_step f r q c x bb w : apr_status * brigade → world X → Prop :=
| rs_headers a w' :
    phase3_done x = false → headers_step f r q c x bb w (Some a) w' →
    response_step f r q c x bb w a w'
| rs_first pre a w' :
    phase3_done x = false → headers_inspected (transaction x) q true pre →
    coraza_is_sse_response q = false → body_step f r q c (started q x) bb pre w a w' →
    response_step f r q c x bb w a w'
| rs_next a w' :
    phase3_done x = true → body_step f r q c x bb [] w a w' → response_step f r q c x bb w a w'.

Lemma open_started w w' f r q c x pre :
  open_response w f r q c x → phase3_done x = false → only c (started q x) pre w w' →
  open_response w' f r q c (started q x).
Proof.
  intros Hop H3 Hon. pose proof Hop as [_ _ _ _ Hl _ Hf]. destruct (Hf H3) as [Hh Hlen].
  eapply open_only; [exact Hop|exact Hon| | | |]; unfold started; destruct (delays q); simpl; try done.
  - intros _. exists []. constructor; simpl; rewrite ?Hlen; done.
  - congruence.
Qed.

Lemma filter_wp f r q c x bb (Q : apr_status * brigade → world X → Prop) w :
  open_response w f r q c x → response_ok q → sized bb →
  (∀ a w', response_step f r q c x bb w a w' → Q a w') →
  wp (coraza_output_filter f bb) Q w.
Proof.
  intros Hop Hok Hsz HQ. pose proof Hop as [_ Hx Hf Hr Hl _ _].
  unfold coraza_output_filter. rewrite Hf. do 3 act_step. rewrite Hl. apply wp_ret.
  do 2 act_step. rewrite Hr. act_step. destruct (phase3_done x) eqn:H3.
  - apply wp_ret. eapply (phase4_wp f r q c x bb [] w); try done; [by split; [rewrite app_nil_r|]|].
    intros a w' Hst. by apply HQ, rs_next.
  - eapply phase3_wp; [exact Hop|exact H3|exact Hok|]. intros [a|] w1 Hst.
    + by apply wp_ret, HQ, rs_headers.
    + inversion Hst as [| | |pre ? Hpre Hsse Hon]; subst.
      destruct (only_trace _ _ _ _ _ Hon) as [Ht Hrq].
      eapply (phase4_wp f _ q c (started q x) bb pre w);
        [by eapply open_started| |by eapply since_only|exact Hrq|exact Hsz|].
      * unfold started. by destruct (delays q).
      * intros a w' Hb. apply HQ. by eapply rs_first.
Qed.

(** ** A whole response *)

(** A handler sending the brigades [bbs], until the filter leaves. *)
Fixpoint respond (f : ap_filter_t) (bbs : list brigade) : M (world X) unit :=
  match bbs with
  | [] => mret tt
  | bb :: bbs =>
      n ← gets (λ w, length (trace w));
      coraza_output_filter f bb ;;
      left ← gets (λ w, left_chain (drop n (trace w)));
      if left : bool then mret tt else respond f bbs
  end.

(** Why a held response was let out. *)
Inductive released_for t q (bb : brigade) : list event → Prop :=
| rf_verdict rc : 0 ≤ rc →
    released_for t q bb [EvCall (ProcessResponseBody t) rc; EvIntervention t None]
| rf_bound : CORAZA_MAX_DELAYED_BODY < body_len bb → released_for t q bb []
| rf_stream : coraza_is_sse_response q = true → released_for t q bb [].

(** Where a response of which [held] was held stands after [bbs]: held, refused,
    or let out with its first [k] brigades. *)
Inductive gated f q c t (held : brigade) bbs w w' : Prop :=
| g_held y tr :
    trace w' = trace w ++ tr → silent tr → ctxs w' !! c = Some y →
    (headers_delayed y = true → ∃ p, hold_ok y p) →
    content (held_part y) = content held ++ content (concat bbs) →
    gated f q c t held bbs w w'
| g_refused rv : refused f c true rv w w' → gated f q c t held bbs w w'
| g_released k out tr why :
    trace w' = trace w ++ tr ++ why ++ [EvRemoveOutputFilter f; EvPass out] → silent tr →
    content out = content held ++ content (concat (take k bbs)) → released_for t q out why →
    gated f q c t held bbs w w'.

(** The response is, or is about to be, held. *)
Definition holding (q : request_rec) (x : coraza_request_ctx_t) : Prop :=
  if phase3_done x then headers_delayed x = true else delays q = true.

(** One call on a held response: it stays held, is refused, or goes out. *)
Inductive held_step f r q c t (held bb : brigade) w w' : Prop :=
| hd_on y tr :
    trace w' = trace w ++ tr → silent tr → open_response w' f r q c y → phase3_done y = true →
    headers_delayed y = true → transaction y = t →
    content (held_part y) = content held ++ content bb → held_step f r q c t held bb w w'
| hd_refused rv : refused f c true rv w w' → held_step f r q c t held bb w w'
| hd_out out tr why :
    trace w' = trace w ++ tr ++ why ++ [EvRemoveOutputFilter f; EvPass out] → silent tr →
    content out = content held ++ content bb → released_for t q out why →
    held_step f r q c t held bb w w'.

Lemma body_len_content b1 b2 : content b1 = content b2 → body_len b1 = body_len b2.
Proof. intros H. unfold body_len. by rewrite <- !bytes_in_content, H. Qed.
Lemma body_len_app b1 b2 : body_len (b1 ++ b2) = body_len b1 + body_len b2.
Proof. unfold body_len. rewrite body_of_app, length_app. lia. Qed.

Lemma body_held_step f r q c y bb pre held w a w' :
  body_step f r q c y bb pre w a w' → headers_delayed y = true → phase3_done y = true →
  silent pre → content (held_part y) = content held →
  held_step f r q c (transaction y) held bb w w'.
Proof.
  intros Hb Hh H3 Hpre Hc. destruct Hb as [v tr rv w' Hv H|p p' z w' Hp _ _ _ Hc' -> Hz Hop Ht|
    a rc z w' _ _ Hrc _ _ _ _ _ Ht|a b1 k d b2 p z msg w' Hbb _ Hp _ _ Hover _ _ _ _ Ht|a w' H _ _ _ _];
    [| | | |congruence].
  - apply hd_refused with rv. rewrite Hh in H.
    eapply refusal_refused; [|exact H]. apply silent_app; [done|by eapply body_verdict_silent].
  - eapply hd_on; [exact Ht|apply silent_app; [done|apply scan_silent]|exact Hop| | | |].
    + unfold counted. rewrite Hh. done.
    + simpl. by rewrite counted_delayed.
    + by destruct (counted_same (body_len bb) y).
    + unfold held_part in *. simpl. rewrite counted_delayed, Hh in *. simpl.
      rewrite (ho_pending _ _ Hp) in Hc. simpl in Hc. by rewrite <- Hc.
  - eapply (hd_out _ _ _ _ _ _ _ _ _ _ (pre ++ scan_events y bb)
      [EvCall (ProcessResponseBody (transaction y)) rc; EvIntervention (transaction y) None]).
    + rewrite Ht. by rewrite <- !app_assoc.
    + apply silent_app; [done|apply scan_silent].
    + by rewrite content_app, Hc.
    + by constructor.
  - eapply (hd_out _ _ _ _ _ _ _ _ _ _ (pre ++ scan_events y b1 ++ [EvLog APLOG_WARNING msg]) []).
    + rewrite Ht. by rewrite <- !app_assoc.
    + repeat apply silent_app; try done. apply scan_silent.
    + unfold held_part in Hc. rewrite Hh, (ho_pending _ _ Hp) in Hc. simpl in Hc.
      by rewrite content_app, Hc.
    + apply rf_bound. rewrite Hbb, !body_len_app, body_len_cons. simpl data_of.
      pose proof (ho_len _ _ Hp). unfold body_len in *. lia.
Qed.

Lemma response_held_step f r q c x bb w a w' :
  open_response w f r q c x → holding q x → response_step f r q c x bb w a w' →
  held_step f r q c (transaction x) (held_part x) bb w w'.
Proof.
  intros Hop Hho Hst. unfold holding in Hho.
  destruct Hst as [a w' H3 Hs|pre a w' H3 Hpre Hsse Hb|a w' H3 Hb]; rewrite H3 in Hho.
  - destruct (op_fresh _ _ _ _ _ _ Hop H3) as [Hh _].
    inversion Hs as [v tr rv ? Hv Href|? pre rc z ? Hpre Hrc _ _ _ _ Ht|? pre ? Hpre Hsse _ Ht|]; subst.
    + apply hd_refused with rv. eapply refusal_refused; [|exact Href]. by eapply headers_verdict_silent.
    + eapply (hd_out _ _ _ _ _ _ _ _ _ bb pre [_; _]);
        [exact Ht|by eapply inspected_silent| |by constructor].
      unfold held_part. by rewrite Hh.
    + eapply (hd_out _ _ _ _ _ _ _ _ _ bb pre []); [exact Ht|by eapply inspected_silent| |by apply rf_stream].
      unfold held_part. by rewrite Hh.
  - assert (transaction (started q x) = transaction x) as <- by (unfold started; by destruct (delays q)).
    destruct (op_fresh _ _ _ _ _ _ Hop H3) as [Hh _].
    eapply body_held_step; [exact Hb|unfold started; by rewrite Hho| |by eapply inspected_silent|].
    + unfold started. by rewrite Hho.
    + unfold held_part, started. by rewrite Hho, Hh.
  - eapply body_held_step; [exact Hb|done|done|done|done].
Qed.

Lemma respond_wp f r q c bbs : response_ok q → Forall sized bbs → ∀ w x,
  open_response w f r q c x → holding q x →
  wp (respond f bbs) (λ _ w', gated f q c (transaction x) (held_part x) bbs w w') w.
Proof.
  intros Hok Hsz. induction Hsz as [|bb bbs Hbb _ IH]; intros w x Hop Hho; simpl.
  { apply wp_ret. eapply (g_held _ _ _ _ _ _ _ _ x []); [by rewrite app_nil_r|done|apply Hop|apply Hop|].
    simpl. by rewrite app_nil_r. }
  do 2 act_step. act_step. eapply filter_wp; [exact Hop|exact Hok|exact Hbb|]. intros a w1 Hst.
  do 2 act_step. destruct (response_held_step _ _ _ _ _ _ _ _ _ Hop Hho Hst)
    as [y tr Ht Hs Hop1 H3 Hh Hty Hc|rv Href|out tr why Ht Hs Hc Hwhy].
  - rewrite Ht, drop_app_length. destruct Hs as (Hs1 & Hs2 & Hs3). rewrite Hs3.
    eapply wp_mono; [apply (IH w1 y Hop1); unfold holding; by rewrite H3|]. intros [] w2 Hg. cbv beta in Hg.
    rewrite Hty in Hg. destruct Hg as [z tr' Ht' Hs' Hz Hhz Hc'|rv Href|k out tr' why Ht' Hs' Hc' Hwhy].
    + eapply (g_held _ _ _ _ _ _ _ _ z (tr ++ tr')); try done; [by rewrite Ht', Ht, app_assoc|by apply silent_app|].
      simpl. by rewrite Hc', Hc, content_app, <- app_assoc.
    + apply g_refused with rv. by eapply refused_from; [exact Ht| |exact Href].
    + eapply (g_released _ _ _ _ _ _ _ _ (S k) out (tr ++ tr') why); [|by apply silent_app| |done].
      * by rewrite Ht', Ht, <- !app_assoc.
      * simpl. by rewrite Hc', Hc, content_app, <- app_assoc.
  - destruct Href as (Hi & tr & Ht & Hrm & Hrest). rewrite Ht, drop_app_length.
    assert (left_chain tr = true) as ->.
    { unfold left_chain. apply existsb_exists. exists (EvRemoveOutputFilter f). split; [|done].
      by apply list_elem_of_In. }
    apply wp_ret. apply g_refused with rv. split; [done|]. by exists tr.
  - rewrite Ht, drop_app_length.
    assert (left_chain (tr ++ why ++ [EvRemoveOutputFilter f; EvPass out]) = true) as ->.
    { unfold left_chain. rewrite !existsb_app. simpl. by rewrite !orb_true_r. }
    apply wp_ret. eapply (g_released _ _ _ _ _ _ _ _ 1 out tr why); [done|done| |done].
    simpl. by rewrite app_nil_r.
Qed.
End filter_out_facts.

(** ** Server-sent events *)
Definition is_ows (a : ascii) : Prop := a = " "%char ∨ a = chr 9.

Lemma has_prefix_nocase_spec p : ∀ s, has_prefix_nocase p s = true ↔
  ∃ ty tl, bytes_of s = ty ++ tl ∧ tolower <$> ty = tolower <$> bytes_of p.
Proof.
  induction p as [|a p IH]; intros s; simpl.
  - split; [intros _; by exists [], (bytes_of s)|done].
  - destruct s as [|b s]; simpl.
    { split; [done|]. intros (ty & tl & H & H2). by destruct ty. }
    rewrite andb_true_iff, bool_decide_eq_true, IH. split.
    + intros (Hab & ty & tl & H1 & H2). exists (b :: ty), tl. simpl.
      split; [by rewrite <- H1|by f_equal].
    + intros ([|b' ty] & tl & H1 & H2); [done|]. injection H1 as <- H1. simpl in H2.
      injection H2 as Hab H2. split; [done|]. by exists ty, tl.
Qed.

Lemma bytes_of_suffix n : ∀ s, bytes_of (String.substring n (String.length s - n) s) = drop n (bytes_of s).
Proof.
  induction n as [|n IH]; intros s; [|destruct s as [|c s]; [done|apply IH]].
  rewrite Nat.sub_0_r. induction s as [|c s IHs]; [done|]. simpl. by f_equal.
Qed.

Lemma sse_tail_spec s : sse_tail s = true ↔
  ∃ ows rest, bytes_of s = ows ++ rest ∧ Forall is_ows ows ∧ (rest = [] ∨ head rest = Some ";"%char).
Proof.
  induction s as [|a s IH]; simpl.
  { split; [intros _|done]. exists [], []. auto. }
  destruct (bool_decide (a = " "%char) || bool_decide (a = chr 9)) eqn:E.
  - assert (is_ows a) as Ha
      by (apply orb_true_iff in E as [E%bool_decide_eq_true|E%bool_decide_eq_true]; [by left|by right]).
    rewrite IH. split.
    + intros (ows & rest & H1 & H2 & H3). exists (a :: ows), rest. simpl. rewrite <- H1.
      split_and!; [done|by constructor|done].
    + intros ([|b ows] & rest & H1 & H2 & H3).
      * simpl in H1. destruct H3 as [->|H3]; [done|]. rewrite <- H1 in H3. injection H3 as ->.
        by destruct Ha.
      * injection H1 as <- H1. apply list.Forall_cons_1 in H2 as [_ H2]. by exists ows, rest.
  - rewrite bool_decide_eq_true. split.
    + intros ->. exists [], (";"%char :: bytes_of s). auto.
    + intros ([|b ows] & rest & H1 & H2 & H3).
      * simpl in H1. destruct H3 as [->|H3]; [done|]. rewrite <- H1 in H3. by injection H3.
      * injection H1 as <- H1. apply list.Forall_cons_1 in H2 as [Ha _].
        apply orb_false_iff in E as [E1%bool_decide_eq_false E2%bool_decide_eq_false]. by destruct Ha.
Qed.

(** C37: the media-type match is strict.  A response is taken for a stream of
    server-sent events exactly when its Content-Type is text/event-stream,
    ignoring case, followed by optional blanks and then nothing or a parameter
    list. *)
Theorem sse_response_spec q :
  coraza_is_sse_response q = true ↔
  ∃ ct ty ows rest, r_content_type q = Some ct ∧ bytes_of ct = ty ++ ows ++ rest
    ∧ tolower <$> ty = bytes_of "text/event-stream"
    ∧ Forall is_ows ows ∧ (rest = [] ∨ head rest = Some ";"%char).
Proof.
  unfold coraza_is_sse_response. destruct (r_content_type q) as [ct|].
  2: { split; [done|]. by intros (? & ? & ? & ? & ? & _). }
  set (tail := String.substring _ _ ct).
  assert (Hlower : tolower <$> bytes_of sse = bytes_of "text/event-stream") by reflexivity.
  assert (Htail : ∀ ty tl, bytes_of ct = ty ++ tl → tolower <$> ty = bytes_of "text/event-stream" →
    has_prefix_nocase sse ct = true ∧ strlen sse ≤ strlen ct ∧ bytes_of tail = tl).
  { intros ty tl Hb Ht. assert (length ty = String.length sse) as Hlen
      by (apply (f_equal length) in Ht; by rewrite length_fmap in Ht).
    split; [apply has_prefix_nocase_spec; exists ty, tl; by rewrite Hlower|].
    split; [unfold strlen; rewrite <- (length_bytes_of ct), Hb, length_app; lia|].
    unfold tail. by rewrite bytes_of_suffix, Hb, <- Hlen, drop_app_length. }
  split.
  - intros E. destruct (bool_decide (strlen ct < strlen sse) || negb (has_prefix_nocase sse ct)) eqn:E1;
      [done|]. apply orb_false_iff in E1 as [_ E1%negb_false_iff].
    apply has_prefix_nocase_spec in E1 as (ty & tl & Hb & Ht). rewrite Hlower in Ht.
    destruct (Htail _ _ Hb Ht) as (_ & _ & Hs).
    apply sse_tail_spec in E as (ows & rest & H1 & H2 & H3).
    exists ct, ty, ows, rest. split_and!; [done| |done|done|done]. by rewrite Hb, <- Hs, H1.
  - intros (ct' & ty & ows & rest & [= <-] & Hb & Ht & Hrest).
    destruct (Htail _ _ Hb Ht) as (-> & Hlen & Hs). rewrite bool_decide_eq_false_2 by lia. simpl.
    apply sse_tail_spec. by exists ows, rest.
Qed.

(** ** Properties *)

(** C2: nothing of a held response reaches the client before its verdict.  A
    handler sends any brigades through the filter; the response is one the
    filter holds (not a HEAD, a subrequest or an error response).  Every call
    returns, and at the end either the response is still held -- nothing was sent
    and the pending brigade is everything given so far, in order, set aside,
    within CORAZA_MAX_DELAYED_BODY -- or it was refused and nothing of it was ever
    sent, with one error page (as the first error of the request) or the
    connection dropped, or it was let out in one piece, unchanged and in order,
    after the body rules succeeded with no intervention, unless it passed the
    bound or is a stream of server-sent events. *)
Theorem response_held_until_verdict {X} `{!Libcoraza X, !Httpd X, !Pool, !BrigadeLaws X}
    f r q c x bbs (w : world X) :
  open_response w f r q c x → holding q x → response_ok q → Forall sized bbs →
  (∀ n, 0 ≤ n → Z.of_nat (length (apr_palloc n)) = n) →
  ∃ w', respond f bbs w = Some (tt, w')
    ∧ gated f q c (transaction x) (held_part x) bbs w w'.
Proof.
  intros Hop Hho Hok Hsz Hp. apply wp_returns.
  eapply wp_mono; [by apply (respond_wp Hp f r q c bbs)|]. by intros [] w'.
Qed.

(** C15: one call of the filter, on every path: which phase ran, what was handed
    to libcoraza in which order, with which results, and what was sent. *)
Theorem output_filter_step {X} `{!Libcoraza X, !Httpd X, !Pool, !BrigadeLaws X}
    f r q c x bb (w : world X) :
  open_response w f r q c x → response_ok q → sized bb →
  (∀ n, 0 ≤ n → Z.of_nat (length (apr_palloc n)) = n) →
  ∃ a w', coraza_output_filter f bb w = Some (a, w') ∧ response_step f r q c x bb w a w'.
Proof. intros Hop Hok Hsz Hp. apply wp_det. by eapply (filter_wp Hp). Qed.

(** The filter has no context, or its request was denied. *)
Definition not_inspecting {X} (w : world X) (f : ap_filter_t) : Prop :=
  match f_ctx f with
  | None => True
  | Some c => ∃ x, ctxs w !! c = Some x ∧ intervention_triggered x = true
  end.

(** A denied request's responses (its error page) and requests without a
    context go through untouched, without a call to the engine. *)
Theorem denied_response_passes {X} `{!Libcoraza X, !Httpd X, !Pool} f bb (w : world X) :
  not_inspecting w f →
  coraza_output_filter f bb w
    = Some ((ap_pass_brigade bb (env w)).1,
            ext (ap_pass_brigade bb (env w)).2 [EvRemoveOutputFilter f; EvPass bb] w).
Proof.
  intros Hno. assert (wp (coraza_output_filter f bb) (λ a w',
    a = (ap_pass_brigade bb (env w)).1
    ∧ w' = ext (ap_pass_brigade bb (env w)).2 [EvRemoveOutputFilter f; EvPass bb] w) w) as Hwp.
  { assert (Hout : wp (emit (EvRemoveOutputFilter f) ;; pass_to_next bb) (λ a w',
      a = (ap_pass_brigade bb (env w)).1
      ∧ w' = ext (ap_pass_brigade bb (env w)).2 [EvRemoveOutputFilter f; EvPass bb] w) w).
    { unfold pass_to_next. do 5 act_step. simpl in *.
      match goal with E : ap_pass_brigade _ _ = _ |- _ => rewrite E end. split; [done|].
      unfold ext, set_trace, set_env. simpl. by rewrite <- app_assoc. }
    unfold coraza_output_filter, not_inspecting in *. destruct (f_ctx f) as [c|].
    - destruct Hno as (x & Hx & Hi). do 3 act_step. rewrite Hi. by apply wp_ret.
    - act_step. by apply wp_ret. }
  apply wp_det in Hwp as (a & w' & E & -> & ->). done.
Qed.

(** ** Witnesses *)

(** A transaction whose response body is inspected, and a response of two
    brigades, the first one in memory its producer will reuse. *)
Definition sim_response (sc : script) : world script :=
  sim_world sc {[ 0%nat := sim_request None (Some 3%nat) ]} {[ 3%nat := sim_ctx ]}.
Definition sim_out : ap_filter_t := Filter (Some 3%nat) 0.
Definition sim_page : list brigade :=
  [[Data Transient (bytes_of "hello ")]; [Data Heap (bytes_of "world"); Eos]].

Lemma sim_open sc :
  open_response (sim_response sc) sim_out 0 (sim_request None (Some 3%nat)) 3 sim_ctx.
Proof.
  constructor; try done. constructor; try done.
  - intros d [= <-]. by eexists.
  - exists sim_ctx. done.
Qed.

Lemma sim_response_ok p n : response_ok (sim_request p n).
Proof. constructor; [constructor|constructor|]. intros ct [= <-]. reflexivity. Qed.

Lemma sim_sized : Forall sized sim_page.
Proof. repeat constructor. Qed.

(** The page comes out whole, in one brigade. *)
Lemma response_held_until_verdict_witness :
  ∃ w', @respond script _ _ zeroed_pool sim_out sim_page (sim_response (Script [] [] [] 1 0))
          = Some (tt, w')
    ∧ passed (trace w') = [[Data Heap (bytes_of "hello "); Data Heap (bytes_of "world"); Eos]].
Proof.
  destruct (@response_held_until_verdict script _ _ zeroed_pool _ sim_out 0 _ 3 _ sim_page
    (sim_response (Script [] [] [] 1 0)) (sim_open _)) as (w' & E & _);
    [reflexivity|apply sim_response_ok|exact sim_sized|exact zeroed_pool_law|].
  exists w'. split; [exact E|]. vm_compute in E. injection E as <-. vm_compute. reflexivity.
Defined.

(** A rule of phase 4 denies the page with 403. *)
Lemma output_filter_step_witness :
  ∃ w', @coraza_output_filter script _ _ zeroed_pool sim_out [Data Heap (bytes_of "secret"); Eos]
          (sim_response (Script [None; Some (Intervention (Some "deny"%string) 403 None 1)] [] [] 1 0))
        = Some ((AP_FILTER_ERROR, []), w')
    ∧ passed (trace w') = [] ∧ died (trace w') = [(403, 200)].
Proof.
  destruct (@output_filter_step script _ _ zeroed_pool _ sim_out 0 _ 3 _
    [Data Heap (bytes_of "secret"); Eos]
    (sim_response (Script [None; Some (Intervention (Some "deny"%string) 403 None 1)] [] [] 1 0))
    (sim_open _)) as (a & w' & E & _);
    [apply sim_response_ok|repeat constructor|exact zeroed_pool_law|].
  exists w'. vm_compute in E. injection E as <- <-. split; [reflexivity|]. split; vm_compute; reflexivity.
Defined.

Lemma denied_response_passes_witness :
  @coraza_output_filter script _ _ zeroed_pool (Filter None 0) [Eos] (sim_response (Script [] [] [] 1 0))
    = Some ((APR_SUCCESS, []),
            ext (Script [] [] [] 1 0) [EvRemoveOutputFilter (Filter None 0); EvPass [Eos]]
              (sim_response (Script [] [] [] 1 0))).
Proof.
  exact (@denied_response_passes script _ _ zeroed_pool (Filter None 0) [Eos]
    (sim_response (Script [] [] [] 1 0)) I).
Defined.

(** A 404 whose body a rule of phase 4 denies with 403, in one brigade. *)
Definition not_found : world script :=
  set_reqs (λ m, <[0%nat := set_r_status (λ _, 404) (sim_request None (Some 3%nat))]> m)
    (sim_response (Script [None; Some (Intervention (Some "deny"%string) 403 None 1)] [] [] 1 0)).

(** An error response denied in phase 4 gets no error page even when nothing
    was sent.  The headers of a response with a status of 400 or more are not
    delayed, so the filter takes them for sent: on its very first brigade it
    fails with APR_EGENERAL and sets [r->status], and neither the response nor an
    error page is produced. *)
Example denied_error_response_has_no_page :
  ∃ w', @coraza_output_filter script _ _ zeroed_pool sim_out [Data Heap (bytes_of "secret"); Eos]
          not_found = Some ((APR_EGENERAL, []), w')
    ∧ passed (trace w') = [] ∧ died (trace w') = []
    ∧ r_status <$> reqs w' !! 0%nat = Some 403 ∧ c_aborted (conn w') = false.
Proof.
  destruct (@coraza_output_filter script _ _ zeroed_pool sim_out [Data Heap (bytes_of "secret"); Eos]
    not_found) as [[a w']|] eqn:E; [|vm_compute in E; discriminate E].
  exists w'. vm_compute in E. injection E as <- <-. by split_and!; vm_compute.
Qed.
