(* ===== verification/Hooks.v ===== *)
(** * The module and its hooks

    [coraza_register_hooks] and the module record of src/mod_coraza.c, with
    the filter names of src/mod_coraza.h, and what httpd does with them: it
    runs the registered handlers, finds a filter by its name, and merges the
    server records of virtual hosts. *)
From S2P Require Import Prelude RulesScan Types World DynLib Intervention Config Waf Headers Phase1 BodyIn FilterOut.
Local Open Scope Z_scope.

(** ** mod_coraza.h *)
Definition CORAZA_IN_FILTER : string := "CORAZA_IN".
Definition CORAZA_OUT_FILTER : string := "CORAZA_OUT".

(** ** Registrations *)
Inductive hook_order := APR_HOOK_REALLY_FIRST | APR_HOOK_FIRST | APR_HOOK_MIDDLE | APR_HOOK_LAST | APR_HOOK_REALLY_LAST.
Inductive ap_filter_type := AP_FTYPE_RESOURCE | AP_FTYPE_CONTENT_SET | AP_FTYPE_PROTOCOL | AP_FTYPE_TRANSCODE | AP_FTYPE_CONNECTION | AP_FTYPE_NETWORK.

Section hooks.
Context {X : Type} `{!Dynlib X, !Libcoraza X, !Httpd X, !Libc X, !Pool, !ConfigFiles, !AprStrings}.
Abbreviation W := (world X).
Abbreviation result := (apr_status * brigade)%type.

Definition input_filter_fn : Type :=
  ap_filter_t → brigade → input_mode → read_type → Z → M W result.
Definition output_filter_fn : Type := ap_filter_t → brigade → M W result.

Inductive registration :=
| ap_hook_fixups (f : nat → M W Z) (order : hook_order)
| ap_hook_log_transaction (f : nat → M W Z) (order : hook_order)
| ap_register_input_filter (name : string) (f : input_filter_fn) (ftype : ap_filter_type)
| ap_register_output_filter (name : string) (f : output_filter_fn) (ftype : ap_filter_type)
| ap_hook_post_config (f : M W Z) (order : hook_order)
| ap_hook_check_config (f : M W Z) (order : hook_order)
| ap_hook_child_init (f : M W unit) (order : hook_order).

(** What the function registers, in order. *)
Definition coraza_register_hooks : list registration :=
  [ ap_hook_fixups coraza_post_read_request APR_HOOK_REALLY_FIRST;
    ap_hook_log_transaction coraza_log_transaction APR_HOOK_MIDDLE;
    ap_register_input_filter CORAZA_IN_FILTER coraza_input_filter AP_FTYPE_CONTENT_SET;
    ap_register_output_filter CORAZA_OUT_FILTER coraza_output_filter AP_FTYPE_CONTENT_SET;
    ap_hook_post_config coraza_post_config APR_HOOK_MIDDLE;
    ap_hook_check_config coraza_check_config APR_HOOK_MIDDLE;
    ap_hook_child_init coraza_child_init APR_HOOK_MIDDLE ].

(** [module]; a NULL merge function is [None]. *)
Record module_rec := Module_rec {
  create_dir_config : M W nat;
  merge_dir_config : option (nat → nat → M W nat);
  create_server_config : M W nat;
  merge_server_config : option (nat → nat → M W nat);
  cmds : list (@command_rec X);
  register_hooks : list registration }.

Definition coraza_module : module_rec :=
  Module_rec coraza_create_dir_conf (Some coraza_merge_dir_conf) coraza_create_server_conf None
    coraza_directives coraza_register_hooks.

(** ** httpd's side *)

(** A hook that runs every handler until one returns neither OK nor DECLINED. *)
Fixpoint run_all (fs : list (M W Z)) : M W Z :=
  match fs with
  | [] => mret OK
  | f :: fs =>
      rv ← f;
      if bool_decide (rv = OK) || bool_decide (rv = DECLINED) then run_all fs else mret rv
  end.

Definition ap_run_fixups (regs : list registration) (r : nat) : M W Z :=
  run_all (omap (λ g, match g with ap_hook_fixups f _ => Some (f r) | _ => None end) regs).
Definition ap_run_log_transaction (regs : list registration) (r : nat) : M W Z :=
  run_all (omap (λ g, match g with ap_hook_log_transaction f _ => Some (f r) | _ => None end) regs).
Definition ap_run_check_config (regs : list registration) : M W Z :=
  run_all (omap (λ g, match g with ap_hook_check_config f _ => Some f | _ => None end) regs).
Definition ap_run_post_config (regs : list registration) : M W Z :=
  run_all (omap (λ g, match g with ap_hook_post_config f _ => Some f | _ => None end) regs).
Definition ap_run_child_init (regs : list registration) : M W unit :=
  foldr (λ g k, match g with ap_hook_child_init f _ => f ;; k | _ => k end) (mret tt) regs.

(** The filter registered under a name; a call of a filter no module
    registered passes the brigade by. *)
Definition input_filter_of (regs : list registration) (name : string) : input_filter_fn :=
  λ f bb mode block n,
  match omap (λ g, match g with ap_register_input_filter nm h _ =>
                     if String.eqb nm name then Some h else None | _ => None end) regs with
  | h :: _ => h f bb mode block n
  | [] => mret (APR_SUCCESS, bb)
  end.
Definition output_filter_of (regs : list registration) (name : string) : output_filter_fn :=
  λ f bb,
  match omap (λ g, match g with ap_register_output_filter nm h _ =>
                     if String.eqb nm name then Some h else None | _ => None end) regs with
  | h :: _ => h f bb
  | [] => mret (APR_SUCCESS, bb)
  end.

(** The server record a virtual host ends up with: [base] is the main server's
    slot, [virt] the host's own, NULL when no directive of the module stands in
    it. *)
Definition merge_server_configs (m : module_rec) (base virt : option nat) : M W (option nat) :=
  match virt, base, merge_server_config m with
  | None, _, _ => mret base
  | Some v, Some b, Some merge => s ← merge b v; mret (Some s)
  | Some v, _, _ => mret (Some v)
  end.

(** ** What the registrations amount to *)

(** The handler that answers each hook and each filter name. *)
Theorem hooks_dispatch r (w : W) :
  (∀ name, input_filter_of coraza_register_hooks name
     = if String.eqb CORAZA_IN_FILTER name then coraza_input_filter
       else λ _ bb _ _ _, mret (APR_SUCCESS, bb))
  ∧ (∀ name, output_filter_of coraza_register_hooks name
     = if String.eqb CORAZA_OUT_FILTER name then coraza_output_filter
       else λ _ bb, mret (APR_SUCCESS, bb))
  ∧ ap_run_fixups coraza_register_hooks r w = run_all [coraza_post_read_request r] w
  ∧ ap_run_log_transaction coraza_register_hooks r w = run_all [coraza_log_transaction r] w
  ∧ ap_run_check_config coraza_register_hooks w = run_all [coraza_check_config] w
  ∧ ap_run_post_config coraza_register_hooks w = run_all [coraza_post_config] w
  ∧ ap_run_child_init coraza_register_hooks w = (coraza_child_init ;; mret tt) w.
Proof.
  split_and!; try done; intros name; unfold input_filter_of, output_filter_of;
    cbn [omap list_omap coraza_register_hooks]; by destruct (String.eqb _ name).
Qed.

(** A virtual host with a directive of the module keeps its own server record,
    as it is; without one it shares the record of the main server. *)
Theorem vhost_keeps_own_record (base virt : option nat) (w : W) :
  merge_server_configs coraza_module base virt w
  = Some (match virt with Some v => Some v | None => base end, w).
Proof. by destruct virt, base. Qed.
End hooks.
