(* ===== verification/Protocol.v ===== *)
(** * The engine protocol

    The contract a client of libcoraza keeps for one request, as an automaton
    that reads the log of the calls: one transaction at most; the phases in
    their order; every call on that transaction; nothing but logging and
    freeing once the engine failed or denied; logged at most once; nothing
    after it was freed.  [LifecycleFacts] proves that whatever httpd makes the
    handlers do, the log is accepted. *)
From S2P Require Import Prelude Types World DynLib InterventionFacts.
Local Open Scope Z_scope.

(** ** Phases

    [Created]: the handle exists; [Registered]: its cleanup is registered;
    [Connected], [HeadersIn], [BodyIn], [BodyRead]: the connection, the request
    line, the request headers, the request body were processed; [HeadersOut]:
    response headers are being added; [BodyOut], [BodyEnded]: the response
    headers, the response body were processed. *)
Inductive phase :=
| Created | Registered | Connected | HeadersIn | BodyIn | BodyRead
| HeadersOut | BodyOut | BodyEnded | Logged | Freed.

#[export] Instance phase_eq_dec : EqDecision phase.
Proof. solve_decision. Defined.

(** Phases 1 to 4 are open: the transaction may be polled and logged. *)
Definition in_progress (p : phase) : bool :=
  match p with Created | Logged | Freed => false | _ => true end.

(** Where a call leads; [None] when it is out of order.  A second response of
    the same client request (an internal redirect after a response was
    inspected) continues in [BodyOut] or [BodyEnded]. *)
Definition next_phase (c : call) (p : phase) : option phase :=
  match c, p with
  | ProcessConnection _ _ _ _ _, Registered => Some Connected
  | ProcessUri _ _ _ _, Connected => Some HeadersIn
  | AddRequestHeaders _ _ _ _, HeadersIn => Some HeadersIn
  | AddRequestHeader _ _ _ _ _, HeadersIn => Some HeadersIn
  | ProcessRequestHeaders _, HeadersIn => Some BodyIn
  | IsRequestBodyAccessible _, BodyIn => Some BodyIn
  | AppendRequestBody _ _ _, BodyIn => Some BodyIn
  | ProcessRequestBody _, BodyIn => Some BodyRead
  | AddResponseHeaders _ _ _ _, (BodyIn | BodyRead | HeadersOut) => Some HeadersOut
  | AddResponseHeader _ _ _ _ _, (BodyIn | BodyRead | HeadersOut) => Some HeadersOut
  | ProcessResponseHeaders _ _ _, (BodyIn | BodyRead | HeadersOut) => Some BodyOut
  | IsResponseBodyAccessible _, BodyOut => Some BodyOut
  | IsResponseBodyProcessable _, BodyOut => Some BodyOut
  | AppendResponseBody _ _ _, (BodyOut | BodyEnded) => Some p
  | ProcessResponseBody _, (BodyOut | BodyEnded) => Some BodyEnded
  | UpdateStatusCode _ _, _ => if in_progress p then Some p else None
  | ProcessLogging _, _ => if in_progress p then Some Logged else None
  | FreeTransaction _, (Created | Freed) => None
  | FreeTransaction _, _ => Some Freed
  | _, _ => None
  end.

(** The transaction a call is about. *)
Definition tx_of (c : call) : option Z :=
  match c with
  | FreeTransaction t | ProcessConnection t _ _ _ _ | ProcessUri t _ _ _
  | AddRequestHeader t _ _ _ _ | AddRequestHeaders t _ _ _ | ProcessRequestHeaders t
  | AppendRequestBody t _ _ | ProcessRequestBody t | AddResponseHeader t _ _ _ _
  | AddResponseHeaders t _ _ _ | AppendResponseBody t _ _ | ProcessResponseBody t
  | ProcessResponseHeaders t _ _ | ProcessLogging t | UpdateStatusCode t _ | AddGetArgs t _ _
  | IsResponseBodyProcessable t | IsRequestBodyAccessible t | IsResponseBodyAccessible t => Some t
  | _ => None
  end.

(** ** The verdict *)

(** The engine failed on what it was given.  A rejected header batch is not a
    failure: the headers are sent again one by one. *)
Definition engine_failed (c : call) (ret : Z) : bool :=
  match c with
  | ProcessConnection _ _ _ _ _ | ProcessUri _ _ _ _ | ProcessRequestHeaders _
  | ProcessRequestBody _ | ProcessResponseHeaders _ _ _ | ProcessResponseBody _ =>
      coraza_process_failed ret
  | AddRequestHeader _ _ _ _ _ | AppendRequestBody _ _ _ | AddResponseHeader _ _ _ _ _
  | AppendResponseBody _ _ _ => CORAZA_CALL_FAILED ret
  | _ => false
  end.

(** What may still be called on a transaction that is refused, or is not. *)
Definition permitted (refused : bool) (c : call) : bool :=
  match c with
  | ProcessLogging _ | FreeTransaction _ => true
  | UpdateStatusCode _ _ => refused
  | _ => negb refused
  end.

(** ** The automaton *)
Inductive tx_state := NoTx | Tx (t : Z) (p : phase) (refused : bool).

Definition step_call (c : call) (ret t : Z) (p : phase) (refused : bool) : option tx_state :=
  if permitted refused c then
    p' ← next_phase c p; Some (Tx t p' (refused || engine_failed c ret))
  else None.

Definition step_event (s : tx_state) (e : event) : option tx_state :=
  match e with
  | EvCall (NewTransaction _ | NewTransactionWithId _ _) ret =>
      match s with
      | NoTx => Some (if bool_decide (ret = 0) then NoTx else Tx ret Created false)
      | Tx _ _ _ => None
      end
  | EvCall c ret =>
      match tx_of c, s with
      | None, _ => Some s
      | Some t', Tx t p refused => if bool_decide (t' = t) then step_call c ret t p refused else None
      | Some _, NoTx => None
      end
  | EvIntervention t' it =>
      match s with
      | Tx t p false =>
          if bool_decide (t' = t) && in_progress p then Some (Tx t p (bool_decide (it ≠ None)))
          else None
      | _ => None
      end
  | EvCleanupRegister _ =>
      match s with Tx t Created false => Some (Tx t Registered false) | _ => None end
  | _ => Some s
  end.

Definition steps (tr : list event) (s : tx_state) : option tx_state :=
  foldl (λ o e, s ← o; step_event s e) (Some s) tr.

(** The state after the log of one client request. *)
Definition protocol (tr : list event) : option tx_state := steps tr NoTx.

(** ** Rules *)
Lemma steps_None tr : foldl (λ o e, s ← o; step_event s e) None tr = None.
Proof. by induction tr. Qed.

Lemma steps_app t1 t2 s : steps (t1 ++ t2) s = steps t1 s ≫= steps t2.
Proof.
  unfold steps. rewrite foldl_app. destruct (foldl _ (Some s) t1); [done|]. apply steps_None.
Qed.
Lemma steps_cons e tr s : steps (e :: tr) s = step_event s e ≫= steps tr.
Proof. exact (steps_app [e] tr s). Qed.

(** An event outside the protocol. *)
Definition idle (e : event) : Prop :=
  match e with
  | EvCall (NewTransaction _ | NewTransactionWithId _ _) _ => False
  | EvCall c _ => tx_of c = None
  | EvIntervention _ _ | EvCleanupRegister _ => False
  | _ => True
  end.

Lemma step_idle e s : idle e → step_event s e = Some s.
Proof. by destruct e as [[]| | | | | | | | | | | | | | |]. Qed.
Lemma steps_idle tr s : Forall idle tr → steps tr s = Some s.
Proof.
  induction 1 as [|e tr He _ IH]; [done|]. by rewrite steps_cons, step_idle.
Qed.

(** Logged or freed: the transaction never becomes active again. *)
Definition closed (p : phase) : Prop := p = Logged ∨ p = Freed.

Lemma step_closed t p rf e s' :
  closed p → step_event (Tx t p rf) e = Some s' → ∃ p' rf', s' = Tx t p' rf' ∧ closed p'.
Proof.
  intros Hp Hs.
  destruct e as [k ret|cf wf er|w1 w2 rt er|t' it|lv msg| | |c0| |c0 r0|f0|c0 r0|f0|md rb|bb|sv pr];
    try (injection Hs as <-; by exists p, rf).
  - destruct k; simpl in Hs; try (injection Hs as <-; by exists p, rf); try done.
    all: case_bool_decide; [|done]; unfold step_call in Hs; destruct (permitted rf _); [|done].
    all: destruct Hp as [->| ->]; simpl in Hs; simplify_eq.
    eexists _, _. split; [done|by right].
  - simpl in Hs. destruct rf; [done|]. by destruct Hp as [->| ->]; rewrite andb_false_r in Hs.
  - simpl in Hs. by destruct Hp as [->| ->].
Qed.
Lemma steps_closed tr : ∀ t p rf s',
  closed p → steps tr (Tx t p rf) = Some s' → ∃ p' rf', s' = Tx t p' rf' ∧ closed p'.
Proof.
  induction tr as [|e tr IH]; intros t p rf s' Hp Hs; [injection Hs as <-; by exists p, rf|].
  rewrite steps_cons in Hs. destruct (step_event _ e) as [s1|] eqn:E; [|done].
  destruct (step_closed t p rf e s1 Hp E) as (p1 & rf1 & -> & H1). by eapply IH.
Qed.

(** ** What acceptance means

    Consequences for the log alone, used to read the theorems on the handlers. *)

(** The handles of the transactions opened, freed and logged, in order. *)
Definition opened (tr : list event) : list Z :=
  omap (λ e, match e with
             | EvCall (NewTransaction _ | NewTransactionWithId _ _) ret =>
                 if decide (ret = 0) then None else Some ret
             | _ => None end) tr.
Definition freed (tr : list event) : list Z :=
  omap (λ k, match k with FreeTransaction t => Some t | _ => None end) (calls tr).

Lemma opened_app t1 t2 : opened (t1 ++ t2) = opened t1 ++ opened t2.
Proof. apply omap_app. Qed.
Lemma freed_app t1 t2 : freed (t1 ++ t2) = freed t1 ++ freed t2.
Proof. unfold freed. by rewrite calls_app, omap_app. Qed.

(** What the state says about the log. *)
Definition accounts (s : tx_state) (tr : list event) : Prop :=
  match s with
  | NoTx => opened tr = [] ∧ freed tr = [] ∧ logged_by tr = []
  | Tx t p _ =>
      opened tr = [t] ∧ freed tr = (if bool_decide (p = Freed) then [t] else [])
      ∧ match p with
        | Logged => logged_by tr = [t]
        | Freed => logged_by tr = [] ∨ logged_by tr = [t]
        | _ => logged_by tr = []
        end
  end.

Lemma step_accounts s e s' tr :
  accounts s tr → step_event s e = Some s' → accounts s' (tr ++ [e]).
Proof.
  intros Ha Hs. unfold accounts in *.
  rewrite !opened_app, !freed_app, !logged_by_app.
  destruct e as [k ret|cf wf er|w1 w2 rt er|t' it|lv msg| | |c0| |c0 r0|f0|c0 r0|f0|md rb|bb|sv pr];
    try (injection Hs as <-; by rewrite !app_nil_r).
  - destruct k; simpl in Hs; try (injection Hs as <-; by rewrite !app_nil_r).
    all: destruct s as [|u p rf]; simplify_eq.
    1,2: destruct Ha as (Ho & Hf & Hl); destruct (decide (ret = 0)) as [Hz|Hz];
      [rewrite bool_decide_eq_true_2 by done|rewrite bool_decide_eq_false_2 by done];
      rewrite Ho, Hf, Hl; simpl; by case_decide.
    all: case_bool_decide as Et; [subst|done]; unfold step_call in Hs;
      destruct (permitted rf _); [|done]; destruct p; simpl in Hs; simplify_eq;
      destruct Ha as (-> & -> & Hl); simpl; rewrite ?app_nil_r; split_and!; try done; try (by rewrite Hl);
      try (by right; rewrite Hl); try (by left; rewrite Hl).
  - simpl in Hs. destruct s as [|u p []]; try done. case_match; [|done]. injection Hs as <-.
    by rewrite !app_nil_r.
  - simpl in Hs. destruct s as [|u [] []]; try done. injection Hs as <-. by rewrite !app_nil_r.
Qed.

Lemma steps_accounts tr : ∀ s tr0 s', accounts s tr0 → steps tr s = Some s' → accounts s' (tr0 ++ tr).
Proof.
  induction tr as [|e tr IH]; intros s tr0 s' Ha Hs.
  - injection Hs as <-. by rewrite app_nil_r.
  - rewrite steps_cons in Hs. destruct (step_event s e) as [s1|] eqn:E; [|done].
    replace (tr0 ++ e :: tr) with ((tr0 ++ [e]) ++ tr) by (by rewrite <- app_assoc).
    eapply IH; [by eapply step_accounts|exact Hs].
Qed.

(** An accepted log opens at most one transaction, and what is freed and
    logged is that one. *)
Lemma protocol_accounts tr s : protocol tr = Some s → accounts s tr.
Proof. intros H. exact (steps_accounts tr NoTx [] s (conj eq_refl (conj eq_refl eq_refl)) H). Qed.

(** The engine denied the request, or failed on what it was given. *)
Definition refusal (e : event) : Prop :=
  match e with
  | EvIntervention _ it => it ≠ None
  | EvCall k ret => engine_failed k ret = true
  | _ => False
  end.
(** Nothing is inspected by it: no call on the transaction but the status, the
    audit log and the end; no poll. *)
Definition closing (e : event) : Prop :=
  match e with
  | EvIntervention _ _ => False
  | EvCall k _ =>
      match k with
      | UpdateStatusCode _ _ | ProcessLogging _ | FreeTransaction _ => True
      | NewTransaction _ | NewTransactionWithId _ _ => False
      | _ => tx_of k = None
      end
  | _ => True
  end.

Definition is_refused (s : tx_state) : Prop := match s with Tx _ _ rf => rf = true | NoTx => False end.

Lemma step_refused s e s' :
  is_refused s → step_event s e = Some s' → closing e ∧ is_refused s'.
Proof.
  destruct s as [|u p []]; try done. intros _ Hs.
  destruct e as [k ret|cf wf er|w1 w2 rt er|t' it|lv msg| | |c0| |c0 r0|f0|c0 r0|f0|md rb|bb|sv pr];
    try (by injection Hs as <-).
  - destruct k; simpl in Hs; try (by injection Hs as <-); try done.
    all: case_bool_decide; [|done]; unfold step_call in Hs; simpl in Hs; try done.
    all: destruct p; simpl in Hs; by simplify_eq.
  - simpl in Hs. by destruct p.
  - simpl in Hs. by destruct p.
Qed.

Lemma step_refusal s e s' : refusal e → step_event s e = Some s' → is_refused s'.
Proof.
  intros Hr Hs. destruct e as [k ret|cf wf er|w1 w2 rt er|t' it|lv msg| | |c0| |c0 r0|f0|c0 r0|f0|md rb|bb|sv pr];
    try done.
  - destruct k; try done; simpl in *; destruct s as [|u p rf]; try done; case_bool_decide; try done;
      unfold step_call in Hs; destruct (permitted rf _); try done;
      destruct p; simpl in Hs; simplify_eq; simpl; rewrite Hr; apply orb_true_r.
  - simpl in *. destruct s as [|u p []]; try done. case_match; [|done]. simplify_eq. simpl.
    by rewrite bool_decide_eq_true_2.
Qed.

Lemma steps_refused tr : ∀ s s', is_refused s → steps tr s = Some s' → Forall closing tr.
Proof.
  induction tr as [|e tr IH]; intros s s' Hr Hs; [constructor|].
  rewrite steps_cons in Hs. destruct (step_event s e) as [s1|] eqn:E; [|done].
  destruct (step_refused s e s1 Hr E) as [Hc H1]. constructor; [done|by eapply IH].
Qed.

(** After a refusal an accepted log only closes the transaction. *)
Lemma protocol_refused t1 e t2 s :
  protocol (t1 ++ e :: t2) = Some s → refusal e → Forall closing t2.
Proof.
  intros H He. unfold protocol in H. rewrite steps_app in H.
  destruct (steps t1 NoTx) as [s1|]; [|done]. simpl in H. rewrite steps_cons in H.
  destruct (step_event s1 e) as [s2|] eqn:E; [|done].
  eapply steps_refused; [by eapply step_refusal|exact H].
Qed.
