(* ===== verification/Lifecycle.v ===== *)
(** * The life of a client request

    How httpd drives the handlers the module registered ([Hooks]): a step
    relation over the requests of one connection.  A request is accepted, its
    fixups run, its handler reads the body through the input filter and writes
    the response through the output filter, an internal redirect makes a new
    request record for the same client request, other modules change the
    records in between, the transaction is logged and the pool of the request
    is destroyed.  httpd may take these steps in any order and number that
    [enabled] allows; in particular a filter may be called after it left the
    chain, which covers every real schedule. *)
From S2P Require Import Prelude RulesScan Types World DynLib DynLibFacts Intervention InterventionFacts Config Waf Headers HeadersFacts Phase1 BodyIn FilterOut FilterOutFacts Hooks Sim.
Local Open Scope Z_scope.

(** ** Registered cleanups and added filters, read off the log *)
Definition cleanups (tr : list event) : list nat :=
  omap (λ e, match e with EvCleanupRegister c => Some c | _ => None end) tr.

(** A configuration without dangling pointers: every section has its rules, the
    section it was merged from exists, every server has its record. *)
Record cfg_ok (g : config) : Prop := {
  co_rules : ∀ d dcf, dir_confs g !! d = Some dcf → is_Some (arrays g !! rules dcf);
  co_child : ∀ d dcf m, dir_confs g !! d = Some dcf → merge_child dcf = Some m →
    is_Some (dir_confs g !! m);
  co_servers : ∀ i sv, servers g !! i = Some sv →
    ∃ s, sv_conf sv = Some s ∧ is_Some (server_confs g !! s) }.

(** The record of the request the client sent. *)
Fixpoint original (rs : list nat) : option nat :=
  match rs with [] => None | [r] => Some r | _ :: rs => original rs end.

Section lifecycle.
Context {X : Type} `{!Dynlib X, !Libcoraza X, !Httpd X, !Libc X, !Pool, !ConfigFiles, !AprStrings}.
Abbreviation W := (world X).

(** Between requests; before and after the log hook ran. *)
Inductive stage := Idle | Serving | LoggedStage.

#[export] Instance stage_eq_dec : EqDecision stage.
Proof. solve_decision. Defined.

(** [l_start]: how long the log was when the client request was accepted;
    [l_requests]: its request records, the current one first, each the [prev] of
    the one before; [l_fixed]: did the fixups of the current one run. *)
Record life := Life {
  l_world : W;
  l_start : nat;
  l_requests : list nat;
  l_fixed : bool;
  l_stage : stage }.

Definition request_log (l : life) : list event := drop (l_start l) (trace (l_world l)).

Inductive op :=
| OAccept (q : request_rec)
| OMerge (parent child : nat)
| OSet (r : nat) (q : request_rec)
| OFixups
| ORead (f : ap_filter_t) (bb : brigade) (mode : input_mode) (block : read_type) (readbytes : Z)
| OWrite (f : ap_filter_t) (bb : brigade)
| ORedirect (q : request_rec)
| OSubrequest (q : request_rec)
| OLog
| OEnd.

(** ** What each step does *)

(** A handler runs on the world; [None] when it is undefined. *)
Definition run {A} (m : M W A) (l : life) : option life :=
  '(_, w) ← m (l_world l);
  Some (Life w (l_start l) (l_requests l) (l_fixed l) (l_stage l)).

(** A new request record, and the records of a destroyed pool: neither they
    nor the contexts allocated in it may be followed any more. *)
Definition add_request (r : nat) (q : request_rec) : M W unit :=
  modify (set_reqs (λ m, <[r := q]> m)).
Fixpoint run_cleanups (cs : list nat) : M W unit :=
  match cs with [] => mret tt | c :: cs => coraza_cleanup_transaction c ;; run_cleanups cs end.
Definition destroy_pool : M W unit :=
  modify (set_reqs (λ _, ∅)) ;; modify (set_ctxs (λ _, ∅)).

(** httpd runs the log hook on the record of the request the client sent, the one
    its end-of-request bucket was made for, whatever redirects followed. *)
Definition perform (o : op) (l : life) : option life :=
  let r := next_key (reqs (l_world l)) in
  match o with
  | OAccept q =>
      run (add_request r q) (Life (l_world l) (length (trace (l_world l))) [r] false Serving)
  | OMerge parent child =>
      match merge_dir_config coraza_module with
      | Some merge => run (merge parent child) l
      | None => Some l
      end
  | OSet r q => run (upd_req r (λ _, q)) l
  | OFixups =>
      match l_requests l with
      | [] => None
      | cur :: _ =>
          run (ap_run_fixups coraza_register_hooks cur)
            (Life (l_world l) (l_start l) (l_requests l) true (l_stage l))
      end
  | ORead f bb mode block readbytes =>
      run (input_filter_of coraza_register_hooks CORAZA_IN_FILTER f bb mode block readbytes) l
  | OWrite f bb => run (output_filter_of coraza_register_hooks CORAZA_OUT_FILTER f bb) l
  | ORedirect q =>
      run (add_request r q) (Life (l_world l) (l_start l) (r :: l_requests l) false (l_stage l))
  | OSubrequest q => run (add_request r q ;; ap_run_fixups coraza_register_hooks r) l
  | OLog =>
      match original (l_requests l) with
      | None => None
      | Some r0 =>
          run (ap_run_log_transaction coraza_register_hooks r0)
            (Life (l_world l) (l_start l) (l_requests l) (l_fixed l) LoggedStage)
      end
  | OEnd =>
      run (run_cleanups (cleanups (request_log l)) ;; destroy_pool)
        (Life (l_world l) (l_start l) [] false Idle)
  end.

(** ** When httpd takes it *)

(** The module's slots of a request point to records that exist. *)
Definition request_valid (w : W) (q : request_rec) : Prop :=
  dir_valid w q ∧ is_Some (servers (cfg w) !! r_server q).

(** A filter httpd may call: added without a context by a directive, or added
    by the hook for the current client request. *)
Definition output_filter_added (l : life) (f : ap_filter_t) : Prop :=
  f_ctx f = None ∨ ∃ c, f_ctx f = Some c ∧ EvAddOutputFilter c (f_r f) ∈ request_log l.
Definition input_filter_added (l : life) (f : ap_filter_t) : Prop :=
  f_ctx f = None ∨ ∃ c, f_ctx f = Some c ∧ EvAddInputFilter c (f_r f) ∈ request_log l.

Definition enabled (o : op) (l : life) : Prop :=
  let w := l_world l in
  match o with
  | OAccept q =>
      l_stage l = Idle ∧ r_main q = false ∧ r_prev q = None ∧ r_ctx q = None ∧ request_valid w q
  | OMerge parent child =>
      is_Some (dir_confs (cfg w) !! parent) ∧ is_Some (dir_confs (cfg w) !! child)
  | OSet r q =>
      l_stage l = Serving ∧ r ∈ l_requests l ∧ request_valid w q
      ∧ ∃ q0, reqs w !! r = Some q0
          ∧ r_main q = r_main q0 ∧ r_prev q = r_prev q0 ∧ r_ctx q = r_ctx q0
  | OFixups =>
      l_stage l = Serving ∧ l_fixed l = false
      ∧ ∀ r q, head (l_requests l) = Some r → reqs w !! r = Some q → table_ok (r_headers_in q)
  | ORead f _ _ _ _ => l_stage l = Serving ∧ input_filter_added l f
  | OWrite f _ =>
      l_stage l = Serving ∧ output_filter_added l f
      ∧ ∀ q, reqs w !! f_r f = Some q → response_ok q
  | ORedirect q =>
      l_stage l = Serving ∧ r_main q = false ∧ r_prev q = head (l_requests l) ∧ r_ctx q = None
      ∧ request_valid w q
  | OSubrequest q => l_stage l = Serving ∧ r_main q = true ∧ request_valid w q
  | OLog => l_stage l = Serving
  | OEnd => l_stage l ≠ Idle
  end.

Definition life_step (l l' : life) : Prop := ∃ o, enabled o l ∧ perform o l = Some l'.

(** ** Where it starts

    A child process after a successful start: libcoraza is loaded, the mutex
    exists and is free, the configuration holds no dangling pointer, and no
    request was accepted yet. *)
Record sane (w : W) : Prop := {
  sn_dl : dl_ready w;
  sn_mutex : g_waf_build_mutex (wafs w) = Some false;
  sn_cfg : cfg_ok (cfg w) }.

Definition idle_life (w : W) : life := Life w (length (trace w)) [] false Idle.

(** The lives of the client requests of one connection. *)
Definition reachable (l : life) : Prop :=
  ∃ w, sane w ∧ reqs w = ∅ ∧ rtc life_step (idle_life w) l.
End lifecycle.
