(* ===== verification/Discipline.v ===== *)
(** * Keeping the protocol: the shared pieces

    The state a handler works in while a client request is served, as an
    invariant over the whole world ([household], [running]), the ways a handler
    may change it, and the operations every handler uses: calling libcoraza,
    polling, logging. *)
From S2P Require Import Prelude Pack Types World DynLib DynLibFacts Intervention InterventionFacts Waf Headers HeadersFacts Phase1 Phase1Facts FilterOutFacts Protocol Lifecycle.
Local Open Scope Z_scope.

(** The identity of a request record, which nobody changes once it is made. *)
Definition same_request (q q' : request_rec) : Prop :=
  r_main q' = r_main q ∧ r_prev q' = r_prev q ∧ r_ctx q' = r_ctx q.
(** With its configuration. *)
Definition same_slots (q q' : request_rec) : Prop :=
  same_request q q' ∧ r_dir_conf q' = r_dir_conf q ∧ r_server q' = r_server q.

(** Documented behaviour of [ap_die]: it answers the request with an error
    response; the record keeps its identity and its configuration. *)
Class DieLaws (X : Type) `{!Httpd X} :=
  ap_die_slots s r q x : same_slots q (ap_die s r q x).1.

(** An event that adds no filter and registers no cleanup. *)
Definition plain (e : event) : Prop :=
  match e with
  | EvAddOutputFilter _ _ | EvAddInputFilter _ _ | EvCleanupRegister _ => False
  | _ => True
  end.

Lemma cleanups_app t1 t2 : cleanups (t1 ++ t2) = cleanups t1 ++ cleanups t2.
Proof. apply omap_app. Qed.
Lemma cleanups_plain tr : Forall plain tr → cleanups tr = [].
Proof. induction 1 as [|e tr He _ IH]; [done|]. by destruct e. Qed.
Lemma plain_not_output tr c r : Forall plain tr → EvAddOutputFilter c r ∉ tr.
Proof. intros H Hin. rewrite list.Forall_forall in H. by apply H in Hin. Qed.
Lemma plain_not_input tr c r : Forall plain tr → EvAddInputFilter c r ∉ tr.
Proof. intros H Hin. rewrite list.Forall_forall in H. by apply H in Hin. Qed.

(** The configuration only gained records, and stayed without dangling
    pointers. *)
Record cfg_grows (g g' : config) : Prop := {
  cg_ok : cfg_ok g → cfg_ok g';
  cg_arrays : ∀ a, is_Some (arrays g !! a) → is_Some (arrays g' !! a);
  cg_dirs : ∀ d, is_Some (dir_confs g !! d) → is_Some (dir_confs g' !! d);
  cg_servers : servers g' = servers g }.

#[export] Instance cfg_grows_preorder : PreOrder cfg_grows.
Proof.
  split; [done|]. intros g1 g2 g3 [] []. constructor; [auto..|congruence].
Qed.

Section household.
Context {X : Type}.
Implicit Types w : world X.

(** The requests [ch] of the client request accepted when the log had [n]
    events; [oc] is the context of its transaction, once there is one. *)
Record household (n : nat) (ch : list nat) (oc : option nat) w : Prop := {
  hh_sane : sane w;
  hh_valid : ∀ r q, reqs w !! r = Some q → request_valid w q;
  hh_path : prev_path w (head ch) ch;
  hh_len : (n ≤ length (trace w))%nat;
  hh_main : ∀ r q, r ∈ ch → reqs w !! r = Some q → r_main q = false;
  hh_owner : ∀ r q c, r ∈ ch → reqs w !! r = Some q → r_ctx q = Some c → oc = Some c;
  hh_some : ∀ c, oc = Some c → ∃ r q, r ∈ ch ∧ reqs w !! r = Some q ∧ r_ctx q = Some c;
  hh_out : ∀ c r, EvAddOutputFilter c r ∈ drop n (trace w) →
    oc = Some c ∧ ∃ q, reqs w !! r = Some q ∧ r_ctx q = Some c;
  hh_in : ∀ c r, EvAddInputFilter c r ∈ drop n (trace w) → oc = Some c;
  hh_cleanup : cleanups (drop n (trace w)) = option_list oc }.

Lemma prev_path_same w w' p l : reqs w' = reqs w → prev_path w p l → prev_path w' p l.
Proof. intros Hrq. induction 1; econstructor; [by rewrite Hrq|done]. Qed.

(** What the invariant depends on. *)
Lemma household_frame n ch oc w w' tr :
  household n ch oc w → dl w' = dl w → cfg_grows (cfg w) (cfg w') →
  g_waf_build_mutex (wafs w') = Some false →
  reqs w' = reqs w → trace w' = trace w ++ tr → Forall plain tr → household n ch oc w'.
Proof.
  intros [] Hdl Hcfg Hmu Hrq Ht Hp.
  assert (drop n (trace w') = drop n (trace w) ++ tr) as Hd by (rewrite Ht, drop_app_le; done).
  constructor.
  - destruct hh_sane0. constructor; [unfold dl_ready; by rewrite Hdl|done|]. by apply Hcfg.
  - rewrite Hrq. intros r q Hq. destruct (hh_valid0 r q Hq) as [Hdir Hsrv]. split.
    + intros d Hslot. apply Hcfg, Hdir, Hslot.
    + by rewrite (cg_servers _ _ Hcfg).
  - by apply prev_path_same with w.
  - rewrite Ht, length_app. lia.
  - by rewrite Hrq.
  - by rewrite Hrq.
  - by rewrite Hrq.
  - rewrite Hd, Hrq. intros c r [H|H]%elem_of_app; [by apply hh_out0|].
    by apply plain_not_output in H.
  - rewrite Hd. intros c r [H|H]%elem_of_app; [by eapply hh_in0|]. by apply plain_not_input in H.
  - by rewrite Hd, cleanups_app, (cleanups_plain tr), app_nil_r.
Qed.

Lemma household_ext n ch oc w e tr :
  household n ch oc w → Forall plain tr → household n ch oc (ext e tr w).
Proof. intros H Hp. eapply household_frame; try done. apply H. Qed.
Lemma household_ctxs n ch oc w f : household n ch oc w → household n ch oc (set_ctxs f w).
Proof.
  intros H. eapply (household_frame _ _ _ _ _ []); try done; [apply H|by rewrite app_nil_r].
Qed.
Lemma household_conn n ch oc w f : household n ch oc w → household n ch oc (set_conn f w).
Proof.
  intros H. eapply (household_frame _ _ _ _ _ []); try done; [apply H|by rewrite app_nil_r].
Qed.

Lemma prev_path_reqs w r q q' p l :
  reqs w !! r = Some q → r_prev q' = r_prev q →
  prev_path w p l → prev_path (set_reqs (λ m, <[r := q']> m) w) p l.
Proof.
  intros Hq Hp. induction 1 as [|p0 q0 l Hq0 _ IH]; [constructor|].
  destruct (decide (p0 = r)) as [->|Hne].
  - rewrite Hq in Hq0. injection Hq0 as ->. apply path_step with q'; [apply lookup_insert_eq|].
    by rewrite Hp.
  - apply path_step with q0; [|done]. simpl. by rewrite lookup_insert_ne.
Qed.

Lemma household_reqs n ch oc w r q q' :
  household n ch oc w → reqs w !! r = Some q → same_request q q' → request_valid w q' →
  household n ch oc (set_reqs (λ m, <[r := q']> m) w).
Proof.
  intros [] Hq (Hm & Hp & Hc) Hv.
  assert (Hlook : ∀ r0 q0, reqs (set_reqs (λ m, <[r := q']> m) w) !! r0 = Some q0 →
    (r0 = r ∧ q0 = q') ∨ (r0 ≠ r ∧ reqs w !! r0 = Some q0)).
  { intros r0 q0. simpl. destruct (decide (r0 = r)) as [->|Hne].
    - rewrite lookup_insert_eq. intros [= <-]. by left.
    - rewrite lookup_insert_ne by done. by right. }
  constructor; try done.
  - destruct hh_sane0. by constructor.
  - intros r0 q0 [[-> ->]|[_ H0]]%Hlook; [exact Hv|by eapply hh_valid0].
  - by eapply prev_path_reqs.
  - intros r0 q0 Hin [[-> ->]|[_ H0]]%Hlook; [|by eapply hh_main0]. rewrite Hm. by eapply hh_main0.
  - intros r0 q0 c Hin [[-> ->]|[_ H0]]%Hlook; [|by eapply hh_owner0].
    rewrite Hc. by eapply hh_owner0.
  - intros c Hoc. destruct (hh_some0 c Hoc) as (r0 & q0 & Hin & H0 & Hc0). exists r0.
    destruct (decide (r0 = r)) as [->|Hne].
    + exists q'. simpl. rewrite lookup_insert_eq. split_and!; [done|done|congruence].
    + exists q0. simpl. by rewrite lookup_insert_ne.
  - intros c r0 (Hoc & q0 & H0 & Hc0)%hh_out0. split; [done|].
    destruct (decide (r0 = r)) as [->|Hne].
    + exists q'. simpl. rewrite lookup_insert_eq. split; [done|congruence].
    + exists q0. simpl. by rewrite lookup_insert_ne.
Qed.

(** The hook adds a filter for a request of the transaction. *)
Lemma household_filter n ch c w r q e :
  household n ch (Some c) w → reqs w !! r = Some q → r_ctx q = Some c →
  e = EvAddOutputFilter c r ∨ e = EvAddInputFilter c r →
  household n ch (Some c) (set_trace (λ t, t ++ [e]) w).
Proof.
  intros [] Hq Hc He.
  assert (Hd : drop n (trace w ++ [e]) = drop n (trace w) ++ [e]) by (by apply drop_app_le).
  constructor; try done; simpl; rewrite ?Hd.
  - destruct hh_sane0. by constructor.
  - by apply prev_path_same with w.
  - rewrite length_app. lia.
  - intros c0 r0 [H|H%list_elem_of_singleton]%elem_of_app; [by apply hh_out0|].
    destruct He as [->| ->]; simplify_eq. split; [done|]. by exists q.
  - intros c0 r0 [H|H%list_elem_of_singleton]%elem_of_app; [by eapply hh_in0|].
    by destruct He as [->| ->]; simplify_eq.
  - rewrite cleanups_app, hh_cleanup0. by destruct He as [->| ->].
Qed.

(** Coraza is on in the section of the request. *)
Definition section_on w (q : request_rec) : Prop :=
  ∃ d dcf, r_dir_conf q = Some d ∧ dir_confs (cfg w) !! d = Some dcf ∧ enable dcf = 1.

(** ** A transaction in progress

    Request [r], whose record is [q], belongs to the transaction of context
    [c], which is [x]; the automaton is in phase [p].  With [on], Coraza is known
    to be on in the section of the request. *)
Record running (n : nat) (ch : list nat) (c r : nat) (on : bool) w (q : request_rec)
    (x : coraza_request_ctx_t) (p : phase) (rf : bool) : Prop := {
  ru_house : household n ch (Some c) w;
  ru_proto : protocol (drop n (trace w)) = Some (Tx (transaction x) p rf);
  ru_handle : transaction x ≠ 0;
  ru_req : reqs w !! r = Some q;
  ru_slot : r_ctx q = Some c;
  ru_ctx : ctxs w !! c = Some x;
  ru_hold : can_discard x;
  ru_logged : p = Logged → logged x = true;
  ru_sync : logged x = true → closed p;
  ru_on : on = true → section_on w q }.
End household.

Section running_rules.
Context {X : Type}.
Implicit Types w : world X.
Variables (n : nat) (ch : list nat) (c r : nat) (on : bool).
Abbreviation running := (running n ch c r on).

Lemma running_ready w q x p rf : running w q x p rf → dl_ready w.
Proof. intros H. apply H. Qed.

Lemma running_ext w q x p rf e tr p' rf' :
  running w q x p rf → Forall plain tr →
  steps tr (Tx (transaction x) p rf) = Some (Tx (transaction x) p' rf') →
  (p' = Logged → p = Logged ∨ logged x = true) → running (ext e tr w) q x p' rf'.
Proof.
  intros [] Hp Hs Hl. constructor; try done.
  - by apply household_ext.
  - simpl. rewrite drop_app_le by apply ru_house0. unfold protocol in *.
    by rewrite steps_app, ru_proto0.
  - intros E. destruct (Hl E); auto.
  - intros E. destruct (steps_closed _ _ _ _ _ (ru_sync0 E) Hs) as (p1 & rf1 & [= <- <-] & Hc). done.
Qed.

Lemma running_ctx w q x p rf y :
  running w q x p rf → transaction y = transaction x → can_discard y →
  logged y = logged x →
  running (set_ctxs (λ m, <[c := y]> m) w) q y p rf.
Proof.
  intros [] Ht Hd Hl. constructor; try done.
  - by apply household_ctxs.
  - simpl. by rewrite Ht.
  - by rewrite Ht.
  - apply lookup_insert_eq.
  - rewrite Hl. auto.
  - rewrite Hl. auto.
Qed.

Lemma running_req w q x p rf q' :
  running w q x p rf → same_slots q q' →
  running (set_reqs (λ m, <[r := q']> m) w) q' x p rf.
Proof.
  intros [] (Hs & Hd & Hv). constructor; try done.
  - eapply household_reqs; [done|done|done|].
    destruct (hh_valid _ _ _ _ ru_house0 _ _ ru_req0) as [H1 H2].
    split; [unfold dir_valid in *; by rewrite Hd|by rewrite Hv].
  - apply lookup_insert_eq.
  - by rewrite (proj2 (proj2 Hs)).
  - intros Hon. destruct (ru_on0 Hon) as (d & dcf & H1 & H2 & H3). exists d, dcf. by rewrite Hd.
Qed.

Lemma running_conn w q x p rf f : running w q x p rf → running (set_conn f w) q x p rf.
Proof. intros []. constructor; try done. by apply household_conn. Qed.

Lemma running_env w q x p rf e : running w q x p rf → running (set_env (λ _, e) w) q x p rf.
Proof. rewrite ext_env. intros H. eapply running_ext; [done|done|done|auto]. Qed.

(** An event outside the protocol. *)
Lemma running_idle w q x p rf e : running w q x p rf → idle e → plain e →
  running (set_trace (λ t, t ++ [e]) w) q x p rf.
Proof.
  intros H Hi Hp. rewrite ext_log. eapply running_ext; [done|by constructor| |auto].
  by rewrite steps_cons, step_idle.
Qed.

Lemma running_filter w q x p rf e : running w q x p rf →
  e = EvAddOutputFilter c r ∨ e = EvAddInputFilter c r →
  running (set_trace (λ t, t ++ [e]) w) q x p rf.
Proof.
  intros [] He. constructor; try done; [by eapply household_filter|].
  simpl. rewrite drop_app_le by apply ru_house0. unfold protocol in *.
  rewrite steps_app, ru_proto0. by destruct He as [->| ->].
Qed.

Lemma running_valid w q x p rf d :
  running w q x p rf → r_dir_conf q = Some d → ∃ dcf, dir_confs (cfg w) !! d = Some dcf.
Proof.
  intros [] Hd. destruct (hh_valid _ _ _ _ ru_house0 _ _ ru_req0) as [H1 _]. exact (H1 d Hd).
Qed.

(** ** Calling libcoraza *)
Context `{!Libcoraza X}.

Lemma call_steps k ret t p rf p' :
  tx_of k = Some t → permitted rf k = true → next_phase k p = Some p' →
  steps [EvCall k ret] (Tx t p rf) = Some (Tx t p' (rf || engine_failed k ret)).
Proof.
  intros Ht Hp Hn. rewrite steps_cons.
  assert (step_event (Tx t p rf) (EvCall k ret) = Some (Tx t p' (rf || engine_failed k ret))) as ->; [|done].
  unfold step_event. destruct k; try done; rewrite Ht, bool_decide_eq_true_2 by done;
    unfold step_call; by rewrite Hp, Hn.
Qed.

(** A call on the transaction, in order. *)
Lemma tx_call_wp w q x p rf k p' (Q : Z → world X → Prop) :
  running w q x p rf → tx_of k = Some (transaction x) → permitted rf k = true →
  next_phase k p = Some p' → (p' = Logged → p = Logged ∨ logged x = true) →
  (∀ ret w', running w' q x p' (rf || engine_failed k ret) → Q ret w') →
  wp (dl_call (fn_of k) k) Q w.
Proof.
  intros Hr Ht Hp Hn Hl HQ. apply wp_dl_call; [by eapply running_ready|done|].
  intros ret e _. rewrite ext_after. apply HQ.
  eapply running_ext; [exact Hr|by constructor|by apply call_steps|exact Hl].
Qed.
(** A call that is not about a transaction. *)
Lemma idle_call_wp w q x p rf k (Q : Z → world X → Prop) :
  running w q x p rf → (∀ ret, idle (EvCall k ret)) →
  (∀ ret w', running w' q x p rf → Q ret w') → wp (dl_call (fn_of k) k) Q w.
Proof.
  intros Hr Hi HQ. apply wp_dl_call; [by eapply running_ready|done|].
  intros ret e _. apply HQ. unfold after. apply running_idle; [|apply Hi|done].
  by apply running_env.
Qed.

Lemma in_progress_not_logged p : in_progress p = true → p ≠ Logged.
Proof. by intros ? ->. Qed.
End running_rules.

(** ** Logging, polling, refusing *)

(** Registered and not freed. *)
Definition alive (p : phase) : bool :=
  match p with Created | Freed => false | _ => true end.

Lemma in_progress_alive p : in_progress p = true → alive p = true.
Proof. by destruct p. Qed.
Lemma alive_cases p : alive p = true → in_progress p = true ∨ p = Logged.
Proof. destruct p; auto. Qed.

#[export] Hint Resolve in_progress_alive in_progress_not_logged : coraza.

Section refusing.
Context {X : Type} `{!Libcoraza X, !Httpd X}.
Implicit Types w : world X.
Variables (n : nat) (ch : list nat) (c r : nat) (on : bool).
Abbreviation running := (running n ch c r on).

(** Reading the context and the request of the transaction. *)
Lemma run_get_ctx w q x p rf (Q : coraza_request_ctx_t → world X → Prop) :
  running w q x p rf → Q x w → wp (get_ctx c) Q w.
Proof. intros H. eapply wp_get_ctx, H. Qed.
Lemma run_get_req w q x p rf (Q : request_rec → world X → Prop) :
  running w q x p rf → Q q w → wp (get_req r) Q w.
Proof. intros H. eapply wp_get_req, H. Qed.
(** Updating them. *)
Lemma run_upd_ctx w q x p rf f (Q : unit → world X → Prop) :
  running w q x p rf → transaction (f x) = transaction x → can_discard (f x) →
  logged (f x) = logged x →
  (∀ w', running w' q (f x) p rf → Q tt w') → wp (upd_ctx c f) Q w.
Proof. intros H ? ? ? HQ. eapply wp_upd_ctx; [apply H|]. by apply HQ, running_ctx with x. Qed.
Lemma run_upd_req w q x p rf f (Q : unit → world X → Prop) :
  running w q x p rf → same_slots q (f q) →
  (∀ w', running w' (f q) x p rf → Q tt w') → wp (upd_req r f) Q w.
Proof. intros H ? HQ. eapply wp_upd_req; [apply H|]. by apply HQ, running_req with q. Qed.
(** Messages and other events outside the protocol. *)
Lemma run_emit w q x p rf e (Q : unit → world X → Prop) :
  running w q x p rf → idle e → plain e →
  (∀ w', running w' q x p rf → Q tt w') → wp (emit e) Q w.
Proof. intros H ? ? HQ. apply wp_emit, HQ. by apply running_idle. Qed.
Lemma run_outside {A} w q x p rf (f : X → A * X) (Q : A → world X → Prop) :
  running w q x p rf → (∀ a w', running w' q x p rf → Q a w') → wp (outside f) Q w.
Proof. intros H HQ. apply wp_outside. intros a e _. by apply HQ, running_env. Qed.

(** The request is refused for good. *)
Definition halted w : Prop :=
  ∃ q x p rf, running w q x p rf ∧ alive p = true ∧ intervention_triggered x = true.

(** The audit log: the flag and the call together. *)
Lemma running_log w q x p rf e a : running w q x p rf → in_progress p = true →
  running (ext e [EvCall (ProcessLogging (transaction x)) a]
      (set_ctxs (λ m, <[c := set_logged (λ _, true) x]> m) w))
    q (set_logged (λ _, true) x) Logged rf.
Proof.
  intros [] Hp. constructor; try done.
  - apply household_ext; [by apply household_ctxs|by constructor].
  - simpl. rewrite drop_app_le by apply ru_house0. unfold protocol in *. rewrite steps_app, ru_proto0.
    change (steps [EvCall (ProcessLogging (transaction x)) a] (Tx (transaction x) p rf)
      = Some (Tx (transaction x) Logged rf)).
    rewrite (call_steps (ProcessLogging (transaction x)) a (transaction x) p rf Logged);
      [by rewrite orb_false_r|done|by destruct rf|by simpl; rewrite Hp].
  - apply lookup_insert_eq.
  - intros _. by left.
Qed.

Lemma log_running_wp w q x p rf (Q : Z → world X → Prop) :
  running w q x p rf → alive p = true →
  (∀ w' y p', running w' q y p' rf → alive p' = true → transaction y = transaction x →
     (section_on w q → p' = Logged) → Q OK w') →
  wp (coraza_log_transaction r) Q w.
Proof.
  intros H Hp HQ. unfold coraza_log_transaction. act_step. eapply run_get_req; [exact H|].
  assert (Hskip : ¬ section_on w q → Q OK w) by (intros Hoff; by eapply HQ).
  destruct (r_dir_conf q) as [d|] eqn:Hd.
  2: { apply wp_ret, Hskip. intros (d & dcf & ? & _). congruence. }
  destruct (running_valid _ _ _ _ _ _ _ _ _ _ _ H Hd) as [dcf Hdcf]. do 2 act_step.
  case_goal as He.
  { apply wp_ret, Hskip. intros (d' & dcf' & Hd' & Hdcf' & E). rewrite Hd in Hd'. by simplify_eq. }
  rewrite (ru_slot _ _ _ _ _ _ _ _ _ _ H). act_step. eapply run_get_ctx; [exact H|].
  assert (in_progress p = true ∨ p = Logged) as Hpp by (by apply alive_cases).
  destruct (logged x) eqn:Hl.
  { apply wp_ret. eapply HQ; [exact H|done|done|]. intros _.
    destruct (ru_sync _ _ _ _ _ _ _ _ _ _ H Hl) as [?| ->]; done. }
  assert (in_progress p = true) as Hip.
  { destruct Hpp as [?| ->]; [done|]. rewrite (ru_logged _ _ _ _ _ _ _ _ _ _ H) in Hl; done. }
  act_step. eapply wp_upd_ctx; [apply H|]. act_step. apply wp_dl_call; [by apply (running_ready n ch c r on w q x p rf)|done|].
  intros a e _. rewrite ext_after. apply wp_ret. eapply HQ; [by apply (running_log w q x p rf)|done|done|done].
Qed.

Lemma set_location_running_wp w q x p rf loc (Q : unit → world X → Prop) :
  running w q x p rf →
  (∀ w' q', running w' q' x p rf → Q tt w') → wp (set_location r loc) Q w.
Proof.
  intros H HQ. unfold set_location. act_step. apply wp_when; intros _.
  - eapply run_emit; [exact H|done|done|]. intros w1 H1. eapply run_upd_req; [exact H1|done|eauto].
  - eapply run_upd_req; [exact H|done|eauto].
Qed.

Lemma intervention_running_wp early w q x p (Q : Z → world X → Prop) :
  running w q x p false → in_progress p = true → (early = true → on = true) →
  (∀ w', running w' q x p false → Q OK w') →
  (∀ s w' q' y p', 0 < s → running w' q' y p' true → alive p' = true → Q s w') →
  wp (coraza_process_intervention (transaction x) r early) Q w.
Proof.
  intros H Hp Hon HN HS. unfold coraza_process_intervention. act_step. eapply run_get_req; [exact H|].
  rewrite (ru_slot _ _ _ _ _ _ _ _ _ _ H). act_step. apply wp_through; [by eapply running_ready|done|].
  intros it e _. rewrite ext_after.
  assert (running (ext e [EvIntervention (transaction x) it] w) q x p (bool_decide (it ≠ None))) as H1.
  { eapply running_ext; [exact H|by constructor| |by auto]. rewrite steps_cons. simpl.
    by rewrite bool_decide_eq_true_2, Hp by done. }
  destruct it as [it|]; [|by apply wp_ret, HN]. rewrite bool_decide_eq_true_2 in H1 by done.
  act_step. eapply (wp_mono _ (λ _ w1, ∃ y, running w1 q y p true ∧ transaction y = transaction x)).
  { apply wp_when; intros _; [|by exists x].
    eapply run_upd_ctx; [exact H1|done|apply H|done|]. intros w1 Hw1. eexists. by split. }
  intros _ w2 (y & H2 & Ht). act_step. eapply run_get_ctx; [exact H2|]. act_step.
  eapply (tx_call_wp n ch c r on w2 q y p true (UpdateStatusCode _ _)); [exact H2|done|done| |by left|].
  { simpl. by rewrite Hp. }
  intros ret w3 H3. act_step. eapply run_emit; [exact H3|by destruct (is_drop it)..|].
  intros w4 H4. act_step.
  eapply (wp_mono _ (λ _ w5, ∃ z p', running w5 q z p' true ∧ alive p' = true)).
  { apply wp_when; intros Hearly; [|by eauto with coraza]. act_step.
    eapply log_running_wp; [exact H4|by auto with coraza|]. intros w5 z p' H5 Hp' _ Hlog.
    specialize (Hlog (ru_on _ _ _ _ _ _ _ _ _ _ H4 (Hon Hearly))). subst p'.
    eapply run_upd_ctx; [exact H5|done|apply H5| |intros w6 H6; eauto].
    by rewrite (ru_logged _ _ _ _ _ _ _ _ _ _ H5). }
  intros _ w5 (z & p' & H5 & Hp'). act_step.
  eapply (wp_mono _ (λ _ w6, ∃ q', running w6 q' z p' true)).
  { destruct (it_data it) as [loc|]; [|apply wp_ret; eauto].
    apply wp_when; intros _; [|by eauto]. eapply set_location_running_wp; [exact H5|eauto]. }
  intros _ w6 (q' & H6). act_step. eapply (idle_call_wp n ch c r on w6 q' z p' true (FreeIntervention it));
    [exact H6|done|]. intros ret' w7 H7. apply wp_ret. eapply HS; [apply enforced_status_pos|eauto..].
Qed.

(** Marking the context. *)
Lemma trigger_wp w q x p rf (Q : unit → world X → Prop) :
  running w q x p rf → alive p = true →
  (∀ w', running w' q (set_intervention_triggered (λ _, true) x) p rf → halted w' → Q tt w') →
  wp (upd_ctx c (set_intervention_triggered (λ _, true))) Q w.
Proof.
  intros H Hp HQ. eapply run_upd_ctx; [exact H|done|apply H|done|]. intros w' H'.
  apply HQ; [done|]. by do 4 eexists.
Qed.

Lemma drop_connection_wp w q x p rf (Q : unit → world X → Prop) :
  running w q x p rf → (∀ w' q', running w' q' x p rf → Q tt w') →
  wp (coraza_drop_connection r) Q w.
Proof.
  intros H HQ. unfold coraza_drop_connection. act_step. eapply run_upd_req; [exact H|done|].
  intros w1 H1. do 2 act_step. act_step. apply wp_modify. eapply HQ. by do 2 apply running_conn.
Qed.
End refusing.

(** ** Header submission *)
Section submitting.
Context {X : Type} `{!Pool}.
Implicit Types w : world X.
Hypothesis palloc_size : ∀ n, 0 ≤ n → Z.of_nat (length (apr_palloc n)) = n.

(** [I] holds while the engine accepts, [J] once it rejected a header. *)
Variables (I J : world X → Prop).
Hypothesis I_log : ∀ w l m, I w → I (set_trace (λ t, t ++ [EvLog l m]) w).
Hypothesis J_log : ∀ w l m, J w → J (set_trace (λ t, t ++ [EvLog l m]) w).
Hypothesis I_J : ∀ w, I w → J w.

Lemma bulk_submit_keeps send failed pairs (Q : bool → world X → Prop) w :
  (∀ p l k (R : Z → world X → Prop) w, I w → (∀ rc w', I w' → R rc w') → wp (send p l k) R w) →
  Forall pair_wf pairs → I w → (∀ b w', I w' → Q b w') → wp (bulk_submit send failed pairs) Q w.
Proof.
  intros Hsend Hwf HI HQ. unfold bulk_submit. case_goal as Hc; [by apply wp_ret, HQ|].
  rewrite (pack_headers_run apr_palloc palloc_size pairs Hwf). case_decide; [|by apply wp_ret, HQ].
  act_step. apply Hsend; [done|]. intros rc w1 H1. destruct (negb _); [by apply wp_ret, HQ|].
  do 2 act_step. apply wp_ret, HQ. by apply I_log.
Qed.

Lemma send_each_keeps send too_long rejected pairs (Q : bool → world X → Prop) :
  (∀ p (R : Z → world X → Prop) w, I w → (∀ w', I w' → R 0 w') → (∀ rc w', rc ≠ 0 → J w' → R rc w') →
     wp (send (hp_name p) (name_len p) (hp_value p) (value_len p)) R w) →
  (∀ w', I w' → Q true w') → (∀ w', J w' → Q false w') → ∀ w, I w →
  wp (send_each send too_long rejected pairs) Q w.
Proof.
  intros Hsend HT HF. induction pairs as [|p pairs IH]; intros w HI; simpl; [by apply wp_ret, HT|].
  act_step. { do 2 act_step. apply wp_ret, HF. by apply J_log, I_J. }
  act_step. apply Hsend; [done| |].
  - intros w1 H1. unfold CORAZA_CALL_FAILED. rewrite bool_decide_eq_false_2 by auto. by apply IH.
  - intros rc w1 Hrc H1. unfold CORAZA_CALL_FAILED. rewrite bool_decide_eq_true_2 by done.
    do 2 act_step. apply wp_ret, HF. by apply J_log.
Qed.

Lemma submit_keeps send1 send2 failed too_long rejected pairs (Q : bool → world X → Prop) w :
  (∀ p l k (R : Z → world X → Prop) w, I w → (∀ rc w', I w' → R rc w') → wp (send1 p l k) R w) →
  (∀ p (R : Z → world X → Prop) w, I w → (∀ w', I w' → R 0 w') → (∀ rc w', rc ≠ 0 → J w' → R rc w') →
     wp (send2 (hp_name p) (name_len p) (hp_value p) (value_len p)) R w) →
  Forall pair_wf pairs → I w → (∀ w', I w' → Q true w') → (∀ w', J w' → Q false w') →
  wp (b ← bulk_submit send1 failed pairs;
      if b : bool then mret true else send_each send2 too_long rejected pairs) Q w.
Proof.
  intros H1 H2 Hwf HI HT HF. act_step. apply bulk_submit_keeps; [done|done|done|].
  intros [] w1 Hw1; [by apply wp_ret, HT|]. by apply send_each_keeps.
Qed.
End submitting.

(** ** Endings *)
Section ending.
Context {X : Type} `{!Libcoraza X, !Httpd X}.
Implicit Types w : world X.
Variables (n : nat) (ch : list nat) (c r : nat) (on : bool).
Abbreviation running := (running n ch c r on).
Abbreviation halted := (halted n ch c r on).

(** Between two calls of the handlers: a transaction that was not refused is
    waiting for the response, or in the middle of its body. *)
Definition settled (x : coraza_request_ctx_t) (p : phase) (rf : bool) : Prop :=
  alive p = true
  ∧ (intervention_triggered x = false →
     rf = false ∧ if phase3_done x then p = BodyOut ∨ p = BodyEnded else p = BodyIn ∨ p = BodyRead).

Definition resting w : Prop := ∃ q x p rf, running w q x p rf ∧ settled x p rf.

Lemma halted_resting w : halted w → resting w.
Proof.
  intros (q & x & p & rf & H & Hp & Ht). exists q, x, p, rf. split; [done|]. split; [done|].
  by rewrite Ht.
Qed.

Lemma fail_closed_running w q x p rf (Q : option Z → world X → Prop) :
  running w q x p rf → alive p = true → (∀ rc w', halted w' → Q (Some rc) w') →
  wp (fail_closed c) Q w.
Proof.
  intros H Hp HQ. unfold fail_closed. act_step. eapply trigger_wp; [exact H|done|].
  intros w' _ Hh. by apply wp_ret, HQ.
Qed.

Lemma enforce_running w q x p rf s (Q : Z → world X → Prop) :
  running w q x p rf → alive p = true → (∀ rc w', halted w' → Q rc w') →
  wp (coraza_enforce_intervention r c s) Q w.
Proof.
  intros H Hp HQ. unfold coraza_enforce_intervention. act_step. eapply trigger_wp; [exact H|done|].
  intros w1 H1 Hh. act_step. eapply run_get_ctx; [exact H1|].
  destruct (drop_connection _); [|by apply wp_ret, HQ]. act_step.
  eapply drop_connection_wp; [exact H1|]. intros w2 q2 H2. apply wp_ret, HQ. by do 4 eexists.
Qed.

Lemma poll_running w q x p (Q : option Z → world X → Prop) :
  on = true → running w q x p false → in_progress p = true →
  (∀ w', running w' q x p false → Q None w') → (∀ rc w', halted w' → Q (Some rc) w') →
  wp (poll r c) Q w.
Proof.
  intros Hon H Hp HN HS. unfold poll. act_step. eapply run_get_ctx; [exact H|]. act_step.
  eapply intervention_running_wp; [exact H|done|done| |].
  - intros w1 H1. rewrite bool_decide_eq_false_2 by (unfold OK; lia). by apply wp_ret, HN.
  - intros s w1 q1 y p1 Hs H1 Hp1. rewrite bool_decide_eq_true_2 by lia. act_step.
    eapply enforce_running; [exact H1|done|]. intros rc w2 H2. by apply wp_ret, HS.
Qed.

Lemma checked_running w q x p k p' m msg (Q : option Z → world X → Prop) :
  on = true → running w q x p false → m = dl_call (fn_of k) k → tx_of k = Some (transaction x) →
  permitted false k = true → next_phase k p = Some p' → in_progress p' = true →
  (∀ ret, engine_failed k ret = coraza_process_failed ret) →
  (∀ w', running w' q x p' false → Q None w') → (∀ rc w', halted w' → Q (Some rc) w') →
  wp (checked r c m msg) Q w.
Proof.
  intros Hon H -> Ht Hpm Hn Hp Hf HN HS. unfold checked. act_step.
  eapply tx_call_wp; [exact H|done|done|exact Hn|by intros ->|]. intros ret w1 H1.
  rewrite Hf in H1. simpl in H1. destruct (coraza_process_failed ret).
  - act_step. eapply run_emit; [exact H1|done|done|]. intros w2 H2.
    eapply fail_closed_running; [exact H2|by auto with coraza|exact HS].
  - eapply poll_running; [done|exact H1|done|exact HN|exact HS].
Qed.
End ending.

Lemma running_weaken {X} n ch c r on (w : world X) q x p rf :
  running n ch c r on w q x p rf → running n ch c r false w q x p rf.
Proof. intros []. by constructor. Qed.
Lemma resting_weaken {X} n ch c r on (w : world X) :
  resting n ch c r on w → resting n ch c r false w.
Proof. intros (q & x & p & rf & H & Hs). exists q, x, p, rf. split; [by eapply running_weaken|done]. Qed.
