(* ===== verification/LazyBuild.v ===== *)
(** * Building a WAF within a request

    The pieces of the lazy build of src/mod_coraza.c (coraza_create_ctx): each
    is total when the configuration is in order, calls nothing on a transaction,
    and changes nothing of the configuration but WAF handles ([resolved]). *)
From S2P Require Import Prelude Types World DynLib DynLibFacts InterventionFacts Waf WafFacts Protocol Lifecycle Discipline.
Local Open Scope Z_scope.

(** ** Building WAFs makes no call on a transaction *)
Definition quiet (e : event) : Prop := idle e ∧ plain e.

Section building.
Context {X : Type} `{!Libcoraza X, !Libc X, !Dynlib X}.
Implicit Types w : world X.

(** [w'] is [w] after some quiet calls. *)
Definition quietly w w' : Prop := ∃ e tr, w' = ext e tr w ∧ Forall quiet tr.

Lemma quietly_refl w : quietly w w.
Proof. exists (env w), []. by rewrite ext_nil. Qed.
Lemma quietly_trans w1 w2 w3 : quietly w1 w2 → quietly w2 w3 → quietly w1 w3.
Proof.
  intros (e1 & t1 & -> & H1) (e2 & t2 & -> & H2). exists e2, (t1 ++ t2).
  rewrite ext_ext. split; [done|]. by apply Forall_app.
Qed.
Lemma quietly_ready w w' : quietly w w' → dl_ready w → dl_ready w'.
Proof. by intros (e & tr & -> & _). Qed.

Lemma emit_quiet e (Q : unit → world X → Prop) w :
  quiet e → (∀ w', quietly w w' → Q tt w') → wp (emit e) Q w.
Proof. intros He HQ. apply wp_emit, HQ. rewrite ext_log. do 2 eexists. split; [done|]. by constructor. Qed.
Lemma outside_quiet {A} (f : X → A * X) (Q : A → world X → Prop) w :
  (∀ a w', quietly w w' → Q a w') → wp (outside f) Q w.
Proof.
  intros HQ. apply wp_outside. intros a e _. apply HQ. rewrite ext_env. exists e, []. by split.
Qed.
Lemma call_quiet k (Q : Z → world X → Prop) w :
  dl_ready w → (∀ ret, quiet (EvCall k ret)) → (∀ a w', quietly w w' → Q a w') →
  wp (dl_call (fn_of k) k) Q w.
Proof.
  intros Hr Hk HQ. apply wp_dl_call; [done|done|]. intros a e _. apply HQ. rewrite ext_after.
  do 2 eexists. split; [done|]. by constructor.
Qed.

(** Chaining: a handler continues from a state a few quiet calls later. *)
Ltac quiet_step w1 H1 :=
  first
  [ eapply outside_quiet; intros ? w1 H1
  | eapply emit_quiet; [done|]; intros w1 H1
  | match goal with
    | |- wp ?m _ _ =>
        match m with
        | dl_call _ ?k => eapply (call_quiet k)
        | _ => match eval red in m with dl_call _ ?k => eapply (call_quiet k) end
        end
    end; [by eauto using quietly_ready|done|]; intros ? w1 H1 ].

Lemma replay_quiet config l (Q : option Z → world X → Prop) : ∀ w,
  dl_ready w → (∀ o w', quietly w w' → Q o w') → wp (replay_rules config l) Q w.
Proof.
  induction l as [|e l IH]; intros w Hr HQ; simpl; [apply wp_ret, HQ, quietly_refl|].
  act_step. quiet_step w1 H1. destruct a; simpl.
  2: { act_step. quiet_step w2 H2. act_step. quiet_step w3 H3. apply wp_ret, HQ.
       eauto using quietly_trans. }
  destruct (rule_type e); act_step; quiet_step w2 H2; case_goal as Hrc.
  1,3: act_step; quiet_step w3 H3; act_step; quiet_step w4 H4; apply wp_ret, HQ;
    eauto using quietly_trans.
  all: apply IH; [by eauto using quietly_ready|]; intros o w' H'; apply HQ; eauto using quietly_trans.
Qed.

Lemma build_waf_quiet a l (Q : Z → world X → Prop) w :
  dl_ready w → arrays (cfg w) !! a = Some l → (∀ h w', quietly w w' → Q h w') →
  wp (coraza_build_waf (Some a)) Q w.
Proof.
  intros Hr Ha HQ. unfold coraza_build_waf. do 2 act_step. case_goal as Hl.
  { apply wp_ret, HQ, quietly_refl. }
  act_step. quiet_step w1 H1. case_goal as Hc.
  { act_step. quiet_step w2 H2. apply wp_ret, HQ. eauto using quietly_trans. }
  act_step. apply replay_quiet; [by eauto using quietly_ready|]. intros [rc|] w2 H2.
  { apply HQ. eauto using quietly_trans. }
  act_step. apply wp_through; [by eauto using quietly_ready|done|]. intros [waf err] e _.
  set (w3 := after e _ w2).
  assert (quietly w2 w3) as H3.
  { do 2 eexists. split; [apply ext_after|]. by constructor. }
  assert (quietly w w3) as H3' by eauto using quietly_trans. clearbody w3. clear H1 H2 H3.
  act_step. quiet_step w4 H4. act_step.
  eapply (wp_mono _ (λ _ w5, quietly w w5)).
  { apply wp_when; intros _; [quiet_step w5 H5|]; eauto using quietly_trans. }
  intros _ w5 H5. act_step. eapply (wp_mono _ (λ _ w6, quietly w w6)).
  { destruct err; [|by apply wp_ret]. unfold coraza_free_string. act_step. quiet_step w6 H6. apply wp_ret.
    eauto using quietly_trans. }
  intros _ w6 H6. case_goal as Hz; by apply wp_ret, HQ.
Qed.

(** ** The lazy build *)

(** [w'] is [w] after quiet calls and assignments of WAF handles. *)
Record resolved w w' : Prop := {
  re_dl : dl w' = dl w;
  re_grows : cfg_grows (cfg w) (cfg w');
  re_arrays : arrays (cfg w') = arrays (cfg w);
  re_confs : server_confs (cfg w') = server_confs (cfg w);
  re_dirs : ∀ d dcf, dir_confs (cfg w) !! d = Some dcf →
    ∃ h, dir_confs (cfg w') !! d = Some (set_waf (λ _, h) dcf);
  re_none : ∀ d, dir_confs (cfg w) !! d = None → dir_confs (cfg w') !! d = None;
  re_reqs : reqs w' = reqs w;
  re_ctxs : ctxs w' = ctxs w;
  re_trace : ∃ tr, trace w' = trace w ++ tr ∧ Forall quiet tr }.

Lemma resolved_refl w : resolved w w.
Proof.
  constructor; try done; [|exists []; by rewrite app_nil_r].
  intros d dcf Hd. exists (waf dcf). rewrite Hd. by destruct dcf.
Qed.
Lemma resolved_trans w1 w2 w3 : resolved w1 w2 → resolved w2 w3 → resolved w1 w3.
Proof.
  intros [] []. constructor; try congruence.
  - by transitivity (cfg w2).
  - intros d dcf Hd. destruct (re_dirs0 d dcf Hd) as [h Hh].
    destruct (re_dirs1 _ _ Hh) as [h' Hh']. exists h'. by rewrite Hh'.
  - auto.
  - destruct re_trace0 as (t1 & E1 & F1), re_trace1 as (t2 & E2 & F2).
    exists (t1 ++ t2). rewrite E2, E1, app_assoc. split; [done|]. by apply Forall_app.
Qed.
Lemma quietly_resolved w w' : quietly w w' → resolved w w'.
Proof.
  intros (e & tr & -> & Hq). destruct (resolved_refl w). constructor; try done. by exists tr.
Qed.

(** Storing a handle. *)
Lemma cfg_grows_waf g d dcf h :
  dir_confs g !! d = Some dcf →
  cfg_grows g (set_dir_confs (λ m, <[d := set_waf (λ _, h) dcf]> m) g).
Proof.
  intros Hd.
  assert (Hsome : ∀ d0, is_Some (dir_confs g !! d0) →
    is_Some (<[d := set_waf (λ _, h) dcf]> (dir_confs g) !! d0)).
  { intros d0 H0. destruct (decide (d = d0)) as [->|Hne].
    - rewrite lookup_insert_eq. eauto.
    - by rewrite lookup_insert_ne. }
  constructor; [|done|exact Hsome|done].
  intros [Hr Hc Hs]. constructor; simpl; [| |done].
  - intros d0 x. destruct (decide (d = d0)) as [->|Hne].
    + rewrite lookup_insert_eq. intros [= <-]. exact (Hr d0 dcf Hd).
    + rewrite lookup_insert_ne by done. apply Hr.
  - intros d0 x m. destruct (decide (d = d0)) as [->|Hne].
    + rewrite lookup_insert_eq. intros [= <-] Hm. exact (Hsome m (Hc d0 dcf m Hd Hm)).
    + rewrite lookup_insert_ne by done. intros H0 Hm. exact (Hsome m (Hc d0 x m H0 Hm)).
Qed.

Lemma resolved_store d dcf h w :
  dir_confs (cfg w) !! d = Some dcf →
  resolved w (set_cfg (set_dir_confs (λ m, <[d := set_waf (λ _, h) dcf]> m)) w).
Proof.
  intros Hd. constructor; try done; [by apply cfg_grows_waf| | |by exists []; rewrite app_nil_r].
  - intros d0 x H0. simpl. destruct (decide (d = d0)) as [->|Hne].
    + rewrite lookup_insert_eq. exists h. congruence.
    + rewrite lookup_insert_ne, H0 by done. exists (waf x). by destruct x.
  - intros d0 H0. simpl. rewrite lookup_insert_ne; [done|]. intros ->. congruence.
Qed.

Lemma store_waf_wp d h w (Q : unit → world X → Prop) :
  is_Some (dir_confs (cfg w) !! d) →
  (∀ w', resolved w w' → wafs w' = wafs w → Q tt w') → wp (upd_dir d (set_waf (λ _, h))) Q w.
Proof.
  intros [dcf Hd] HQ. eapply wp_upd_dir; [exact Hd|]. apply HQ; [|done]. by apply resolved_store.
Qed.

(** A section of a configuration that is in order, the mutex being [mu]. *)
Record buildable d mu w : Prop := {
  bu_dl : dl_ready w;
  bu_ok : cfg_ok (cfg w);
  bu_dir : is_Some (dir_confs (cfg w) !! d);
  bu_mutex : g_waf_build_mutex (wafs w) = mu }.

Lemma buildable_resolved d mu w w' mu' :
  buildable d mu w → resolved w w' → g_waf_build_mutex (wafs w') = mu' → buildable d mu' w'.
Proof.
  intros [] [] Hm. constructor; [|by apply re_grows0|by apply re_grows0|done].
  unfold dl_ready. by rewrite re_dl0.
Qed.

(** One piece of the build: it keeps what [buildable] says. *)
Definition piece d mu (m : M (world X) unit) : Prop :=
  ∀ w, buildable d mu w → wp m (λ _ w', resolved w w' ∧ g_waf_build_mutex (wafs w') = mu) w.

Lemma piece_seq d mu m1 m2 : piece d mu m1 → piece d mu m2 → piece d mu (m1 ;; m2).
Proof.
  intros H1 H2 w Hb. act_step. eapply wp_mono; [by apply H1|]. intros _ w1 [R1 M1]. cbv beta.
  eapply wp_mono; [apply H2; by eapply buildable_resolved|]. intros _ w2 [R2 M2].
  split; [by eapply resolved_trans|done].
Qed.

Lemma piece_store d mu d' h :
  (∀ w, buildable d mu w → is_Some (dir_confs (cfg w) !! d')) → piece d mu (upd_dir d' (set_waf (λ _, h))).
Proof.
  intros Hd w Hb. apply store_waf_wp; [by apply Hd|]. intros w' R Hw. split; [done|]. rewrite Hw. apply Hb.
Qed.

(** The record of the section, and of the section it was merged from. *)
Lemma piece_get_dir d mu (k : coraza_dir_conf_t → M (world X) unit) :
  (∀ dcf w, buildable d mu w → is_Some (arrays (cfg w) !! rules dcf) →
     (∀ m, merge_child dcf = Some m → is_Some (dir_confs (cfg w) !! m)) →
     wp (k dcf) (λ _ w', resolved w w' ∧ g_waf_build_mutex (wafs w') = mu) w) →
  piece d mu (dcf ← get_dir d; k dcf).
Proof.
  intros Hk w Hb. act_step. destruct (bu_dir _ _ _ Hb) as [dcf Hd].
  eapply wp_get_dir; [exact Hd|]. apply Hk; [done| |].
  - exact (co_rules _ (bu_ok _ _ _ Hb) d dcf Hd).
  - intros m Hm. exact (co_child _ (bu_ok _ _ _ Hb) d dcf m Hd Hm).
Qed.

Lemma nothing mu w : g_waf_build_mutex (wafs w) = mu → resolved w w ∧ g_waf_build_mutex (wafs w) = mu.
Proof. split; [apply resolved_refl|done]. Qed.

Lemma store_child_wp d mu child h w :
  buildable d mu w → (∀ m, child = Some m → is_Some (dir_confs (cfg w) !! m)) →
  wp (set_child_waf child h) (λ _ w', resolved w w' ∧ g_waf_build_mutex (wafs w') = mu) w.
Proof.
  intros Hb Hc. unfold set_child_waf. destruct child as [m|]; [|apply wp_ret, nothing, Hb].
  apply store_waf_wp; [by apply Hc|]. intros w' R Hw. split; [done|]. rewrite Hw. apply Hb.
Qed.

Lemma cache_add_resolved hash l h w (Q : unit → world X → Prop) :
  (∀ w', resolved w w' → g_waf_build_mutex (wafs w') = g_waf_build_mutex (wafs w) → Q tt w') →
  wp (waf_cache_add hash l h) Q w.
Proof.
  intros HQ. unfold waf_cache_add.
  assert (Hw : ∀ f e tr, g_waf_build_mutex (f (wafs w)) = g_waf_build_mutex (wafs w) →
    Forall quiet tr → Q tt (ext e tr (set_wafs f w))).
  { intros f e tr Hf Ht. apply HQ; [|done]. destruct (resolved_refl w). constructor; try done.
    by exists tr. }
  do 2 act_step. case_goal as Hfull.
  - act_step; [|rewrite <- (ext_nil w); apply (Hw (λ x, x)); by repeat constructor].
    do 2 act_step. act_step. rewrite ext_log. apply Hw; [done|by repeat constructor].
  - destruct (negb _); [apply wp_ret; rewrite <- (ext_nil w); apply (Hw (λ x, x)); by repeat constructor|].
    act_step. rewrite <- (ext_nil (set_wafs _ w)). by apply Hw.
Qed.

Lemma reuse_child_piece d mu : piece d mu (reuse_child_waf d).
Proof.
  apply piece_get_dir. intros dcf w Hb _ Hc. destruct (merge_child dcf) as [m|]; [|apply wp_ret, nothing, Hb].
  destruct (Hc m eq_refl) as [x Hx]. apply wp_when; intros _; [|apply nothing, Hb].
  do 2 act_step. apply (piece_store d mu d); [|done]. apply bu_dir.
Qed.

Lemma reuse_cached_piece d mu : piece d mu (reuse_cached_waf d).
Proof.
  apply piece_get_dir. intros dcf w Hb [l Hl] Hc. apply wp_when; intros _; [|apply nothing, Hb].
  unfold waf_cache_find. do 2 act_step. do 2 act_step. apply wp_when; intros _; [|apply nothing, Hb].
  act_step. apply store_waf_wp; [apply Hb|]. intros w1 R1 W1.
  assert (buildable d mu w1) as Hb1 by (eapply buildable_resolved; [done|done|rewrite W1; apply Hb]).
  eapply wp_mono; [apply (store_child_wp d mu); [done|]|].
  - intros m Hm. by apply R1, Hc.
  - intros _ w2 [R2 M2]. split; [by eapply resolved_trans|done].
Qed.

Lemma build_piece d mu : piece d mu (build_and_cache_waf d).
Proof.
  apply piece_get_dir. intros dcf w Hb [l Hl] Hc. apply wp_when; intros _; [|apply nothing, Hb].
  do 2 act_step. act_step. eapply build_waf_quiet; [apply Hb|exact Hl|]. intros h w1 Hq.
  assert (resolved w w1) as R1 by (by apply quietly_resolved).
  assert (g_waf_build_mutex (wafs w1) = mu) as M1 by (destruct Hq as (? & ? & E & _); rewrite E; apply Hb).
  act_step. apply store_waf_wp; [by apply R1, Hb|]. intros w2 R2 W2. act_step.
  assert (resolved w w2) as R12 by (by eapply resolved_trans). rewrite <- W2 in M1.
  eapply (wp_mono _ (λ _ w3, resolved w w3 ∧ g_waf_build_mutex (wafs w3) = mu)).
  { apply wp_when; intros _; [|done]. apply cache_add_resolved. intros w3 R3 M3.
    split; [by eapply resolved_trans|by rewrite M3]. }
  intros _ w3 [R3 M3]. eapply wp_mono; [apply (store_child_wp d mu)|].
  - by eapply buildable_resolved.
  - intros m Hm. by apply R3, Hc.
  - intros _ w4 [R4 M4]. split; [by eapply resolved_trans|done].
Qed.

Lemma lazy_waf_piece d : piece d (Some false) (lazy_waf d).
Proof.
  apply piece_get_dir. intros dcf w Hb [l Hl] Hc. apply wp_when; intros _; [|apply nothing, Hb].
  do 2 act_step. apply wp_when; intros _; [|apply nothing, Hb]. act_step. unfold lock.
  do 2 act_step. rewrite (bu_mutex _ _ _ Hb). do 3 act_step. rewrite ext_log.
  set (w1 := ext _ _ _).
  assert (resolved w w1) as R1.
  { destruct (resolved_refl w). constructor; try done. exists [EvLock]. split; [done|by repeat constructor]. }
  assert (buildable d (Some true) w1) as Hb1 by (by eapply buildable_resolved).
  pose proof (piece_seq d (Some true) _ _ (reuse_child_piece d (Some true))
    (piece_seq d (Some true) _ _ (reuse_cached_piece d (Some true)) (build_piece d (Some true))) w1 Hb1) as Hp.
  assert (∀ (m1 m2 m3 m4 : M (world X) unit) Q, wp (m1 ;; m2 ;; m3) (λ _ w', wp m4 Q w') w1 →
    wp (m1 ;; m2 ;; m3 ;; m4) Q w1) as Hassoc.
  { intros m1 m2 m3 m4 Q. unfold wp, mbind, M_bind. destruct (m1 w1) as [[[] wa]|]; [|done].
    destruct (m2 wa) as [[[] wb]|]; [|done]. by destruct (m3 wb) as [[[] wc]|]. }
  apply Hassoc. eapply wp_mono; [exact Hp|]. intros _ w2 [R2 M2]. unfold unlock.
  do 2 act_step. rewrite M2. do 2 act_step. apply wp_emit. rewrite ext_log. split; [|done].
  eapply resolved_trans; [exact R1|]. eapply resolved_trans; [exact R2|].
  destruct (resolved_refl w2). constructor; try done. exists [EvUnlock]. split; [done|by repeat constructor].
Qed.
End building.
