(* ===== verification/DisciplineRequest.v ===== *)
(** * Keeping the protocol: phases 1 and 2

    Opening the transaction and the fixups hook, under the invariant of
    [Discipline]. *)
From S2P Require Import Prelude Pack Types World DynLib DynLibFacts Intervention InterventionFacts Waf WafFacts Headers HeadersFacts Phase1 Phase1Facts FilterOutFacts Protocol Lifecycle Discipline LazyBuild.
Local Open Scope Z_scope.

(** ** Opening the transaction *)
Section opening.
Context {X : Type} `{!Libcoraza X, !Libc X, !Dynlib X}.
Implicit Types w : world X.
Variables (n : nat) (ch : list nat).

(** No transaction yet. *)
Definition unopened w : Prop :=
  household n ch None w ∧ protocol (drop n (trace w)) = Some NoTx.

Lemma Forall_quiet tr : Forall quiet tr → Forall idle tr ∧ Forall plain tr.
Proof. intros H. split; induction H as [|e tr [] _ IH]; by constructor. Qed.

Lemma household_resolved oc w w' :
  household n ch oc w → resolved w w' → g_waf_build_mutex (wafs w') = Some false → household n ch oc w'.
Proof.
  intros H [] Hm. destruct re_trace as (tr & Ht & Hq%Forall_quiet).
  eapply household_frame; try done. apply Hq.
Qed.
Lemma protocol_quiet w tr s :
  (n ≤ length (trace w))%nat → protocol (drop n (trace w)) = Some s → Forall quiet tr →
  protocol (drop n (trace w ++ tr)) = Some s.
Proof.
  intros Hn Hp [Hi _]%Forall_quiet. rewrite drop_app_le by done. unfold protocol in *.
  rewrite steps_app, Hp. by apply steps_idle.
Qed.
Lemma unopened_resolved w w' :
  unopened w → resolved w w' → g_waf_build_mutex (wafs w') = Some false → unopened w'.
Proof.
  intros [H Hp] R Hm. split; [by eapply household_resolved|].
  destruct R, re_trace as (tr & -> & Hq). apply protocol_quiet; [apply H|done|done].
Qed.
Lemma unopened_ctxs w f : unopened w → unopened (set_ctxs f w).
Proof. intros [H Hp]. split; [by apply household_ctxs|done]. Qed.

(** The transaction is attached to the request. *)
Lemma running_attach on r q c t k w :
  unopened w → r ∈ ch → reqs w !! r = Some q → t ≠ 0 → (on = true → section_on w q) →
  (fn_of k = new_transaction ∨ fn_of k = new_transaction_with_id) →
  ctxs w !! c = Some (set_transaction (λ _, t) zero_ctx) → ∀ e,
  running n ch c r on
    (ext e [EvCall k t; EvCleanupRegister c] (set_reqs (λ m, <[r := set_r_ctx (λ _, Some c) q]> m) w))
    (set_r_ctx (λ _, Some c) q) (set_transaction (λ _, t) zero_ctx) Registered false.
Proof.
  intros [[] Hp] Hin Hq Ht Hon Hk Hc e.
  assert (Hdrop : drop n (trace w ++ [EvCall k t; EvCleanupRegister c])
    = drop n (trace w) ++ [EvCall k t; EvCleanupRegister c]) by (by apply drop_app_le).
  assert (Hnone : ∀ r0 q0 c0, r0 ∈ ch → reqs w !! r0 = Some q0 → r_ctx q0 ≠ Some c0).
  { intros r0 q0 c0 H1 H2 H3. by specialize (hh_owner r0 q0 c0 H1 H2 H3). }
  constructor; try done; simpl.
  - constructor; simpl.
    + destruct hh_sane. by constructor.
    + intros r0 q0. destruct (decide (r = r0)) as [->|Hne].
      * rewrite lookup_insert_eq. intros [= <-]. exact (hh_valid r0 q Hq).
      * rewrite lookup_insert_ne by done. apply hh_valid.
    + eapply prev_path_same; [|eapply (prev_path_reqs w r q (set_r_ctx (λ _, Some c) q)); done]. done.
    + rewrite length_app. lia.
    + intros r0 q0 H0. destruct (decide (r = r0)) as [->|Hne].
      * rewrite lookup_insert_eq. intros [= <-]. exact (hh_main r0 q H0 Hq).
      * rewrite lookup_insert_ne by done. by apply hh_main.
    + intros r0 q0 c0 H0. destruct (decide (r = r0)) as [->|Hne].
      * rewrite lookup_insert_eq. by intros [= <-].
      * rewrite lookup_insert_ne by done. intros H1 H2. by destruct (Hnone r0 q0 c0).
    + intros c0 [= <-]. exists r. eexists. by rewrite lookup_insert_eq.
    + rewrite Hdrop. intros c0 r0 [H|H]%elem_of_app; [by destruct (hh_out c0 r0 H)|].
      apply list_elem_of_In in H. simpl in H. by destruct H as [|[|[]]].
    + rewrite Hdrop. intros c0 r0 [H|H]%elem_of_app; [by specialize (hh_in c0 r0 H)|].
      apply list_elem_of_In in H. simpl in H. by destruct H as [|[|[]]].
    + by rewrite Hdrop, cleanups_app, hh_cleanup.
  - rewrite Hdrop. unfold protocol in *. rewrite steps_app, Hp. simpl. rewrite steps_cons.
    assert (step_event NoTx (EvCall k t) = Some (Tx t Created false)) as ->; [|done].
    destruct k; try (by destruct Hk as [[=]|[=]]); simpl; by rewrite bool_decide_eq_false_2.
  - by rewrite lookup_insert_eq.
Qed.

Lemma create_ctx_running r q d (Q : option nat → world X → Prop) w :
  unopened w → r ∈ ch → reqs w !! r = Some q → r_dir_conf q = Some d → section_on w q →
  (∀ w', unopened w' → reqs w' = reqs w → Q None w') →
  (∀ c t w', running n ch c r true w' (set_r_ctx (λ _, Some c) q) (set_transaction (λ _, t) zero_ctx) Registered false →
     reqs w' = <[r := set_r_ctx (λ _, Some c) q]> (reqs w) → Q (Some c) w') →
  wp (coraza_create_ctx r) Q w.
Proof.
  intros Hun Hin Hq Hd Hsec HN HS. unfold coraza_create_ctx, new_ctx.
  destruct (hh_valid _ _ _ _ (proj1 Hun) r q Hq) as [Hdir [sv Hsv]].
  pose proof (hh_sane _ _ _ _ (proj1 Hun)) as [Hdl Hmu Hok].
  do 6 act_step. set (c := next_key (ctxs w)). do 3 act_step. eapply wp_deref; [exact Hsv|].
  rewrite Hd. set (w1 := set_ctxs _ w). act_step.
  assert (unopened w1) as Hun1 by (by apply unopened_ctxs).
  assert (buildable d (Some false) w1) as Hb1 by (constructor; [done|done|by apply Hdir|done]).
  eapply wp_mono; [by apply lazy_waf_piece|]. intros [] w2 [R2 M2]. cbv beta.
  assert (unopened w2) as Hun2 by (by eapply unopened_resolved).
  assert (Hd2 : is_Some (dir_confs (cfg w2) !! d)) by (by apply R2, Hdir).
  assert (Hsec2 : section_on w2 q).
  { destruct Hsec as (d0 & x & H1 & H2 & H3). destruct (re_dirs _ _ R2 d0 x H2) as [h Hh].
    by exists d0, (set_waf (λ _, h) x). }
  destruct Hd2 as [dcf Hdcf]. act_step.
  eapply (wp_mono _ (λ _ w3, w3 = w2)).
  { unfold chosen_waf. do 2 act_step. case_goal as Hz; [by apply wp_ret|].
    destruct (co_servers _ (sn_cfg _ (hh_sane _ _ _ _ (proj1 Hun2))) (r_server q) sv) as (s & Hs & sc & Hsc).
    { by rewrite (cg_servers _ _ (re_grows _ _ R2)). }
    rewrite Hs. by do 2 act_step. }
  intros waf w3 ->. case_goal as Hwaf; [apply wp_ret, HN; [done|by rewrite (re_reqs _ _ R2)]|].
  do 2 act_step. act_step.
  apply new_transaction_wp; [apply (sn_dl _ (hh_sane _ _ _ _ (proj1 Hun2)))|]. intros t e.
  set (k := match transaction_id dcf with Some i => _ | None => _ end).
  assert (Hx : ctxs w2 !! c = Some zero_ctx) by (rewrite (re_ctxs _ _ R2); apply lookup_insert_eq).
  act_step. eapply wp_upd_ctx; [exact Hx|]. case_goal as Ht.
  - subst t. do 2 act_step. apply wp_ret, HN; [|simpl; by rewrite (re_reqs _ _ R2)].
    rewrite ext_log. destruct Hun2 as [H2 P2]. split.
    + apply household_ext; [|by constructor]. apply household_ctxs, household_ext; [done|by constructor].
    + simpl. rewrite <- app_assoc, drop_app_le by apply H2. unfold protocol in *.
      rewrite steps_app, P2. simpl. by destruct (transaction_id dcf).
  - act_step. eapply wp_upd_req; [simpl; rewrite (re_reqs _ _ R2); exact Hq|]. do 2 act_step.
    apply wp_ret. eapply HS; [|simpl; by rewrite (re_reqs _ _ R2)].
    pose proof (running_attach true r q c t k (set_ctxs (λ m, <[c := set_transaction (λ _, t) zero_ctx]> m) w2)) as Hat.
    specialize (Hat (unopened_ctxs _ _ Hun2) Hin).
    simpl in Hat. rewrite (re_reqs _ _ R2), lookup_insert_eq in Hat.
    specialize (Hat Hq Ht (λ _, Hsec2) ltac:(unfold k; destruct (transaction_id dcf); auto) eq_refl e).
    unfold ext, set_trace, set_env, set_ctxs, set_reqs in *. simpl in *.
    rewrite <- app_assoc. exact Hat.
Qed.
End opening.

(** ** The phases *)
Section phases.
Context {X : Type} `{!Libcoraza X, !Httpd X, Pool0 : !Pool}.
Implicit Types w : world X.
Variables (n : nat) (ch : list nat) (c r : nat).
Abbreviation running := (running n ch c r true).
Abbreviation halted := (halted n ch c r true).
Abbreviation resting := (resting n ch c r true).
Hypothesis palloc_size : ∀ n, 0 ≤ n → Z.of_nat (length (apr_palloc n)) = n.

Lemma connection_running w q x (Q : option Z → world X → Prop) :
  running w q x Registered false → (∀ w', running w' q x Connected false → Q None w') →
  (∀ rc w', halted w' → Q (Some rc) w') → wp (phase1_connection r c) Q w.
Proof.
  intros H HN HS. unfold phase1_connection. act_step. eapply run_get_req; [exact H|].
  do 3 act_step. eapply run_get_ctx; [exact H|].
  eapply (checked_running n ch c r true _ _ _ _ (ProcessConnection _ _ _ _ _)); try done.
Qed.

Lemma uri_running w q x (Q : option Z → world X → Prop) :
  running w q x Connected false → (∀ w', running w' q x HeadersIn false → Q None w') →
  (∀ rc w', halted w' → Q (Some rc) w') → wp (phase1_uri r c) Q w.
Proof.
  intros H HN HS. unfold phase1_uri. act_step. eapply run_get_req; [exact H|].
  act_step. eapply run_get_ctx; [exact H|].
  eapply (checked_running n ch c r true _ _ _ _ (ProcessUri _ _ _ _)); try done.
Qed.

(** Splitting off the submission of the headers. *)
Lemma wp_assoc {A B C} (m : M (world X) A) (k : A → M (world X) B) (l : B → M (world X) C) Q w :
  wp (m ≫= k) (λ b w', wp (l b) Q w') w → wp (a ← m; b ← k a; l b) Q w.
Proof.
  unfold wp, mbind, M_bind. destruct (m w) as [[a w']|]; [|done]. by destruct (k a w') as [[b w'']|].
Qed.

Lemma headers_running w q x (Q : option Z → world X → Prop) :
  running w q x HeadersIn false → table_ok (r_headers_in q) →
  (∀ w', running w' q x BodyIn false → Q None w') →
  (∀ rc w', halted w' → Q (Some rc) w') → wp (phase1_headers r c) Q w.
Proof.
  intros H Htb HN HS. unfold phase1_headers. act_step. eapply run_get_req; [exact H|].
  act_step. eapply run_get_ctx; [exact H|]. apply wp_assoc.
  apply (submit_keeps palloc_size (λ w, running w q x HeadersIn false)
    (λ w, ∃ rf, running w q x HeadersIn rf)).
  - intros w1 l m H1. by apply running_idle.
  - intros w1 l m [rf H1]. exists rf. by apply running_idle.
  - eauto.
  - intros p l k R w1 H1 HR. eapply (tx_call_wp n ch c r true _ _ _ _ _ (AddRequestHeaders _ _ _ _));
      [exact H1|done..|]. intros ret w2 H2. by apply HR.
  - intros p R w1 H1 H0 Hrc. eapply (tx_call_wp n ch c r true _ _ _ _ _ (AddRequestHeader _ _ _ _ _));
      [exact H1|done..|]. intros ret w2 H2. simpl in H2. unfold CORAZA_CALL_FAILED in H2.
    destruct (decide (ret = 0)) as [->|Hne]; [by apply H0|]. apply Hrc; [done|eauto].
  - by apply table_pairs_wf.
  - exact H.
  - intros w1 H1. simpl.
    eapply (checked_running n ch c r true _ _ _ _ (ProcessRequestHeaders _)); try done.
  - intros w1 [rf H1]. simpl. eapply fail_closed_running; [exact H1|done|exact HS].
Qed.

(** ** Phase 2 *)

(** The body is being read: [x] is the context, up to the saved body. *)
Definition reading q x w : Prop :=
  ∃ bb, running w q (set_saved_body (λ _, Some bb) x) BodyIn false.

Lemma reading_update q x w bb f (Q : unit → world X → Prop) :
  running w q (set_saved_body (λ _, Some bb) x) BodyIn false →
  (∀ w', reading q x w' → Q tt w') → wp (upd_ctx c (set_saved_body (λ _, Some f))) Q w.
Proof.
  intros H HQ. eapply run_upd_ctx; [exact H|done|apply (ru_hold _ _ _ _ _ _ _ _ _ _ H)|done|].
  intros w' H'. apply HQ. exists f. by destruct x.
Qed.

Lemma fail_save_running q x w (Q : Z + (Z * option bytes) → world X → Prop) :
  reading q x w → (∀ rc w', halted w' → Q (inl rc) w') →
  wp (upd_ctx c (set_intervention_triggered (λ _, true)) ;; mret (inl HTTP_INTERNAL_SERVER_ERROR)) Q w.
Proof.
  intros [bb H] HQ. act_step. eapply trigger_wp; [exact H|done|]. intros w' _ Hh. by apply wp_ret, HQ.
Qed.

Lemma open_spool_running q x w (Q : apr_status → world X → Prop) :
  reading q x w → (∀ rv w', reading q x w' → Q rv w') → wp coraza_open_body_spool Q w.
Proof.
  intros [bb H] HQ. unfold coraza_open_body_spool.
  assert (Hend : ∀ rv l m w', running w' q (set_saved_body (λ _, Some bb) x) BodyIn false →
    wp (ap_log l m ;; mret rv) Q w').
  { intros rv l m w' H'. act_step. eapply run_emit; [exact H'|done|done|]. intros w'' H''.
    apply wp_ret, HQ. by exists bb. }
  act_step. eapply run_outside; [exact H|]. intros rv1 w1 H1. case_goal as Hrv1; [by apply Hend|].
  act_step. eapply run_outside; [exact H1|]. intros rv2 w2 H2. case_goal as Hrv2; by apply Hend.
Qed.

Lemma save_chunk_running q x limit saved_len spool buf w (Q : Z + (Z * option bytes) → world X → Prop) :
  reading q x w → (∀ o w', reading q x w' → Q (inr o) w') → (∀ rc w', halted w' → Q (inl rc) w') →
  wp (save_chunk c limit saved_len spool buf) Q w.
Proof.
  intros Hrd HN HS. unfold save_chunk. cbv zeta. destruct Hrd as [bb H].
  destruct (bool_decide (spool = None) && bool_decide (saved_len + Z.of_nat (length buf) ≤ limit)).
  - act_step. eapply run_get_ctx; [exact H|]. cbn. act_step. eapply run_outside; [exact H|].
    intros [rv bb'] w1 H1. act_step. eapply reading_update; [exact H1|]. intros w2 H2.
    case_goal as Hrv; [by eapply fail_save_running|by apply wp_ret, HN].
  - act_step. eapply (wp_mono _ (λ _ w1, reading q x w1)).
    { destruct (bool_decide (spool = None)); [|apply wp_ret; by exists bb].
      eapply open_spool_running; [by exists bb|done]. }
    intros rv w1 H1. case_goal as Hrv; [by eapply fail_save_running|]. act_step.
    destruct H1 as [bb1 H1]. eapply run_outside; [exact H1|]. intros [rv' f] w2 H2.
    case_goal as Hrv'; [|apply wp_ret, HN; by exists bb1].
    act_step. eapply run_emit; [exact H2|done|done|]. intros w3 H3.
    eapply fail_save_running; [by exists bb1|done].
Qed.

Lemma inspect_chunk_running q x i buf w (Q : option Z → world X → Prop) :
  reading q x w → (∀ w', reading q x w' → Q None w') → (∀ rc w', halted w' → Q (Some rc) w') →
  wp (inspect_chunk r c i buf) Q w.
Proof.
  intros [bb H] HN HS. unfold inspect_chunk. case_goal as Hi; [apply wp_ret, HN; by exists bb|].
  act_step. eapply run_get_ctx; [exact H|]. act_step.
  eapply (tx_call_wp n ch c r true _ _ _ _ _ (AppendRequestBody _ _ _)); [exact H|done..|].
  intros ret w1 H1. simpl in H1. destruct (CORAZA_CALL_FAILED ret).
  - eapply fail_closed_running; [exact H1|done|exact HS].
  - eapply poll_running; [done|exact H1|done| |exact HS]. intros w2 H2. apply HN. by exists bb.
Qed.

Lemma read_loop_running q x i limit ok (Q : Z + option bytes → world X → Prop) :
  (∀ o w', reading q x w' → Q (inr o) w') → (∀ w', reading q x w' → Q (inl HTTP_BAD_REQUEST) w') →
  (∀ rc w', halted w' → Q (inl rc) w') → ∀ chunks saved_len spool w, reading q x w →
  wp (read_loop r c i limit chunks ok saved_len spool) Q w.
Proof.
  intros HN Hbad HS. induction chunks as [|[|a d] chunks IH]; intros sl sp w H; cbn [read_loop].
  - destruct ok; apply wp_ret; auto.
  - by apply wp_ret, HN.
  - act_step. eapply save_chunk_running; [exact H| |intros rc w1 H1; by apply wp_ret, HS].
    intros [sl1 sp1] w1 H1. act_step.
    eapply inspect_chunk_running; [exact H1| |intros rc w2 H2; by apply wp_ret, HS].
    intros w2 H2. by apply IH.
Qed.

Lemma save_bucket_running q x e w (Q : unit → world X → Prop) :
  reading q x w → (∀ w', reading q x w' → Q tt w') → wp (save_bucket c e) Q w.
Proof.
  intros [bb H] HQ. unfold save_bucket. act_step. eapply run_get_ctx; [exact H|]. cbn.
  by eapply reading_update.
Qed.

Lemma finish_phase2_running q x w (Q : option Z → world X → Prop) :
  running w q x BodyIn false → (∀ w', running w' q (set_phase2_done (λ _, true) x) BodyRead false → Q None w') →
  (∀ rc w', halted w' → Q (Some rc) w') → wp (finish_phase2 r c) Q w.
Proof.
  intros H HN HS. unfold finish_phase2. act_step. eapply run_get_ctx; [exact H|]. act_step.
  eapply (tx_call_wp n ch c r true _ _ _ _ _ (ProcessRequestBody _)); [exact H|done..|].
  intros ret w1 H1. simpl in H1. destruct (coraza_process_failed ret).
  - eapply fail_closed_running; [exact H1|done|exact HS].
  - act_step. eapply run_upd_ctx; [exact H1|done|apply H1|done|]. intros w2 H2.
    eapply (poll_running n ch c r true w2 q (set_phase2_done (λ _, true) x)); [done|exact H2|done|exact HN|exact HS].
Qed.
(** The state in which the hook may stop without refusing the request: phase 1
    is over. *)
Lemma between_phases w q x p :
  running w q x p false → p = BodyIn ∨ p = BodyRead → intervention_triggered x = false →
  phase3_done x = false → resting w.
Proof.
  intros H Hp Ht H3. exists q, x, p, false. split; [done|]. split; [by destruct Hp as [->| ->]|].
  by rewrite H3.
Qed.

Lemma read_body_running q x d w (Q : option Z → world X → Prop) :
  running w q x BodyIn false → r_dir_conf q = Some d → intervention_triggered x = false →
  phase3_done x = false →
  (∀ w' q' y, running w' q' y BodyRead false → intervention_triggered y = false →
     phase3_done y = false → Q None w') →
  (∀ rc w', resting w' → Q (Some rc) w') → wp (read_body r c d) Q w.
Proof.
  intros H Hd Ht H3 HN HS. unfold read_body. act_step.
  destruct (running_valid _ _ _ _ _ _ _ _ _ _ _ H Hd) as [dcf Hdcf].
  eapply wp_get_dir; [exact Hdcf|]. act_step. eapply run_get_ctx; [exact H|]. act_step.
  eapply (tx_call_wp n ch c r true _ _ _ _ _ (IsRequestBodyAccessible _)); [exact H|done..|].
  intros i w1 H1. simpl in H1. act_step.
  eapply run_upd_ctx; [exact H1|done|apply H1|done|]. intros w2 H2. do 2 act_step.
  act_step. eapply (read_loop_running q x); [| | |by exists []].
  - intros o w3 H3'. act_step.
    eapply (wp_mono _ (λ _ w4, reading q x w4)).
    { destruct o; [|by apply wp_ret]. eapply save_bucket_running; [exact H3'|done]. }
    intros [] w4 H4. act_step. eapply save_bucket_running; [exact H4|]. intros w5 [bb H5]. act_step.
    eapply run_upd_req; [exact H5|done|]. intros w6 H6. do 2 act_step.
    eapply finish_phase2_running; [apply running_filter; [exact H6|by right]| |].
    + intros w7 H7. eapply HN; [exact H7|done|done].
    + intros rc w7 H7. apply HS. by apply halted_resting.
  - intros w3 [bb H3']. apply wp_ret, HS. eapply between_phases; [exact H3'|by left|done|done].
  - intros rc w3 H3'. apply wp_ret, HS. by apply halted_resting.
Qed.

Lemma phase2_running q x d w (Q : option Z → world X → Prop) :
  running w q x BodyIn false → r_dir_conf q = Some d → intervention_triggered x = false →
  phase3_done x = false →
  (∀ w' q' y, running w' q' y BodyRead false → intervention_triggered y = false →
     phase3_done y = false → Q None w') →
  (∀ rc w', resting w' → Q (Some rc) w') → wp (phase2 r c d) Q w.
Proof.
  intros H Hd Ht H3 HN HS. unfold phase2. act_step. eapply run_outside; [exact H|].
  intros rc w1 H1. case_goal as Hrc.
  { apply wp_ret, HS. eapply between_phases; [exact H1|by left|done|done]. }
  act_step. eapply run_outside; [exact H1|]. intros [] w2 H2; [by eapply read_body_running|].
  eapply finish_phase2_running; [exact H2| |].
  - intros w3 H3'. eapply HN; [exact H3'|done|done].
  - intros rc' w3 H3'. apply HS. by apply halted_resting.
Qed.

Lemma run_phases_running q x d w (Q : Z → world X → Prop) :
  running w q x Registered false → r_dir_conf q = Some d → table_ok (r_headers_in q) →
  intervention_triggered x = false → phase3_done x = false →
  (∀ rc w', resting w' → Q rc w') → wp (run_phases r c d) Q w.
Proof.
  intros H Hd Htb Ht H3 HQ. unfold run_phases.
  assert (HS : ∀ rc w', halted w' → Q rc w') by (intros; by apply HQ, halted_resting).
  act_step. eapply connection_running; [exact H| |exact HS]. intros w1 H1.
  act_step. eapply uri_running; [exact H1| |exact HS]. intros w2 H2.
  act_step. eapply headers_running; [exact H2|done| |exact HS]. intros w3 Hw3. do 2 act_step.
  act_step. eapply phase2_running; [apply running_filter; [exact Hw3|by left]|done|done|done| |exact HQ].
  intros w4 q' y H4 Ht4 H34. apply wp_ret, HQ.
  eapply between_phases; [exact H4|by right|done|done].
Qed.
End phases.

(** ** The hook *)

(** The contexts found on the way back through [prev]. *)
Lemma path_ctxs_owner {X} n ch oc (w : world X) l :
  household n ch oc w → (∀ p, p ∈ l → p ∈ ch) → Forall (λ c, oc = Some c) (path_ctxs w l).
Proof.
  intros H Hl. unfold path_ctxs. induction l as [|p l IH]; simpl; [done|].
  assert (Forall (λ c, oc = Some c) (omap (λ p, q ← reqs w !! p; r_ctx q) l)) as Hrest
    by (apply IH; intros; apply Hl; by right).
  destruct (reqs w !! p) as [q|] eqn:E; simpl; [|done].
  destruct (r_ctx q) as [c|] eqn:Ec; [|done]. constructor; [|done].
  eapply (hh_owner _ _ _ _ H); [|exact E|exact Ec]. apply Hl. by left.
Qed.

Section hook.
Context {X : Type} `{!Libcoraza X, !Httpd X, !Libc X, !Dynlib X, Pool0 : !Pool}.
Implicit Types w : world X.
Variables (n : nat) (ch : list nat).
Hypothesis palloc_size : ∀ n, 0 ≤ n → Z.of_nat (length (apr_palloc n)) = n.

(** What the client request is in between two calls of the handlers: without a
    transaction, or with one at rest. *)
Definition at_rest w : Prop := unopened n ch w ∨ ∃ c r, resting n ch c r false w.

(** The fixups of a new client request, or of a redirect of one that was never
    inspected. *)
Lemma fixups_unopened r q (Q : Z → world X → Prop) w :
  unopened n ch w → head ch = Some r → reqs w !! r = Some q → table_ok (r_headers_in q) →
  (∀ rc w', at_rest w' → Q rc w') → wp (coraza_post_read_request r) Q w.
Proof.
  intros Hun Hhd Hq Htb HQ. unfold coraza_post_read_request.
  assert (r ∈ ch) as Hin by (destruct ch; [done|]; injection Hhd as ->; left).
  pose proof (hh_valid _ _ _ _ (proj1 Hun) r q Hq) as [Hdir _].
  assert (HQ' : ∀ rc, Q rc w) by (intros rc; apply HQ; by left).
  act_step. eapply wp_get_req; [exact Hq|]. destruct (r_main q); [by apply wp_ret|].
  destruct (r_dir_conf q) as [d|] eqn:Hd; [|by apply wp_ret]. destruct (Hdir d Hd) as [dcf Hdcf].
  act_step. eapply wp_get_dir; [exact Hdcf|]. case_goal as He; [by apply wp_ret|].
  destruct (r_ctx q) as [c|] eqn:Hc; [by apply wp_ret|].
  act_step. eapply (wp_mono _ (λ o w1, o = None ∧ w1 = w)).
  { unfold reuse_transaction. destruct (r_prev q) as [p|] eqn:Hp; [|by apply wp_ret].
    act_step. unfold coraza_ctx_from_prev. act_step. eapply wp_get_req; [exact Hq|]. do 2 act_step.
    pose proof (hh_path _ _ _ _ (proj1 Hun)) as Hpath. rewrite Hhd in Hpath.
    inversion Hpath as [|r0 q0 l Hq0 Hl]; subst. rewrite Hq in Hq0. injection Hq0 as <-.
    unfold wp. rewrite (ctx_from_prev_wp w _ l Hl) by (by eapply prev_path_length).
    assert (Forall (λ c, None = Some c) (path_ctxs w l)) as Hall.
    { apply (path_ctxs_owner n ch); [apply Hun|]. intros p' Hp'. rewrite <- H0. by right. }
    by destruct Hall. }
  intros o w1 [-> ->]. act_step.
  assert (Hsec : section_on w q) by (exists d, dcf; split_and!; [done|done|lia]).
  eapply create_ctx_running; [exact Hun|exact Hin|exact Hq|exact Hd|exact Hsec| |].
  - intros w1 H1 _. apply wp_ret, HQ. by left.
  - intros c t w1 H1 _. eapply run_phases_running; [done|exact H1|exact Hd|done|done|done|].
    intros rc w2 H2. apply HQ. right. exists c, r. by eapply resting_weaken.
Qed.

(** An internal redirect continues the transaction. *)
Lemma household_reuse c r q w :
  household n ch (Some c) w → reqs w !! r = Some q → r_ctx q = None →
  household n ch (Some c) (set_reqs (λ m, <[r := set_r_ctx (λ _, Some c) q]> m) w).
Proof.
  intros [] Hq Hc.
  assert (Hkeep : ∀ r0 q0, reqs w !! r0 = Some q0 → r_ctx q0 = Some c →
    ∃ q1, reqs (set_reqs (λ m, <[r := set_r_ctx (λ _, Some c) q]> m) w) !! r0 = Some q1
       ∧ r_ctx q1 = Some c).
  { intros r0 q0 H0 Hc0. exists q0. simpl. rewrite lookup_insert_ne; [done|]. intros <-. congruence. }
  constructor; try done.
  - destruct hh_sane. by constructor.
  - intros r0 q0. simpl. destruct (decide (r = r0)) as [->|Hne].
    + rewrite lookup_insert_eq. intros [= <-]. exact (hh_valid r0 q Hq).
    + rewrite lookup_insert_ne by done. apply hh_valid.
  - by apply prev_path_reqs with q.
  - intros r0 q0 Hin. simpl. destruct (decide (r = r0)) as [->|Hne].
    + rewrite lookup_insert_eq. intros [= <-]. exact (hh_main r0 q Hin Hq).
    + rewrite lookup_insert_ne by done. by apply hh_main.
  - intros r0 q0 c0 Hin. simpl. destruct (decide (r = r0)) as [->|Hne].
    + rewrite lookup_insert_eq. by intros [= <-].
    + rewrite lookup_insert_ne by done. by apply hh_owner.
  - intros c0 Hc0. destruct (hh_some c0 Hc0) as (r0 & q0 & Hin & H0 & Hc1).
    injection Hc0 as <-. destruct (Hkeep r0 q0 H0 Hc1) as (q1 & H1 & H2). by exists r0, q1.
  - intros c0 r0 (Hc0 & q0 & H0 & Hc1)%hh_out. injection Hc0 as <-. split; [done|].
    exact (Hkeep r0 q0 H0 Hc1).
Qed.

Lemma running_reuse c r r0 q q0 x p rf w :
  running n ch c r0 false w q0 x p rf → reqs w !! r = Some q → r_ctx q = None →
  running n ch c r0 false
    (set_trace (λ t, t ++ [EvAddOutputFilter c r])
       (set_reqs (λ m, <[r := set_r_ctx (λ _, Some c) q]> m) w)) q0 x p rf.
Proof.
  intros [] Hq Hc. constructor; try done.
  - eapply household_filter; [by apply household_reuse|apply lookup_insert_eq|done|by left].
  - simpl. rewrite drop_app_le by apply ru_house. unfold protocol in *. by rewrite steps_app, ru_proto.
  - simpl. rewrite lookup_insert_ne; [done|]. intros ->. congruence.
Qed.

Lemma head_elem {A} (P : A → Prop) (l : list A) a : Forall P l → a ∈ l → ∃ b, head l = Some b ∧ P b.
Proof. intros [|b l' Hb _] Hin; [by apply not_elem_of_nil in Hin|eauto]. Qed.

(** The fixups of a redirect within a transaction. *)
Lemma fixups_resting c r0 r q (Q : Z → world X → Prop) w :
  resting n ch c r0 false w → head ch = Some r → reqs w !! r = Some q →
  (∀ rc w', at_rest w' → Q rc w') → wp (coraza_post_read_request r) Q w.
Proof.
  intros Hrest Hhd Hq HQ. unfold coraza_post_read_request.
  assert (HQ' : ∀ rc, Q rc w) by (intros rc; apply HQ; right; eauto).
  destruct Hrest as (q0 & x & p & rf & H & Hs). pose proof (ru_house _ _ _ _ _ _ _ _ _ _ H) as Hh.
  pose proof (hh_valid _ _ _ _ Hh r q Hq) as [Hdir _].
  act_step. eapply wp_get_req; [exact Hq|]. destruct (r_main q); [by apply wp_ret|].
  destruct (r_dir_conf q) as [d|] eqn:Hd; [|by apply wp_ret]. destruct (Hdir d Hd) as [dcf Hdcf].
  act_step. eapply wp_get_dir; [exact Hdcf|]. case_goal as He; [by apply wp_ret|].
  destruct (r_ctx q) as [c1|] eqn:Hc; [by apply wp_ret|].
  pose proof (hh_path _ _ _ _ Hh) as Hpath. rewrite Hhd in Hpath.
  inversion Hpath as [|r1 q1 l Hq1 Hl]; subst. rewrite Hq in Hq1. injection Hq1 as <-.
  assert (head (path_ctxs w l) = Some c) as Hctx.
  { destruct (head_elem (λ c0, Some c = Some c0) (path_ctxs w l) c) as (b & Hb & [= <-]); [| |done].
    - apply (path_ctxs_owner n ch); [done|]. intros y Hy. rewrite <- H1. by right.
    - destruct (hh_some _ _ _ _ Hh c eq_refl) as (r2 & q2 & Hin & H2 & Hc2).
      rewrite <- H1 in Hin. apply elem_of_cons in Hin as [->|Hin]; [congruence|].
      unfold path_ctxs. apply list_elem_of_omap. exists r2. split; [done|]. by rewrite H2. }
  act_step. unfold reuse_transaction.
  destruct (r_prev q) as [p0|] eqn:Hp; [|by inversion Hl; subst].
  act_step. unfold coraza_ctx_from_prev. act_step. eapply wp_get_req; [exact Hq|]. do 2 act_step.
  unfold wp at 1. rewrite Hp, (ctx_from_prev_wp w _ l Hl) by (by eapply prev_path_length). rewrite Hctx.
  act_step. eapply wp_upd_req; [exact Hq|]. do 2 act_step. apply wp_ret. apply HQ. right.
  exists c, r0, q0, x, p, rf. split; [|done]. by apply running_reuse.
Qed.
End hook.
