(* ===== verification/DisciplineResponse.v ===== *)
(** * Keeping the protocol: the filters

    The input filter and phases 3 and 4, under the invariant of [Discipline]. *)
From S2P Require Import Prelude Pack Types World DynLib DynLibFacts Intervention InterventionFacts Waf Headers HeadersFacts Phase1 Phase1Facts BodyIn FilterOut FilterOutFacts Protocol Lifecycle Discipline LazyBuild DisciplineRequest.
Local Open Scope Z_scope.

(** ** The input filter *)
Section input.
Context {X : Type} `{!Libcoraza X, !Httpd X}.
Implicit Types w : world X.
Variables (n : nat) (ch : list nat) (c r : nat) (q : request_rec) (x : coraza_request_ctx_t)
  (p : phase) (rf : bool).
Abbreviation running := (running n ch c r false).
Hypothesis Hsettled : settled x p rf.

(** Only the saved body changed. *)
Definition kept w : Prop := ∃ b, running w q (set_saved_body (λ _, b) x) p rf.

Lemma kept_resting w : kept w → resting n ch c r false w.
Proof. intros [b H]. by exists q, (set_saved_body (λ _, b) x), p, rf. Qed.

Lemma kept_update b w (Q : unit → world X → Prop) :
  kept w → (∀ w', kept w' → Q tt w') → wp (upd_ctx c (set_saved_body (λ _, b))) Q w.
Proof.
  intros [b0 H] HQ. eapply run_upd_ctx; [exact H|done|apply (ru_hold _ _ _ _ _ _ _ _ _ _ H)|done|].
  intros w' H'. apply HQ. exists b. exact H'.
Qed.
Lemma kept_outside {A} (f : X → A * X) w (Q : A → world X → Prop) :
  kept w → (∀ a w', kept w' → Q a w') → wp (outside f) Q w.
Proof. intros [b H] HQ. eapply run_outside; [exact H|]. intros a w' H'. apply HQ. by exists b. Qed.
Lemma kept_emit e w (Q : unit → world X → Prop) :
  kept w → idle e → plain e → (∀ w', kept w' → Q tt w') → wp (emit e) Q w.
Proof. intros [b H] ? ? HQ. eapply run_emit; [exact H|done|done|]. intros w' H'. apply HQ. by exists b. Qed.

Lemma kept_next bb mode block k w (Q : apr_status * brigade → world X → Prop) :
  kept w → (∀ a w', kept w' → Q a w') → wp (get_from_next bb mode block k) Q w.
Proof.
  intros H HQ. unfold get_from_next. act_step. apply kept_emit; [done..|]. intros w1 H1.
  by apply kept_outside.
Qed.

Lemma copy_kept before (Q : apr_status * brigade → world X → Prop) : ∀ bb w,
  kept w → (∀ a w', kept w' → Q a w') → wp (copy_buckets before bb) Q w.
Proof.
  induction before as [|e before IH]; intros bb w H HQ; simpl; [by apply wp_ret, HQ|].
  act_step. apply kept_outside; [done|]. intros [rv e'] w1 H1. case_goal as Hrv; [by apply wp_ret, HQ|].
  by apply IH.
Qed.

Lemma replay_kept f bb mode block k w (Q : apr_status * brigade → world X → Prop) :
  f_ctx f = Some c → (∃ b, running w q (set_saved_body (λ _, Some b) x) p rf) →
  (∀ a w', kept w' → Q a w') → wp (coraza_replay_saved_body f bb mode block k) Q w.
Proof.
  intros Hf [b H] HQ. unfold coraza_replay_saved_body. rewrite Hf. act_step.
  eapply run_get_ctx; [exact H|]. assert (kept w) as Hk by (by exists (Some b)). cbn.
  assert (Hset : ∀ saved a w', kept w' → wp (set_saved c saved ;; mret a) Q w').
  { intros saved a w' H'. act_step. apply kept_update; [done|]. intros w'' H''. by apply wp_ret, HQ. }
  destruct b as [|e b].
  { act_step. apply kept_update; [done|]. intros w1 H1. act_step. apply kept_emit; [done..|].
    intros w2 H2. by apply kept_next. }
  destruct mode.
  1,5,6: case_match; [by apply Hset|]; unfold read_bytes; act_step; apply kept_outside; [done|];
    intros [rv [before after]] w1 H1; repeat case_match; by apply Hset.
  - act_step. apply kept_outside; [done|]. intros a w1 H1. by apply Hset.
  - by apply kept_next.
  - unfold read_speculative. case_goal as Hk0; [|by apply copy_kept]. act_step.
    apply kept_outside; [done|]. intros [rv [before after]] w1 H1. act_step.
    apply kept_update; [done|]. intros w2 H2. case_match; [by apply wp_ret, HQ|by apply copy_kept].
Qed.

Lemma input_filter_kept f bb mode block k w (Q : apr_status * brigade → world X → Prop) :
  f_ctx f = None ∨ f_ctx f = Some c → running w q x p rf →
  (∀ a w', resting n ch c r false w' → Q a w') → wp (coraza_input_filter f bb mode block k) Q w.
Proof.
  intros Hf H HQ. unfold coraza_input_filter.
  assert (kept w) as Hk by (exists (saved_body x); by destruct x).
  assert (HQ' : ∀ a w', kept w' → Q a w') by (intros; by apply HQ, kept_resting).
  assert (Haside : wp (emit (EvRemoveInputFilter f) ;; get_from_next bb mode block k) Q w).
  { act_step. apply kept_emit; [done..|]. intros w1 H1. by apply kept_next. }
  act_step. destruct Hf as [->|Hf]; [by apply wp_ret|]. rewrite Hf. act_step.
  eapply run_get_ctx; [exact H|]. apply wp_ret.
  destruct (bool_decide (saved_body x ≠ None) && _) eqn:E; [|done].
  apply andb_true_iff in E as [Hs%bool_decide_eq_true _].
  apply replay_kept; [done| |done]. destruct (saved_body x) as [b|] eqn:Eb; [|done].
  exists b. destruct x. simpl in *. by subst.
Qed.
End input.

(** ** Refusing a response *)
Section output.
Context {X : Type} `{!Libcoraza X, !Httpd X, Pool0 : !Pool, !DieLaws X}.
Implicit Types w : world X.
Abbreviation result := (apr_status * brigade)%type.
Variables (n : nat) (ch : list nat) (c r : nat) (f : ap_filter_t).
Abbreviation running := (running n ch c r false).
Abbreviation halted := (halted n ch c r false).
Abbreviation resting := (resting n ch c r false).

Lemma die_running s w q x p rf (Q : unit → world X → Prop) :
  running w q x p rf → (∀ w' q', running w' q' x p rf → Q tt w') → wp (coraza_die s r) Q w.
Proof.
  intros H HQ. unfold coraza_die. act_step. eapply run_upd_req; [exact H|done|]. intros w1 H1.
  act_step. eapply run_get_req; [exact H1|]. act_step. eapply run_emit; [exact H1|done|done|].
  intros w2 H2. act_step. apply wp_outside. intros q' e Hdie.
  eapply run_upd_req; [apply running_env; exact H2| |intros w3 H3; by eapply HQ].
  pose proof (ap_die_slots s r (set_r_status (λ _, HTTP_OK) q) (env w2)) as Hs. by rewrite Hdie in Hs.
Qed.

Lemma step_out_running w q x p rf (Q : unit → world X → Prop) :
  running w q x p rf → alive p = true →
  (∀ w', running w' q (set_intervention_triggered (λ _, true) x) p rf → Q tt w') →
  wp (step_out f c) Q w.
Proof.
  intros H Hp HQ. unfold step_out. act_step. eapply trigger_wp; [exact H|done|]. intros w1 H1 _.
  eapply run_emit; [exact H1|done|done|exact HQ].
Qed.

Lemma discard_running w q x p rf (Q : unit → world X → Prop) :
  running w q x p rf → headers_delayed x = true →
  (∀ w' y, running w' q y p rf → intervention_triggered y = intervention_triggered x → Q tt w') →
  wp (discard_pending c) Q w.
Proof.
  intros H Hh HQ. unfold discard_pending. act_step.
  destruct (ru_hold _ _ _ _ _ _ _ _ _ _ H Hh) as [b Hb].
  eapply run_upd_ctx; [exact H|done|done|done|]. intros w1 H1. act_step.
  eapply run_get_ctx; [exact H1|]. cbn. rewrite Hb.
  eapply run_upd_ctx; [exact H1|done|done|done|]. intros w2 H2. by eapply HQ.
Qed.

(** A refused context: what the endings start from, and what they end in. *)
Lemma die_halted s w q x p rf (a : result) (Q : result → world X → Prop) :
  running w q x p rf → alive p = true → intervention_triggered x = true →
  (∀ a w', halted w' → Q a w') → wp (coraza_die s r ;; mret a) Q w.
Proof.
  intros H Hp Ht HQ. act_step. eapply die_running; [exact H|]. intros w1 q1 H1. apply wp_ret, HQ.
  by do 4 eexists.
Qed.

Lemma cut_halted s w q x p rf (m : M (world X) result) (Q : result → world X → Prop) :
  running w q x p rf → alive p = true → intervention_triggered x = true →
  (∀ a w', halted w' → Q a w') → wp m Q w →
  wp (ctx ← get_ctx c;
      if headers_delayed ctx then
        discard_pending c ;; coraza_die s r ;; mret (AP_FILTER_ERROR, [])
      else m) Q w.
Proof.
  intros H Hp Ht HQ Hm. act_step. eapply run_get_ctx; [exact H|].
  destruct (headers_delayed x) eqn:Hh; [|done]. act_step. eapply discard_running; [exact H|done|].
  intros w1 y H1 Hy. eapply die_halted; [exact H1|done|by rewrite Hy|done].
Qed.

Lemma fail_closed_response_running w q x p rf (Q : result → world X → Prop) :
  running w q x p rf → alive p = true → (∀ a w', halted w' → Q a w') →
  wp (coraza_fail_closed_response f r c) Q w.
Proof.
  intros H Hp HQ. unfold coraza_fail_closed_response. act_step.
  eapply step_out_running; [exact H|done|]. intros w1 H1. act_step.
  eapply run_upd_req; [exact H1|done|]. intros w2 H2.
  eapply cut_halted; [exact H2|done|done|done|]. apply wp_ret, HQ. by do 4 eexists.
Qed.

Lemma fail_closed_headers_running w q x p rf (Q : result → world X → Prop) :
  running w q x p rf → alive p = true → (∀ a w', halted w' → Q a w') →
  wp (coraza_fail_closed_headers f r c) Q w.
Proof.
  intros H Hp HQ. unfold coraza_fail_closed_headers. act_step.
  eapply step_out_running; [exact H|done|]. intros w1 H1. eapply die_halted; [exact H1|done|done|done].
Qed.

Lemma drop_response_running w q x p rf (Q : result → world X → Prop) :
  running w q x p rf → alive p = true → (∀ a w', halted w' → Q a w') →
  wp (coraza_drop_response f r c) Q w.
Proof.
  intros H Hp HQ. unfold coraza_drop_response. act_step.
  eapply step_out_running; [exact H|done|]. intros w1 H1. act_step.
  eapply run_get_ctx; [exact H1|]. act_step.
  eapply (wp_mono _ (λ _ w2, ∃ y, running w2 q y p rf ∧ intervention_triggered y = true)).
  { apply wp_when; intros Hh; [|by eexists]. eapply discard_running; [exact H1|done|].
    intros w2 y H2 Hy. by exists y. }
  intros [] w2 (y & H2 & Hy). act_step. eapply drop_connection_wp; [exact H2|].
  intros w3 q3 H3. apply wp_ret, HQ. by do 4 eexists.
Qed.

(** A refusal that can start from any state of a denied transaction. *)
Definition halts (deny : Z → M (world X) result) : Prop :=
  ∀ s w q x p, running w q x p true → alive p = true → wp (deny s) (λ _ w', halted w') w.

Lemma deny_headers_halts : halts (deny_headers f r c).
Proof.
  intros s w q x p H Hp. unfold deny_headers. act_step. eapply run_get_ctx; [exact H|].
  destruct (drop_connection x); [by eapply drop_response_running|]. act_step.
  eapply step_out_running; [exact H|done|]. intros w1 H1. eapply die_halted; [exact H1|done|done|done].
Qed.

Lemma deny_body_halts : halts (deny_body f r c).
Proof.
  intros s w q x p H Hp. unfold deny_body. act_step. eapply run_get_ctx; [exact H|].
  destruct (drop_connection x); [by eapply drop_response_running|]. act_step.
  eapply step_out_running; [exact H|done|]. intros w1 H1.
  eapply cut_halted; [exact H1|done|done|done|]. act_step.
  eapply run_upd_req; [exact H1|done|]. intros w2 H2. apply wp_ret. by do 4 eexists.
Qed.

Lemma poll_response_running deny w q x p (Q : option result → world X → Prop) :
  halts deny → running w q x p false → in_progress p = true →
  (∀ w', running w' q x p false → Q None w') → (∀ a w', halted w' → Q (Some a) w') →
  wp (poll_response r c deny) Q w.
Proof.
  intros Hdeny H Hp HN HS. unfold poll_response. act_step. eapply run_get_ctx; [exact H|]. act_step.
  eapply intervention_running_wp; [exact H|done|done| |].
  - intros w1 H1. rewrite bool_decide_eq_false_2 by (unfold OK; lia). by apply wp_ret, HN.
  - intros s w1 q1 y p1 Hs H1 Hp1. rewrite bool_decide_eq_true_2 by lia. act_step.
    eapply wp_mono; [by eapply Hdeny|]. intros a w2 H2. by apply wp_ret, HS.
Qed.

(** ** Phase 3 *)
Hypothesis palloc_size : ∀ n, 0 ≤ n → Z.of_nat (length (apr_palloc n)) = n.

(** The response headers are being handed over. *)
Definition before_headers (p : phase) : Prop := p = BodyIn ∨ p = BodyRead ∨ p = HeadersOut.
Definition offering q x w : Prop := ∃ p, running w q x p false ∧ before_headers p.

Lemma before_headers_alive p : before_headers p → alive p = true.
Proof. by intros [->|[->| ->]]. Qed.

Lemma submit_headers_running q x w (Q : bool → world X → Prop) :
  offering q x w → response_ok q → (∀ w', offering q x w' → Q true w') →
  (∀ w' p rf, running w' q x p rf → alive p = true → Q false w') → wp (submit_headers r c) Q w.
Proof.
  intros Hof Hok HT HF. unfold submit_headers. destruct Hof as (p0 & H & Hp0).
  act_step. eapply run_get_req; [exact H|]. act_step. eapply run_get_ctx; [exact H|].
  assert (Hstep : ∀ p k, before_headers p →
     (∃ a b d, k = AddResponseHeaders (transaction x) a b d) ∨
     (∃ a b d e, k = AddResponseHeader (transaction x) a b d e) →
     next_phase k p = Some HeadersOut ∧ tx_of k = Some (transaction x) ∧ permitted false k = true).
  { intros p k [->|[->| ->]] [(a & b & d & ->)|(a & b & d & e & ->)]; done. }
  apply (submit_keeps palloc_size (offering q x) (λ w, ∃ p rf, running w q x p rf ∧ alive p = true)).
  - intros w1 l m (p & H1 & Hp). exists p. split; [by apply running_idle|done].
  - intros w1 l m (p & rf & H1 & Hp). exists p, rf. split; [by apply running_idle|done].
  - intros w1 (p & H1 & Hp). exists p, false. split; [done|by apply before_headers_alive].
  - intros pk l k R w1 (p & H1 & Hp) HR.
    destruct (Hstep p (AddResponseHeaders (transaction x) pk l k) Hp) as (Hn & Ht & Hpm); [eauto|].
    eapply (tx_call_wp n ch c r false _ _ _ _ _ (AddResponseHeaders _ _ _ _)); [exact H1|done|done|exact Hn|done|].
    intros ret w2 H2. apply HR. exists HeadersOut. split; [exact H2|by right; right].
  - intros hp R w1 (p & H1 & Hp) H0 Hrc.
    destruct (Hstep p (AddResponseHeader (transaction x) (hp_name hp) (name_len hp) (hp_value hp)
      (value_len hp)) Hp) as (Hn & Ht & Hpm); [eauto 10|].
    eapply (tx_call_wp n ch c r false _ _ _ _ _ (AddResponseHeader _ _ _ _ _)); [exact H1|done|done|exact Hn|done|].
    intros ret w2 H2. simpl in H2. unfold CORAZA_CALL_FAILED in H2.
    destruct (decide (ret = 0)) as [->|Hne]; [|apply Hrc; [done|by eauto]].
    apply H0. exists HeadersOut. split; [exact H2|by right; right].
  - by apply response_pairs_wf.
  - by exists p0.
  - done.
  - intros w1 (p & rf & H1 & Hp). by eapply HF.
Qed.

Lemma is_processable_running q x w (Q : bool → world X → Prop) :
  running w q x BodyOut false → (∀ b w', running w' q x BodyOut false → Q b w') →
  wp (is_processable (transaction x)) Q w.
Proof.
  intros H HQ. unfold is_processable. act_step.
  eapply (tx_call_wp n ch c r false _ _ _ _ _ (IsResponseBodyAccessible _)); [exact H|done..|].
  intros a w1 H1. case_goal as Ha; [by apply wp_ret, HQ|]. act_step.
  eapply (tx_call_wp n ch c r false _ _ _ _ _ (IsResponseBodyProcessable _)); [exact H1|done..|].
  intros b w2 H2. by apply wp_ret, HQ.
Qed.

Lemma pass_running bb w q x p rf (Q : result → world X → Prop) :
  running w q x p rf → (∀ a w', running w' q x p rf → Q a w') → wp (pass_to_next bb) Q w.
Proof.
  intros H HQ. unfold pass_to_next. act_step. eapply run_emit; [exact H|done|done|]. intros w1 H1.
  by eapply run_outside.
Qed.

(** Leaving the chain and passing the brigade on. *)
Lemma leave_running bb w q x p rf (Q : result → world X → Prop) :
  running w q x p rf → (∀ a w', running w' q x p rf → Q a w') →
  wp (emit (EvRemoveOutputFilter f) ;; pass_to_next bb) Q w.
Proof.
  intros H HQ. act_step. eapply run_emit; [exact H|done|done|]. intros w1 H1. by eapply pass_running.
Qed.

(** The response body is being inspected, or was. *)
Definition in_body (x : coraza_request_ctx_t) (p : phase) : Prop :=
  (p = BodyOut ∨ p = BodyEnded) ∧ phase3_done x = true ∧ intervention_triggered x = false.
Lemma in_body_resting w q x p : running w q x p false → in_body x p → resting w.
Proof.
  intros H (Hp & H3 & Ht). exists q, x, p, false. split; [done|]. split; [by destruct Hp as [->| ->]|].
  by rewrite H3.
Qed.
Lemma in_body_progress x p : in_body x p → in_progress p = true.
Proof. by intros ([->| ->] & _). Qed.

Lemma finish_uninspected_running bb w q x p (Q : result → world X → Prop) :
  running w q x p false → in_body x p → (∀ a w', resting w' → Q a w') →
  wp (finish_uninspected f r c bb) Q w.
Proof.
  intros H Hb HQ. assert (HS : ∀ a w', halted w' → Q a w') by (intros; by apply HQ, halted_resting).
  unfold finish_uninspected. act_step. eapply run_get_ctx; [exact H|]. act_step.
  eapply (tx_call_wp n ch c r false _ _ _ _ _ (ProcessResponseBody _) BodyEnded);
    [exact H|done|done|by destruct Hb as ([->| ->] & _)|done|].
  intros ret w1 H1. simpl in H1. destruct (coraza_process_failed ret).
  { by eapply fail_closed_headers_running. }
  act_step. eapply run_upd_ctx; [exact H1|done|apply H1|done|]. intros w2 H2. act_step.
  eapply poll_response_running; [apply deny_headers_halts|exact H2|done| |exact HS].
  intros w3 H3. eapply leave_running; [exact H3|]. intros a w4 H4. apply HQ.
  eapply in_body_resting; [exact H4|]. destruct Hb as (_ & ? & ?). split; [by right|done].
Qed.

Lemma start_delay_running w q x (Q : unit → world X → Prop) :
  running w q x BodyOut false → in_body x BodyOut →
  (∀ w' y, running w' q y BodyOut false → in_body y BodyOut → Q tt w') → wp (start_delay r c) Q w.
Proof.
  intros H Hb HQ. unfold start_delay. act_step. eapply run_get_req; [exact H|].
  destruct (_ || _); [apply wp_ret; by eapply HQ|]. act_step.
  eapply run_upd_ctx; [exact H|done| |done|]. { intros Hh. by eexists. }
  intros w1 H1. eapply run_upd_ctx; [exact H1|done| |done|]. { intros Hh. by eexists. }
  intros w2 H2. by eapply HQ.
Qed.

Lemma phase3_running bb w q x p (Q : option result → world X → Prop) :
  running w q x p false → p = BodyIn ∨ p = BodyRead → intervention_triggered x = false →
  response_ok q → (∀ a w', resting w' → Q (Some a) w') →
  (∀ w' y, running w' q y BodyOut false → in_body y BodyOut → Q None w') →
  wp (phase3 f r c bb) Q w.
Proof.
  intros H Hp Ht Hok HS HN. assert (HH : ∀ a w', halted w' → Q (Some a) w')
    by (intros; by apply HS, halted_resting).
  unfold phase3. act_step. eapply run_upd_ctx; [exact H|done|apply H|done|]. intros w1 H1. act_step.
  eapply submit_headers_running; [|done| |].
  { exists p. split; [exact H1|]. destruct Hp as [->| ->]; [by left|by right; left]. }
  2: { intros w2 p2 rf2 H2 Hp2. simpl. act_step.
       eapply fail_closed_headers_running; [exact H2|done|]. intros a w3 H3. by apply wp_ret, HH. }
  intros w2 (p2 & H2 & Hp2). simpl. act_step. eapply run_get_req; [exact H2|]. act_step.
  eapply run_get_ctx; [exact H2|]. act_step.
  eapply (tx_call_wp n ch c r false _ _ _ _ _ (ProcessResponseHeaders _ _ _) BodyOut);
    [exact H2|done|done|by destruct Hp2 as [->|[->| ->]]|done|].
  intros ret w3 H3. simpl in H3. destruct (coraza_process_failed ret).
  { act_step. eapply run_emit; [exact H3|done|done|]. intros w4 H4. act_step.
    eapply fail_closed_headers_running; [exact H4|done|]. intros a w5 H5. by apply wp_ret, HH. }
  act_step. eapply is_processable_running; [exact H3|]. intros b w4 H4. act_step.
  eapply run_upd_ctx; [exact H4|done|apply H4|done|]. intros w5 H5. act_step.
  set (x1 := set_response_body_processable _ _) in *.
  assert (in_body x1 BodyOut) as Hin by (by split; [left|]).
  eapply (poll_response_running _ _ _ x1); [apply deny_headers_halts|exact H5|done| |].
  2: { intros a w6 H6. by apply wp_ret, HH. }
  intros w6 H6. destruct b; simpl.
  2: { act_step. eapply finish_uninspected_running; [exact H6|exact Hin|]. intros a w7 H7. by apply wp_ret, HS. }
  destruct (coraza_is_sse_response q).
  - act_step. eapply run_emit; [exact H6|done|done|]. intros w7 H7. act_step.
    eapply pass_running; [exact H7|]. intros a w8 H8. apply wp_ret, HS.
    by eapply in_body_resting.
  - act_step. eapply start_delay_running; [exact H6|exact Hin|]. intros w7 y H7 Hy.
    apply wp_ret. by eapply HN.
Qed.

(** ** Phase 4 *)

(** A response body in progress. *)
Definition streaming w : Prop := ∃ q x p, running w q x p false ∧ in_body x p.
Lemma streaming_resting w : streaming w → resting w.
Proof. intros (q & x & p & H & Hb). by eapply in_body_resting. Qed.

Lemma prepend_running bb w q x p rf b (Q : brigade → world X → Prop) :
  running w q x p rf → pending_brigade x = Some b → headers_delayed x = false →
  (∀ bb' w', running w' q (set_pending_brigade (λ _, Some []) x) p rf → Q bb' w') →
  wp (prepend_pending c bb) Q w.
Proof.
  intros H Hb Hh HQ. unfold prepend_pending. act_step. eapply run_get_ctx; [exact H|]. rewrite Hb.
  act_step. eapply run_upd_ctx; [exact H|done|intros ?; by eexists|done|]. intros w1 H1. by apply wp_ret, HQ.
Qed.

Lemma bound_delay_running bb len w (Q : option result → world X → Prop) :
  streaming w → (∀ w', streaming w' → Q None w') → (∀ a w', resting w' → Q (Some a) w') →
  wp (bound_delay f c bb len) Q w.
Proof.
  intros (q & x & p & H & Hb) HN HS. unfold bound_delay. act_step. eapply run_get_ctx; [exact H|].
  destruct (headers_delayed x && _) eqn:E; [|apply wp_ret, HN; by exists q, x, p].
  apply andb_true_iff in E as [Hh _]. destruct (ru_hold _ _ _ _ _ _ _ _ _ _ H Hh) as [b Hpb]. act_step.
  eapply run_upd_ctx; [exact H|done|by intros _; exists b|done|]. intros w1 H1. act_step.
  eapply run_get_ctx; [exact H1|]. case_goal as Hover; [|by apply wp_ret, HN; do 3 eexists].
  act_step. eapply run_emit; [exact H1|done|done|]. intros w2 H2. act_step.
  eapply run_upd_ctx; [exact H2|done|done|done|]. intros w3 H3. act_step.
  eapply run_emit; [exact H3|done|done|]. intros w4 H4. act_step.
  eapply prepend_running; [exact H4|exact Hpb|done|]. intros all w5 H5. act_step.
  eapply run_upd_ctx; [exact H5|done|done|done|]. intros w6 H6. act_step.
  eapply pass_running; [exact H6|]. intros a w7 H7. apply wp_ret, HS. by eapply in_body_resting.
Qed.

Lemma inspect_data_running data w (Q : option result → world X → Prop) :
  streaming w → (∀ w', streaming w' → Q None w') → (∀ a w', resting w' → Q (Some a) w') →
  wp (inspect_data f r c data) Q w.
Proof.
  intros (q & x & p & H & Hb) HN HS. unfold inspect_data. cbv zeta.
  assert (HH : ∀ a w', halted w' → Q (Some a) w') by (intros; by apply HS, halted_resting).
  act_step. eapply run_get_ctx; [exact H|]. destruct (_ && _); [|apply wp_ret, HN; by exists q, x, p].
  case_goal as Hbig.
  { act_step. eapply run_emit; [exact H|done|done|]. intros w1 H1. act_step.
    eapply fail_closed_response_running; [exact H1|destruct Hb as ([->| ->] & _); done|].
    intros a w2 H2. by apply wp_ret, HH. }
  act_step. eapply (tx_call_wp n ch c r false _ _ _ _ _ (AppendResponseBody _ _ _) p);
    [exact H|done|done|by destruct Hb as ([->| ->] & _)|by destruct Hb as ([->| ->] & _)|].
  intros ret w1 H1. simpl in H1. destruct (CORAZA_CALL_FAILED ret).
  - act_step. eapply fail_closed_response_running; [exact H1|by destruct Hb as ([->| ->] & _)|].
    intros a w2 H2. by apply wp_ret, HH.
  - eapply poll_response_running; [apply deny_body_halts|exact H1|by eapply in_body_progress| |exact HH].
    intros w2 H2. apply HN. by exists q, x, p.
Qed.

Lemma body_loop_running bb (Q : result + bool → world X → Prop) :
  (∀ e w', streaming w' → Q (inr e) w') → (∀ a w', resting w' → Q (inl a) w') →
  ∀ rest eos w, streaming w → wp (body_loop f r c bb rest eos) Q w.
Proof.
  intros HN HS. induction rest as [|[k d|rv| |k] rest IH]; intros eos w Hst; cbn [body_loop].
  - by apply wp_ret, HN.
  - act_step. apply bound_delay_running; [done| |intros a w1 H1; by apply wp_ret, HS].
    intros w1 H1. act_step. apply inspect_data_running; [done| |intros a w2 H2; by apply wp_ret, HS].
    intros w2 H2. by apply IH.
  - destruct Hst as (q & x & p & H & Hb). act_step. eapply run_emit; [exact H|done|done|].
    intros w1 H1. act_step.
    eapply fail_closed_response_running; [exact H1|by destruct Hb as ([->| ->] & _)|].
    intros a w2 H2. apply wp_ret, HS. by apply halted_resting.
  - by apply IH.
  - by apply IH.
Qed.

Lemma end_of_body_running bb w (Q : result → world X → Prop) :
  streaming w → (∀ a w', resting w' → Q a w') → wp (end_of_body f r c bb) Q w.
Proof.
  intros (q & x & p & H & Hb) HQ.
  assert (HS : ∀ a w', halted w' → Q a w') by (intros; by apply HQ, halted_resting).
  unfold end_of_body. act_step. eapply run_get_ctx; [exact H|]. act_step.
  eapply (tx_call_wp n ch c r false _ _ _ _ _ (ProcessResponseBody _) BodyEnded);
    [exact H|done|done|by destruct Hb as ([->| ->] & _)|done|].
  intros ret w1 H1. simpl in H1. destruct (coraza_process_failed ret).
  { by eapply fail_closed_response_running. }
  act_step. eapply poll_response_running; [|exact H1|done| |exact HS].
  { intros s w2 q2 y p2 H2 Hp2. act_step. eapply run_upd_ctx; [exact H2|done|apply H2|done|].
    intros w3 H3. by eapply deny_body_halts. }
  intros w2 H2. act_step. eapply run_upd_ctx; [exact H2|done|apply H2|done|]. intros w3 H3. act_step.
  eapply run_get_ctx; [exact H3|]. act_step.
  eapply (wp_mono _ (λ _ w4, ∃ y, running w4 q y BodyEnded false ∧ in_body y BodyEnded)).
  { destruct Hb as (_ & H3' & Ht).
    destruct (headers_delayed _) eqn:Hh; [|apply wp_ret; eexists; split; [exact H3|split; [by right|done]]].
    destruct (ru_hold _ _ _ _ _ _ _ _ _ _ H3 Hh) as [b Hpb]. act_step.
    eapply run_upd_ctx; [exact H3|done|done|done|]. intros w4 H4.
    eapply prepend_running; [exact H4|exact Hpb|done|]. intros bb' w5 H5. eexists.
    split; [exact H5|split; [by right|done]]. }
  intros bb' w4 (y & H4 & Hy). eapply leave_running; [exact H4|]. intros a w5 H5.
  apply HQ. by eapply in_body_resting.
Qed.

Lemma hold_or_pass_running bb w (Q : result → world X → Prop) :
  streaming w → (∀ a w', resting w' → Q a w') → wp (hold_or_pass f r c bb) Q w.
Proof.
  intros (q & x & p & H & Hb) HQ. unfold hold_or_pass. act_step. eapply run_get_ctx; [exact H|].
  destruct (headers_delayed x) eqn:Hh.
  - act_step. eapply run_outside; [exact H|]. intros [rv [pending bb']] w1 H1. act_step.
    eapply run_upd_ctx; [exact H1|done|intros ?; by eexists|done|]. intros w2 H2. case_goal as Hrv.
    + act_step. eapply run_emit; [exact H2|done|done|]. intros w3 H3.
      eapply fail_closed_response_running; [exact H3|by destruct Hb as ([->| ->] & _)|].
      intros a w4 H4. by apply HQ, halted_resting.
    + apply wp_ret, HQ. by eapply in_body_resting.
  - eapply pass_running; [exact H|]. intros a w1 H1. apply HQ. by eapply in_body_resting.
Qed.

Lemma phase4_running bb w (Q : result → world X → Prop) :
  streaming w → (∀ a w', resting w' → Q a w') → wp (phase4 f r c bb) Q w.
Proof.
  intros H HQ. unfold phase4. act_step. apply body_loop_running; [| |exact H].
  - intros [] w1 H1; [by apply end_of_body_running|by apply hold_or_pass_running].
  - intros a w1 H1. by apply wp_ret, HQ.
Qed.

Lemma output_filter_running bb w q x p rf (Q : result → world X → Prop) :
  f_ctx f = Some c → f_r f = r → running w q x p rf → settled x p rf → response_ok q →
  (∀ a w', resting w' → Q a w') → wp (coraza_output_filter f bb) Q w.
Proof.
  intros Hc Hr H [Hp Hs] Hok HQ. unfold coraza_output_filter. rewrite Hc, Hr. act_step. act_step.
  eapply run_get_ctx; [exact H|]. apply wp_ret. destruct (intervention_triggered x) eqn:Ht.
  { eapply leave_running; [exact H|]. intros a w1 H1. apply HQ, halted_resting. by do 4 eexists. }
  destruct (Hs eq_refl) as [-> Hph]. act_step. eapply run_get_ctx; [exact H|]. act_step.
  destruct (phase3_done x) eqn:H3.
  - apply wp_ret. apply phase4_running; [by exists q, x, p|done].
  - eapply phase3_running; [exact H|exact Hph|done|done|exact HQ|]. intros w1 y H1 Hy.
    apply phase4_running; [by exists q, y, BodyOut|done].
Qed.
End output.
