(* ===== verification/LifecycleFacts.v ===== *)
(** * The life of a client request: proofs

    Whatever httpd does, in whatever order it may do it: no handler is
    undefined, and the calls to libcoraza keep the protocol. *)
From S2P Require Import Prelude RulesScan Types World DynLib DynLibFacts Intervention InterventionFacts Config Waf WafFacts Headers HeadersFacts Phase1 Phase1Facts BodyIn FilterOut FilterOutFacts Hooks Protocol Lifecycle Discipline LazyBuild DisciplineRequest DisciplineResponse Sim.
Local Open Scope Z_scope.

(** ** Moving between requests and growing the chain *)
Section moves.
Context {X : Type}.
Implicit Types w : world X.
Variables (n : nat) (ch : list nat).

(** The same state seen from another request of the transaction. *)
Lemma running_move c r0 r q0 q x p rf w :
  running n ch c r0 false w q0 x p rf → reqs w !! r = Some q → r_ctx q = Some c →
  running n ch c r false w q x p rf.
Proof. intros [] Hq Hc. by constructor. Qed.

Lemma prev_path_add w r q p l :
  reqs w !! r = None → prev_path w p l → prev_path (set_reqs (λ m, <[r := q]> m) w) p l.
Proof.
  intros Hr. induction 1 as [|p0 q0 l Hq0 _ IH]; [constructor|].
  apply path_step with q0; [|done]. simpl. rewrite lookup_insert_ne; [done|]. intros ->. congruence.
Qed.

(** A new record: of a subrequest ([ch' = ch]), or of a redirect. *)
Lemma household_add oc w r q ch' :
  household n ch oc w → reqs w !! r = None → request_valid w q →
  ch' = ch ∨ ch' = r :: ch ∧ r_main q = false ∧ r_prev q = head ch ∧ r_ctx q = None →
  household n ch' oc (set_reqs (λ m, <[r := q]> m) w).
Proof.
  intros [] Hr Hv Hch.
  assert (Hold : ∀ r0 q0, reqs w !! r0 = Some q0 →
    reqs (set_reqs (λ m, <[r := q]> m) w) !! r0 = Some q0).
  { intros r0 q0 H0. simpl. rewrite lookup_insert_ne; [done|]. intros ->. congruence. }
  assert (Hsub : ∀ y, y ∈ ch → y ∈ ch') by (destruct Hch as [->|(-> & _)]; [done|by right]).
  assert (Hnew : ∀ r0 q0, r0 ∈ ch' → reqs (set_reqs (λ m, <[r := q]> m) w) !! r0 = Some q0 →
    (r0 = r ∧ q0 = q ∧ (r ∈ ch ∨ ch' = r :: ch ∧ r_main q = false ∧ r_prev q = head ch ∧ r_ctx q = None))
    ∨ r0 ≠ r ∧ r0 ∈ ch ∧ reqs w !! r0 = Some q0).
  { intros r0 q0 Hin. simpl. destruct (decide (r0 = r)) as [->|Hne].
    - rewrite lookup_insert_eq. intros [= <-]. left. split_and!; [done|done|].
      destruct Hch as [->|Hch]; [by left|by right].
    - rewrite lookup_insert_ne by done. right. split_and!; [done| |done].
      destruct Hch as [->|(-> & _)]; [done|]. by apply elem_of_cons in Hin as [->|]. }
  assert (Hfresh : r ∉ ch).
  { clear -hh_path Hr. induction hh_path as [|p0 q0 l Hq0 _ IH]; [apply not_elem_of_nil|].
    apply not_elem_of_cons. split; [congruence|done]. }
  constructor; try done.
  - destruct hh_sane. by constructor.
  - intros r0 q0. simpl. destruct (decide (r = r0)) as [->|Hne].
    + rewrite lookup_insert_eq. by intros [= <-].
    + rewrite lookup_insert_ne by done. apply hh_valid.
  - destruct Hch as [->|(-> & _ & Hp & _)]; [by apply prev_path_add|].
    apply path_step with q; [apply lookup_insert_eq|]. rewrite Hp. by apply prev_path_add.
  - intros r0 q0 Hin [(-> & -> & [?|(_ & Hm & _)])|(_ & H1 & H2)]%Hnew; [done|done| |done].
    by eapply hh_main.
  - intros r0 q0 c0 Hin [(-> & -> & [?|(_ & _ & _ & Hc)])|(_ & H1 & H2)]%Hnew; [done| | |done].
    + intros E. congruence.
    + by eapply hh_owner.
  - intros c0 Hc0. destruct (hh_some c0 Hc0) as (r0 & q0 & Hin & H0 & Hc1).
    exists r0, q0. auto.
  - intros c0 r0 (Hc0 & q0 & H0 & Hc1)%hh_out. split; [done|]. exists q0. auto.
Qed.

Lemma running_add c r0 q0 x p rf w r q ch' :
  running n ch c r0 false w q0 x p rf → reqs w !! r = None → request_valid w q →
  ch' = ch ∨ ch' = r :: ch ∧ r_main q = false ∧ r_prev q = head ch ∧ r_ctx q = None →
  running n ch' c r0 false (set_reqs (λ m, <[r := q]> m) w) q0 x p rf.
Proof.
  intros [] Hr Hv Hch. constructor; try done; [by eapply household_add|].
  simpl. rewrite lookup_insert_ne; [done|]. intros ->. congruence.
Qed.

(** Another module changes a record. *)
Lemma running_set c r0 q0 x p rf w r q q' :
  running n ch c r0 false w q0 x p rf → reqs w !! r = Some q → same_request q q' → request_valid w q' →
  ∃ q1, running n ch c r0 false (set_reqs (λ m, <[r := q']> m) w) q1 x p rf.
Proof.
  intros [] Hq Hs Hv. destruct (decide (r = r0)) as [->|Hne].
  - exists q'. constructor; try done; [by eapply household_reqs|apply lookup_insert_eq|].
    rewrite Hq in ru_req. injection ru_req as ->. by rewrite (proj2 (proj2 Hs)).
  - exists q0. constructor; try done; [by eapply household_reqs|].
    simpl. by rewrite lookup_insert_ne.
Qed.

(** The configuration gained records. *)
Lemma running_cfg c r0 q0 x p rf w f :
  running n ch c r0 false w q0 x p rf → cfg_grows (cfg w) (f (cfg w)) →
  running n ch c r0 false (set_cfg f w) q0 x p rf.
Proof.
  intros [] Hg. constructor; try done.
  eapply (household_frame _ _ _ _ _ []); try done; [apply ru_house|by rewrite app_nil_r].
Qed.
Lemma unopened_cfg w f : unopened n ch w → cfg_grows (cfg w) (f (cfg w)) → unopened n ch (set_cfg f w).
Proof.
  intros [H Hp] Hg. split; [|done].
  eapply (household_frame _ _ _ _ _ []); try done; [apply H|by rewrite app_nil_r].
Qed.
End moves.

(** ** Merging sections for a request *)
Section merging.
Context {X : Type} `{Files0 : !ConfigFiles, Strings0 : !AprStrings}.
Implicit Types w : world X.

(** Only the configuration changed, and it only gained records. *)
Definition regrown w w' : Prop := ∃ g, w' = set_cfg (λ _, g) w ∧ cfg_grows (cfg w) g.

Lemma regrown_refl w : regrown w w.
Proof. exists (cfg w). split; [by destruct w|done]. Qed.
Lemma regrown_trans w1 w2 w3 : regrown w1 w2 → regrown w2 w3 → regrown w1 w3.
Proof.
  intros (g1 & -> & H1) (g2 & -> & H2). exists g2. split; [done|]. by transitivity g1.
Qed.
Lemma regrown_cfg w w' : regrown w w' → cfg_grows (cfg w) (cfg w').
Proof. by intros (g & -> & H). Qed.

Lemma grows_array g a l : arrays g !! a = None → cfg_grows g (set_arrays (λ m, <[a := l]> m) g).
Proof.
  intros Ha.
  assert (Hs : ∀ a0, is_Some (arrays g !! a0) → is_Some (<[a := l]> (arrays g) !! a0)).
  { intros a0 H0. rewrite lookup_insert_ne; [done|]. intros <-. rewrite Ha in H0. by destruct H0. }
  constructor; try done. intros []. constructor; try done. intros d dcf Hd. eapply Hs, co_rules, Hd.
Qed.

Lemma grows_dir g d x :
  dir_confs g !! d = None → is_Some (arrays g !! rules x) →
  (∀ m, merge_child x = Some m → is_Some (dir_confs g !! m)) →
  cfg_grows g (set_dir_confs (λ m, <[d := x]> m) g).
Proof.
  intros Hd Hr Hc.
  assert (Hs : ∀ d0, is_Some (dir_confs g !! d0) → is_Some (<[d := x]> (dir_confs g) !! d0)).
  { intros d0 H0. rewrite lookup_insert_ne; [done|]. intros <-. rewrite Hd in H0. by destruct H0. }
  constructor; try done. intros []. constructor; [| |done].
  - intros d0 x0. simpl. destruct (decide (d = d0)) as [->|Hne].
    + rewrite lookup_insert_eq. by intros [= <-].
    + rewrite lookup_insert_ne by done. apply co_rules.
  - intros d0 x0 m. simpl. destruct (decide (d = d0)) as [->|Hne].
    + rewrite lookup_insert_eq. intros [= <-] Hm. by apply Hs, Hc.
    + rewrite lookup_insert_ne by done. intros H0 Hm. by eapply Hs, co_child.
Qed.

Lemma new_array_regrown l (Q : nat → world X → Prop) w :
  (∀ a w', regrown w w' → arrays (cfg w') !! a = Some l → Q a w') → wp (new_array l) Q w.
Proof.
  intros HQ. unfold new_array. do 3 act_step. act_step. apply wp_ret, HQ; [|apply lookup_insert_eq].
  eexists. split; [|apply grows_array, next_key_fresh]. done.
Qed.

Lemma merge_regrown p d (Q : nat → world X → Prop) w :
  cfg_ok (cfg w) → is_Some (dir_confs (cfg w) !! p) → is_Some (dir_confs (cfg w) !! d) →
  (∀ a w', regrown w w' → Q a w') → wp (coraza_merge_dir_conf p d) Q w.
Proof.
  intros Hok [x Hx] [y Hy] HQ. unfold coraza_merge_dir_conf.
  destruct (co_rules _ Hok p x Hx) as [lx Hlx], (co_rules _ Hok d y Hy) as [ly Hly].
  do 8 act_step. act_step.
  eapply (wp_mono _ (λ m w1, regrown w w1 ∧ is_Some (arrays (cfg w1) !! rules m)
    ∧ (merge_child m = None ∨ merge_child m = Some d))).
  { assert (Hnew : ∀ l (k : nat → coraza_dir_conf_t), (∀ a, rules (k a) = a) →
      (∀ a, merge_child (k a) = None ∨ merge_child (k a) = Some d) →
      wp (a ← new_array l; mret (k a)) (λ m w1, regrown w w1 ∧ is_Some (arrays (cfg w1) !! rules m)
         ∧ (merge_child m = None ∨ merge_child m = Some d)) w).
    { intros l k Hk1 Hk2. act_step. apply new_array_regrown. intros a w1 H1 Ha. apply wp_ret.
      rewrite Hk1, Ha. by split_and!. }
    destruct (bool_decide (lx ≠ [])), (bool_decide (ly ≠ [])).
    - apply Hnew; [done|by right].
    - apply wp_ret. simpl. rewrite Hlx. split_and!; [apply regrown_refl|done|by left].
    - apply wp_ret. simpl. rewrite Hly. split_and!; [apply regrown_refl|done|by left].
    - apply Hnew; [done|by left]. }
  intros m w1 (H1 & Hr & Hc). act_step. unfold new_dir_conf. do 3 act_step. act_step. apply wp_ret.
  act_step. apply wp_modify. apply wp_ret, HQ. eapply regrown_trans; [exact H1|].
  destruct w1 as [e1 t1 d1 g1 u1 r1 c1 n1]. simpl in *.
  pose proof (grows_dir g1 (next_key (dir_confs g1)) m (next_key_fresh _) Hr) as Hg.
  eexists. split; [reflexivity|]. simpl. etransitivity; [apply Hg|].
  - intros m' Hm'. destruct Hc as [E|E]; rewrite E in Hm'; [done|]. injection Hm' as <-.
    apply (cg_dirs _ _ (regrown_cfg _ _ H1)). by rewrite Hy.
  - constructor; try done. by intros [].
Qed.

Lemma unopened_regrown n ch w w' : regrown w w' → unopened n ch w → unopened n ch w'.
Proof. intros (g & -> & Hg) H. by apply (unopened_cfg n ch w (λ _, g)). Qed.
Lemma running_regrown n ch c r q x p rf w w' :
  regrown w w' → running n ch c r false w q x p rf → running n ch c r false w' q x p rf.
Proof. intros (g & -> & Hg) H. by apply (running_cfg n ch c r q x p rf w (λ _, g)). Qed.
Lemma sane_regrown w w' : regrown w w' → sane w → sane w'.
Proof. intros (g & -> & Hg) []. constructor; [done|done|]. by apply Hg. Qed.
End merging.

(** ** The invariant *)
Section invariant.
Context {X : Type} `{!Dynlib X, !Libcoraza X, !Httpd X, !Libc X, Pool0 : !Pool,
  Files0 : !ConfigFiles, Strings0 : !AprStrings, !DieLaws X}.
Implicit Types w : world X.
Hypothesis palloc_size : ∀ n, 0 ≤ n → Z.of_nat (length (apr_palloc n)) = n.

(** After the log hook: without a transaction, or with one that is not freed. *)
Definition winding_up n ch w : Prop :=
  unopened n ch w
  ∨ ∃ c r q x p rf, running n ch c r false w q x p rf ∧ alive p = true.

(** Between requests the last transaction, if there was one, is freed. *)
Definition quiescent (tr : list event) : Prop :=
  protocol tr = Some NoTx ∨ ∃ t rf, protocol tr = Some (Tx t Freed rf).

Definition life_inv (l : @life X) : Prop :=
  match l_stage l with
  | Idle => sane (l_world l) ∧ reqs (l_world l) = ∅ ∧ quiescent (request_log l)
  | Serving => l_requests l ≠ [] ∧ at_rest (l_start l) (l_requests l) (l_world l)
  | LoggedStage => l_requests l ≠ [] ∧ winding_up (l_start l) (l_requests l) (l_world l)
  end.

Lemma at_rest_winding_up n ch w : at_rest n ch w → winding_up n ch w.
Proof.
  intros [H|(c & r & q & x & p & rf & H & Hp & _)]; [by left|]. right. by do 6 eexists.
Qed.

(** The records of the current requests. *)
Lemma winding_up_household n ch w : winding_up n ch w → ∃ oc, household n ch oc w.
Proof. intros [[H _]|(c & r & q & x & p & rf & [] & _)]; eauto. Qed.
Lemma household_head n ch oc w :
  household n ch oc w → ch ≠ [] → ∃ r q, head ch = Some r ∧ reqs w !! r = Some q.
Proof.
  intros [] Hne. inversion hh_path as [Hh Hnil|p q l Hq Hl Hh Hl']; [by destruct ch|]. eauto.
Qed.
Lemma prev_path_member w p l r : prev_path w p l → r ∈ l → is_Some (reqs w !! r).
Proof.
  induction 1 as [|p q l Hq _ IH]; [by intros ?%not_elem_of_nil|].
  intros [->|Hr]%elem_of_cons; eauto.
Qed.

Lemma run_wp {A} (m : M (world X) A) (l : life) (P : life → Prop) :
  wp m (λ _ w', P (Life w' (l_start l) (l_requests l) (l_fixed l) (l_stage l))) (l_world l) →
  ∃ l', run m l = Some l' ∧ P l'.
Proof.
  intros (a & w' & E & H)%wp_det. unfold run. rewrite E. simpl. eauto.
Qed.

(** A quiet handler keeps everything. *)
Lemma at_rest_quietly n ch w w' : at_rest n ch w → quietly w w' → at_rest n ch w'.
Proof.
  intros [H|(c & r & q & x & p & rf & H & Hs)] Hq.
  - left. eapply unopened_resolved; [exact H|by apply quietly_resolved|].
    destruct Hq as (e & tr & -> & _). apply H.
  - right. exists c, r, q, x, p, rf. split; [|done]. destruct Hq as (e & tr & -> & Ht).
    destruct (Forall_quiet _ Ht) as [Hi Hp].
    eapply running_ext; [exact H|exact Hp|by apply steps_idle|by left].
Qed.

(** A call of a filter that inspects nothing. *)
Lemma input_aside n ch f bb mode block k w :
  f_ctx f = None → at_rest n ch w →
  wp (coraza_input_filter f bb mode block k) (λ _ w', at_rest n ch w') w.
Proof.
  intros Hf H. unfold coraza_input_filter, get_from_next. rewrite Hf. act_step. apply wp_ret.
  act_step. apply emit_quiet; [done|]. intros w1 H1. act_step. apply emit_quiet; [done|]. intros w2 H2.
  apply outside_quiet. intros a w3 H3. eauto using at_rest_quietly, quietly_trans.
Qed.
Lemma output_aside n ch f bb w :
  f_ctx f = None → at_rest n ch w → wp (coraza_output_filter f bb) (λ _ w', at_rest n ch w') w.
Proof.
  intros Hf H. unfold coraza_output_filter, pass_to_next. rewrite Hf. act_step. apply wp_ret.
  act_step. apply emit_quiet; [done|]. intros w1 H1. act_step. apply emit_quiet; [done|]. intros w2 H2.
  apply outside_quiet. intros a w3 H3. eauto using at_rest_quietly, quietly_trans.
Qed.

(** ** Each step *)
Lemma fixups_at_rest n ch r q w :
  at_rest n ch w → head ch = Some r → reqs w !! r = Some q → table_ok (r_headers_in q) →
  wp (coraza_post_read_request r) (λ _ w', at_rest n ch w') w.
Proof.
  intros [H|(c & r0 & H)] Hh Hq Htb.
  - by eapply fixups_unopened.
  - by eapply fixups_resting.
Qed.

Lemma read_at_rest n ch f bb mode block k w :
  at_rest n ch w → f_ctx f = None ∨ (∃ c, f_ctx f = Some c ∧ EvAddInputFilter c (f_r f) ∈ drop n (trace w)) →
  wp (coraza_input_filter f bb mode block k) (λ _ w', at_rest n ch w') w.
Proof.
  intros H [Hf|(c & Hf & Hin)]; [by apply input_aside|]. destruct H as [[H _]|(c0 & r & q & x & p & rf & H & Hs)].
  - by apply (hh_in _ _ _ _ H) in Hin.
  - pose proof (hh_in _ _ _ _ (ru_house _ _ _ _ _ _ _ _ _ _ H) _ _ Hin) as [= ->].
    eapply input_filter_kept; [exact Hs|by right|exact H|]. intros a w' H'. right. eauto.
Qed.

Lemma write_at_rest n ch f bb w :
  at_rest n ch w → f_ctx f = None ∨ (∃ c, f_ctx f = Some c ∧ EvAddOutputFilter c (f_r f) ∈ drop n (trace w)) →
  (∀ q, reqs w !! f_r f = Some q → response_ok q) →
  wp (coraza_output_filter f bb) (λ _ w', at_rest n ch w') w.
Proof.
  intros H [Hf|(c & Hf & Hin)] Hok; [by apply output_aside|].
  destruct H as [[H _]|(c0 & r & q & x & p & rf & H & Hs)].
  - by destruct (hh_out _ _ _ _ H _ _ Hin).
  - destruct (hh_out _ _ _ _ (ru_house _ _ _ _ _ _ _ _ _ _ H) _ _ Hin) as ([= ->] & q1 & Hq1 & Hc1).
    eapply output_filter_running; [exact palloc_size|exact Hf|done| |exact Hs|by apply Hok|].
    + eapply running_move; [exact H|exact Hq1|exact Hc1].
    + intros a w' H'. right. by exists c, (f_r f).
Qed.

Lemma log_winding_up n ch r w :
  at_rest n ch w → r ∈ ch → wp (coraza_log_transaction r) (λ _ w', winding_up n ch w') w.
Proof.
  intros Hrest Hin. destruct (winding_up_household _ _ _ (at_rest_winding_up _ _ _ Hrest)) as [oc Hh].
  destruct (prev_path_member _ _ _ _ (hh_path _ _ _ _ Hh) Hin) as [q Hq].
  destruct (r_ctx q) as [c|] eqn:Hc.
  - destruct Hrest as [[H _]|(c0 & r0 & q0 & x & p & rf & H & Hp & _)].
    { by pose proof (hh_owner _ _ _ _ H _ _ _ Hin Hq Hc). }
    pose proof (hh_owner _ _ _ _ (ru_house _ _ _ _ _ _ _ _ _ _ H) _ _ _ Hin Hq Hc) as [= ->].
    eapply log_running_wp; [eapply running_move; [exact H|exact Hq|exact Hc]|done|].
    intros w1 y p1 H1 Hp1 _ _. right. by do 6 eexists.
  - unfold coraza_log_transaction. act_step. eapply wp_get_req; [exact Hq|].
    assert (winding_up n ch w) as Hw by (by apply at_rest_winding_up).
    destruct (r_dir_conf q) as [d|] eqn:Hd; [|by apply wp_ret].
    destruct (hh_valid _ _ _ _ Hh r q Hq) as [Hdir _]. destruct (Hdir d Hd) as [dcf Hdcf].
    act_step. eapply wp_get_dir; [exact Hdcf|]. rewrite Hc. case_goal as He; by apply wp_ret.
Qed.

(** With Coraza on in its section, the log hook leaves the transaction logged. *)
Lemma log_logs n ch c r q x p rf w :
  running n ch c r false w q x p rf → alive p = true → section_on w q →
  wp (coraza_log_transaction r)
    (λ _ w', protocol (drop n (trace w')) = Some (Tx (transaction x) Logged rf)) w.
Proof.
  intros H Hp Hon. eapply log_running_wp; [exact H|exact Hp|]. intros w1 y p1 H1 _ Ht Hl.
  rewrite <- Ht, <- (Hl Hon). apply H1.
Qed.

(** The cleanup frees the transaction. *)
Lemma cleanup_running n ch c r false q x p rf w (Q : apr_status → world X → Prop) :
  running n ch c r false w q x p rf → alive p = true →
  (∀ a w', sane w' → protocol (drop n (trace w')) = Some (Tx (transaction x) Freed rf) → Q a w') →
  wp (coraza_cleanup_transaction c) Q w.
Proof.
  intros H Hp HQ. unfold coraza_cleanup_transaction. act_step. eapply run_get_ctx; [exact H|].
  rewrite bool_decide_eq_true_2 by apply H. act_step.
  eapply (wp_mono _ (λ _ w', sane w' ∧ protocol (drop n (trace w')) = Some (Tx (transaction x) Freed rf))).
  2: { intros [] w' [H1 H2]. by apply wp_ret, HQ. }
  unfold when. cbv iota. act_step.
  eapply (tx_call_wp n ch c r false _ _ _ _ _ (FreeTransaction _) Freed);
    [exact H|done|done|by destruct p|done|].
  intros ret w1 H1. eapply wp_upd_ctx; [apply H1|]. simpl in H1. rewrite orb_false_r in H1.
  split; [|apply H1]. destruct (hh_sane _ _ _ _ (ru_house _ _ _ _ _ _ _ _ _ _ H1)). by constructor.
Qed.

Lemma end_quiescent n ch w :
  winding_up n ch w →
  wp (run_cleanups (cleanups (drop n (trace w))) ;; destroy_pool)
    (λ _ w', sane w' ∧ reqs w' = ∅ ∧ quiescent (drop n (trace w'))) w.
Proof.
  intros H.
  assert (Hend : ∀ w1, sane w1 → quiescent (drop n (trace w1)) →
    wp destroy_pool (λ _ w', sane w' ∧ reqs w' = ∅ ∧ quiescent (drop n (trace w'))) w1).
  { intros w1 [] Hq. unfold destroy_pool. act_step. apply wp_modify, wp_modify. split_and!; [by constructor|done|done]. }
  act_step. destruct H as [[Hh Hp]|(c & r & q & x & p & rf & H & Hp)].
  - rewrite (hh_cleanup _ _ _ _ Hh). apply wp_ret, Hend; [apply Hh|by left].
  - rewrite (hh_cleanup _ _ _ _ (ru_house _ _ _ _ _ _ _ _ _ _ H)). simpl. act_step.
    eapply cleanup_running; [exact H|done|]. intros a w1 H1 H2. apply wp_ret, Hend; [done|].
    right. eauto.
Qed.

(** The end of a client request audits nothing. *)
Lemma end_logs_nothing n ch w :
  winding_up n ch w →
  wp (run_cleanups (cleanups (drop n (trace w))) ;; destroy_pool)
    (λ _ w', ∃ tr, trace w' = trace w ++ tr ∧ logged_by tr = []) w.
Proof.
  intros H. unfold destroy_pool. act_step. destruct H as [[Hh Hp]|(c & r & q & x & p & rf & H & Hp)].
  - rewrite (hh_cleanup _ _ _ _ Hh). apply wp_ret. act_step. apply wp_modify, wp_modify.
    exists []. simpl. by rewrite app_nil_r.
  - pose proof (ru_house _ _ _ _ _ _ _ _ _ _ H) as Hh.
    rewrite (hh_cleanup _ _ _ _ Hh). simpl. act_step.
    eapply cleanup_live_wp; [apply (hh_sane _ _ _ _ Hh)|apply H|apply H|].
    intros a e. apply wp_ret. act_step. apply wp_modify, wp_modify.
    exists [EvCall (FreeTransaction (transaction x)) a]. by split.
Qed.

(** The log hook does nothing on a request without a context. *)
Lemma log_without_context n ch oc r q w :
  household n ch oc w → reqs w !! r = Some q → r_ctx q = None →
  wp (coraza_log_transaction r) (λ _ w', w' = w) w.
Proof.
  intros Hh Hq Hc. apply log_transaction_wp with q; [apply (hh_sane _ _ _ _ Hh)|done| | |].
  - by apply (hh_valid _ _ _ _ Hh r).
  - intros c. congruence.
  - assert (log_due w q = None) as ->; [|done]. unfold log_due.
    destruct (r_dir_conf q) as [d|]; [|done]. simpl. destruct (dir_confs (cfg w) !! d); [|done].
    simpl. case_decide; [|done]. by rewrite Hc.
Qed.

(** ** Adding requests *)
Lemma at_rest_add n ch w r q ch' :
  at_rest n ch w → reqs w !! r = None → request_valid w q →
  ch' = ch ∨ ch' = r :: ch ∧ r_main q = false ∧ r_prev q = head ch ∧ r_ctx q = None →
  at_rest n ch' (set_reqs (λ m, <[r := q]> m) w).
Proof.
  intros [[H Hp]|(c & r0 & q0 & x & p & rf & H & Hs)] Hr Hv Hch.
  - left. split; [by eapply household_add|done].
  - right. exists c, r0, q0, x, p, rf. split; [by eapply running_add|done].
Qed.

Lemma accept_at_rest w q :
  sane w → reqs w = ∅ → r_main q = false → r_prev q = None → r_ctx q = None → request_valid w q →
  at_rest (length (trace w)) [next_key (reqs w)] (set_reqs (λ m, <[next_key (reqs w) := q]> m) w).
Proof.
  intros Hs Hrq Hm Hp Hc Hv. left. split; [|simpl; by rewrite drop_all].
  assert (Hlook : ∀ r0 q0, reqs (set_reqs (λ m, <[next_key (reqs w) := q]> m) w) !! r0 = Some q0 →
    r0 = next_key (reqs w) ∧ q0 = q).
  { intros r0 q0. simpl. rewrite Hrq, insert_empty. by intros [<- <-]%lookup_singleton_Some. }
  constructor; simpl; rewrite ?drop_all; try done.
  - destruct Hs. by constructor.
  - by intros r0 q0 [-> ->]%Hlook.
  - eapply path_step; [apply lookup_insert_eq|]. rewrite Hp. constructor.
  - by intros r0 q0 _ [-> ->]%Hlook.
  - intros r0 q0 c0 _ [-> ->]%Hlook. congruence.
  - by intros c r0 ?%not_elem_of_nil.
  - by intros c r0 ?%not_elem_of_nil.
Qed.

Lemma at_rest_set n ch w r q q' :
  at_rest n ch w → reqs w !! r = Some q → same_request q q' → request_valid w q' →
  at_rest n ch (set_reqs (λ m, <[r := q']> m) w).
Proof.
  intros [[H Hp]|(c & r0 & q0 & x & p & rf & H & Hs)] Hq Hsame Hv.
  - left. split; [by eapply household_reqs|done].
  - right. destruct (running_set _ _ _ _ _ _ _ _ _ _ _ q' H Hq Hsame Hv) as [q1 H1].
    by exists c, r0, q1, x, p, rf.
Qed.

(** ** One step *)

(** httpd's dispatch reaches the module's handlers. *)
Lemma run_fixups_wp r (Q : Z → world X → Prop) w :
  wp (coraza_post_read_request r) (λ rc w', Q (if bool_decide (rc = DECLINED) then OK else rc) w') w →
  wp (ap_run_fixups coraza_register_hooks r) Q w.
Proof.
  intros H. unfold ap_run_fixups. simpl. act_step. eapply wp_mono; [exact H|]. intros rc w'. cbv beta.
  unfold OK, DECLINED. repeat case_bool_decide; simplify_eq; done.
Qed.
Lemma run_log_wp r (Q : Z → world X → Prop) w :
  wp (coraza_log_transaction r) (λ rc w', Q (if bool_decide (rc = DECLINED) then OK else rc) w') w →
  wp (ap_run_log_transaction coraza_register_hooks r) Q w.
Proof.
  intros H. unfold ap_run_log_transaction. simpl. act_step. eapply wp_mono; [exact H|]. intros rc w'.
  cbv beta. unfold OK, DECLINED. repeat case_bool_decide; simplify_eq; done.
Qed.

Lemma original_in ch r : original ch = Some r → r ∈ ch.
Proof.
  induction ch as [|a [|b ch] IH]; [done| |].
  - intros [= <-]. left.
  - intros H. right. by apply IH.
Qed.
Lemma original_some ch : ch ≠ [] → ∃ r, original ch = Some r.
Proof.
  induction ch as [|a [|b ch] IH]; [done| |]; intros _; [by exists a|]. by apply IH.
Qed.

Lemma merge_step l parent child :
  life_inv l → is_Some (dir_confs (cfg (l_world l)) !! parent) →
  is_Some (dir_confs (cfg (l_world l)) !! child) →
  ∃ l', run (coraza_merge_dir_conf parent child) l = Some l' ∧ life_inv l'.
Proof.
  intros Hinv Hp Hc. apply run_wp. unfold life_inv in *. destruct l as [w n ch fx st]. simpl in *.
  assert (Hok : cfg_ok (cfg w)).
  { destruct st; [apply Hinv| |].
    - destruct Hinv as [_ H]. destruct (winding_up_household n ch w) as [oc Hh];
        [by apply at_rest_winding_up|apply Hh].
    - destruct Hinv as [_ H]. destruct (winding_up_household n ch w H) as [oc Hh]. apply Hh. }
  eapply merge_regrown; [exact Hok|exact Hp|exact Hc|]. intros a w' Hg. destruct st.
  - destruct Hinv as (Hs & Hr & Hq). split_and!; [by eapply sane_regrown| |];
      by destruct Hg as (g & -> & _).
  - destruct Hinv as [Hne [H|(c & r & q & x & p & rf & H & Hs)]]; (split; [done|]).
    + left. by eapply unopened_regrown.
    + right. exists c, r, q, x, p, rf. split; [by eapply running_regrown|done].
  - destruct Hinv as [Hne [H|(c & r & q & x & p & rf & H & Hs)]]; (split; [done|]).
    + left. by eapply unopened_regrown.
    + right. exists c, r, q, x, p, rf. split; [by eapply running_regrown|done].
Qed.

(** A handler that leaves the client request at rest. *)
Lemma serving_run {A} (m : M (world X) A) w n ch fx :
  ch ≠ [] → wp m (λ _ w', at_rest n ch w') w →
  ∃ l', run m (Life w n ch fx Serving) = Some l' ∧ life_inv l'.
Proof.
  intros Hne H. apply run_wp. eapply wp_mono; [exact H|]. intros a w' H'. by split.
Qed.

Lemma fixups_step w n ch fx r rs :
  ch = r :: rs → at_rest n ch w → (∀ q, reqs w !! r = Some q → table_ok (r_headers_in q)) →
  ∃ l', run (ap_run_fixups coraza_register_hooks r) (Life w n ch fx Serving) = Some l' ∧ life_inv l'.
Proof.
  intros Hch Hrest Htb.
  destruct (winding_up_household _ _ _ (at_rest_winding_up _ _ _ Hrest)) as [oc Hh].
  destruct (household_head _ _ _ _ Hh) as (r0 & q & Hhd & Hq); [by rewrite Hch|].
  rewrite Hch in Hhd. injection Hhd as <-. apply serving_run; [by rewrite Hch|]. apply run_fixups_wp.
  eapply wp_mono; [eapply fixups_at_rest; [exact Hrest|by rewrite Hch|exact Hq|by apply Htb]|done].
Qed.

(** The fixups of a subrequest decline at once. *)
Lemma subrequest_step w n ch fx q :
  ch ≠ [] → at_rest n ch w → r_main q = true → request_valid w q →
  ∃ l', run (add_request (next_key (reqs w)) q ;;
             ap_run_fixups coraza_register_hooks (next_key (reqs w))) (Life w n ch fx Serving) = Some l'
    ∧ life_inv l'.
Proof.
  intros Hne Hrest Hm Hv. apply serving_run; [done|]. act_step. apply wp_modify. apply run_fixups_wp.
  unfold coraza_post_read_request. act_step. eapply wp_get_req; [apply lookup_insert_eq|].
  rewrite Hm. apply wp_ret. eapply at_rest_add; [exact Hrest|apply next_key_fresh|exact Hv|by left].
Qed.

Lemma log_step w n ch fx r :
  original ch = Some r → at_rest n ch w →
  ∃ l', run (ap_run_log_transaction coraza_register_hooks r) (Life w n ch fx LoggedStage) = Some l'
    ∧ life_inv l'.
Proof.
  intros Hr Hrest. apply run_wp, run_log_wp.
  eapply wp_mono; [apply log_winding_up; [exact Hrest|by apply original_in]|].
  intros rc w' H'. split; [by destruct ch|done].
Qed.

(** Every step that is enabled can be taken, and keeps the invariant. *)
Lemma life_progress o l :
  life_inv l → enabled o l → ∃ l', perform o l = Some l' ∧ life_inv l'.
Proof.
  intros Hinv. destruct o as [q|pa ch0|r q| |f bb mode block k|f bb|q|q| |];
    destruct l as [w n ch fx st]; unfold life_inv in Hinv; simpl in *.
  - intros (-> & Hm & Hp & Hc & Hv). destruct Hinv as (Hs & Hr & _).
    apply serving_run; [done|]. apply wp_modify. by apply accept_at_rest.
  - intros [Hp Hc]. by apply merge_step.
  - intros (-> & Hin & Hv & q0 & Hq0 & Hsame). destruct Hinv as [Hne Hrest].
    apply serving_run; [done|]. eapply wp_upd_req; [exact Hq0|]. by eapply at_rest_set.
  - intros (-> & _ & Htb). destruct Hinv as [Hne Hrest]. destruct ch as [|r rs] eqn:Hch; [done|].
    rewrite <- Hch in *. eapply fixups_step; [exact Hch|exact Hrest|].
    intros q Hq. apply (Htb r q); [by rewrite Hch|exact Hq].
  - intros (-> & Hf). destruct Hinv as [Hne Hrest]. apply serving_run; [done|]. by eapply read_at_rest.
  - intros (-> & Hf & Hok). destruct Hinv as [Hne Hrest]. apply serving_run; [done|].
    by eapply write_at_rest.
  - intros (-> & Hm & Hp & Hc & Hv). destruct Hinv as [Hne Hrest]. apply serving_run; [done|].
    apply wp_modify. eapply at_rest_add; [exact Hrest|apply next_key_fresh|exact Hv|by right].
  - intros (-> & Hm & Hv). destruct Hinv as [Hne Hrest]. by apply subrequest_step.
  - intros ->. destruct Hinv as [Hne Hrest]. destruct (original_some _ Hne) as [r Hr].
    rewrite Hr. by apply log_step.
  - intros Hst. apply run_wp. simpl. eapply wp_mono; [apply (end_quiescent n ch)|done].
    destruct st; [done| |apply Hinv]. apply at_rest_winding_up, Hinv.
Qed.

Lemma reachable_inv l : reachable l → life_inv l.
Proof.
  intros (w & Hs & Hr & Hsteps).
  assert (life_inv (idle_life w)) as Hinit.
  { split_and!; [done|done|left; simpl]. unfold request_log. simpl. by rewrite drop_all. }
  revert Hinit. induction Hsteps as [|l1 l2 l3 (o & Ho & Hp) _ IH]; [done|].
  intros H1. apply IH. destruct (life_progress o l1 H1 Ho) as (l' & Hl & Hinv). congruence.
Qed.

(** The state of the protocol, and the records, in every reachable life. *)
Lemma reachable_protocol l : reachable l →
  ∃ s, protocol (request_log l) = Some s ∧ (l_stage l = Idle → s = NoTx ∨ ∃ t rf, s = Tx t Freed rf).
Proof.
  intros Hinv%reachable_inv. unfold life_inv, request_log in *. destruct (l_stage l).
  - destruct Hinv as (_ & _ & [H|(t & rf & H)]); eauto 10.
  - destruct Hinv as [_ [[_ H]|(c & r & q & x & p & rf & [] & _)]]; by eexists.
  - destruct Hinv as [_ [[_ H]|(c & r & q & x & p & rf & [] & _)]]; by eexists.
Qed.
Lemma reachable_household l : reachable l → l_stage l ≠ Idle →
  l_requests l ≠ [] ∧ ∃ oc, household (l_start l) (l_requests l) oc (l_world l).
Proof.
  intros Hinv%reachable_inv Hst. unfold life_inv in Hinv. destruct (l_stage l); [done| |].
  - destruct Hinv as [Hne H]. split; [done|]. by eapply winding_up_household, at_rest_winding_up.
  - destruct Hinv as [Hne H]. split; [done|]. by eapply winding_up_household.
Qed.

Lemma prev_path_app w p l1 r l2 : prev_path w p (l1 ++ r :: l2) →
  ∃ q, reqs w !! r = Some q ∧ prev_path w (r_prev q) l2.
Proof.
  revert p. induction l1 as [|a l1 IH]; intros p H; inversion H as [|p0 q0 l0 Hq0 Hl0]; subst; eauto.
Qed.
End invariant.

(** ** A concrete life, for the witnesses *)
Module Run.
#[export] Instance files : ConfigFiles := {|
  ap_server_root_relative p := Some p; apr_file p := None |}.
#[export] Instance strings : AprStrings := {|
  apr_strtoff s base := (APR_SUCCESS, 0, EmptyString) |}.
#[export] Instance sim_die : DieLaws script.
Proof. by intros s r q x. Qed.
#[export] Existing Instance zeroed_pool.

(** A child process of [Sim] before its first request, and the schedules run in
    it. *)
Definition start (sc : script) : @life script := idle_life (sim_world sc ∅ ∅).
Fixpoint finish (os : list op) (l : @life script) : @life script :=
  match os with
  | [] => l
  | o :: os => match perform o l with Some l' => finish os l' | None => l end
  end.
Fixpoint scheduled (os : list op) (l : @life script) : Prop :=
  match os with
  | [] => True
  | o :: os => enabled o l ∧ match perform o l with Some l' => scheduled os l' | None => False end
  end.

Lemma start_sane sc : sane (sim_world sc ∅ ∅).
Proof.
  constructor; [done|done|]. constructor.
  - intros d dcf. simpl. intros [<- <-]%lookup_singleton_Some. by eexists.
  - intros d dcf m. simpl. by intros [<- <-]%lookup_singleton_Some.
  - intros [|i] sv; simpl; [|done]. intros [= <-]. exists 0%nat. split; [done|by eexists].
Qed.

Lemma finish_steps os : ∀ l, scheduled os l → rtc life_step l (finish os l).
Proof.
  induction os as [|o os IH]; intros l; [done|]. intros [Ho Hs]. simpl.
  destruct (perform o l) as [l'|] eqn:E; [|done]. eapply rtc_l; [by exists o|]. by apply IH.
Qed.

Lemma scheduled_reachable os sc : scheduled os (start sc) → reachable (finish os (start sc)).
Proof. intros H. exists (sim_world sc ∅ ∅). split_and!; [apply start_sane|done|by apply finish_steps]. Qed.

Definition deny : coraza_intervention_t := Intervention (Some "deny"%string) 403 None 1.
Definition denied_run : script := Script [Some deny] [] [] 1 0.
Definition request : request_rec := sim_request None None.

Lemma request_headers_ok q :
  r_headers_in q = [(Some "Host"%string, Some "example.org"%string)] → table_ok (r_headers_in q).
Proof. intros ->. constructor; [|constructor]. by split; intros ? [= <-]. Qed.

Lemma scheduled_cons o os l l' :
  enabled o l → perform o l = Some l' → scheduled os l' → scheduled (o :: os) l.
Proof. intros Ho Hp Hs. simpl. by rewrite Hp. Qed.
(** Accepting the request of [Sim], and its fixups. *)
Lemma accept_enabled sc : enabled (OAccept request) (start sc).
Proof. split_and!; [done..|]. split; [intros d [= <-]|]; by eexists. Qed.

(** A request that is denied at once, and the end of it. *)
Lemma denied_scheduled : scheduled [OAccept request; OFixups; OLog; OEnd] (start denied_run).
Proof.
  eapply scheduled_cons; [apply accept_enabled|vm_compute; reflexivity|].
  eapply scheduled_cons; [|vm_compute; reflexivity|].
  { split_and!; [done|done|]. intros r q Hr Hq. injection Hr as <-. vm_compute in Hq.
    injection Hq as <-. by apply request_headers_ok. }
  eapply scheduled_cons; [done|vm_compute; reflexivity|].
  eapply scheduled_cons; [done|vm_compute; reflexivity|]. done.
Qed.

Lemma scheduled_app os1 os2 : ∀ l, scheduled (os1 ++ os2) l → scheduled os1 l.
Proof.
  induction os1 as [|o os1 IH]; intros l; [done|]. simpl. intros [Ho Hs]. split; [done|].
  destruct (perform o l) as [l'|]; [by apply IH|done].
Qed.

(** The life of the denied request: the fixups ran; the log hook ran; it ended. *)
Definition inspected_life : @life script := finish [OAccept request; OFixups] (start denied_run).
Definition logged_life : @life script := finish [OAccept request; OFixups; OLog] (start denied_run).
Definition ended_life : @life script := finish [OAccept request; OFixups; OLog; OEnd] (start denied_run).

Lemma inspected_reachable : reachable inspected_life.
Proof. apply scheduled_reachable, (scheduled_app _ [OLog; OEnd]), denied_scheduled. Qed.
Lemma logged_reachable : reachable logged_life.
Proof. apply scheduled_reachable, (scheduled_app _ [OEnd]), denied_scheduled. Qed.
Lemma ended_reachable : reachable ended_life.
Proof. apply scheduled_reachable, denied_scheduled. Qed.

(** After its fixups the request is redirected inside the server. *)
Definition redirected : request_rec := sim_request (Some 0%nat) None.
Definition redirected_life : @life script :=
  finish [OAccept request; OFixups; ORedirect redirected] (start denied_run).
Lemma redirected_reachable : reachable redirected_life.
Proof.
  apply scheduled_reachable. eapply scheduled_cons; [apply accept_enabled|vm_compute; reflexivity|].
  eapply scheduled_cons; [|vm_compute; reflexivity|].
  { split_and!; [done|done|]. intros r q Hr Hq. injection Hr as <-. vm_compute in Hq.
    injection Hq as <-. by apply request_headers_ok. }
  eapply scheduled_cons; [|vm_compute; reflexivity|done].
  split_and!; [done..|]. split; [intros d [= <-]|]; by eexists.
Qed.
End Run.

(** ** Properties *)

(** [apr_palloc] returns a block of the size asked for. *)
Definition pool_law `{!Pool} : Prop := ∀ n, 0 ≤ n → Z.of_nat (length (apr_palloc n)) = n.

Section properties.
Context {X : Type} `{!Dynlib X, !Libcoraza X, !Httpd X, !Libc X, Pool0 : !Pool,
  Files0 : !ConfigFiles, Strings0 : !AprStrings, !DieLaws X}.

(** The record of the request the client sent belongs to transaction [t], and
    Coraza is on in its section. *)
Definition original_inspected (l : @life X) (t : Z) : Prop :=
  ∃ r q c x, original (l_requests l) = Some r ∧ reqs (l_world l) !! r = Some q ∧ r_ctx q = Some c
    ∧ ctxs (l_world l) !! c = Some x ∧ transaction x = t ∧ section_on (l_world l) q.

(** C4: no handler is ever undefined.  From a child process that started
    successfully, whatever requests arrive and whatever httpd, the other modules
    and libcoraza do, every step httpd may take runs to its end: no NULL or
    dangling pointer is followed, no context or request is used after its pool
    was destroyed, and the mutex is never taken twice. *)
Theorem handlers_never_undefined (l : @life X) (o : op) :
  pool_law → reachable l → enabled o l → is_Some (perform o l).
Proof.
  intros Hp Hr Ho. destruct (life_progress Hp o l (reachable_inv Hp l Hr) Ho) as (l' & E & _). eauto.
Qed.

(** C3: the calls to libcoraza keep the protocol: for every client request one
    transaction at most is opened, its phases come in their order, every call is
    on it, after a failure or a denial it is only logged and freed, it is logged
    at most once and not touched after it was freed. *)
Theorem engine_protocol_kept (l : @life X) :
  pool_law → reachable l → ∃ s, protocol (request_log l) = Some s.
Proof. intros Hp Hr. destruct (reachable_protocol Hp l Hr) as (s & Hs & _). eauto. Qed.

(** C17: the world stays well-formed: in every reachable life libcoraza is
    loaded, the mutex is free between two steps, the configuration and the
    request records hold no dangling pointer, and the records of the client
    request form one chain through [prev], from the current one to the one the
    client sent. *)
Theorem world_stays_well_formed (l : @life X) :
  pool_law → reachable l →
  sane (l_world l)
  ∧ (l_stage l ≠ Idle → l_requests l ≠ [] ∧ prev_path (l_world l) (head (l_requests l)) (l_requests l)
       ∧ ∀ r q, reqs (l_world l) !! r = Some q → request_valid (l_world l) q).
Proof.
  intros Hp Hr. split.
  - pose proof (reachable_inv Hp l Hr) as Hinv. destruct (decide (l_stage l = Idle)) as [E|E].
    + unfold life_inv in Hinv. rewrite E in Hinv. apply Hinv.
    + destruct (reachable_household Hp l Hr E) as (_ & oc & H). apply H.
  - intros E. destruct (reachable_household Hp l Hr E) as (Hne & oc & []). done.
Qed.

(** C8: every transaction is accounted for: a client request opens one or none,
    whatever internal redirects and subrequests it goes through; when its pool
    was destroyed it was freed exactly once, and it is logged at most once. *)
Theorem transactions_accounted (l : @life X) :
  pool_law → reachable l →
  ∃ ts, (ts = [] ∨ ∃ t, ts = [t]) ∧ opened (request_log l) = ts
    ∧ (freed (request_log l) = [] ∨ freed (request_log l) = ts)
    ∧ (l_stage l = Idle → freed (request_log l) = ts)
    ∧ (logged_by (request_log l) = [] ∨ logged_by (request_log l) = ts).
Proof.
  intros Hp Hr. destruct (reachable_protocol Hp l Hr) as (s & Hs%protocol_accounts & Hidle).
  destruct s as [|t p rf]; simpl in Hs; destruct Hs as (-> & -> & Hl).
  - exists []. split_and!; auto.
  - exists [t]. split_and!; [by right; eauto|done|case_bool_decide; auto| |].
    + intros Hst. destruct (Hidle Hst) as [?|(t' & rf' & [= _ -> _])]; [done|].
      by rewrite bool_decide_eq_true_2.
    + destruct p; auto.
Qed.

(** C7: a refusal is final.  Once libcoraza denied the request, or failed on
    what it was given, nothing more of it is inspected and no further verdict is
    asked for, in no phase, no filter call and no internal redirect: the only
    later calls on the transaction set its status, log it and free it. *)
Theorem refusal_is_final (l : @life X) (t1 : list event) (e : event) (t2 : list event) :
  pool_law → reachable l → request_log l = t1 ++ e :: t2 → refusal e → Forall closing t2.
Proof.
  intros Hp Hr Ht He. destruct (reachable_protocol Hp l Hr) as (s & Hs & _).
  rewrite Ht in Hs. by eapply protocol_refused.
Qed.

(** C16: an inspected request is audited.  When the log hook runs for a client
    request whose own record has the transaction [t] and whose section has Coraza
    on, the transaction is logged exactly once, be it by this hook or earlier, when it was denied in
    phase 1 or 2. *)
Theorem inspected_request_is_logged (l : @life X) (t : Z) :
  pool_law → reachable l → l_stage l = Serving → original_inspected l t →
  ∃ l', perform OLog l = Some l' ∧ logged_by (request_log l') = [t].
Proof.
  intros Hp Hr Hst (r & q & c & x & Horig & Hq & Hc & Hx & <- & Hon).
  pose proof (reachable_inv Hp l Hr) as Hinv. unfold life_inv in Hinv. rewrite Hst in Hinv.
  destruct Hinv as [_ Hrest]. pose proof (original_in _ _ Horig) as Hin.
  destruct Hrest as [[H _]|(c0 & r0 & q0 & x0 & p & rf & H & Hal & _)].
  { by pose proof (hh_owner _ _ _ _ H _ _ _ Hin Hq Hc). }
  pose proof (hh_owner _ _ _ _ (ru_house _ _ _ _ _ _ _ _ _ _ H) _ _ _ Hin Hq Hc) as [= ->].
  assert (x0 = x) as -> by (pose proof (ru_ctx _ _ _ _ _ _ _ _ _ _ H); congruence).
  simpl. rewrite Horig. apply run_wp. simpl. apply run_log_wp.
  eapply wp_mono; [eapply log_logs; [eapply running_move; [exact H|exact Hq|exact Hc]|done|done]|].
  intros rc w' H'. unfold request_log. simpl. by destruct (protocol_accounts _ _ H') as (_ & _ & ->).
Qed.

(** C39: the walk back through [prev] always ends, within the fuel of the model
    (the number of request records), and finds the context of the nearest
    earlier record that has one. *)
Theorem prev_walk_terminates (l : @life X) (newer earlier : list nat) (r : nat) :
  pool_law → reachable l → l_stage l ≠ Idle → l_requests l = newer ++ r :: earlier →
  coraza_ctx_from_prev r (l_world l) = Some (head (path_ctxs (l_world l) earlier), l_world l).
Proof.
  intros Hp Hr Hst Hch. destruct (reachable_household Hp l Hr Hst) as (_ & oc & Hh).
  pose proof (hh_path _ _ _ _ Hh) as Hpath. rewrite Hch in Hpath at 2.
  destruct (prev_path_app _ _ _ _ _ Hpath) as (q & Hq & Hprev).
  unfold coraza_ctx_from_prev, get_req, deref, gets, mbind, M_bind. rewrite Hq.
  apply ctx_from_prev_wp; [done|]. by eapply prev_path_length.
Qed.

(** C40: a request that is first inspected after an internal redirect is not
    audited.  httpd runs the log hook on the record of the request the client
    sent; when that one has no context -- its section has Coraza off -- the hook
    does nothing at all, for the context of the redirect's record is not looked
    for; the end of the request then frees the transaction without
    [coraza_process_logging].  Only what an intervention logged early, in phases 1
    and 2, is audited, whatever phases 3 and 4 did. *)
Theorem redirect_target_never_logged (l : @life X) (r : nat) (q : request_rec) :
  pool_law → reachable l → l_stage l = Serving → original (l_requests l) = Some r →
  reqs (l_world l) !! r = Some q → r_ctx q = None →
  ∃ l1 l2, perform OLog l = Some l1 ∧ l_world l1 = l_world l
    ∧ perform OEnd l1 = Some l2 ∧ logged_by (request_log l2) = logged_by (request_log l).
Proof.
  intros Hp Hr Hst Horig Hq Hc. pose proof (reachable_inv Hp l Hr) as Hinv.
  unfold life_inv in Hinv. rewrite Hst in Hinv. destruct Hinv as [_ Hrest%at_rest_winding_up].
  destruct l as [w n ch fx st]. unfold request_log. simpl in *.
  destruct (winding_up_household _ _ _ Hrest) as [oc Hh].
  pose proof (end_logs_nothing _ _ _ Hrest) as Hend. apply wp_det in Hend as ([] & w2 & E2 & tr & Ht & Hl).
  assert (wp (ap_run_log_transaction coraza_register_hooks r) (λ _ w', w' = w) w) as Hlog.
  { apply run_log_wp. by eapply log_without_context. }
  apply wp_det in Hlog as (a & w1 & E1 & ->).
  exists (Life w n ch fx LoggedStage), (Life w2 n [] false Idle).
  rewrite Horig. unfold run. simpl. rewrite E1. split_and!; [done|done| |].
  - unfold request_log. simpl. by rewrite E2.
  - rewrite Ht, drop_app_le by apply Hh. by rewrite logged_by_app, Hl, app_nil_r.
Qed.
End properties.

(** ** A transaction that is never audited *)
Import Run.

(** A second section, 1, with Coraza off: the client's request falls into it and
    is redirected into section 0, where the response is denied. *)
Definition denied_response : script := Script [None; None; None; None; Some deny] [] [] 1 0.
Definition half_covered : @life script :=
  idle_life (set_cfg (set_dir_confs (λ m, <[1%nat := set_enable (λ _, 0) sim_dir]> m))
    (sim_world denied_response ∅ ∅)).
Definition unwatched : request_rec := set_r_dir_conf (λ _, Some 1%nat) request.
Definition into_covered : list op :=
  [OAccept unwatched; OFixups; ORedirect redirected; OFixups;
   OWrite (Filter (Some 0%nat) 1) [Data Heap []; Eos]; OLog; OEnd].

(** Its transaction is opened, denies the response and is freed, without
    [coraza_process_logging]. *)
Example denied_and_never_logged :
  scheduled into_covered half_covered
  ∧ (λ tr, (opened tr, freed tr, logged_by tr, died tr))
      (request_log (finish into_covered half_covered)) = ([7], [7], [], [(403, 200)]).
Proof.
  split; [|vm_compute; reflexivity]. unfold into_covered, half_covered.
  eapply scheduled_cons; [|vm_compute; reflexivity|].
  { split_and!; [done..|]. split; [intros d [= <-]|]; by eexists. }
  eapply scheduled_cons; [|vm_compute; reflexivity|].
  { split_and!; [done|done|]. intros r q [= <-] Hq. vm_compute in Hq. injection Hq as <-.
    by apply request_headers_ok. }
  eapply scheduled_cons; [|vm_compute; reflexivity|].
  { split_and!; [done..|]. split; [intros d [= <-]|]; by eexists. }
  eapply scheduled_cons; [|vm_compute; reflexivity|].
  { split_and!; [done|done|]. intros r q [= <-] Hq. vm_compute in Hq. injection Hq as <-.
    by apply request_headers_ok. }
  eapply scheduled_cons; [|vm_compute; reflexivity|].
  { split_and!; [done| |].
    - right. exists 0%nat. split; [done|]. vm_compute. repeat (left || right).
    - intros q Hq. vm_compute in Hq. injection Hq as <-.
      constructor; [constructor|constructor|]. intros ct [= <-]. reflexivity. }
  eapply scheduled_cons; [done|vm_compute; reflexivity|].
  eapply scheduled_cons; [done|vm_compute; reflexivity|done].
Qed.

(** The same life just before the log hook. *)
Definition denied_life : @life script := finish (take 5 into_covered) half_covered.

Lemma half_covered_sane : sane (l_world half_covered).
Proof.
  assert (Hdirs : ∀ d dcf, dir_confs (cfg (l_world half_covered)) !! d = Some dcf →
    rules dcf = 0%nat ∧ merge_child dcf = None).
  { intros d dcf. simpl. intros [[<- <-]|[_ [<- <-]%lookup_singleton_Some]]%lookup_insert_Some; done. }
  constructor; [done|done|]. constructor.
  - intros d dcf [-> _]%Hdirs. by eexists.
  - intros d dcf m [_ E]%Hdirs. congruence.
  - intros [|i] sv; simpl; [|done]. intros [= <-]. exists 0%nat. split; [done|by eexists].
Qed.
Lemma denied_reachable : reachable denied_life.
Proof.
  exists (l_world half_covered). split_and!; [apply half_covered_sane|done|].
  apply finish_steps, (scheduled_app _ (drop 5 into_covered)). rewrite take_drop.
  apply denied_and_never_logged.
Qed.

(** ** Witnesses *)

Lemma redirect_target_never_logged_witness :
  died (request_log denied_life) = [(403, 200)]
  ∧ ∃ l1 l2, perform OLog denied_life = Some l1 ∧ perform OEnd l1 = Some l2
      ∧ logged_by (request_log l2) = [].
Proof.
  split; [vm_compute; reflexivity|].
  destruct (redirect_target_never_logged denied_life 0 unwatched zeroed_pool_law denied_reachable)
    as (l1 & l2 & E1 & _ & E2 & Hl); [vm_compute; reflexivity..|].
  exists l1, l2. split; [exact E1|]. split; [exact E2|]. rewrite Hl. vm_compute. reflexivity.
Defined.

Lemma handlers_never_undefined_witness : is_Some (perform OLog Run.inspected_life).
Proof.
  exact (handlers_never_undefined Run.inspected_life OLog zeroed_pool_law Run.inspected_reachable
    eq_refl).
Defined.

Lemma engine_protocol_kept_witness :
  ∃ s, protocol (request_log Run.ended_life) = Some s ∧ s = Tx 7 Freed true.
Proof.
  destruct (engine_protocol_kept Run.ended_life zeroed_pool_law Run.ended_reachable) as [s Hs].
  exists s. split; [exact Hs|]. vm_compute in Hs. injection Hs as <-. reflexivity.
Defined.

Lemma world_stays_well_formed_witness :
  sane (l_world Run.redirected_life)
  ∧ prev_path (l_world Run.redirected_life) (Some 1%nat) [1%nat; 0%nat].
Proof.
  destruct (world_stays_well_formed Run.redirected_life zeroed_pool_law Run.redirected_reachable)
    as [Hs H].
  split; [exact Hs|]. apply H. vm_compute. discriminate.
Defined.

Lemma transactions_accounted_witness :
  opened (request_log Run.ended_life) = [7] ∧ freed (request_log Run.ended_life) = [7].
Proof.
  destruct (transactions_accounted Run.ended_life zeroed_pool_law Run.ended_reachable)
    as (ts & _ & Ho & _ & Hf & _).
  assert (opened (request_log Run.ended_life) = [7]) as E by (vm_compute; reflexivity).
  split; [exact E|]. rewrite Hf; [congruence|vm_compute; reflexivity].
Defined.

Lemma refusal_is_final_witness : Forall closing (drop 4 (request_log Run.ended_life)).
Proof.
  refine (refusal_is_final Run.ended_life (take 3 (request_log Run.ended_life))
    (EvIntervention 7 (Some Run.deny)) (drop 4 (request_log Run.ended_life))
    zeroed_pool_law Run.ended_reachable _ _).
  - vm_compute. reflexivity.
  - discriminate.
Defined.

Lemma inspected_request_is_logged_witness :
  ∃ l', perform OLog Run.inspected_life = Some l' ∧ logged_by (request_log l') = [7].
Proof.
  apply (inspected_request_is_logged Run.inspected_life 7 zeroed_pool_law Run.inspected_reachable).
  - vm_compute. reflexivity.
  - do 4 eexists. split_and!; [vm_compute; reflexivity..|].
    eexists _, _. split_and!; vm_compute; reflexivity.
Defined.

Lemma prev_walk_terminates_witness :
  coraza_ctx_from_prev 1 (l_world Run.redirected_life) = Some (Some 0%nat, l_world Run.redirected_life).
Proof.
  rewrite (prev_walk_terminates Run.redirected_life [] [0%nat] 1 zeroed_pool_law
    Run.redirected_reachable); vm_compute; [reflexivity|discriminate|reflexivity].
Defined.
