(* ===== verification/Threads.v ===== *)
(** * Threads building WAFs

    Worker threads run [coraza_create_ctx] at the same time on the shared
    configuration, cache and mutex.  A thread is at one of the points between the
    shared accesses of the lazy build; the steps of the threads interleave freely.
    What a thread does while it holds the mutex is cut into the three strategies
    of the function, since the other threads read [dcf->waf] without the
    mutex meanwhile; so are the read before the lock and the one after it. *)
From S2P Require Import Prelude Types World DynLib Waf.
Local Open Scope Z_scope.

(** Where a thread is: before the unlocked test; waiting for the mutex; holding
    it before each strategy and before the release; before the unlocked choice of
    the WAF; with the WAF it will use. *)
Inductive point :=
| AtTest | AtLock | AtChild | AtCache | AtBuild | AtUnlock | AtChoice | Finished (waf : Z).

(** A request being served: its section and its server's record. *)
Record thread := Thread { th_dir : nat; th_server : option nat; th_point : point }.

#[export] Instance point_eq_dec : EqDecision point.
Proof. solve_decision. Defined.

Definition holds_mutex (p : point) : bool :=
  match p with AtChild | AtCache | AtBuild | AtUnlock => true | _ => false end.

Section threads.
Context {X : Type} `{!Dynlib X, !Libcoraza X, !Libc X}.
Abbreviation W := (world X).

(** [dcf->waf == 0 && dcf->has_rules && dcf->rules->nelts > 0]. *)
Definition needs_build (d : nat) : M W bool :=
  dcf ← get_dir d;
  if bool_decide (waf dcf = 0) && has_rules dcf then
    l ← get_array (rules dcf); mret (bool_decide (l ≠ []))
  else mret false.

(** The next step of a thread. *)
Definition turn (t : thread) : M W thread :=
  let d := th_dir t in
  p ← match th_point t with
      | AtTest => b ← needs_build d; mret (if b : bool then AtLock else AtChoice)
      | AtLock => lock ;; mret AtChild
      | AtChild => reuse_child_waf d ;; mret AtCache
      | AtCache => reuse_cached_waf d ;; mret AtBuild
      | AtBuild => build_and_cache_waf d ;; mret AtUnlock
      | AtUnlock => unlock ;; mret AtChoice
      | AtChoice => h ← chosen_waf d (th_server t); mret (Finished h)
      | Finished h => mret (Finished h)
      end;
  mret (Thread d (th_server t) p).

(** A thread waits while another one holds the mutex, and stops at the end. *)
Definition blocked (w : W) (t : thread) : Prop :=
  th_point t = AtLock ∧ g_waf_build_mutex (wafs w) = Some true.
Definition finished (t : thread) : Prop := ∃ h, th_point t = Finished h.

#[export] Instance blocked_dec w t : Decision (blocked w t).
Proof. apply _. Defined.
#[export] Instance finished_dec t : Decision (finished t).
Proof.
  unfold finished. destruct (th_point t) as [| | | | | | |h]; [right; by intros [? ?]..|].
  left. by exists h.
Defined.

(** Some thread that can run takes its next step. *)
Inductive interleave : W * list thread → W * list thread → Prop :=
| interleave_turn w ts i t t' w' :
    ts !! i = Some t → ¬ blocked w t → ¬ finished t → turn t w = Some (t', w') →
    interleave (w, ts) (w', <[i := t']> ts).

(** A schedule, by thread number: where it leads, if every step of it can be taken. *)
Fixpoint scheduled (order : list nat) (s : W * list thread) : option (W * list thread) :=
  match order with
  | [] => Some s
  | i :: order =>
      t ← s.2 !! i;
      if bool_decide (blocked s.1 t) || bool_decide (finished t) then None
      else '(t', w') ← turn t s.1; scheduled order (w', <[i := t']> s.2)
  end.

(** The same thread, alone. *)
Fixpoint turns (n : nat) (t : thread) : M W thread :=
  match n with O => mret t | S n => t ← turn t; turns n t end.
End threads.
