(* ===== verification/ThreadsFacts.v ===== *)
(** * Threads building WAFs: proofs

    However the threads interleave: one at a time is in the critical section, none
    is ever undefined or stuck, all finish, and the WAF each inspects its request
    with is traced to where it comes from. *)
From S2P Require Import Prelude Types World DynLib DynLibFacts InterventionFacts Waf WafFacts Protocol Lifecycle Discipline LazyBuild Threads Sim.
Local Open Scope Z_scope.

(** The WAF handle of a section. *)
Definition handle {X} (w : world X) (d : nat) : Z :=
  match dir_confs (cfg w) !! d with Some dcf => waf dcf | None => 0 end.

Section threads_facts.
Context {X : Type} `{!Libcoraza X, !Libc X, !Dynlib X}.
Implicit Types w : world X.

(** Two sections of [w] are related when the one was merged from the other, or
    there is a chain of merges between them: [merge_child] hands WAF handles on
    along it. *)
Definition family w : relation nat :=
  rtsc (λ d m, ∃ dcf, dir_confs (cfg w) !! d = Some dcf ∧ merge_child dcf = Some m).

(** When the requests [ts0] arrived the state was [w0]. *)
Variables (w0 : world X) (ts0 : list thread).

(** The rules of a section. *)
Definition policy (d : nat) : list coraza_rule_entry_t := default [] (rules_of w0 d).

(** Where a handle of section [d] comes from: it was there when the requests
    arrived, in some section of the family, or it was built, as [tr] shows, from
    the rules of one that serves some of the requests. *)
Definition known (d : nat) (h : Z) (tr : list event) : Prop :=
  ∃ e, family w0 d e
    ∧ (handle w0 e = h ∨ (∃ t, t ∈ ts0 ∧ th_dir t = e) ∧ built tr h (policy e)).

Lemma known_app d h t1 t2 : known d h t1 → known d h (t1 ++ t2).
Proof. intros (e & He & [H|[Hs Hb]]); exists e; [auto|]. split; [done|right]. split; [done|by apply built_app]. Qed.
Lemma known_family d m h tr : family w0 d m → known m h tr → known d h tr.
Proof. intros Hf (e & He & H). exists e. split; [by etransitivity|done]. Qed.

Record policies w : Prop := {
  po_cache : cache_ok w;
  po_dirs : ∀ d dcf, dir_confs (cfg w) !! d = Some dcf → waf dcf ≠ 0 →
    known d (waf dcf) (trace w) }.

(** From [w] to [w']: quiet calls and assignments of known handles; with a
    healthy engine no handle is lost. *)
Record advances w w' : Prop := {
  ad_resolved : resolved w w';
  ad_policies : policies w';
  ad_keep : healthy → ∀ d, handle w d ≠ 0 → handle w' d ≠ 0 }.

Lemma advances_refl w : policies w → advances w w.
Proof. intros H. constructor; [apply resolved_refl|done|done]. Qed.
Lemma advances_trans w1 w2 w3 : advances w1 w2 → advances w2 w3 → advances w1 w3.
Proof. intros [] []. constructor; [by eapply resolved_trans|done|auto]. Qed.

(** Only the log, the environment and what is beside the cache changed. *)
Lemma advances_same w w' :
  policies w → resolved w w' → dir_confs (cfg w') = dir_confs (cfg w) →
  g_waf_cache (wafs w') = g_waf_cache (wafs w) → advances w w'.
Proof.
  intros [Hc Hd] R Hdirs Hcache. destruct (re_trace _ _ R) as (tr & Ht & _).
  constructor; [done| |].
  - constructor; [by eapply cache_ok_mono|]. intros d dcf. rewrite Hdirs, Ht. intros H1 H2.
    by apply known_app, Hd.
  - intros _ d. unfold handle. by rewrite Hdirs.
Qed.

Lemma store_advances d dcf h w (Q : unit → world X → Prop) :
  policies w → dir_confs (cfg w) !! d = Some dcf →
  (h ≠ 0 → known d h (trace w)) → (healthy → waf dcf ≠ 0 → h ≠ 0) →
  (∀ w', advances w w' → wafs w' = wafs w → trace w' = trace w → handle w' d = h → Q tt w') →
  wp (upd_dir d (set_waf (λ _, h))) Q w.
Proof.
  intros [Hc Hp] Hd Hb Hk HQ. eapply wp_upd_dir; [exact Hd|]. apply HQ; [|done|done|].
  - constructor; [by apply resolved_store| |].
    + constructor; [done|]. simpl. intros d0 x. destruct (decide (d = d0)) as [->|Hne].
      * rewrite lookup_insert_eq. intros [= <-]. exact Hb.
      * rewrite lookup_insert_ne by done. apply Hp.
    + intros Hh d0. unfold handle. simpl. destruct (decide (d = d0)) as [->|Hne].
      * rewrite lookup_insert_eq, Hd. by apply Hk.
      * by rewrite lookup_insert_ne.
  - unfold handle. simpl. by rewrite lookup_insert_eq.
Qed.

Lemma cache_add_advances l h w (Q : unit → world X → Prop) :
  policies w → built (trace w) h l →
  (∀ w', advances w w' → cfg w' = cfg w → Q tt w') → wp (waf_cache_add (rules_hash l) l h) Q w.
Proof.
  intros Hp Hb HQ.
  eapply (wp_mono _ (λ _ w', resolved w w' ∧ (cfg w' = cfg w ∧ policies w'))).
  2: { intros [] w' (R & Hcfg & Hpol). apply HQ; [|done]. constructor; [done|done|].
       intros _ d0. unfold handle. by rewrite Hcfg. }
  apply wp_and; [by apply cache_add_resolved|]. destruct Hp as [Hc Hd]. unfold waf_cache_add.
  do 2 act_step. case_goal as Hfull.
  - act_step; [|by split]. do 2 act_step. act_step. split; [done|]. constructor.
    + eapply (cache_ok_mono w); [by simpl|done|done].
    + intros d0 dcf H1 H2. apply known_app. by eapply Hd.
  - destruct (negb _); [by apply wp_ret; split|]. act_step. split; [done|]. destruct Hc as [H1 H2].
    constructor; [|done]. split; simpl.
    + apply Forall_app. split; [done|]. constructor; [by split|constructor].
    + rewrite length_app. simpl. lia.
Qed.

(** ** The strategies of the lazy build *)

(** Section [d] is served in [w]: one of the requests is for it, its record and
    rules are there, and server record [so] exists. *)
Record serves w (d : nat) (so : option nat) : Prop := {
  sv_asked : ∃ t, t ∈ ts0 ∧ th_dir t = d;
  sv_policy : ∃ dcf, dir_confs (cfg w) !! d = Some dcf ∧ arrays (cfg w) !! rules dcf = Some (policy d)
    ∧ has_rules dcf = bool_decide (policy d ≠ []);
  sv_server : ∃ s, so = Some s ∧ is_Some (server_confs (cfg w) !! s) }.

(** All that holds of the shared state. *)
Record shared mu w : Prop := {
  sh_dl : dl_ready w;
  sh_cfg : cfg_ok (cfg w);
  sh_origin : resolved w0 w;
  sh_policies : policies w;
  sh_mutex : g_waf_build_mutex (wafs w) = mu }.

Lemma serves_advances w w' d so : serves w d so → advances w w' → serves w' d so.
Proof.
  intros [Ha (dcf & Hd & Hr & Hf) (s & Hs & Hc)] [[]]. constructor; [done|..].
  - destruct (re_dirs d dcf Hd) as [h Hh]. exists (set_waf (λ _, h) dcf).
    by rewrite re_arrays.
  - exists s. by rewrite re_confs.
Qed.

Lemma served_buildable mu w d so : shared mu w → serves w d so → buildable d mu w.
Proof. intros [] [_ (dcf & Hd & _) _]. by constructor. Qed.

(** A merge link is one of the configuration the requests found. *)
Lemma child_family w d dcf m :
  resolved w0 w → dir_confs (cfg w) !! d = Some dcf → merge_child dcf = Some m → family w0 d m.
Proof.
  intros R Hd Hm. apply rtsc_lr. destruct (dir_confs (cfg w0) !! d) as [x|] eqn:Hx.
  - destruct (re_dirs _ _ R d x Hx) as [h Hh]. rewrite Hh in Hd. injection Hd as <-. by exists x.
  - apply (re_none _ _ R) in Hx. congruence.
Qed.

Lemma built_known w d so h :
  serves w d so → built (trace w) h (policy d) → known d h (trace w).
Proof. intros Hv Hb. exists d. split; [reflexivity|]. right. split; [apply Hv|done]. Qed.

Lemma child_known mu w d dcf m :
  shared mu w → dir_confs (cfg w) !! d = Some dcf → merge_child dcf = Some m →
  ∃ x, dir_confs (cfg w) !! m = Some x ∧ family w0 d m
    ∧ (waf x ≠ 0 → known d (waf x) (trace w)).
Proof.
  intros [] Hd Hm. destruct (co_child _ sh_cfg0 d dcf m Hd Hm) as [x Hx].
  pose proof (child_family _ _ _ _ sh_origin0 Hd Hm) as E. exists x. split_and!; [done|done|].
  intros H. eapply known_family; [exact E|]. by apply sh_policies0.
Qed.

Lemma child_step mu w d so :
  shared mu w → serves w d so → wp (reuse_child_waf d) (λ _ w', advances w w') w.
Proof.
  intros Hs Hv. destruct (sv_policy _ _ _ Hv) as (dcf & Hd & _). unfold reuse_child_waf.
  act_step. eapply wp_get_dir; [exact Hd|]. pose proof (sh_policies _ _ Hs) as Hp.
  destruct (merge_child dcf) as [m|] eqn:Hm; [|apply wp_ret; by apply advances_refl].
  destruct (child_known _ _ _ _ _ Hs Hd Hm) as (x & Hx & _ & Hb).
  apply wp_when; [|intros _; by apply advances_refl]. intros Hz%bool_decide_eq_true.
  act_step. eapply wp_get_dir; [exact Hx|].
  eapply store_advances; [exact Hp|exact Hd|exact Hb| |intros w' H _ _ _; exact H].
  intros _ Hw. congruence.
Qed.

(** Storing a handle in the section and in the one it was merged from. *)
Lemma store_child_advances mu w d dcf h so (Q : unit → world X → Prop) :
  shared mu w → serves w d so → dir_confs (cfg w) !! d = Some dcf →
  (h ≠ 0 → known d h (trace w)) → (healthy → h ≠ 0) →
  (∀ w', advances w w' → Q tt w') → wp (set_child_waf (merge_child dcf) h) Q w.
Proof.
  intros Hs Hv Hd Hb Hk HQ. unfold set_child_waf. pose proof (sh_policies _ _ Hs) as Hp.
  destruct (merge_child dcf) as [m|] eqn:Hm; [|apply wp_ret, HQ; by apply advances_refl].
  destruct (child_known _ _ _ _ _ Hs Hd Hm) as (x & Hx & E & _).
  eapply store_advances; [exact Hp|exact Hx| |by intros ? _; apply Hk|].
  { intros Hh. eapply known_family; [by symmetry|by apply Hb]. }
  intros w' H _ _ _. by apply HQ.
Qed.

Lemma shared_advances mu mu' w w' : shared mu w → advances w w' →
  g_waf_build_mutex (wafs w') = mu' → shared mu' w'.
Proof.
  intros [] [[] ] Hmu. constructor; try done; [|by apply re_grows|].
  - unfold dl_ready. by rewrite re_dl.
  - by eapply resolved_trans; [exact sh_origin0|].
Qed.

Lemma cached_step mu w d so :
  shared mu w → serves w d so → wp (reuse_cached_waf d) (λ _ w', advances w w') w.
Proof.
  intros Hs Hv. destruct (sv_policy _ _ _ Hv) as (dcf & Hd & Hr & _). unfold reuse_cached_waf, waf_cache_find.
  act_step. eapply wp_get_dir; [exact Hd|]. pose proof (sh_policies _ _ Hs) as Hp.
  apply wp_when; [|intros _; by apply advances_refl]. intros Hz%bool_decide_eq_true.
  act_step. eapply wp_get_array; [exact Hr|]. do 2 act_step. destruct (po_cache _ Hp) as [Hc _].
  rewrite find_entry_rules by (eapply Forall_impl; [|exact Hc]; naive_solver).
  apply wp_when; [|intros _; by apply advances_refl]. intros Hf%bool_decide_eq_true.
  set (h := find_rules (policy d) (g_waf_cache (wafs w))) in *.
  assert (built (trace w) h (policy d)) as Hb.
  { destruct (find_rules_elem (policy d) _ Hf) as (e & He & E1 & E2).
    rewrite list.Forall_forall in Hc. destruct (Hc e He) as [_ Hb]. by rewrite E1, E2 in Hb. }
  assert (known d h (trace w)) as Hkn by (by eapply built_known).
  act_step. eapply store_advances; [exact Hp|exact Hd|done|done|]. intros w1 H1 Hw1 Ht1 _.
  assert (shared mu w1) as Hs1 by (eapply shared_advances; [done|done|rewrite Hw1; apply Hs]).
  pose proof (serves_advances _ _ _ _ Hv H1) as Hv1.
  destruct (re_dirs _ _ (ad_resolved _ _ H1) d dcf Hd) as [h1 Hh1].
  eapply (store_child_advances mu w1 d (set_waf (λ _, h1) dcf)); [done|exact Hv1|done|by rewrite Ht1|done|].
  intros w2 H2. by eapply advances_trans.
Qed.

Lemma build_step mu w d so :
  shared mu w → serves w d so → policy d ≠ [] →
  wp (build_and_cache_waf d) (λ _ w', advances w w' ∧ (healthy → handle w' d ≠ 0)) w.
Proof.
  intros Hs Hv Hne. destruct (sv_policy _ _ _ Hv) as (dcf & Hd & Hr & _). unfold build_and_cache_waf.
  act_step. eapply wp_get_dir; [exact Hd|]. pose proof (sh_policies _ _ Hs) as Hp.
  apply wp_when.
  2: { intros Hz%bool_decide_eq_false. split; [by apply advances_refl|]. intros _.
       unfold handle. by rewrite Hd. }
  intros Hz%bool_decide_eq_true. act_step. eapply wp_get_array; [exact Hr|]. act_step.
  eapply (wp_mono _ (λ h w1, quietly w w1 ∧ ((h ≠ 0 → built (trace w1) h (policy d))
     ∧ (healthy → h ≠ 0)))).
  { apply wp_and; [by eapply build_waf_quiet; [apply Hs|exact Hr|]|].
    eapply build_waf_wp; [apply Hs|exact Hr|]. intros h tr x Hb _ Hh. split; [|by auto].
    intros Hz'. by apply built_app_r, Hb. }
  intros h w1 (Hq & Hb & Hh).
  assert (advances w w1 ∧ wafs w1 = wafs w ∧ cfg w1 = cfg w) as (H1 & Hw1 & Hc1).
  { destruct Hq as (e & tr & -> & Hq). split; [|done].
    apply advances_same; [done| |done|done]. apply quietly_resolved. by exists e, tr. }
  assert (h ≠ 0 → known d h (trace w1)) as Hkn.
  { intros Hnz. eapply built_known; [by eapply serves_advances|by apply Hb]. }
  act_step. eapply (store_advances d dcf h w1); [apply H1|by rewrite Hc1|done|done|].
  intros w2 H2 Hw2 Ht2 Hh2. act_step.
  eapply (wp_mono _ (λ _ w3, advances w2 w3 ∧ g_waf_build_mutex (wafs w3) = mu)).
  { assert (g_waf_build_mutex (wafs w2) = mu) as Hm2 by (rewrite Hw2, Hw1; apply Hs).
    assert (policies w2) as Hp2 by apply H2.
    apply wp_when; [|intros _; split; [by apply advances_refl|done]].
    intros Hnz%bool_decide_eq_true. apply wp_and.
    - apply cache_add_advances; [done|rewrite Ht2; by apply Hb|by intros].
    - apply cache_add_resolved. intros w3 _ E. by rewrite E. }
  intros [] w3 [H3 Hm3]. assert (advances w w3) as H13 by (eauto using advances_trans).
  assert (shared mu w3) as Hs3 by (by eapply shared_advances).
  pose proof (serves_advances _ _ _ _ Hv H13) as Hv3.
  destruct (re_dirs _ _ (ad_resolved _ _ H13) d dcf Hd) as [h3 Hh3].
  destruct (re_trace _ _ (ad_resolved _ _ H3)) as (tr3 & Ht3 & _).
  eapply (store_child_advances mu w3 d (set_waf (λ _, h3) dcf)); [done|exact Hv3|done| |done|].
  - intros Hne0. rewrite Ht3, Ht2. by apply known_app, Hkn.
  - intros w4 H4. split; [by eapply advances_trans|]. intros Hhe. apply (ad_keep _ _ H4 Hhe).
    apply (ad_keep _ _ H3 Hhe). rewrite Hh2. by apply Hh.
Qed.

(** ** One turn *)

(** The WAF a request may run: a known one, or its server's when the section has
    no rules (or its WAF could not be built). *)
Definition right_waf w (d : nat) (so : option nat) (h : Z) : Prop :=
  h ≠ 0 ∧ known d h (trace w)
  ∨ ∃ s sc, so = Some s ∧ server_confs (cfg w) !! s = Some sc ∧ h = s_waf sc
      ∧ (healthy → policy d = []).

(** What a thread knows where it is. *)
Definition at_ok w (t : thread) : Prop :=
  match th_point t with
  | AtTest => True
  | AtLock | AtChild | AtCache | AtBuild => policy (th_dir t) ≠ []
  | AtUnlock => healthy → handle w (th_dir t) ≠ 0
  | AtChoice => healthy → policy (th_dir t) ≠ [] → handle w (th_dir t) ≠ 0
  | Finished h => right_waf w (th_dir t) (th_server t) h
  end.

Lemma right_waf_advances w w' d so h : advances w w' → right_waf w d so h → right_waf w' d so h.
Proof.
  intros [R _ _] [[Hz Hb]|(s & sc & H1 & H2 & H3)].
  - left. destruct (re_trace _ _ R) as (tr & -> & _). split; [done|by apply known_app].
  - right. exists s, sc. by rewrite (re_confs _ _ R).
Qed.
Lemma at_ok_advances w w' t : advances w w' → at_ok w t → at_ok w' t.
Proof.
  intros H. unfold at_ok. destruct (th_point t); auto.
  - intros Hk Hh. apply (ad_keep _ _ H Hh). auto.
  - intros Hk Hh Hp. apply (ad_keep _ _ H Hh). auto.
  - by apply right_waf_advances.
Qed.

(** How far a thread is from its end. *)
Definition distance (p : point) : nat :=
  match p with
  | AtTest => 7 | AtLock => 6 | AtChild => 5 | AtCache => 4 | AtBuild => 3 | AtUnlock => 2
  | AtChoice => 1 | Finished _ => 0
  end.

(** The mutex after a turn from point [p]. *)
Definition mutex_after (p : point) (mu : option bool) : option bool :=
  match p with AtLock => Some true | AtUnlock => Some false | _ => mu end.

(** What one turn does. *)
Record turned mu w (t t' : thread) w' : Prop := {
  tu_dir : th_dir t' = th_dir t;
  tu_server : th_server t' = th_server t;
  tu_advances : advances w w';
  tu_ok : at_ok w' t';
  tu_mutex : g_waf_build_mutex (wafs w') = mutex_after (th_point t) mu;
  tu_holds : holds_mutex (th_point t')
             = match th_point t with AtLock => true | AtUnlock => false | p => holds_mutex p end;
  tu_closer : (distance (th_point t') < distance (th_point t))%nat }.

Lemma mutex_step mu b w :
  policies w →
  advances w (set_trace (λ t, t ++ [if b : bool then EvLock else EvUnlock])
    (set_wafs (set_g_waf_build_mutex (λ _, mu)) w)).
Proof.
  intros Hp. apply advances_same; [done| |done|done].
  destruct (resolved_refl w). constructor; try done. exists [if b then EvLock else EvUnlock].
  split; [done|]. by destruct b; repeat constructor.
Qed.

Lemma needs_build_wp w d so (Q : bool → world X → Prop) :
  serves w d so →
  (∀ b, (b = true → policy d ≠ []) → (b = false → policy d ≠ [] → handle w d ≠ 0) → Q b w) →
  wp (needs_build d) Q w.
Proof.
  intros Hv HQ. destruct (sv_policy _ _ _ Hv) as (dcf & Hd & Hr & Hf). unfold needs_build.
  act_step. eapply wp_get_dir; [exact Hd|]. rewrite Hf. unfold handle in HQ. rewrite Hd in HQ.
  destruct (bool_decide (waf dcf = 0)) eqn:Ew; simpl.
  - destruct (bool_decide (policy d ≠ [])) eqn:Ep.
    + act_step. eapply wp_get_array; [exact Hr|]. apply wp_ret, HQ; rewrite Ep; [|done].
      by intros _; apply bool_decide_eq_true in Ep.
    + apply wp_ret, HQ; [done|]. apply bool_decide_eq_false in Ep. by intros.
  - apply wp_ret, HQ; [done|]. by apply bool_decide_eq_false in Ew.
Qed.

Lemma chosen_right w d so (Q : Z → world X → Prop) :
  policies w → serves w d so → (healthy → policy d ≠ [] → handle w d ≠ 0) →
  (∀ h, right_waf w d so h → Q h w) → wp (chosen_waf d so) Q w.
Proof.
  intros Hp Hv Hk HQ. destruct (sv_policy _ _ _ Hv) as (dcf & Hd & _).
  destruct (sv_server _ _ _ Hv) as (s & -> & sc & Hsc). unfold chosen_waf.
  act_step. eapply wp_get_dir; [exact Hd|]. unfold handle in Hk. rewrite Hd in Hk. case_goal as Hw.
  - apply wp_ret, HQ. left. split; [done|by apply (po_dirs _ Hp d dcf)].
  - act_step. eapply wp_get_server_conf; [exact Hsc|]. apply wp_ret, HQ. right. exists s, sc.
    split_and!; [done|done|done|]. intros Hh. destruct (policy d) eqn:E; [done|].
    exfalso. apply Hw. by apply Hk.
Qed.

Lemma turn_wp mu w t (Q : thread → world X → Prop) :
  shared mu w → serves w (th_dir t) (th_server t) → at_ok w t →
  (th_point t = AtLock → mu = Some false) → (holds_mutex (th_point t) = true → mu = Some true) →
  ¬ finished t → (∀ t' w', turned mu w t t' w' → Q t' w') → wp (turn t) Q w.
Proof.
  intros Hs Hv Hat Hfree Hheld Hnf HQ. destruct t as [d so p]. unfold turn. simpl in *.
  pose proof (served_buildable _ _ _ _ Hs Hv) as Hb. pose proof (sh_policies _ _ Hs) as Hp.
  pose proof (sh_mutex _ _ Hs) as Hmu.
  destruct p as [| | | | | | |h]; unfold at_ok in Hat; simpl in Hat.
  - do 2 act_step. eapply needs_build_wp; [exact Hv|]. intros b Hb1 Hb2. apply wp_ret, wp_ret, HQ.
    destruct b; constructor; simpl; try done; try lia; [by apply advances_refl|by apply Hb1|by apply advances_refl|].
    intros _. by apply Hb2.
  - specialize (Hfree eq_refl). do 2 act_step. unfold lock. do 2 act_step. rewrite Hmu, Hfree.
    do 3 act_step. apply wp_ret, wp_ret, HQ. constructor; simpl; try done; [|lia].
    by apply (mutex_step _ true).
  - do 2 act_step. eapply wp_mono; [apply wp_and; [by eapply child_step|by apply reuse_child_piece]|].
    intros [] w' (H & _ & Hm). apply wp_ret, wp_ret, HQ. constructor; simpl; try done; lia.
  - do 2 act_step. eapply wp_mono; [apply wp_and; [by eapply cached_step|by apply reuse_cached_piece]|].
    intros [] w' (H & _ & Hm). apply wp_ret, wp_ret, HQ. constructor; simpl; try done; lia.
  - do 2 act_step. eapply wp_mono; [apply wp_and; [by eapply build_step|by apply build_piece]|].
    intros [] w' ([H Hh] & _ & Hm). apply wp_ret, wp_ret, HQ. constructor; simpl; try done; lia.
  - specialize (Hheld eq_refl). do 2 act_step. unfold unlock. do 2 act_step. rewrite Hmu, Hheld.
    do 3 act_step. apply wp_ret, wp_ret, HQ. constructor; simpl; try done; [| |lia].
    + by apply (mutex_step _ false).
    + unfold at_ok, handle in *. simpl. auto.
  - do 2 act_step. eapply chosen_right; [exact Hp|exact Hv|exact Hat|]. intros h Hh.
    apply wp_ret, wp_ret, HQ. constructor; simpl; try done; [by apply advances_refl|lia].
  - destruct Hnf. by exists h.
Qed.

(** ** All threads together *)

(** Is some thread in the critical section? *)
Definition occupied (ts : list thread) : bool := existsb (λ t, holds_mutex (th_point t)) ts.

Lemma occupied_iff ts :
  occupied ts = true ↔ ∃ i t, ts !! i = Some t ∧ holds_mutex (th_point t) = true.
Proof.
  unfold occupied. rewrite existsb_exists. split.
  - intros (t & Hin & Ht). apply list_elem_of_In, list_elem_of_lookup in Hin as [i Hi]. eauto.
  - intros (i & t & Hi & Ht). exists t. split; [|done].
    by apply list_elem_of_In, (list_elem_of_lookup_2 _ i).
Qed.
Lemma occupied_false ts i t : occupied ts = false → ts !! i = Some t → holds_mutex (th_point t) = false.
Proof.
  intros Ho Hi. destruct (holds_mutex (th_point t)) eqn:E; [|done].
  assert (occupied ts = true) by (apply occupied_iff; eauto). congruence.
Qed.

(** One thread at most is in it. *)
Definition exclusive (ts : list thread) : Prop :=
  ∀ i j t u, ts !! i = Some t → ts !! j = Some u →
    holds_mutex (th_point t) = true → holds_mutex (th_point u) = true → i = j.

(** What always holds of the state and the threads. *)
Record system w (ts : list thread) : Prop := {
  sy_shared : shared (Some (occupied ts)) w;
  sy_serves : Forall (λ t, serves w (th_dir t) (th_server t)) ts;
  sy_at : Forall (at_ok w) ts;
  sy_one : exclusive ts }.

(** Who holds the mutex after one thread moved. *)
Lemma occupied_insert ts i t t' :
  ts !! i = Some t → exclusive ts →
  holds_mutex (th_point t')
    = (match th_point t with AtLock => true | AtUnlock => false | p => holds_mutex p end) →
  (th_point t = AtLock → occupied ts = false) →
  Some (occupied (<[i := t']> ts)) = mutex_after (th_point t) (Some (occupied ts))
  ∧ exclusive (<[i := t']> ts).
Proof.
  intros Hi Hone Hh Hfree.
  assert (Hlen : (i < length ts)%nat) by (by eapply lookup_lt_Some).
  assert (Hlook : ∀ j u, <[i := t']> ts !! j = Some u → i = j ∧ u = t' ∨ i ≠ j ∧ ts !! j = Some u).
  { intros j u. destruct (decide (i = j)) as [->|Hne].
    - rewrite list_lookup_insert_eq by done. intros [= <-]. by left.
    - rewrite list_lookup_insert_ne by done. by right. }
  assert (Hothers : ∀ j u, i ≠ j → ts !! j = Some u → holds_mutex (th_point u) = true →
    holds_mutex (th_point t') = true → False).
  { intros j u Hne Hj Hu Ht'. destruct (decide (th_point t = AtLock)) as [E|E].
    - by rewrite (occupied_false _ _ _ (Hfree E) Hj) in Hu.
    - apply Hne, (Hone i j t u); [done..| |done]. rewrite Hh in Ht'. by destruct (th_point t). }
  split.
  - destruct (occupied (<[i := t']> ts)) eqn:Eo.
    + apply occupied_iff in Eo as (j & u & Hj & Hu). apply Hlook in Hj as [(<- & ->)|(Hne & Hj)].
      * rewrite Hh in Hu. destruct (th_point t) eqn:Ep; try done; simpl;
          f_equal; symmetry; apply occupied_iff; exists i, t; by rewrite Ep.
      * assert (occupied ts = true) as Ho by (apply occupied_iff; eauto).
        rewrite Ho. destruct (th_point t) eqn:Ep; try done. exfalso.
        apply Hne, (Hone i j t u); [done..|by rewrite Ep|done].
    + assert (holds_mutex (th_point t') = false) as Ht'.
      { eapply (occupied_false _ i); [exact Eo|]. by apply list_lookup_insert_eq. }
      rewrite Hh in Ht'. destruct (th_point t) eqn:Ep; try done; simpl; f_equal; symmetry;
        apply not_true_is_false; intros (j & u & Hj & Hu)%occupied_iff;
        (destruct (decide (i = j)) as [->|Hne];
          [rewrite Hi in Hj; injection Hj as <-; by rewrite Ep in Hu
          |rewrite (occupied_false _ j u Eo) in Hu; [done|by rewrite list_lookup_insert_ne]]).
  - intros j k u v Hj Hk Hu Hv. apply Hlook in Hj as [(<- & ->)|(Hnj & Hj)], Hk as [(<- & ->)|(Hnk & Hk)].
    + done.
    + by destruct (Hothers k v).
    + by destruct (Hothers j u).
    + by apply (Hone j k u v).
Qed.

(** A turn of any thread that can run. *)
Lemma system_turn w ts i t :
  system w ts → ts !! i = Some t → ¬ blocked w t → ¬ finished t →
  ∃ t' w', turn t w = Some (t', w') ∧ system w' (<[i := t']> ts)
    ∧ resolved w w' ∧ (distance (th_point t') < distance (th_point t))%nat.
Proof.
  intros [Hs Hv Ha Hone] Hi Hnb Hnf.
  pose proof (Forall_lookup_1 _ _ _ _ Hv Hi) as Hvt. pose proof (Forall_lookup_1 _ _ _ _ Ha Hi) as Hat.
  assert (Hfree : th_point t = AtLock → occupied ts = false).
  { intros E. apply not_true_is_false. intros Ho. apply Hnb. split; [done|].
    by rewrite (sh_mutex _ _ Hs), Ho. }
  apply wp_det. eapply (turn_wp _ w t); [exact Hs|exact Hvt|exact Hat| | |exact Hnf|].
  - intros E. by rewrite Hfree.
  - intros E. f_equal. apply occupied_iff. eauto.
  - intros t' w' []. destruct (occupied_insert ts i t t' Hi Hone tu_holds0 Hfree) as [Ho He].
    split; [|split; [apply tu_advances0|done]]. constructor.
    + eapply shared_advances; [exact Hs|done|]. by rewrite tu_mutex0, Ho.
    + apply list.Forall_insert; [|cbv beta; rewrite tu_dir0, tu_server0; by eapply serves_advances; [exact Hvt|]].
      eapply list.Forall_impl; [exact Hv|]. intros u Hu. eapply serves_advances; [exact Hu|done].
    + apply list.Forall_insert; [|done]. eapply list.Forall_impl; [exact Ha|]. intros u. by apply at_ok_advances.
    + done.
Qed.

(** How far all of them are from the end. *)
Definition remaining (ts : list thread) : nat := sum_list_with (λ t, distance (th_point t)) ts.

Lemma remaining_insert ts i t t' :
  ts !! i = Some t → (distance (th_point t') < distance (th_point t))%nat →
  (remaining (<[i := t']> ts) < remaining ts)%nat.
Proof.
  unfold remaining. revert i. induction ts as [|a ts IH]; intros [|i]; simpl; [done..| |].
  - intros [= ->] H. lia.
  - intros Hi H. specialize (IH i Hi H). lia.
Qed.

Lemma system_step w ts w' ts' :
  system w ts → interleave (w, ts) (w', ts') →
  system w' ts' ∧ resolved w w' ∧ (remaining ts' < remaining ts)%nat.
Proof.
  intros Hsys Hstep. inversion Hstep as [v vs i t t1 w1 Hi Hnb Hnf Ht]; subst.
  destruct (system_turn _ _ _ _ Hsys Hi Hnb Hnf) as (t2 & w2 & Ht2 & H2 & Hw & Hd).
  rewrite Ht in Ht2. injection Ht2 as <- <-. split_and!; [done..|]. by eapply remaining_insert.
Qed.
Lemma system_steps s s' :
  rtc interleave s s' → system s.1 s.2 → system s'.1 s'.2 ∧ resolved s.1 s'.1.
Proof.
  induction 1 as [s|[w1 ts1] [w2 ts2] s3 H12 _ IH]; intros H1; [split; [done|apply resolved_refl]|].
  destruct (system_step _ _ _ _ H1 H12) as (H2 & R & _). destruct (IH H2) as [H3 R'].
  split; [done|]. by eapply resolved_trans.
Qed.

Lemma system_nsteps k s s' :
  nsteps interleave k s s' → system s.1 s.2 → (k + remaining s'.2 ≤ remaining s.2)%nat.
Proof.
  induction 1 as [s|k [w1 ts1] [w2 ts2] s3 H12 _ IH]; intros H1; [lia|].
  destruct (system_step _ _ _ _ H1 H12) as (H2 & _ & Hlt). specialize (IH H2). simpl in *. lia.
Qed.

(** As long as one is not finished, one can run. *)
Lemma system_progress w ts :
  system w ts → Forall finished ts ∨ ∃ i t, ts !! i = Some t ∧ ¬ blocked w t ∧ ¬ finished t.
Proof.
  intros [Hs _ _ _]. destruct (occupied ts) eqn:Ho.
  - right. apply occupied_iff in Ho as (i & t & Hi & Ht). exists i, t. split_and!; [done| |].
    + intros [E _]. by rewrite E in Ht.
    + intros [h E]. by rewrite E in Ht.
  - destruct (decide (Forall finished ts)) as [|Hn]; [by left|]. right.
    apply not_Forall_Exists, Exists_exists in Hn as (t & Hin & Ht); [|apply _].
    apply list_elem_of_In, list_elem_of_lookup in Hin as [i Hi]. exists i, t. split_and!; [done| |done].
    intros [_ E]. rewrite (sh_mutex _ _ Hs) in E. done.
Qed.

(** Who the threads serve never changes. *)
Definition served (ts : list thread) : list (nat * option nat) := (λ t, (th_dir t, th_server t)) <$> ts.

Lemma turn_who t t' w w' :
  turn t w = Some (t', w') → th_dir t' = th_dir t ∧ th_server t' = th_server t.
Proof.
  unfold turn, mbind, M_bind. intros H. case_match; [|done]. case_match. by injection H as <- _.
Qed.
Lemma served_steps s s' : rtc interleave s s' → served s'.2 = served s.2.
Proof.
  induction 1 as [|s1 s2 s3 H12 _ IH]; [done|]. rewrite IH. destruct H12 as [w ts i t t' w' Hi _ _ Ht].
  destruct (turn_who _ _ _ _ Ht) as [E1 E2]. unfold served. simpl. rewrite list_fmap_insert, E1, E2.
  apply list_insert_id. by rewrite list_lookup_fmap, Hi.
Qed.

Lemma scheduled_steps order : ∀ s s', scheduled order s = Some s' → rtc interleave s s'.
Proof.
  induction order as [|i order IH]; intros [w ts] s'; simpl; [by intros [= <-]|].
  destruct (ts !! i) as [t|] eqn:Hi; [|done]. simpl.
  destruct (bool_decide (blocked w t)) eqn:Hb; [done|]. destruct (bool_decide (finished t)) eqn:Hf; [done|].
  apply bool_decide_eq_false in Hb, Hf. simpl. destruct (turn t w) as [[t' w']|] eqn:Ht; [|done].
  intros H. eapply rtc_l; [by eapply interleave_turn|]. by apply IH.
Qed.
End threads_facts.

(** ** The start *)
Section arrival.
Context {X : Type} `{!Libcoraza X, !Libc X, !Dynlib X}.
Implicit Types w : world X.

(** Section [d] can be served: its record, its rules and a server record [so]
    exist. *)
Record servable w (d : nat) (so : option nat) : Prop := {
  sb_section : ∃ dcf l, dir_confs (cfg w) !! d = Some dcf ∧ arrays (cfg w) !! rules dcf = Some l
    ∧ has_rules dcf = bool_decide (l ≠ []);
  sb_server : ∃ s, so = Some s ∧ is_Some (server_confs (cfg w) !! s) }.

(** Requests arrive: the library is loaded, the configuration valid, the cache
    sound, the mutex free, and no thread began.  Nothing is asked of the handles
    already stored. *)
Record arriving w (ts : list thread) : Prop := {
  ar_dl : dl_ready w;
  ar_cfg : cfg_ok (cfg w);
  ar_cache : cache_ok w;
  ar_mutex : g_waf_build_mutex (wafs w) = Some false;
  ar_threads : Forall (λ t, servable w (th_dir t) (th_server t) ∧ th_point t = AtTest) ts }.

Lemma servable_serves w ts t : t ∈ ts → servable w (th_dir t) (th_server t) →
  serves w ts w (th_dir t) (th_server t).
Proof.
  intros Ht [(dcf & l & Hd & Hr & Hf) Hs]. constructor; [by exists t| |done]. exists dcf.
  assert (policy w (th_dir t) = l) as -> by (unfold policy, rules_of; rewrite Hd; simpl; by rewrite Hr).
  done.
Qed.

Lemma arriving_system w ts : arriving w ts → system w ts w ts.
Proof.
  intros [Hdl Hcfg Hc Hm Hall]. rewrite list.Forall_forall in Hall.
  assert (Hnone : ∀ i t, ts !! i = Some t → th_point t = AtTest).
  { intros i t Hi. by apply Hall, (list_elem_of_lookup_2 _ i). }
  assert (Ho : occupied ts = false).
  { destruct (occupied ts) eqn:E; [|done]. apply occupied_iff in E as (i & t & Hi & Ht).
    by rewrite (Hnone _ _ Hi) in Ht. }
  constructor.
  - rewrite Ho. constructor; [done|done|apply resolved_refl| |done]. constructor; [done|].
    intros d dcf Hd Hh. exists d. split; [reflexivity|left]. unfold handle. by rewrite Hd.
  - apply list.Forall_forall. intros t Ht. apply servable_serves; [done|]. by apply Hall.
  - apply list.Forall_forall. intros t Ht. unfold at_ok. by rewrite (proj2 (Hall t Ht)).
  - intros i j t u Hi _ Ht. by rewrite (Hnone _ _ Hi) in Ht.
Qed.
End arrival.

(** ** Properties *)
Section properties.
Context {X : Type} `{!Libcoraza X, !Libc X, !Dynlib X}.
Implicit Types w : world X.

(** C9: the build is a critical section.  Whatever number of requests arrive at
    the same time and however their threads interleave, two are never between
    the lock and the unlock together, the mutex is held exactly when one is, and
    a thread that is not waiting for it can always take its next step. *)
Theorem lazy_build_is_exclusive w ts w' ts' :
  arriving w ts → rtc interleave (w, ts) (w', ts') →
  exclusive ts' ∧ g_waf_build_mutex (wafs w') = Some (occupied ts')
  ∧ ∀ i t, ts' !! i = Some t → ¬ blocked w' t → ¬ finished t → is_Some (turn t w').
Proof.
  intros Ha%arriving_system Hr. destruct (system_steps _ _ _ _ Hr Ha) as [Hsys _]. simpl in Hsys.
  split_and!; [apply Hsys|apply Hsys|]. intros i t Hi Hb Hf.
  destruct (system_turn _ _ _ _ _ _ Hsys Hi Hb Hf) as (t' & w1 & E & _). by eexists.
Qed.

(** C10: where the WAF of each request comes from, whichever thread built it.  A
    thread that finished has either a handle of its own family of sections -- those
    merged from its section, or it from them -- that was already stored in one of
    them when the requests arrived, or that was built from exactly the rules, in
    order, of one that serves a request; or it has the WAF of its server, which a
    healthy libcoraza leaves only to sections without rules.  A section outside any
    merge, with no handle yet, is therefore inspected by its own rules. *)
Theorem concurrent_requests_get_their_waf w ts w' ts' i t h :
  arriving w ts → rtc interleave (w, ts) (w', ts') →
  ts' !! i = Some t → th_point t = Finished h →
  ∃ t0 l, ts !! i = Some t0 ∧ rules_of w (th_dir t0) = Some l
    ∧ (h ≠ 0 ∧ (∃ e, family w (th_dir t0) e
           ∧ (handle w e = h
              ∨ ∃ u k, u ∈ ts ∧ th_dir u = e ∧ rules_of w e = Some k ∧ built (trace w') h k))
       ∨ ∃ s sc, th_server t0 = Some s ∧ server_confs (cfg w) !! s = Some sc ∧ h = s_waf sc
           ∧ (healthy → l = [])).
Proof.
  intros Ha Hr Hi Hh. pose proof (served_steps _ _ Hr) as Hw. pose proof (ar_threads _ _ Ha) as Hall.
  destruct (system_steps _ _ _ _ Hr (arriving_system _ _ Ha)) as [Hsys Hres]. simpl in *.
  assert (served ts !! i = Some (th_dir t, th_server t)) as E.
  { rewrite <- Hw. unfold served. by rewrite list_lookup_fmap, Hi. }
  unfold served in E. rewrite list_lookup_fmap in E. destruct (ts !! i) as [t0|] eqn:Hi0; [|done].
  injection E as Ed Es.
  assert (Hrules : ∀ u, u ∈ ts → rules_of w (th_dir u) = Some (policy w (th_dir u))).
  { intros u Hu. rewrite list.Forall_forall in Hall. destruct (Hall u Hu) as [[(dcf & l & Hd & Hl & _) _] _].
    unfold policy, rules_of. rewrite Hd. simpl. by rewrite Hl. }
  pose proof (list_elem_of_lookup_2 _ _ _ Hi0) as Ht0.
  exists t0, (policy w (th_dir t0)). split_and!; [done|by apply Hrules|].
  pose proof (Forall_lookup_1 _ _ _ _ (sy_at _ _ _ _ Hsys) Hi) as Hat. unfold at_ok, right_waf in Hat.
  rewrite Hh, <- Ed, <- Es in Hat.
  destruct Hat as [(Hz & e & He & [H0|[(u & Hu & <-) Hb]])|(s1 & sc1 & E1 & E2 & E3)]; [left..|right].
  - split; [done|]. exists e. auto.
  - split; [done|]. exists (th_dir u). split; [done|right].
    exists u, (policy w (th_dir u)). split_and!; [done|done|by apply Hrules|done].
  - exists s1, sc1. split_and!; [done| |apply E3..]. by rewrite <- (re_confs _ _ Hres).
Qed.

(** C18: no thread waits for ever: [n] requests are served within [7 * n] steps,
    whatever the order of the steps; and when no thread can take a step any more,
    it is because all finished, never because they wait for each other. *)
Theorem lazy_build_terminates w ts :
  arriving w ts →
  (∀ k s, nsteps interleave k (w, ts) s → (k ≤ 7 * length ts)%nat)
  ∧ (∀ s, rtc interleave (w, ts) s → nf interleave s → Forall finished s.2).
Proof.
  intros Ha. pose proof (arriving_system _ _ Ha) as Hsys0. split.
  - intros k s Hk. assert (remaining ts ≤ 7 * length ts)%nat as Hle.
    { clear. unfold remaining. induction ts as [|[d so p] ts IH]; simpl in *; [lia|].
      assert (distance p ≤ 7)%nat by (destruct p; simpl; lia). lia. }
    pose proof (system_nsteps _ _ _ _ _ Hk Hsys0) as H. simpl in H. lia.
  - intros [w' ts'] Hr Hnf. destruct (system_steps _ _ _ _ Hr Hsys0) as [Hsys _]. simpl in *.
    destruct (system_progress _ _ _ _ Hsys) as [|(i & t & Hi & Hb & Hf)]; [done|]. exfalso.
    destruct (system_turn _ _ _ _ _ _ Hsys Hi Hb Hf) as (t' & w1 & E & _). apply Hnf.
    eexists. by eapply interleave_turn.
Qed.

#[local] Arguments turns : simpl never.
Lemma turns_S n t w : turns (S n) t w
  = match turn t w with Some (t', w') => turns n t' w' | None => None end.
Proof. done. Qed.
Ltac next_turn := rewrite turns_S; unfold turn, mbind, M_bind, mret, M_ret; simpl.

(** The function in sequence: the lazy build, then the choice. *)
Definition build_and_choose (d : nat) (so : option nat) : M (world X) thread :=
  lazy_waf d ;; h ← chosen_waf d so; mret (Thread d so (Finished h)).

(** The steps are those of the function: alone, a thread does in its turns
    what the lazy build and the choice of the WAF in [coraza_create_ctx] do in
    sequence, in every world, and is then finished with the same handle. *)
Lemma turns_are_lazy_waf d so w :
  turns 7 (Thread d so AtTest) w = build_and_choose d so w.
Proof.
  assert (Hend : ∀ n h v, turns n (Thread d so (Finished h)) v = Some (Thread d so (Finished h), v)).
  { induction n as [|n IH]; intros h v; [done|]. rewrite turns_S. apply IH. }
  assert (Hchoice : ∀ n v, turns (S n) (Thread d so AtChoice) v
    = (h ← chosen_waf d so; mret (Thread d so (Finished h))) v).
  { intros n v. next_turn.
    destruct (chosen_waf d so v) as [[h v']|]; [apply Hend|done]. }
  next_turn. unfold build_and_choose, lazy_waf, needs_build, when, mbind, M_bind, mret, M_ret.
  destruct (get_dir d w) as [[dcf v]|]; [|done].
  destruct (bool_decide (waf dcf = 0) && has_rules dcf); [|by rewrite Hchoice].
  destruct (get_array (rules dcf) v) as [[l v1]|]; [|done].
  destruct (bool_decide (l ≠ [])); [|by rewrite Hchoice].
  next_turn. destruct (lock v1) as [[[] v2]|]; [|done].
  next_turn. destruct (reuse_child_waf d v2) as [[[] v3]|]; [|done].
  next_turn. destruct (reuse_cached_waf d v3) as [[[] v4]|]; [|done].
  next_turn. destruct (build_and_cache_waf d v4) as [[[] v5]|]; [|done].
  next_turn. destruct (unlock v5) as [[[] v6]|]; [|done]. by rewrite Hchoice.
Qed.
End properties.

(** ** Two requests at once *)
Module Crowd.
(** Two requests of [Sim] in the directory whose WAF is not built. *)
Definition two : list thread := [Thread 0 (Some 0%nat) AtTest; Thread 0 (Some 0%nat) AtTest].

Lemma unbuilt_dirs d dcf :
  dir_confs (cfg unbuilt) !! d = Some dcf → d = 0%nat ∧ dcf = set_waf (λ _, 0) sim_dir.
Proof. simpl. by intros [<- <-]%lookup_singleton_Some. Qed.

Lemma two_arriving : arriving unbuilt two.
Proof.
  constructor; [done| |by split|done|].
  - constructor.
    + intros d dcf [-> ->]%unbuilt_dirs. by eexists.
    + intros d dcf m [-> ->]%unbuilt_dirs. done.
    + intros [|i] sv; simpl; [|done]. intros [= <-]. exists 0%nat. split; [done|by eexists].
  - assert (servable unbuilt 0 (Some 0%nat)) as H.
    { constructor; [by exists (set_waf (λ _, 0) sim_dir), [inline "SecRuleEngine On"]|].
      exists 0%nat. split; [done|by eexists]. }
    do 2 (constructor; [by split|]). constructor.
Qed.

(** The section they are for is alone in its family. *)
Lemma unbuilt_family e : family unbuilt 0%nat e → e = 0%nat.
Proof.
  unfold family. intros H. induction H as [|x y z Hxy _ IH]; [done|].
  destruct Hxy as [(dcf & [_ ->]%unbuilt_dirs & Hm)|(dcf & [_ ->]%unbuilt_dirs & Hm)]; done.
Qed.

(** Where the threads are, the mutex, and the WAFs built. *)
Definition view (s : world script * list thread) : list point * option bool * Z :=
  (th_point <$> s.2, g_waf_build_mutex (wafs s.1), sc_wafs (env s.1)).
End Crowd.

(** The second thread passed the test before the first one took the mutex. *)
Definition contended : option (world script * list thread) := scheduled [0; 1; 0]%nat (unbuilt, Crowd.two).
(** They then both finish: the second one finds the WAF of the first. *)
Definition served_both : option (world script * list thread) :=
  scheduled [0; 1; 0; 0; 0; 0; 0; 0; 1; 1; 1; 1; 1; 1]%nat (unbuilt, Crowd.two).

Example contended_view : Crowd.view <$> contended = Some ([AtChild; AtLock], Some true, 0).
Proof. vm_compute. reflexivity. Qed.
Example served_both_view :
  Crowd.view <$> served_both = Some ([Finished 101; Finished 101], Some false, 1).
Proof. vm_compute. reflexivity. Qed.

Lemma lazy_build_is_exclusive_witness :
  ∃ w' ts', contended = Some (w', ts') ∧ exclusive ts'
    ∧ g_waf_build_mutex (wafs w') = Some (occupied ts')
    ∧ is_Some (turn (Thread 0 (Some 0%nat) AtChild) w').
Proof.
  destruct contended as [[w' ts']|] eqn:E; [|vm_compute in E; discriminate E].
  exists w', ts'.
  destruct (lazy_build_is_exclusive unbuilt Crowd.two w' ts') as (H1 & H2 & H3).
  - exact Crowd.two_arriving.
  - exact (scheduled_steps _ _ _ E).
  - split_and!; [done..|]. vm_compute in E. injection E as <- <-.
    apply (H3 0%nat); [reflexivity|by intros [? _]|by intros [? ?]].
Defined.

Lemma concurrent_requests_get_their_waf_witness :
  ∃ w' ts', served_both = Some (w', ts') ∧ built (trace w') 101 [inline "SecRuleEngine On"].
Proof.
  destruct served_both as [[w' ts']|] eqn:E; [|vm_compute in E; discriminate E].
  exists w', ts'. split; [done|].
  assert (∃ t, ts' !! 1%nat = Some t ∧ th_point t = Finished 101) as (t & Ht & Hp).
  { vm_compute in E. injection E as _ <-. by eexists. }
  destruct (concurrent_requests_get_their_waf unbuilt Crowd.two w' ts' 1 t 101)
    as (t0 & l & H0 & Hl & H).
  - exact Crowd.two_arriving.
  - exact (scheduled_steps _ _ _ E).
  - exact Ht.
  - exact Hp.
  - injection H0 as <-.
    destruct H as [(_ & e & ->%Crowd.unbuilt_family & [H|(u & k & _ & _ & Hk & H)])|(s & sc & [= <-] & Hsc & Hh & _)].
    + discriminate H.
    + vm_compute in Hk. injection Hk as <-. exact H.
    + vm_compute in Hsc. injection Hsc as <-. discriminate Hh.
Defined.

Lemma lazy_build_terminates_witness :
  (∀ k s, nsteps interleave k (unbuilt, Crowd.two) s → (k ≤ 14)%nat)
  ∧ ∀ s, rtc interleave (unbuilt, Crowd.two) s → nf interleave s → Forall finished s.2.
Proof. exact (lazy_build_terminates unbuilt Crowd.two Crowd.two_arriving). Defined.
